(* ===== verification/_CoqProject ===== *)
-Q . S2P
Prelude.v
Kernel.v
Prog.v
Threads.v
Discipline.v
Ownership.v
Modules.v
Interleave.v
Drain.v
CString.v
FileDev.v
Mychar.v
Mydynamic.v
Udev.v
CharDevs.v
Morse.v
Speaker.v
Sbd.v
ProcFs.v
Efi.v
EfiEdge.v
EfiText.v
Irq.v
Sync.v
Exclusion.v
Memory.v
Net.v
Probes.v
Timer.v
Syscalls.v
Misc.v
Imports.v
Refusals.v
Contexts.v
System.v
Wirings.v
Concurrent.v
Aftermath.v
