(* ===== verification/Prelude.v ===== *)
(** * The kernel example modules, verified

    The repository is a collection of small Linux kernel modules (for x86-64,
    kernel 3.10).  Each is a program of a few handlers over its own static
    variables that the kernel calls and that call the kernel.  This library
    models every hand-written module of src/ and proves what its handlers do,
    errors included; where the code does not do what it means to, the theorem
    states what it does.

    ** How a module is modelled

    - A C integer is a [Z]; every conversion that may wrap is written out
      (Prelude: [u8], [s32], [u64], ...; gcc's two's complement, and wrapping
      signed arithmetic under -fno-strict-overflow).  A block of memory is a
      list of bytes, read and written at an offset; an access outside it is
      [None].
    - The static variables of a module are a Record [state] with its initial
      value [statics]; a handler, [my_init] and [my_exit] are programs over it
      (Prog: [prog]), built from reading and writing the variables, calls to the
      kernel, [for_each] and [loop].  A function keeps the name it has in the
      source.  A program stops with a [fault] at an access the C language gives
      no meaning to: outside its object or through NULL, or to a local that was
      never written.
    - The kernel is not in the repository.  It is a parameter [K : kernel] that
      answers each call ([kcall], one constructor per API function) and may take
      the history of all calls into account.  Theorems hold for every [K], or
      for every one with the documented behaviour that a class states
      ([UaccessSpec], [KmallocSpec], [BlkdevSpec], [SemSpec], [JiffiesSpec],
      ...); each class has an instance, on which the theorems are applied.
    - [run K p s h] executes, [wp K p Q s h] is total correctness (the run ends
      without a fault and in [Q]), [faults K p f s h] that it stops at [f].
    - [held L0 h] is the ledger of what the history acquired and did not give
      back ([kmalloc]/[kfree], [register_chrdev_region]/..., by the pairing of
      the API); it is [None] after something was given back that was not held.
    - Handlers that run concurrently are threads of a pool (Threads): a step
      lets one of them do its next kernel call, and an invariant holds in every
      reachable configuration.
    - A rule that says which calls a program may make, and what it may do to its
      variables, is a discipline (Discipline): [obeys D q p post] types the
      program [p] against it, for all kernels at once; [obeys_run] says what an
      obedient run does and [obeys_threads] what obedient threads do together.
    - A module as a component of a running kernel is a [kmodule] (Modules), and
      [Contract] what a well-behaved one promises: a refused load keeps nothing,
      handlers of a loaded module do not fault, the unload gives back what is
      held.  A system is a list of modules and the history they share.
    - There the operations of a module run one at a time.  To interleave them
      call by call (Interleave), a [Wiring] says which kernel calls open and
      close the entries on which the kernel calls the handlers ([wr_gate]), what
      user space answers, and what keeps a module from being unloaded; a call
      that closes the last entry waits for the handlers that run.  A [Component]
      is the proof, in the ownership judgement [own] (Ownership), that load,
      unload and handlers may run at the same time: what is shared, what belongs
      to the load and the unload alone, and what no handler changes (a [view]).
      A [world] is a list of components and their history, and [world_step] one
      kernel call of one thread of one of them.

    ** The files, and what is shown

    - Prelude: machine integers, blocks of memory, C strings, lists.
      Kernel: the API, the ledger, the classes.  Prog: programs, their logic and
      its tactics.  CString: [%d], [%02x] and [sscanf].  FileDev: the abstract
      character device, a bounded sequence of bytes with a position, as the
      interface [FileDriver] of its clients.  Threads: pools of handlers.
      Discipline: the typing judgement.  Ownership: the judgement for programs
      that share the variables of their module and the ledger.  Modules: the
      contract of a module, and that modules that keep it do not disturb each
      other.  Interleave: modules whose loads, handlers and unloads run at the
      same time, and the invariant of all their interleavings.  Drain: from
      every state of them the handlers can finish and the modules be unloaded.
    - System: the fifteen modules that keep the contract (kprobe_test,
      jprobe_test, zap_jprobe, myinterrupt, simple_tasklet, pci_probe_test,
      sysrq_task, module_basic/, periodic_timer, mynet_drv, mydynamic, my_proc),
      each with the proof that it does, and [system_safe], every run of them
      together.  The first twelve keep it on every kernel with the documented
      behaviour ([SystemSpec]) and for all calls; the last three do not check
      that an allocation succeeded, nor all that their callers give them, so
      they keep it where allocations succeed ([Allocates]) and for packets,
      positions and texts that fit.  Wirings: the entries of the same modules,
      and the same restrictions.  Concurrent: they are
      components, so that they are safe in every interleaving
      ([system_interleaved]), and none of their interleavings ends in a deadlock
      ([system_can_unload]).
    - Refusals: ten of the other modules do not survive one refused call: they
      give back what they were not given, or keep what they took
      ([one_refusal_breaks]).  Aftermath: irq_tasklet.c, irq_delayed.c and
      timer_drv.c have runs in which their code runs while they are not loaded
      any more, and components have none ([code_runs_after_unload]).
    - Contexts: the handlers that run in atomic context do not sleep, with the
      exception of kprobe_zap.c in the process it is meant to stop
      ([atomic_handlers_never_sleep], [kprobe_zap_sleeps_forever]), and the
      jprobe handlers leave through [jprobe_return] or [panic].
    - Mychar, Mydynamic, Udev (char_dev/mychar.c, mydynamic.c,
      mydynamic_udev.c): reads, writes and seeks on every branch; sessions of
      the last two refine the device of FileDev; round trips; load and unload.
      mychar.c does not check its range, and mydynamic.c not enough.  CharDevs:
      the last two are equivalent on the minors without a conversion.
    - Morse (io_port/morse_io.c): what is keyed is the Morse code of the letters
      of the text, and it can be decoded again; the divisor of the timer chip;
      the write handler with its copy; load and unload.  Speaker: writers that
      run side by side leave the speaker silent.
    - Sbd (block_dev/sbd.c): the request loop refines an abstract disk, with as
      many turns as there are segments; read after write; the request it never
      finishes; the checks that wrap; load and unload.
    - ProcFs (filesystem/my_proc.c, my_new_proc.c, sig_proc.c, my_sysfs.c,
      debug/task_proc.c): what is written is what is read, through the interface
      [IntNode]; the reads outside the buffer; load and unload.
    - Efi (kprobes/efi_reboot_monitor.c): the two tables of probes are
      registered all or none; the text of a GUID determines the GUID; what the
      handlers print.  EfiText: its text buffers, as programs that obey any
      discipline that allows for them.  EfiEdge: which requests the handler on
      [ioperm] reports; the unload after a load that failed.  Probes
      (kprobes/kprobe_test.c, jprobe_test.c, debug/kprobe_zap.c, zap_jprobe.c):
      load and unload.
    - Irq (irq/irq_delayed.c, irq_tasklet.c, simple_tasklet.c, myinterrupt.c):
      an invariant between the counters of the interrupt handler, the tasklet
      and the work item in every interleaving; which lines are freed; the
      tasklet that is still pending after the unload.  Imports (irq/ *.mod.c):
      the tables of imported symbols that the build left beside these four have
      the symbols their code and their parameters refer to, and no others but
      the two that the compiler and the loader add ([imports_exact]).
    - Sync (synchronization/sema_mod1.c, sema_mod2.c, spindead.c): how often the
      semaphore can be taken; nobody gets past the lock a thread sleeps with.
      Exclusion: loads of sema_mod2.c and opens of the device of sema_mod1.c
      side by side, and how many copies the opens let in at the same time.
    - Memory (memory/kmalloc_rand.c, dedicated_slab.c): the hex dump stays in
      its line and can be read back.  Net (networking/mynet_drv.c): a packet is
      dumped and counted, and what follows its header is looped back.
    - Timer (timer/periodic_timer.c, timer_drv.c): the reports of the periodic
      timer are a period apart; what is left armed.  Syscalls
      (syscalls/mysyscalls.c): opens go through the hook, the table is restored.
      Misc (io_port/gpio_legacy_led.c, pci/, sysrq/, module_basic/): the list
      of devices, of tasks, and loads and unloads.

    ** Bounds and fuel

    Loops over a range are [for_each] or structural.  Three loops are not
    bounded by the code: the request loop of sbd.c, where one more turn than
    there are segments is enough ([sbd_request_serves]) and where no fuel is
    enough for a request that is not of the file system
    ([sbd_request_diverges]); the list of PCI devices, where one more turn than
    there are devices is enough; and the loop of kprobe_zap.c, which no fuel
    ends.  Twenty digits are enough for a number of 64 bits, and sixteen hex
    digits ([dec], [hex]).

    ** What is not modelled

    The Makefiles and the scripts; code for kernels before 2.6.36; the registers
    and reference counts the kernel keeps for a module; the user's address of a
    copy (the bytes that are copied and the number left are); preemption between
    two kernel calls of the same handler, except where the handlers are threads
    (Irq, Speaker, Exclusion, Sync, Concurrent and Aftermath); the lock that the
    block layer holds around [sbd_request].

    ** What could be added

    The reads and writes of one buffer as threads that refine a sequential
    device up to the bytes that were in transit, the timers on several
    processors, and a scheduler that is fair, under which a module that waits
    for its handlers is unloaded in every run and not only in some. *)

From stdpp Require Export base option list list_numbers numbers strings sets gmap.
From Stdlib Require Export ZArith Lia.
From Stdlib Require Ascii.

#[global] Open Scope Z_scope.

(** ** Machine integers

    A C integer is a [Z]; the conversions write the wrap-around out.  [wrapu w]
    is the conversion to an unsigned type of [w] bits and [wraps w] the one to
    a signed type (two's complement, which is what gcc does and what
    [-fno-strict-overflow] gives signed arithmetic). *)

Definition wrapu (w z : Z) : Z := z mod 2 ^ w.
Definition wraps (w z : Z) : Z := (z + 2 ^ (w - 1)) mod 2 ^ w - 2 ^ (w - 1).

Declare Scope c_scope.
Delimit Scope c_scope with c.
Abbreviation u8 := (wrapu 8).
Abbreviation u16 := (wrapu 16).
Abbreviation u32 := (wrapu 32).
Abbreviation u64 := (wrapu 64).
Abbreviation s8 := (wraps 8).
Abbreviation s32 := (wraps 32).
Abbreviation s64 := (wraps 64).

(** A byte of memory is a [Z] between 0 and 255. *)
Abbreviation byte := Z (only parsing).
Abbreviation bytes := (list Z) (only parsing).
Abbreviation byte_ok := (fun b : Z => 0 <= b < 256).
Abbreviation bytes_ok := (Forall (fun b : Z => 0 <= b < 256)).

(** The value of a [char] stored in a byte: [char] is signed on this target. *)
Definition schar (b : byte) : Z := s8 b.

(** The character constant of a C source. *)
Definition chr (a : Ascii.ascii) : Z := Z.of_nat (Ascii.nat_of_ascii a).
Coercion chr : Ascii.ascii >-> Z.
Definition bytes_of_string (s : string) : bytes := chr <$> String.list_ascii_of_string s.

Create HintDb cint.

Lemma wrapu_range w z : 0 <= w -> 0 <= wrapu w z < 2 ^ w.
Proof. intros. apply Z.mod_pos_bound. lia. Qed.

Lemma wraps_range w z : 0 < w -> - 2 ^ (w - 1) <= wraps w z < 2 ^ (w - 1).
Proof.
  intros Hw. unfold wraps.
  assert (2 ^ w = 2 * 2 ^ (w - 1)) as E.
  { rewrite <- Z.pow_succ_r by lia. f_equal. lia. }
  pose proof (Z.mod_pos_bound (z + 2 ^ (w - 1)) (2 ^ w)). lia.
Qed.

Lemma wrapu_small w z : 0 <= z < 2 ^ w -> wrapu w z = z.
Proof. apply Z.mod_small. Qed.

Lemma wraps_small w z : 0 < w -> - 2 ^ (w - 1) <= z < 2 ^ (w - 1) -> wraps w z = z.
Proof.
  intros Hw Hz. unfold wraps.
  assert (2 ^ w = 2 * 2 ^ (w - 1)) as E.
  { rewrite <- Z.pow_succ_r by lia. f_equal. lia. }
  rewrite Z.mod_small by lia. lia.
Qed.

Lemma u8_small z : 0 <= z < 256 -> u8 z = z.
Proof. intros; apply wrapu_small; exact H. Qed.
Lemma u32_small z : 0 <= z < 4294967296 -> u32 z = z.
Proof. intros; apply wrapu_small; exact H. Qed.
Lemma u64_small z : 0 <= z < 18446744073709551616 -> u64 z = z.
Proof. intros; apply wrapu_small; exact H. Qed.
Lemma s8_small z : -128 <= z < 128 -> s8 z = z.
Proof. intros. apply wraps_small; [lia | exact H]. Qed.
Lemma s32_small z : -2147483648 <= z < 2147483648 -> s32 z = z.
Proof. intros. apply wraps_small; [lia | exact H]. Qed.
Lemma s64_small z :
  -9223372036854775808 <= z < 9223372036854775808 -> s64 z = z.
Proof. intros. apply wraps_small; [lia | exact H]. Qed.

(** Out of the range of the type: one wrap in each direction. *)
Lemma u64_neg z : -18446744073709551616 <= z < 0 -> u64 z = z + 18446744073709551616.
Proof.
  intros. unfold wrapu. change (2 ^ 64) with 18446744073709551616.
  symmetry. apply Z.mod_unique with (-1); lia.
Qed.
Lemma s64_big z :
  9223372036854775808 <= z < 27670116110564327424 -> s64 z = z - 18446744073709551616.
Proof.
  intros. unfold wraps. change (2 ^ 64) with 18446744073709551616.
  change (2 ^ (64 - 1)) with 9223372036854775808.
  rewrite <- (Z.mod_unique (z + 9223372036854775808) 18446744073709551616 1
                (z - 9223372036854775808)); lia.
Qed.
Lemma s32_big z : 2147483648 <= z < 6442450944 -> s32 z = z - 4294967296.
Proof.
  intros. unfold wraps. change (2 ^ 32) with 4294967296.
  change (2 ^ (32 - 1)) with 2147483648.
  rewrite <- (Z.mod_unique (z + 2147483648) 4294967296 1 (z - 2147483648)); lia.
Qed.
Lemma s8_big z : 128 <= z < 384 -> s8 z = z - 256.
Proof.
  intros. unfold wraps. change (2 ^ 8) with 256. change (2 ^ (8 - 1)) with 128.
  rewrite <- (Z.mod_unique (z + 128) 256 1 (z - 128)); lia.
Qed.
Lemma u32_neg z : -4294967296 <= z < 0 -> u32 z = z + 4294967296.
Proof.
  intros. unfold wrapu. change (2 ^ 32) with 4294967296.
  symmetry. apply Z.mod_unique with (-1); lia.
Qed.
Lemma s64_of_u64 z :
  -9223372036854775808 <= z < 9223372036854775808 -> s64 (u64 z) = z.
Proof.
  intros. destruct (Z.lt_ge_cases z 0).
  - rewrite u64_neg by lia. rewrite s64_big; lia.
  - rewrite u64_small by lia. apply s64_small. lia.
Qed.
Lemma wrapu_idem w z : wrapu w (wrapu w z) = wrapu w z.
Proof. apply Z.mod_mod_divide, Z.divide_refl. Qed.
Lemma s8_idem z : s8 (s8 z) = s8 z.
Proof. apply s8_small. apply (wraps_range 8 z). lia. Qed.
Lemma s32_range z : -2147483648 <= s32 z < 2147483648.
Proof. apply (wraps_range 32 z). lia. Qed.
Lemma u32_range z : 0 <= u32 z < 4294967296.
Proof. apply (wrapu_range 32 z). lia. Qed.
Lemma u64_range z : 0 <= u64 z < 18446744073709551616.
Proof. apply (wrapu_range 64 z). lia. Qed.

Lemma s64_range z : -9223372036854775808 <= s64 z < 9223372036854775808.
Proof. apply (wraps_range 64 z). lia. Qed.

(** The values of the C types, in the hint database [ctype]. *)
Definition in_int (z : Z) : Prop := -2147483648 <= z < 2147483648.
Definition in_uint (z : Z) : Prop := 0 <= z < 4294967296.
Definition in_long (z : Z) : Prop := -9223372036854775808 <= z < 9223372036854775808.
Definition in_ulong (z : Z) : Prop := 0 <= z < 18446744073709551616.
Lemma s32_int z : in_int (s32 z).
Proof. apply s32_range. Qed.
Lemma u32_uint z : in_uint (u32 z).
Proof. apply u32_range. Qed.
Lemma s64_long z : in_long (s64 z).
Proof. apply s64_range. Qed.
Lemma u64_ulong z : in_ulong (u64 z).
Proof. apply u64_range. Qed.
Create HintDb ctype.
#[export] Hint Resolve s32_int u32_uint s64_long u64_ulong : ctype.

(** [s32] only sees its argument modulo [2 ^ 32]. *)
Lemma s32_mod z k : s32 (z + k * 4294967296) = s32 z.
Proof.
  unfold wraps. change (2 ^ 32) with 4294967296. f_equal.
  replace (z + k * 4294967296 + 2 ^ (32 - 1)) with (z + 2 ^ (32 - 1) + k * 4294967296) by lia.
  apply Z.mod_add. lia.
Qed.

Lemma s32_succ z : s32 (s32 z + 1) = s32 (z + 1).
Proof.
  assert (exists k, s32 z = z + k * 4294967296) as [k ->].
  { unfold wraps. change (2 ^ 32) with 4294967296. set (y := z + 2 ^ (32 - 1)).
    exists (- (y / 4294967296)). pose proof (Z.div_mod y 4294967296). lia. }
  rewrite <- (s32_mod (z + 1) k). f_equal. lia.
Qed.

Lemma s32_of_u64 z : s32 (u64 z) = s32 z.
Proof.
  unfold wrapu. rewrite (Z.mod_eq z (2 ^ 64)) by lia. change (2 ^ 64) with (4294967296 * 4294967296).
  rewrite <- (s32_mod z (- (4294967296 * (z / (4294967296 * 4294967296))))). f_equal. lia.
Qed.

(** A property of a range of numbers checked by evaluation. *)
Lemma seqZ_check (f : Z -> bool) lo n z :
  forallb f (seqZ lo n) = true -> lo <= z < lo + n -> f z = true.
Proof. rewrite forallb_forall. intros H Hz. apply H, list_elem_of_In, elem_of_seqZ. lia. Qed.

Lemma seqZ_last n : 0 <= n -> seqZ 0 (n + 1) = seqZ 0 n ++ [n].
Proof. intros Hn. rewrite seqZ_app by lia. done. Qed.

(** The elements at [a], [a + 1], ... are a segment of the list. *)
Lemma omap_lookup_seqZ {A} (m : list A) a n :
  0 <= n -> omap (fun j => m !! (a + Z.to_nat j)%nat) (seqZ 0 n) = take (Z.to_nat n) (drop a m).
Proof.
  intros Hn. pattern n. apply natlike_ind; [by rewrite take_0| |done].
  clear n Hn. intros n Hn IH. rewrite <- Z.add_1_r, seqZ_last, omap_app, IH by done. simpl.
  rewrite Z2Nat.inj_add, Nat.add_1_r by lia. destruct (m !! (a + Z.to_nat n)%nat) as [x|] eqn:E.
  - by rewrite (take_S_r (drop a m) _ x) by (by rewrite lookup_drop).
  - rewrite app_nil_r. apply lookup_ge_None in E.
    by rewrite !take_ge by (rewrite length_drop; lia).
Qed.

(** Where a loop over [seqZ] is, from what it has done. *)
Lemma seqZ_split n dn i todo :
  seqZ 0 n = dn ++ i :: todo -> i = Z.of_nat (length dn) /\ 0 <= i < n /\ dn = seqZ 0 i.
Proof.
  intros H. assert (seqZ 0 n !! length dn = Some i) as Hi.
  { by rewrite H, lookup_app_r, Nat.sub_diag by lia. }
  apply lookup_seqZ in Hi as [-> Hn]. split_and!; [lia..|].
  apply (f_equal (take (length dn))) in H. rewrite take_app_length in H. rewrite <- H at 1.
  apply list_eq. intros j. destruct (decide (j < length dn)%nat).
  - rewrite lookup_take_lt by lia. transitivity (Some (Z.of_nat j)).
    + apply lookup_seqZ. lia.
    + symmetry. apply lookup_seqZ. lia.
  - rewrite lookup_take_ge by lia. symmetry. apply lookup_seqZ_ge. lia.
Qed.

(** Conversions of conversions. *)
#[export] Hint Rewrite s32_succ s32_of_u64 s8_idem wrapu_idem : cint.
#[export] Hint Resolve s32_range u32_range u64_range : cint.

(** [cint] removes the conversions whose argument is a conversion itself or is
    known to fit. *)
Ltac cint_step :=
  match goal with
  | |- context [wrapu 8 ?z] => rewrite (u8_small z) by lia
  | |- context [wrapu 32 ?z] => rewrite (u32_small z) by lia
  | |- context [wrapu 64 ?z] => rewrite (u64_small z) by lia
  | |- context [wraps 8 ?z] => rewrite (s8_small z) by lia
  | |- context [wraps 32 ?z] => rewrite (s32_small z) by lia
  | |- context [wraps 64 (wrapu 64 ?z)] => rewrite (s64_of_u64 z) by lia
  | |- context [wraps 64 ?z] => rewrite (s64_small z) by lia
  end.
Ltac cint := autorewrite with cint; repeat cint_step.

(** A [loff_t] clamped against an [unsigned long] size: [t < size ? t : size],
    then [t >= 0 ? t : 0].  The comparison is unsigned, so a negative [t] ends
    at [size]. *)
Lemma ulong_clamp size t :
  0 <= size < 9223372036854775808 ->
  -9223372036854775808 <= t < 9223372036854775808 ->
  (let t' := s64 (if u64 t <? size then u64 t else size) in
   if t' >=? 0 then t' else 0) =
  if (0 <=? t) && (t <? size) then t else size.
Proof.
  intros Hs Ht. cbv zeta.
  assert (s64 (if u64 t <? size then u64 t else size) =
          if (0 <=? t) && (t <? size) then t else size) as ->.
  { destruct (Z.leb_spec 0 t); simpl.
    - rewrite u64_small by lia. destruct (t <? size); by cint.
    - rewrite u64_neg by lia. destruct (Z.ltb_spec (t + 18446744073709551616) size); [lia|].
      by cint. }
  rewrite Z.geb_leb.
  destruct (Z.leb_spec 0 t), (Z.ltb_spec t size); simpl;
    match goal with |- context [0 <=? ?x] => destruct (Z.leb_spec 0 x) end; lia.
Qed.

(** Case analysis on the boolean comparisons of the code. *)
Ltac zcase :=
  match goal with
  | |- context [?a <? ?b] => destruct (Z.ltb_spec a b)
  | |- context [?a <=? ?b] => destruct (Z.leb_spec a b)
  | |- context [?a =? ?b] => destruct (Z.eqb_spec a b)
  end.
Ltac zcases := repeat (zcase; simpl; try lia).

Ltac zbool :=
  repeat match goal with
  | H : (_ && _)%bool = true |- _ => apply andb_prop in H as [? ?]
  | H : (_ <? _) = true |- _ => apply Z.ltb_lt in H
  | H : (_ <? _) = false |- _ => apply Z.ltb_ge in H
  | H : (_ <=? _) = true |- _ => apply Z.leb_le in H
  | H : (_ <=? _) = false |- _ => apply Z.leb_gt in H
  | H : (_ =? _) = true |- _ => apply Z.eqb_eq in H
  | H : (_ =? _) = false |- _ => apply Z.eqb_neq in H
  end.

(** ** Memory blocks

    A block of memory the code owns (a [kmalloc]ed buffer, a static array, a
    local one) is the list of its bytes; an access outside it has no value. *)

Abbreviation zlen l := (Z.of_nat (length l)).

Section mem.
Context {A : Type}.
Implicit Types (m d : list A) (off n : Z).

Definition in_block m off n : bool :=
  (n =? 0) || (0 <=? off) && (0 <=? n) && (off + n <=? zlen m).

(** The [n] elements at offset [off]. *)
Definition load m off n : option (list A) :=
  if in_block m off n then Some (take (Z.to_nat n) (drop (Z.to_nat off) m)) else None.

(** [m] with the elements of [d] written at offset [off]. *)
Definition store m off d : option (list A) :=
  if in_block m off (zlen d)
  then Some (take (Z.to_nat off) m ++ d ++ drop (Z.to_nat off + length d) m)
  else None.

Lemma in_block_true m off n :
  in_block m off n = true <-> n = 0 \/ 0 <= off /\ 0 <= n /\ off + n <= zlen m.
Proof. unfold in_block. rewrite orb_true_iff, !andb_true_iff, !Z.leb_le, Z.eqb_eq. tauto. Qed.

Lemma load_ok m off n :
  0 <= off -> 0 <= n -> off + n <= zlen m ->
  load m off n = Some (take (Z.to_nat n) (drop (Z.to_nat off) m)).
Proof.
  intros. unfold load. rewrite (proj2 (in_block_true m off n)); [done|by right].
Qed.

Lemma load_none m off n :
  n <> 0 -> ~ (0 <= off /\ 0 <= n /\ off + n <= zlen m) -> load m off n = None.
Proof.
  intros Hn H. unfold load. destruct (in_block m off n) eqn:E; [|done].
  by apply in_block_true in E as [?|?].
Qed.

Lemma load_is_some m off n :
  is_Some (load m off n) <-> n = 0 \/ 0 <= off /\ 0 <= n /\ off + n <= zlen m.
Proof.
  rewrite <- in_block_true. unfold load, is_Some.
  destruct (in_block m off n); naive_solver.
Qed.

Lemma load_length m off n d : load m off n = Some d -> zlen d = n.
Proof.
  unfold load. destruct (in_block m off n) eqn:E; intros [=<-].
  apply in_block_true in E. rewrite length_take, length_drop. lia.
Qed.

(** No byte of an empty range is accessed, wherever it lies. *)
Lemma load_nil m off : load m off 0 = Some [].
Proof. done. Qed.
Lemma store_nil m off : store m off [] = Some m.
Proof. unfold store, in_block. simpl. by rewrite Nat.add_0_r, take_drop. Qed.
Lemma store_cases m off d m' :
  store m off d = Some m' -> d = [] /\ m' = m \/ 0 <= off /\ off + zlen d <= zlen m.
Proof.
  destruct d as [|x d]; [rewrite store_nil; intros [=<-]; by left|]. unfold store.
  destruct (in_block m off _) eqn:E; [|done]. intros _. right.
  apply in_block_true in E as [E|E]; [done|lia].
Qed.

Lemma load_fits m off n :
  0 <= off -> n = 0 \/ 0 <= n /\ off + n <= zlen m ->
  load m off n = Some (take (Z.to_nat n) (drop (Z.to_nat off) m)).
Proof. intros Hoff [->|[? ?]]; [done|]. by apply load_ok. Qed.

Lemma store_ok m off d :
  0 <= off -> off + zlen d <= zlen m ->
  store m off d =
    Some (take (Z.to_nat off) m ++ d ++ drop (Z.to_nat off + length d) m).
Proof.
  intros. unfold store. rewrite (proj2 (in_block_true m off _)); [done|right; lia].
Qed.

Lemma store_none m off d :
  zlen d <> 0 -> ~ (0 <= off /\ off + zlen d <= zlen m) -> store m off d = None.
Proof.
  intros Hd H. destruct (store m off d) as [m'|] eqn:E; [|done].
  by apply store_cases in E as [[-> _]|?].
Qed.

Lemma store_length m off d m' : store m off d = Some m' -> length m' = length m.
Proof.
  intros Hs. destruct (store_cases _ _ _ _ Hs) as [[_ ->]|[? ?]]; [done|].
  rewrite store_ok in Hs by lia. injection Hs as <-. rewrite !length_app, length_take, length_drop. lia.
Qed.

(** What was just stored is what is loaded back. *)
Lemma load_store m off d m' :
  store m off d = Some m' -> load m' off (zlen d) = Some d.
Proof.
  intros Hs. pose proof (store_length _ _ _ _ Hs) as Hl.
  destruct (store_cases _ _ _ _ Hs) as [[-> _]|[? ?]]; [done|].
  rewrite store_ok in Hs by lia. simplify_eq. rewrite load_ok by lia. f_equal.
  rewrite drop_app_le by (rewrite length_take; lia).
  rewrite drop_ge by (rewrite length_take; lia). simpl.
  rewrite Nat2Z.id. apply take_app_length.
Qed.

(** A store leaves the rest of the block alone. *)
Lemma store_lookup m off d m' i :
  store m off d = Some m' ->
  m' !! i = if decide (Z.to_nat off <= i < Z.to_nat off + length d)%nat
            then d !! (i - Z.to_nat off)%nat else m !! i.
Proof.
  intros Hs. destruct (store_cases _ _ _ _ Hs) as [[-> ->]|[? ?]].
  { rewrite decide_False by (simpl; lia). done. }
  rewrite store_ok in Hs by lia. injection Hs as <-.
  assert (length (take (Z.to_nat off) m) = Z.to_nat off) as Hl.
  { rewrite length_take. lia. }
  case_decide.
  - rewrite lookup_app_r by lia. rewrite lookup_app_l by lia. by rewrite Hl.
  - destruct (decide (i < Z.to_nat off)%nat).
    + rewrite lookup_app_l by lia. by rewrite lookup_take_lt by lia.
    + rewrite lookup_app_r by lia. rewrite lookup_app_r by lia.
      rewrite lookup_drop. f_equal. lia.
Qed.

(** A store that replaces the middle of a block. *)
Lemma store_mid m old d rest off :
  off = zlen m -> length old = length d ->
  store (m ++ old ++ rest) off d = Some (m ++ d ++ rest).
Proof.
  intros -> Hl. rewrite store_ok by (rewrite ?length_app; lia). f_equal.
  rewrite Nat2Z.id, take_app_length. do 2 f_equal.
  by rewrite <- Hl, <- length_app, app_assoc, drop_app_length.
Qed.

(** [m[i]] and [m[i] = x]. *)
Definition load1 m (i : Z) : option A := if 0 <=? i then m !! Z.to_nat i else None.
Definition store1 m (i : Z) (x : A) : option (list A) :=
  if (0 <=? i) && (i <? zlen m) then Some (<[Z.to_nat i := x]> m) else None.

Lemma load1_ok m i : 0 <= i < zlen m -> exists x, load1 m i = Some x /\ m !! Z.to_nat i = Some x.
Proof.
  intros Hi. unfold load1. destruct (Z.leb_spec 0 i); [|lia].
  destruct (lookup_lt_is_Some_2 m (Z.to_nat i)) as [x Hx]; [lia|]. eauto.
Qed.

Lemma store1_ok m i x : 0 <= i < zlen m -> store1 m i x = Some (<[Z.to_nat i := x]> m).
Proof.
  intros Hi. unfold store1.
  destruct (Z.leb_spec 0 i), (Z.ltb_spec i (zlen m)); simpl; (done || lia).
Qed.

Lemma store1_none m i x : ~ (0 <= i < zlen m) -> store1 m i x = None.
Proof.
  intros Hi. unfold store1.
  destruct (Z.leb_spec 0 i), (Z.ltb_spec i (zlen m)); simpl; (done || lia).
Qed.

Lemma store1_length m i x m' : store1 m i x = Some m' -> length m' = length m.
Proof.
  unfold store1. destruct (_ && _); intros [=<-]. apply length_insert.
Qed.

(** What holds of every element goes on to do so. *)
Lemma load_Forall (P : A -> Prop) m off n d : load m off n = Some d -> Forall P m -> Forall P d.
Proof.
  unfold load. destruct (in_block _ _ _); intros [=<-] H. by apply Forall_take, Forall_drop.
Qed.
Lemma store_Forall (P : A -> Prop) m off d m' :
  store m off d = Some m' -> Forall P m -> Forall P d -> Forall P m'.
Proof.
  unfold store. destruct (in_block _ _ _); intros [=<-] H Hd. rewrite !Forall_app.
  split_and!; [by apply Forall_take|done|by apply Forall_drop].
Qed.
Lemma load1_Forall (P : A -> Prop) m i x : load1 m i = Some x -> Forall P m -> P x.
Proof. unfold load1. destruct (0 <=? i); [|done]. intros Hl H. by eapply Forall_lookup_1. Qed.
Lemma store1_Forall (P : A -> Prop) m i x m' :
  store1 m i x = Some m' -> Forall P m -> P x -> Forall P m'.
Proof. unfold store1. destruct (_ && _); intros [=<-] H Hx. by apply Forall_insert. Qed.

(** [f] applied in place to the [n] elements at offset [off]. *)
Definition map_range (f : A -> A) (off n : Z) m : list A :=
  imap (fun i x => if (off <=? Z.of_nat i) && (Z.of_nat i <? off + n) then f x else x) m.

Lemma map_range_length f off n m : length (map_range f off n m) = length m.
Proof. apply length_imap. Qed.

Lemma map_range_lookup f off n m i :
  map_range f off n m !! i =
    (if (off <=? Z.of_nat i) && (Z.of_nat i <? off + n) then f else id) <$> m !! i.
Proof.
  unfold map_range. rewrite list_lookup_imap. destruct (m !! i); simpl; [|done].
  by destruct (_ && _).
Qed.

Lemma map_range_0 f off m : map_range f off 0 m = m.
Proof.
  apply list_eq. intros i. rewrite map_range_lookup.
  destruct (Z.leb_spec off (Z.of_nat i)), (Z.ltb_spec (Z.of_nat i) (off + 0));
    simpl; try lia; by destruct (m !! i).
Qed.

Lemma map_range_id off n m : map_range id off n m = m.
Proof.
  apply list_eq. intros i. rewrite map_range_lookup.
  destruct (_ && _), (m !! i); done.
Qed.

Lemma load_map_range f off n m d :
  load m off n = Some d -> load (map_range f off n m) off n = Some (f <$> d).
Proof.
  unfold load. destruct (in_block m off n) eqn:E; [|done]. intros [=<-].
  unfold in_block in *. rewrite map_range_length, E. f_equal. apply list_eq. intros i.
  apply in_block_true in E. rewrite list_lookup_fmap. destruct (decide (i < Z.to_nat n)%nat).
  - rewrite !lookup_take_lt, !lookup_drop, map_range_lookup by lia.
    zcases; try done; by destruct (m !! _).
  - by rewrite !lookup_take_ge by lia.
Qed.

(** One more turn of the loop that applies [f] in place. *)
Lemma map_range_succ f off n m x :
  0 <= off -> 0 <= n -> m !! Z.to_nat (off + n) = Some x ->
  <[Z.to_nat (off + n) := f x]> (map_range f off n m) = map_range f off (n + 1) m.
Proof.
  intros Ho Hn Hx. apply list_eq. intros i.
  destruct (decide (i = Z.to_nat (off + n))) as [->|Hi].
  - rewrite list_lookup_insert_eq by
      (rewrite map_range_length; by apply lookup_lt_Some in Hx).
    rewrite map_range_lookup, Hx. simpl. zcases; done.
  - rewrite list_lookup_insert_ne by done. rewrite !map_range_lookup.
    zcases; done.
Qed.
End mem.

(** The C string at the start of a block: the bytes before the first NUL, when
    there is one.  Without a terminator the string functions run off the block. *)
Fixpoint cstr (m : bytes) : option bytes :=
  match m with
  | [] => None
  | b :: m' => if b =? 0 then Some [] else cons b <$> cstr m'
  end.

Lemma cstr_app (s m : bytes) :
  Forall (fun b => b <> 0) s -> cstr (s ++ 0 :: m) = Some s.
Proof.
  induction 1 as [|b s Hb _ IH]; simpl; [done|].
  rewrite IH. destruct (Z.eqb_spec b 0); [lia|done].
Qed.

Lemma cstr_none (s : bytes) : Forall (fun b => b <> 0) s -> cstr s = None.
Proof.
  induction 1 as [|b s Hb _ IH]; simpl; [done|].
  rewrite IH. destruct (Z.eqb_spec b 0); [lia|done].
Qed.

(** ** Lists *)

(** The list without the first occurrence of [x]; [None] when there is none. *)
Fixpoint remove_first `{EqDecision A} (x : A) (l : list A) : option (list A) :=
  match l with
  | [] => None
  | y :: l' => if decide (x = y) then Some l' else cons y <$> remove_first x l'
  end.

Lemma remove_first_head `{EqDecision A} (x : A) l : remove_first x (x :: l) = Some l.
Proof. simpl. by rewrite decide_True. Qed.

Lemma remove_first_Permutation `{EqDecision A} (x : A) l l' :
  remove_first x l = Some l' -> l ≡ₚ x :: l'.
Proof.
  revert l'. induction l as [|y l IH]; intros l' H; simpl in H; [done|].
  destruct (decide (x = y)) as [->|]; [by simplify_eq|].
  destruct (remove_first x l) as [l0|] eqn:E; simplify_eq/=.
  rewrite (IH l0) by done. constructor.
Qed.

Lemma remove_first_in `{EqDecision A} (x : A) l :
  is_Some (remove_first x l) <-> x ∈ l.
Proof.
  induction l as [|y l IH]; simpl.
  - split; [intros [? [=]]|by intros ?%elem_of_nil].
  - rewrite elem_of_cons. destruct (decide (x = y)); [naive_solver|].
    rewrite fmap_is_Some, IH. naive_solver.
Qed.
