(* ===== verification/Kernel.v ===== *)
(** * The kernel API the modules call

    The code of the kernel is not in the repository, so it is a parameter: a
    [kernel] answers each API call, and may take everything that happened
    before into account.  [kcall] has one constructor per API function or
    kernel variable the modules use, typed by the answer.  The classes at the
    end state the documented behaviour that some theorems rely on; the rest of
    the development holds for every answer the kernel may give.

    [held] is the ledger of what a history of calls has acquired and not given
    back, by the documented pairing of the API ([kmalloc]/[kfree],
    [register_blkdev]/[unregister_blkdev], ...). *)

From S2P Require Import Prelude.
From Stdlib Require Permutation.

(** A device number; [MKDEV] is the constructor, [MAJOR] and [MINOR] the
    projections, and its packing into 32 bits is left to the kernel. *)
Record dev_t := MKDEV { MAJOR : Z; MINOR : Z }.
#[export] Instance dev_t_eq_dec : EqDecision dev_t.
Proof. solve_decision. Defined.

(** What an allocator returns: an address, 0 for NULL, and the bytes of the
    block as they are found there. *)
Record kblock := KBlock { kb_addr : Z; kb_bytes : bytes }.

(** The arguments of a [printk]. *)
Inductive parg := PInt (z : Z) | PStr (s : bytes) | PName (s : string).
Coercion PInt : Z >-> parg.
Coercion PName : string >-> parg.

(** What a probe is registered on: [kp.symbol_name] or [kp.addr]. *)
Inductive probe_at := AtSymbol (name : string) | AtAddr (addr : Z).
#[export] Instance probe_at_eq_dec : EqDecision probe_at.
Proof. solve_decision. Defined.

(** A request of the block layer: [cmd_type == REQ_TYPE_FS], [blk_rq_pos],
    [blk_rq_cur_sectors], [rq_data_dir] and [req->buffer]. *)
Record request := Request {
  rq_fs : bool; rq_pos : Z; rq_cur_sectors : Z; rq_write : bool; rq_buffer : bytes }.

Inductive kcall : Set -> Set :=
(* printing, time, the current task *)
| Printk (fmt : string) (args : list parg) : kcall unit
| Dump_stack : kcall unit
| Panic (msg : string) : kcall unit
| Jprobe_return : kcall unit
| Jiffies : kcall Z
| Current_pid : kcall Z
| Set_current_state (st : Z) : kcall unit
| Schedule : kcall unit
| Schedule_timeout (j : Z) : kcall Z
| Mdelay (ms : Z) : kcall unit
(* memory *)
| Kmalloc (size : Z) : kcall kblock
| Kfree (p : Z) : kcall unit
| Vmalloc (size : Z) : kcall kblock
| Vfree (p : Z) : kcall unit
| Copy_to_user (d : bytes) : kcall Z
| Copy_from_user (n : Z) : kcall (bytes * Z)
| Page_of (addr : Z) : kcall (Z * Z)   (* virt_to_page and the flags of the page *)
| Kmem_buckets_create (name : string) : kcall Z
| Kmem_buckets_alloc (b size : Z) : kcall kblock
(* character devices *)
| Register_chrdev_region (first : dev_t) (count : Z) (name : string) : kcall Z
| Alloc_chrdev_region (baseminor count : Z) (name : string) : kcall (Z * dev_t)
| Unregister_chrdev_region (first : dev_t) (count : Z) : kcall unit
| Register_chrdev (major : Z) (name : string) : kcall Z
| Unregister_chrdev (major : Z) (name : string) : kcall unit
| Cdev_alloc : kcall Z
| Cdev_init (p : Z) : kcall unit
| Cdev_add (p : Z) (first : dev_t) (count : Z) : kcall Z
| Cdev_del (p : Z) : kcall unit
| Class_create (name : string) : kcall Z
| Class_destroy (c : Z) : kcall unit
| Device_create (c : Z) (d : dev_t) (name : string) (i : Z) : kcall Z
| Device_destroy (c : Z) (d : dev_t) : kcall unit
| Module_refcount : kcall Z
(* proc and sysfs *)
| Proc_mkdir (name : string) : kcall Z
| Proc_create (name : string) (parent data : Z) : kcall Z
| Remove_proc_entry (name : string) (parent : Z) : kcall unit
| Kobject_create_and_add (name : string) : kcall Z
| Sysfs_create_file (kobj : Z) (attr : string) : kcall Z
| Kobject_put (kobj : Z) : kcall unit
(* tasks and signals *)
| Find_task (pid : Z) : kcall Z
| Current_task : kcall Z
| Send_sig (sig task : Z) : kcall Z
| Pid_allocated (task : Z) : kcall Z
| Set_pid_allocated (task v : Z) : kcall unit
(* block devices *)
| Blk_init_queue : kcall Z
| Blk_queue_logical_block_size (q size : Z) : kcall unit
| Register_blkdev (major : Z) (name : string) : kcall Z
| Unregister_blkdev (major : Z) (name : string) : kcall unit
| Alloc_disk (minors : Z) : kcall Z
| Set_capacity (gd sectors : Z) : kcall unit
| Add_disk (gd major first_minor : Z) (name : string) (queue : Z) : kcall unit
| Del_gendisk (gd : Z) : kcall unit
| Put_disk (gd : Z) : kcall unit
| Blk_cleanup_queue (q : Z) : kcall unit
| Blk_fetch_request (q : Z) : kcall (option request)
| Blk_end_request_all (err : Z) : kcall unit
| Blk_end_request_cur (err : Z) (d : bytes) : kcall (option request)
(* ports and GPIO *)
| Inb (port : Z) : kcall Z
| Outb (v port : Z) : kcall unit
| Gpio_is_valid (n : Z) : kcall bool
| Gpio_request (n : Z) (label : string) : kcall Z
| Gpio_direction_output (n v : Z) : kcall Z
| Gpio_export (n : Z) : kcall Z
| Gpio_set_value (n v : Z) : kcall unit
| Gpio_unexport (n : Z) : kcall unit
| Gpio_free (n : Z) : kcall unit
(* probes *)
| Kallsyms_lookup_name (name : string) : kcall Z
| Register_kprobe (at_ : probe_at) : kcall (Z * Z)
| Unregister_kprobe (at_ : probe_at) : kcall unit
| Register_jprobe (at_ : probe_at) : kcall (Z * Z)
| Unregister_jprobe (at_ : probe_at) : kcall unit
(* interrupts *)
| Request_irq (irq : Z) (name : string) (cookie : Z) : kcall Z
| Free_irq (irq cookie : Z) : kcall unit
| Tasklet_schedule : kcall unit
| Tasklet_kill : kcall unit
| Create_workqueue (name : string) : kcall Z
| Queue_work (wq : Z) : kcall bool
| Destroy_workqueue (wq : Z) : kcall unit
(* semaphores *)
| Sema_init (n : Z) : kcall unit
| Sem_count : kcall Z
| Down_interruptible : kcall Z
| Down_trylock : kcall Z
| Up : kcall unit
(* spin locks and kernel threads *)
| Spin_lock : kcall unit
| Spin_unlock : kcall unit
| Cpu_to_node (cpu : Z) : kcall Z
| Kthread_create_on_node (node : Z) (name : bytes) (cpu : Z) : kcall Z
| Kthread_bind (task cpu : Z) : kcall unit
| Task_flags (task : Z) : kcall Z
| Warn_on : kcall unit
| Set_kthread_cpu (task cpu : Z) : kcall unit   (* a store to the thread's struct kthread *)
| Wake_up_process (task : Z) : kcall Z
(* timers *)
| Init_timer : kcall unit
| Add_timer (expires data : Z) : kcall unit
| Mod_timer (expires : Z) : kcall Z
| Del_timer_sync : kcall Z
| Timer_expires : kcall unit   (* no call of the code: the time until the armed timer expires goes by *)
(* PCI, SysRq and system calls *)
| Pci_get_device (from : Z) : kcall Z
| Pci_read_config_word (dev off : Z) : kcall Z
| Pci_read_config_byte (dev off : Z) : kcall Z
| Pci_register_driver (name : string) : kcall Z
| Pci_unregister_driver (name : string) : kcall unit
| Register_sysrq_key (key : Z) : kcall Z
| Unregister_sysrq_key (key : Z) : kcall Z
| Task_list : kcall (list (bytes * Z * Z))   (* comm, pid and state of each process *)
| Current_comm : kcall bytes
| Read_cr0 : kcall Z
| Write_cr0 (v : Z) : kcall unit
| Set_pages_rw (page n : Z) : kcall unit
| Read_syscall (table n : Z) : kcall Z         (* sys_call_table[n] *)
| Write_syscall (table n f : Z) : kcall unit
| Call_open (f filename flags mode : Z) : kcall Z
(* network *)
| Alloc_netdev (name : string) : kcall Z
| Register_netdev (dev : Z) : kcall Z
| Unregister_netdev (dev : Z) : kcall unit
| Free_netdev (dev : Z) : kcall unit
| Netif_start_queue (dev : Z) : kcall unit
| Netif_stop_queue (dev : Z) : kcall unit
| Ether_setup (dev : Z) : kcall Z   (* the flags it leaves in the device *)
| Eth_type_trans (skb : bytes) (len : Z) : kcall (Z * Z)   (* the protocol, and how far data is moved on *)
| Netif_rx (skb : bytes) (len protocol : Z) : kcall Z.

(** One call and its answer; a history is the list of them, newest first. *)
Record event := Ev { ev_type : Set; ev_call : kcall ev_type; ev_ret : ev_type }.
Arguments Ev {_} _ _.
Abbreviation history := (list event).

Definition kernel := forall (R : Set), history -> kcall R -> R.

(** ** The ledger *)

Inductive resource :=
| RMem (p : Z) | RVmem (p : Z)
| RChrdevRegion (first : dev_t) (count : Z) | RChrdev (major : Z) (name : string)
| RCdev (p : Z) | RClass (c : Z) | RDevice (c : Z) (d : dev_t)
| RProc (name : string) (parent : Z) | RKobject (p : Z)
| RQueue (q : Z) | RBlkdev (major : Z) (name : string) | RDisk (gd : Z) | RLiveDisk (gd : Z)
| RGpio (n : Z) | RGpioExport (n : Z)
| RKprobe (at_ : probe_at) | RJprobe (at_ : probe_at)
| RIrq (irq cookie : Z) | RWorkqueue (wq : Z)
| RNetdev (dev : Z) | RNetReg (dev : Z)
| RPciDriver (name : string) | RSysrq (key : Z).

#[export] Instance resource_eq_dec : EqDecision resource.
Proof. solve_decision. Defined.

(** The resource a pointer-returning call acquires: none when it is NULL. *)
Definition unless_null (p : Z) (r : resource) : list resource :=
  if p =? 0 then [] else [r].
(** The one of a call that returns a pointer or an [ERR_PTR], which is its
    negative error number. *)
Definition unless_err (p : Z) (r : resource) : list resource :=
  if p <? 0 then [] else [r].
(** The one of a call that returns 0 on success. *)
Definition when_zero (ret : Z) (r : resource) : list resource :=
  if ret =? 0 then [r] else [].

(** A dynamic [register_blkdev] returns the major it chose, one of a given
    major returns 0; a negative value is an error. *)
Definition blkdev_acquired (major ret : Z) (name : string) : list resource :=
  if ret <? 0 then []
  else [RBlkdev (if major =? 0 then ret else major) name].

Definition acquires (e : event) : list resource :=
  match e with
  | Ev c r =>
    match c in kcall R return R -> list resource with
    | Kmalloc _ => fun b => unless_null (kb_addr b) (RMem (kb_addr b))
    | Vmalloc _ => fun b => unless_null (kb_addr b) (RVmem (kb_addr b))
    | Kmem_buckets_alloc _ _ => fun b => unless_null (kb_addr b) (RMem (kb_addr b))
    | Register_chrdev_region d n _ => fun ret => when_zero ret (RChrdevRegion d n)
    | Alloc_chrdev_region _ n _ => fun r => when_zero r.1 (RChrdevRegion r.2 n)
    | Register_chrdev major name => fun ret =>
        if ret <? 0 then [] else [RChrdev (if major =? 0 then ret else major) name]
    | Cdev_alloc => fun p => unless_null p (RCdev p)
    | Class_create _ => fun p => unless_err p (RClass p)
    | Device_create c d _ _ => fun p => unless_err p (RDevice c d)
    | Proc_mkdir name => fun p => unless_null p (RProc name 0)
    | Proc_create name parent _ => fun p => unless_null p (RProc name parent)
    | Kobject_create_and_add _ => fun p => unless_null p (RKobject p)
    | Blk_init_queue => fun q => unless_null q (RQueue q)
    | Register_blkdev major name => fun ret => blkdev_acquired major ret name
    | Alloc_disk _ => fun p => unless_null p (RDisk p)
    | Add_disk gd _ _ _ _ => fun _ => [RLiveDisk gd]
    | Gpio_request n _ => fun ret => when_zero ret (RGpio n)
    | Gpio_export n => fun ret => when_zero ret (RGpioExport n)
    | Register_kprobe a => fun r => when_zero r.1 (RKprobe a)
    | Register_jprobe a => fun r => when_zero r.1 (RJprobe a)
    | Request_irq irq _ cookie => fun ret => when_zero ret (RIrq irq cookie)
    | Create_workqueue _ => fun p => unless_null p (RWorkqueue p)
    | Alloc_netdev _ => fun p => unless_null p (RNetdev p)
    | Register_netdev p => fun ret => when_zero ret (RNetReg p)
    | Pci_register_driver name => fun ret => when_zero ret (RPciDriver name)
    | Register_sysrq_key key => fun ret => when_zero ret (RSysrq key)
    | _ => fun _ => []
    end r
  end.

Definition releases (e : event) : list resource :=
  match e with
  | Ev c r =>
    match c in kcall R return R -> list resource with
    | Kfree p => fun _ => unless_null p (RMem p)
    | Vfree p => fun _ => unless_null p (RVmem p)
    | Unregister_chrdev_region d n => fun _ => [RChrdevRegion d n]
    | Unregister_chrdev major name => fun _ => [RChrdev major name]
    | Cdev_del p => fun _ => [RCdev p]
    | Class_destroy c => fun _ => [RClass c]
    | Device_destroy c d => fun _ => [RDevice c d]
    | Remove_proc_entry name parent => fun _ => [RProc name parent]
    | Kobject_put p => fun _ => [RKobject p]
    | Blk_cleanup_queue q => fun _ => [RQueue q]
    | Unregister_blkdev major name => fun _ => [RBlkdev major name]
    | Put_disk gd => fun _ => [RDisk gd]
    | Del_gendisk gd => fun _ => [RLiveDisk gd]
    | Gpio_free n => fun _ => [RGpio n]
    | Gpio_unexport n => fun _ => [RGpioExport n]
    | Unregister_kprobe a => fun _ => [RKprobe a]
    | Unregister_jprobe a => fun _ => [RJprobe a]
    | Free_irq irq cookie => fun _ => [RIrq irq cookie]
    | Destroy_workqueue p => fun _ => [RWorkqueue p]
    | Unregister_netdev p => fun _ => [RNetReg p]
    | Free_netdev p => fun _ => [RNetdev p]
    | Pci_unregister_driver name => fun _ => [RPciDriver name]
    | Unregister_sysrq_key key => fun _ => [RSysrq key]
    | _ => fun _ => []
    end r
  end.

(** Giving back what is not held (a double free, an unregistration of
    something that is not registered) is an error: [None]. *)
Fixpoint remove_all (rs L : list resource) : option (list resource) :=
  match rs with
  | [] => Some L
  | r :: rs' => L' ← remove_first r L; remove_all rs' L'
  end.

Definition held_step (e : event) (L : list resource) : option (list resource) :=
  L' ← remove_all (releases e) L; Some (acquires e ++ L').

(** What is held after a history, on top of [L]. *)
Fixpoint held (L : list resource) (h : history) : option (list resource) :=
  match h with
  | [] => Some L
  | e :: h' => held L h' ≫= held_step e
  end.

Lemma held_app L h h' : held L (h ++ h') = held L h' ≫= fun L' => held L' h.
Proof.
  induction h as [|e h IH]; simpl.
  - by destruct (held L h').
  - rewrite IH. by destruct (held L h').
Qed.

#[global] Arguments held : simpl never.

Lemma held_cons e h L0 L L' X :
  held L0 h = Some L -> remove_all (releases e) L = Some L' -> acquires e ++ L' = X ->
  held L0 (e :: h) = Some X.
Proof.
  intros HL HR <-. change (held L0 (e :: h)) with (held L0 h ≫= held_step e).
  rewrite HL. simpl. unfold held_step. by rewrite HR.
Qed.

(** What is not held stays so until it is acquired, and giving it back is an
    error that nothing repairs. *)
Definition absent (L0 : list resource) (r : resource) (h : history) : Prop :=
  match held L0 h with Some X => r ∉ X | None => True end.

Lemma held_none_cons L0 e h : held L0 h = None -> held L0 (e :: h) = None.
Proof. intros H. change (held L0 (e :: h)) with (held L0 h ≫= held_step e). by rewrite H. Qed.

Lemma remove_all_subseteq rs L L' : remove_all rs L = Some L' -> L' ⊆ L.
Proof.
  revert L. induction rs as [|r rs IH]; simpl; intros L H; [by simplify_eq|].
  destruct (remove_first r L) as [L1|] eqn:E; simplify_eq/=.
  apply remove_first_Permutation in E. rewrite E. apply IH in H. set_solver.
Qed.

Lemma absent_cons L0 r e h : absent L0 r h -> r ∉ acquires e -> absent L0 r (e :: h).
Proof.
  unfold absent. change (held L0 (e :: h)) with (held L0 h ≫= held_step e).
  destruct (held L0 h) as [X|]; [|done]. simpl. intros HX He. unfold held_step.
  destruct (remove_all _ _) as [X'|] eqn:E; simpl; [|done].
  apply remove_all_subseteq in E. set_solver.
Qed.

Lemma release_absent L0 r e h : absent L0 r h -> releases e = [r] -> held L0 (e :: h) = None.
Proof.
  unfold absent. change (held L0 (e :: h)) with (held L0 h ≫= held_step e).
  destruct (held L0 h) as [X|]; [|done]. simpl. intros HX He. unfold held_step. rewrite He. simpl.
  destruct (remove_first r X) eqn:E; [|done].
  destruct HX. apply remove_first_in. eauto.
Qed.

(** The same ledger when the order of what is held does not matter. *)
Definition holds (L0 : list resource) (h : history) (L : list resource) : Prop :=
  exists X, held L0 h = Some X /\ X ≡ₚ L.

#[export] Instance holds_proper L0 h : Proper ((≡ₚ) ==> iff) (holds L0 h).
Proof. intros L L' HL. unfold holds. by setoid_rewrite HL. Qed.

Lemma holds_of_held L0 h L : held L0 h = Some L -> holds L0 h L.
Proof. by exists L. Qed.

Lemma holds_acquire L0 e h L rs :
  holds L0 h L -> releases e = [] -> acquires e = rs -> holds L0 (e :: h) (rs ++ L).
Proof.
  intros (X & HX & HXL) Hr <-. exists (acquires e ++ X). rewrite <- HXL. split; [|done].
  eapply held_cons; [exact HX|by rewrite Hr|done].
Qed.

Lemma holds_idle L0 e h L :
  holds L0 h L -> releases e = [] -> acquires e = [] -> holds L0 (e :: h) L.
Proof. intros HL Hr Ha. by apply (holds_acquire _ _ _ _ [] HL). Qed.

Lemma holds_release L0 e h L r :
  holds L0 h (r :: L) -> releases e = [r] -> acquires e = [] -> holds L0 (e :: h) L.
Proof.
  intros (X & HX & HXL) Hr Ha.
  destruct (remove_first r X) as [X'|] eqn:E.
  - exists X'. split.
    + eapply held_cons; [exact HX|rewrite Hr; simpl; by rewrite E|by rewrite Ha].
    + apply remove_first_Permutation in E. rewrite E in HXL.
      by apply Permutation.Permutation_cons_inv in HXL.
  - assert (is_Some (remove_first r X)) as [X' HX'].
    { apply remove_first_in. rewrite HXL. apply list_elem_of_here. }
    congruence.
Qed.

(** [ledger] proves [held L0 h = Some X] call by call, down to a history whose
    ledger is a hypothesis; which answers were NULL or errors is read off the
    hypotheses [_ =? 0 = _] and [_ <? 0 = _]. *)
Ltac ledger_facts :=
  simpl; unfold unless_null, unless_err, when_zero, blkdev_acquired; simpl;
  repeat match goal with
  | E : (?a =? ?b) = _ |- context [?a =? ?b] => rewrite E
  | E : (?a <? ?b) = _ |- context [?a <? ?b] => rewrite E
  | E : ?a <> 0 |- context [?a =? 0] => rewrite (proj2 (Z.eqb_neq a 0) E)
  | E : ?a = 0 |- context [?a =? 0] => rewrite (proj2 (Z.eqb_eq a 0) E)
  end; simpl.
Ltac ledger_decide :=
  repeat (first
    [ rewrite decide_True by (done || congruence)
    | rewrite decide_False by (done || congruence) ]; simpl).
Ltac ledger :=
  lazymatch goal with
  | H : held ?L0 ?h = Some _ |- held ?L0 ?h = Some _ => exact H
  | |- held _ (_ :: _) = Some _ =>
      eapply held_cons;
      [ ledger
      | ledger_facts; ledger_decide; reflexivity
      | ledger_facts; reflexivity ]
  end.

Lemma holds_acquire_at L0 e h a r b :
  holds L0 h (a ++ b) -> releases e = [] -> acquires e = [r] -> holds L0 (e :: h) (a ++ r :: b).
Proof.
  intros HL Hr Ha. rewrite <- Permutation_middle. by apply (holds_acquire _ _ _ _ [r] HL).
Qed.

(** [perm] proves that two lists of resources with the same tail are
    permutations; [hledger] proves [holds L0 h L] call by call. *)
Ltac pull x r k :=
  lazymatch r with
  | x :: ?t => k (@nil resource) t
  | ?y :: ?t => pull x t ltac:(fun a b => k (y :: a) b)
  end.
Ltac perm :=
  cbn [app];
  lazymatch goal with
  | |- ?l ≡ₚ ?l => reflexivity
  | |- ?x :: ?l ≡ₚ ?r =>
      pull x r ltac:(fun a b =>
        apply (Permutation.Permutation_trans (l' := x :: (a ++ b)));
        [apply Permutation.perm_skip; perm|apply (Permutation.Permutation_middle a b x)])
  end.

Lemma holds_perm L0 h L L' : holds L0 h L -> L ≡ₚ L' -> holds L0 h L'.
Proof. by intros H <-. Qed.

Ltac acquire_at a l :=
  lazymatch l with
  | ?r :: ?b =>
      first
      [ eapply (holds_acquire_at _ _ _ a r b);
        [cbn [app]|ledger_facts; reflexivity|ledger_facts; reflexivity]
      | acquire_at (a ++ [r]) b ]
  end.
Ltac hledger :=
  lazymatch goal with
  | H : holds ?L0 ?h ?L |- holds ?L0 ?h ?L => exact H
  | H : holds ?L0 ?h _ |- holds ?L0 ?h _ => eapply holds_perm; [exact H|cbn [app]; perm]
  | |- holds _ (_ :: _) _ =>
      first
      [ apply holds_idle;
        [|ledger_facts; ledger_decide; reflexivity|ledger_facts; ledger_decide; reflexivity];
        hledger
      | eapply holds_release;
        [|ledger_facts; reflexivity|ledger_facts; reflexivity]; hledger
      | cbn [app];
        lazymatch goal with |- holds _ _ ?L => acquire_at (@nil resource) L end; hledger
      | eapply (holds_acquire _ _ _ _ [_]);
        [|ledger_facts; reflexivity|ledger_facts; reflexivity]; hledger ]
  end.

(** Finds a call in a history. *)
Ltac in_history :=
  first [eapply list_elem_of_here | eapply list_elem_of_further; in_history].

(** ** Documented behaviour

    [copy_to_user] and [copy_from_user] return the number of bytes they did not
    copy, between 0 and the number asked for; [copy_from_user] fills the whole
    destination (it pads what it could not copy with zeros). *)
Class UaccessSpec (K : kernel) := {
  copy_to_user_bound : forall h d, 0 <= K _ h (Copy_to_user d) <= zlen d;
  copy_from_user_bound : forall h n, 0 <= n ->
    0 <= (K _ h (Copy_from_user n)).2 <= n;
  copy_from_user_length : forall h n, 0 <= n ->
    zlen (K _ h (Copy_from_user n)).1 = n;
  copy_from_user_bytes : forall h n, bytes_ok (K _ h (Copy_from_user n)).1;
}.

(** [kmalloc] returns NULL or a block of at least the size asked for. *)
Class KmallocSpec (K : kernel) := {
  kmalloc_size : forall h n, 0 <= n -> kb_addr (K _ h (Kmalloc n)) <> 0 ->
    n <= zlen (kb_bytes (K _ h (Kmalloc n)));
  kmalloc_null : forall h n, kb_addr (K _ h (Kmalloc n)) = 0 ->
    kb_bytes (K _ h (Kmalloc n)) = [];
}.

(** The registration calls of character devices return 0 or a negative error. *)
Class ChrdevSpec (K : kernel) := {
  alloc_chrdev_ret : forall h m n name, (K _ h (Alloc_chrdev_region m n name)).1 <= 0;
  cdev_add_ret : forall h p d n, K _ h (Cdev_add p d n) <= 0;
}.

(** The user's buffers are mapped: nothing is left uncopied. *)
Class UserMapped (K : kernel) := {
  mapped_to_user : forall h d, K _ h (Copy_to_user d) = 0;
  mapped_from_user : forall h n, (K _ h (Copy_from_user n)).2 = 0;
}.

(** A kernel built from the answers of interest, with a quiet answer (success,
    where there is one) for every other call. *)
Definition quiet {R : Set} (c : kcall R) : R :=
  match c in kcall R return R with
  | Printk _ _ | Dump_stack | Panic _ | Jprobe_return | Set_current_state _ | Schedule
  | Mdelay _ | Kfree _ | Vfree _ | Unregister_chrdev_region _ _ | Unregister_chrdev _ _
  | Cdev_init _ | Cdev_del _ | Class_destroy _ | Device_destroy _ _
  | Remove_proc_entry _ _ | Kobject_put _ | Set_pid_allocated _ _
  | Blk_queue_logical_block_size _ _
  | Unregister_blkdev _ _ | Set_capacity _ _ | Add_disk _ _ _ _ _ | Del_gendisk _
  | Put_disk _ | Blk_cleanup_queue _ | Blk_end_request_all _ | Outb _ _
  | Gpio_set_value _ _ | Gpio_unexport _ | Gpio_free _ | Unregister_kprobe _
  | Unregister_jprobe _ | Free_irq _ _ | Tasklet_schedule | Tasklet_kill
  | Destroy_workqueue _ | Pci_unregister_driver _ | Write_cr0 _ | Set_pages_rw _ _
  | Write_syscall _ _ _ | Spin_lock | Spin_unlock | Kthread_bind _ _ | Warn_on
  | Set_kthread_cpu _ _ | Sema_init _ | Up | Init_timer | Add_timer _ _ | Timer_expires
  | Unregister_netdev _ | Free_netdev _ | Netif_start_queue _ | Netif_stop_queue _ => tt
  | Page_of a => (a, 0)
  | Task_list | Current_comm => []
  | Kmalloc n => KBlock 4096 (replicate (Z.to_nat n) 0)
  | Vmalloc n => KBlock 8192 (replicate (Z.to_nat n) 0)
  | Kmem_buckets_alloc _ n => KBlock 12288 (replicate (Z.to_nat n) 0)
  | Copy_from_user n => (replicate (Z.to_nat n) 0, 0)
  | Alloc_chrdev_region m _ _ => (0, MKDEV 240 m)
  | Eth_type_trans _ _ => (0, 14)
  | Blk_fetch_request _ | Blk_end_request_cur _ _ => None
  | Gpio_is_valid _ | Queue_work _ => true
  | Register_kprobe _ | Register_jprobe _ => (0, 4096)
  | Cdev_alloc | Class_create _ | Device_create _ _ _ _ | Proc_mkdir _ | Proc_create _ _ _
  | Kobject_create_and_add _ | Kmem_buckets_create _ | Find_task _ | Current_task
  | Blk_init_queue | Alloc_disk _ | Kallsyms_lookup_name _ | Create_workqueue _
  | Alloc_netdev _ | Kthread_create_on_node _ _ _ => 1
  | Register_chrdev major _ => if major =? 0 then 240 else 0
  | Register_blkdev major _ => if major =? 0 then 259 else 0
  | _ => 0
  end.

Definition quiet_kernel : kernel := fun _ _ c => quiet c.

#[export] Instance quiet_uaccess : UaccessSpec quiet_kernel.
Proof.
  split; simpl; intros; try lia.
  - rewrite length_replicate. lia.
  - apply Forall_replicate. lia.
Qed.

#[export] Instance quiet_kmalloc : KmallocSpec quiet_kernel.
Proof. split; simpl; intros; [rewrite length_replicate; lia|done]. Qed.

#[export] Instance quiet_chrdev : ChrdevSpec quiet_kernel.
Proof. by split. Qed.

#[export] Instance quiet_mapped : UserMapped quiet_kernel.
Proof. by split. Qed.
