(* ===== verification/Prog.v ===== *)
(** * Programs of the modules

    A handler of a module is a program over the module's static variables
    [σ]: it reads and writes them, calls the kernel and returns, or stops at an
    access the C language gives no meaning to.  [run] executes a program
    against a kernel; [wp] is the total-correctness Hoare logic on top of it:
    the run reaches a result, without a fault, and the result, the variables
    and the history satisfy the postcondition. *)

From S2P Require Import Prelude Kernel.

(** Why a run stops without a result.  [OutOfFuel] is not a fault of the code:
    it says that a loop did more turns than the model was given. *)
Inductive fault :=
| OutOfBounds   (* an access outside the object, or through NULL *)
| UninitRead    (* a read of an uninitialised local *)
| DivByZero
| OutOfFuel.

Inductive prog (σ A : Type) :=
| Ret (a : A)
| Get (k : σ -> prog σ A)
| Put (s : σ) (p : prog σ A)
| Call {R : Set} (c : kcall R) (k : R -> prog σ A)
| Fail (f : fault).
Arguments Ret {_ _} _.
Arguments Get {_ _} _.
Arguments Put {_ _} _ _.
Arguments Call {_ _ _} _ _.
Arguments Fail {_ _} _.

Fixpoint bind {σ A B} (p : prog σ A) (f : A -> prog σ B) : prog σ B :=
  match p with
  | Ret a => f a
  | Get k => Get (fun s => bind (k s) f)
  | Put s p => Put s (bind p f)
  | Call c k => Call c (fun r => bind (k r) f)
  | Fail e => Fail e
  end.

Declare Scope prog_scope.
Delimit Scope prog_scope with prog.
Bind Scope prog_scope with prog.
Notation "x <- c1 ;; c2" := (bind c1 (fun x => c2))
  (at level 20, c1 at level 99, c2 at level 200) : prog_scope.
Notation "' pat <- c1 ;; c2" := (bind c1 (fun x => match x with pat => c2 end))
  (at level 20, pat pattern, c1 at level 99, c2 at level 200) : prog_scope.
Notation "c1 ;; c2" := (bind c1 (fun _ => c2))
  (at level 100, c2 at level 200, right associativity) : prog_scope.
#[global] Open Scope prog_scope.

Section basics.
Context {σ : Type}.

Definition call {R : Set} (c : kcall R) : prog σ R := Call c Ret.
Definition get : prog σ σ := Get Ret.
Definition gets {A} (f : σ -> A) : prog σ A := Get (fun s => Ret (f s)).
Definition put (s : σ) : prog σ unit := Put s (Ret tt).
Definition modify (f : σ -> σ) : prog σ unit := Get (fun s => Put (f s) (Ret tt)).
Definition skip : prog σ unit := Ret tt.

(** An access that may fall outside its object. *)
Definition access {A} (o : option A) : prog σ A :=
  match o with Some a => Ret a | None => Fail OutOfBounds end.

Definition printk (fmt : string) (args : list parg) : prog σ unit :=
  call (Printk fmt args).

(** [for (x in l) body] *)
Fixpoint for_each {X} (l : list X) (body : X -> prog σ unit) : prog σ unit :=
  match l with
  | [] => skip
  | x :: l' => body x ;; for_each l' body
  end.

(** A loop that continues with [inl] and leaves with [inr]. *)
Fixpoint loop {I R} (fuel : nat) (body : I -> prog σ (I + R)) (i : I) : prog σ R :=
  match fuel with
  | O => Fail OutOfFuel
  | S fuel' =>
      r <- body i ;;
      match r with inl i' => loop fuel' body i' | inr r => Ret r end
  end.
End basics.

Inductive outcome (A : Type) := Done (a : A) | Fault (f : fault).
Arguments Done {_} _.
Arguments Fault {_} _.

Fixpoint run {σ A} (K : kernel) (p : prog σ A) (s : σ) (h : history)
  : outcome A * σ * history :=
  match p with
  | Ret a => (Done a, s, h)
  | Get k => run K (k s) s h
  | Put s' p => run K p s' h
  | Call c k => run K (k (K _ h c)) s (Ev c (K _ h c) :: h)
  | Fail f => (Fault f, s, h)
  end.

Definition wp {σ A} (K : kernel) (p : prog σ A)
    (Q : A -> σ -> history -> Prop) (s : σ) (h : history) : Prop :=
  match run K p s h with
  | (Done a, s', h') => Q a s' h'
  | (Fault _, _, _) => False
  end.

(** A run that stops at the fault [f]. *)
Definition faults {σ A} (K : kernel) (p : prog σ A) (f : fault) (s : σ) (h : history) : Prop :=
  (run K p s h).1.1 = Fault f.

Section run.
Context {σ : Type} (K : kernel).
Implicit Types (s : σ) (h : history).

Lemma run_bind {A B} (p : prog σ A) (f : A -> prog σ B) s h :
  run K (bind p f) s h =
    match run K p s h with
    | (Done a, s', h') => run K (f a) s' h'
    | (Fault e, s', h') => (Fault e, s', h')
    end.
Proof. revert s h. induction p; simpl; intros; auto. Qed.

Lemma run_bind_done {A B} (p : prog σ A) (f : A -> prog σ B) s h a s' h' :
  run K p s h = (Done a, s', h') -> run K (bind p f) s h = run K (f a) s' h'.
Proof. intros H. by rewrite run_bind, H. Qed.

(** The history only grows. *)
Lemma run_extends {A} (p : prog σ A) s h o s' h' :
  run K p s h = (o, s', h') -> exists new, h' = new ++ h.
Proof.
  revert s h. induction p as [| |s0 p IH|R c k IH|]; simpl; intros s h Hr; simplify_eq;
    eauto; try (by exists []).
  destruct (IH _ _ _ Hr) as [new ->]. exists (new ++ [Ev c (K R h c)]).
  by rewrite <- app_assoc.
Qed.
End run.

Lemma for_each_cons {σ X} (x : X) l (body : X -> prog σ unit) :
  for_each (x :: l) body = bind (body x) (fun _ => for_each l body).
Proof. done. Qed.

Lemma loop_S {σ I R} fuel (body : I -> prog σ (I + R)) i :
  loop (S fuel) body i =
    bind (body i) (fun r => match r with inl i' => loop fuel body i' | inr r => Ret r end).
Proof. done. Qed.

Section wp.
Context {σ : Type} (K : kernel).
Implicit Types (s : σ) (h : history).

Lemma wp_ret {A} (a : A) (Q : A -> σ -> history -> Prop) s h :
  Q a s h -> wp K (Ret a) Q s h.
Proof. done. Qed.

Lemma wp_bind {A B} (p : prog σ A) (f : A -> prog σ B) (Q : B -> σ -> history -> Prop) s h :
  wp K p (fun a s' h' => wp K (f a) Q s' h') s h -> wp K (bind p f) Q s h.
Proof.
  unfold wp. rewrite run_bind. by destruct (run K p s h) as [[[a|e] s'] h'].
Qed.

Lemma wp_bind_inv {A B} (p : prog σ A) (f : A -> prog σ B) (Q : B -> σ -> history -> Prop) s h :
  wp K (bind p f) Q s h -> wp K p (fun a s' h' => wp K (f a) Q s' h') s h.
Proof.
  unfold wp. rewrite run_bind. by destruct (run K p s h) as [[[a|e] s'] h'].
Qed.

Lemma wp_call {R : Set} (c : kcall R) (Q : R -> σ -> history -> Prop) s h :
  Q (K R h c) s (Ev c (K R h c) :: h) -> wp K (call c) Q s h.
Proof. done. Qed.

(** The same with a name for the answer. *)
Lemma wp_call_as {R : Set} (c : kcall R) (Q : R -> σ -> history -> Prop) s h :
  (forall r, r = K R h c -> Q r s (Ev c r :: h)) -> wp K (call c) Q s h.
Proof. intros H. by apply wp_call, H. Qed.

Lemma wp_printk fmt args (Q : unit -> σ -> history -> Prop) s h :
  Q tt s (Ev (Printk fmt args) tt :: h) -> wp K (printk fmt args) Q s h.
Proof. intros H. unfold printk, wp, call. simpl. by destruct (K unit h _). Qed.

Lemma wp_get (Q : σ -> σ -> history -> Prop) s h : Q s s h -> wp K get Q s h.
Proof. done. Qed.

Lemma wp_gets {A} (f : σ -> A) (Q : A -> σ -> history -> Prop) s h :
  Q (f s) s h -> wp K (gets f) Q s h.
Proof. done. Qed.

Lemma wp_put s' (Q : unit -> σ -> history -> Prop) s h : Q tt s' h -> wp K (put s') Q s h.
Proof. done. Qed.

Lemma wp_modify f (Q : unit -> σ -> history -> Prop) s h :
  Q tt (f s) h -> wp K (modify f) Q s h.
Proof. done. Qed.

Lemma wp_skip (Q : unit -> σ -> history -> Prop) s h : Q tt s h -> wp K skip Q s h.
Proof. done. Qed.

(** A message printed in one branch only. *)
Lemma wp_opt_printk (b : bool) fmt args (Q : unit -> σ -> history -> Prop) s h :
  (forall h', h' = h \/ h' = Ev (Printk fmt args) tt :: h -> Q tt s h') ->
  wp K (if b then printk fmt args else skip) Q s h.
Proof. intros H. destruct b; [apply wp_printk|apply wp_skip]; apply H; auto. Qed.

Lemma wp_access {A} (o : option A) a (Q : A -> σ -> history -> Prop) s h :
  o = Some a -> Q a s h -> wp K (access o) Q s h.
Proof. by intros ->. Qed.

Lemma wp_mono {A} (p : prog σ A) (Q Q' : A -> σ -> history -> Prop) s h :
  wp K p Q s h -> (forall a s' h', Q a s' h' -> Q' a s' h') -> wp K p Q' s h.
Proof. unfold wp. destruct (run K p s h) as [[[a|e] s'] h']; auto. Qed.

Lemma wp_run {A} (p : prog σ A) (Q : A -> σ -> history -> Prop) s h :
  wp K p Q s h <-> exists a s' h', run K p s h = (Done a, s', h') /\ Q a s' h'.
Proof.
  unfold wp. destruct (run K p s h) as [[[a|e] s'] h']; naive_solver.
Qed.

(** The invariant rule of [for_each]: [I] speaks of the elements done. *)
Lemma wp_for_each {X} (l : list X) (body : X -> prog σ unit)
    (I : list X -> σ -> history -> Prop) (Q : unit -> σ -> history -> Prop) s h :
  I [] s h ->
  (forall done x todo s h, l = done ++ x :: todo -> I done s h ->
     wp K (body x) (fun _ => I (done ++ [x])) s h) ->
  (forall s h, I l s h -> Q tt s h) ->
  wp K (for_each l body) Q s h.
Proof.
  intros HI Hbody HQ.
  cut (forall todo dn s h, l = dn ++ todo -> I dn s h ->
         wp K (for_each todo body) (fun _ => I l) s h).
  { intros Hcut. eapply wp_mono; [by apply (Hcut l [])|]. intros [] s1 h1 HI1. by apply HQ. }
  clear HI s h. induction todo as [|x todo IH]; intros dn s h Hl HI; simpl.
  - rewrite app_nil_r in Hl. by subst.
  - apply wp_bind. eapply wp_mono; [by eapply Hbody|].
    intros [] s' h' HI'. apply (IH (dn ++ [x])); [|done]. by rewrite <- app_assoc.
Qed.

(** The rule of [loop]: [J i] holds before each turn, [m] bounds the turns. *)
Lemma wp_loop {I R} (body : I -> prog σ (I + R)) (J : I -> σ -> history -> Prop)
    (m : I -> σ -> history -> nat) (Q : R -> σ -> history -> Prop) fuel i s h :
  J i s h -> (m i s h < fuel)%nat ->
  (forall i s h, J i s h ->
     wp K (body i) (fun r s' h' =>
       match r with
       | inl i' => J i' s' h' /\ (m i' s' h' < m i s h)%nat
       | inr r => Q r s' h'
       end) s h) ->
  wp K (loop fuel body i) Q s h.
Proof.
  intros HJ Hm Hbody. revert i s h HJ Hm.
  induction fuel as [|fuel IH]; intros i s h HJ Hm; [lia|]. simpl.
  apply wp_bind. eapply wp_mono; [by apply Hbody|].
  intros [i'|r] s' h'; simpl; [|done]. intros [HJ' Hm']. apply IH; [done|lia].
Qed.
End wp.

(** The rules of [faults]: a step that runs, then a step that faults. *)
Section faults.
Context {σ : Type} (K : kernel).
Implicit Types (s : σ) (h : history).

Lemma faults_bind {A B} (p : prog σ A) (f : A -> prog σ B) e s h :
  faults K p e s h -> faults K (bind p f) e s h.
Proof.
  unfold faults. rewrite run_bind. destruct (run K p s h) as [[[a|e'] s'] h']; simpl; congruence.
Qed.

Lemma faults_after {A B} (p : prog σ A) (f : A -> prog σ B) e s h :
  wp K p (fun a s' h' => faults K (f a) e s' h') s h -> faults K (bind p f) e s h.
Proof.
  unfold faults, wp. rewrite run_bind. by destruct (run K p s h) as [[[a|e'] s'] h'].
Qed.

Lemma faults_access {A} (o : option A) s h : o = None -> faults K (access o) OutOfBounds s h.
Proof. by intros ->. Qed.

Lemma faults_fail {A} e s h : faults K (Fail (A := A) e) e s h.
Proof. done. Qed.

(** A run that faults has no result. *)
Lemma faults_not_wp {A} (p : prog σ A) (Q : A -> σ -> history -> Prop) e s h :
  faults K p e s h -> ~ wp K p Q s h.
Proof.
  unfold faults, wp. destruct (run K p s h) as [[[a|e'] s'] h']; simpl; [congruence|tauto].
Qed.
End faults.

#[global] Arguments bind : simpl never.
#[global] Arguments for_each : simpl never.
#[global] Arguments loop : simpl never.

(** The loop that creates the device nodes of a driver: it holds those whose
    creation succeeded, on top of what was held. *)
Lemma wp_create_devices {σ} K (c : Z) (dev : Z -> dev_t) name l L0 X (s : σ) h :
  held L0 h = Some X ->
  wp K (for_each l (fun i => call (Device_create c (dev i) name i) ;; skip))
    (fun _ s' h' => s' = s /\ exists devs,
       devs ⊆ ((fun i => RDevice c (dev i)) <$> l) /\ held L0 h' = Some (devs ++ X)) s h.
Proof.
  revert X h. induction l as [|i l IH]; intros X h HX.
  - apply wp_skip. split; [done|]. exists []. split; [set_solver|done].
  - rewrite for_each_cons. apply wp_bind, wp_bind, wp_call_as. intros p _. apply wp_skip.
    eapply wp_mono.
    { apply (IH (unless_err p (RDevice c (dev i)) ++ X)). ledger. }
    intros _ s' h' [-> (devs & Hd & HX')]. split; [done|].
    exists (devs ++ unless_err p (RDevice c (dev i))). rewrite <- app_assoc. split; [|done].
    unfold unless_err. destruct (p <? 0); set_solver.
Qed.

(** ** Automation

    [wp_step] executes one instruction of the program in the goal; [wp_go]
    executes it up to the first access, branch or loop.  The answers of the
    kernel are named [r], [r0], ... with the equations [E], [E0], ... *)

Ltac wp_step :=
  lazymatch goal with
  | |- wp _ (bind _ _) _ _ _ => apply wp_bind
  | |- wp _ (Ret _) _ _ _ => apply wp_ret
  | |- wp _ (printk _ _) _ _ _ => apply wp_printk
  | |- wp _ (@call _ ?R _) _ _ _ =>
      apply wp_call_as;
      lazymatch R with
      | unit => intros [] _
      | _ => let r := fresh "r" in let E := fresh "E" in intros r E
      end
  | |- wp _ get _ _ _ => apply wp_get
  | |- wp _ (gets _) _ _ _ => apply wp_gets
  | |- wp _ (put _) _ _ _ => apply wp_put
  | |- wp _ (modify _) _ _ _ => apply wp_modify
  | |- wp _ skip _ _ _ => apply wp_skip
  | |- wp _ (for_each (_ :: _) _) _ _ _ => rewrite for_each_cons
  | |- wp _ (for_each [] _) _ _ _ => apply wp_skip
  | |- wp _ (match ?x with (_, _) => _ end) _ _ _ => destruct x eqn:?
  end; cbv beta.
Ltac wp_go := repeat wp_step.

(** Whether the allocation in the context failed. *)
Ltac alloc_case :=
  match goal with b : kblock |- _ => destruct (kb_addr b =? 0) eqn:? end.

(** One branch of the program in the goal. *)
Ltac wp_if :=
  lazymatch goal with
  | |- wp _ (if ?b then _ else _) _ _ _ => destruct b eqn:?
  end.

(** Runs the program in the goal up to an access; [faults_here] says that this
    access is the one outside its object, [faults_past] that it is not. *)
Ltac faults_go :=
  repeat lazymatch goal with
  | |- faults _ (bind (access _) _) _ _ _ => fail
  | |- faults _ (bind (bind _ _) _) _ _ _ => fail
  | |- faults _ (bind _ _) _ _ _ => apply faults_after; repeat wp_step
  | |- faults _ (Fail _) _ _ _ => apply faults_fail
  end.
Ltac faults_here := first [apply faults_bind, faults_access | apply faults_access].
Ltac faults_past tac := apply faults_after; eapply wp_access; [tac|]; faults_go.
