(* ===== verification/Threads.v ===== *)
(** * Handlers that run side by side

    Interrupt handlers, tasklets, work items and processes run concurrently.  A
    [config] is a pool of running handlers over the module's variables [σ] and
    the state [E] of the kernel objects they share; a step lets one of them do
    its next kernel call, together with the code up to the call after, or
    starts a new one.  What a call may answer, and when a handler may start,
    are parameters ([api], [spawn]): a call that blocks has no step. *)

From stdpp Require Import relations.
From S2P Require Import Prelude Kernel Prog.

#[local] Open Scope Z_scope.

(** ** Weights *)

(** The weight of a list: for a pool, what its handlers still have to do. *)
Fixpoint total {X : Type} (w : X -> Z) (l : list X) : Z :=
  match l with [] => 0 | x :: l' => w x + total w l' end.

Lemma total_app {X} (w : X -> Z) l1 l2 : total w (l1 ++ l2) = total w l1 + total w l2.
Proof. induction l1; simpl; lia. Qed.

Lemma total_insert {X} (w : X -> Z) l i x y :
  l !! i = Some x -> total w (<[i := y]> l) = total w l - w x + w y.
Proof.
  revert i. induction l as [|z l IH]; intros [|i]; simpl; intros H; simplify_eq; [lia|].
  rewrite (IH i) by done. lia.
Qed.

Lemma total_nonneg {X} (w : X -> Z) l : (forall x, 0 <= w x) -> 0 <= total w l.
Proof. intros Hw. induction l as [|x l IH]; simpl; [lia|]. specialize (Hw x). lia. Qed.
(** Positions that weigh at least 1 are no more than the total. *)
Lemma total_ge_positions {X} (w : X -> Z) x0 (ps : list nat) l :
  w x0 = 0 -> (forall x, x ∈ l -> 0 <= w x) -> NoDup ps ->
  Forall (fun i => exists x, l !! i = Some x /\ 1 <= w x) ps -> zlen ps <= total w l.
Proof.
  intros H0. revert l. induction ps as [|i ps IH]; intros l Hw Hnd Hps.
  - clear Hps Hnd. induction l as [|x l IH]; simpl; [lia|].
    assert (0 <= w x) by (apply Hw; set_solver).
    assert (zlen (@nil nat) <= total w l) by (apply IH; set_solver). simpl in *. lia.
  - apply NoDup_cons in Hnd as [Hi Hnd]. apply Forall_cons in Hps as [(x & Hx & H1) Hps].
    assert (zlen ps <= total w (<[i := x0]> l)) as Hle.
    { apply IH; [|done|].
      - intros y Hy. apply list_elem_of_lookup in Hy as [j Hj].
        apply list_lookup_insert_Some in Hj as [(_ & <- & _)|[_ Hj]]; [lia|].
        apply Hw, list_elem_of_lookup. by exists j.
      - apply Forall_forall. intros j Hj. rewrite Forall_forall in Hps.
        rewrite list_lookup_insert_ne by (by intros ->). by apply Hps. }
    rewrite (total_insert _ _ _ x) in Hle by done. simpl. lia.
Qed.

(** ** Pools *)

(** A program run up to its next kernel call. *)
Fixpoint settle {σ A} (p : prog σ A) (s : σ) : prog σ A * σ :=
  match p with
  | Get k => settle (k s) s
  | Put s' p => settle p s'
  | p => (p, s)
  end.

Section threads.
Context {σ E kind : Type}.

Record config := Config { pool : list (kind * prog σ unit); mem : σ; env : E }.

Context (api : E -> forall R : Set, kcall R -> R -> E -> Prop).
Context (spawn : E -> kind -> prog σ unit -> E -> Prop).

(** One handler does its next call and runs up to the call after. *)
Definition advance (p : prog σ unit) (s : σ) (e : E) (p' : prog σ unit) (s' : σ) (e' : E) : Prop :=
  match p with
  | Call x k => exists r, api e _ x r e' /\ settle (k r) s = (p', s')
  | _ => False
  end.

Inductive step (c : config) : config -> Prop :=
| step_call i t p p' s' e' :
    pool c !! i = Some (t, p) -> advance p (mem c) (env c) p' s' e' ->
    step c (Config (<[i := (t, p')]> (pool c)) s' e')
| step_spawn t p e' :
    spawn (env c) t p e' ->
    step c (Config (pool c ++ [(t, (settle p (mem c)).1)]) (settle p (mem c)).2 e').

Definition reachable (c0 c : config) : Prop := rtc step c0 c.

(** What holds at the start and is kept by every step holds always. *)
Lemma reachable_inv (I : config -> Prop) c0 c :
  I c0 -> (forall c c', I c -> step c c' -> I c') -> reachable c0 c -> I c.
Proof. intros H0 Hs Hr. induction Hr as [|c0 c1 c2 H01 _ IH]; [done|]. eauto. Qed.

(** A handler that is started and does [n] calls while the others wait, the
    kernel answering by [ans]: a way to exhibit reachable configurations. *)
Fixpoint solo (ans : E -> forall R : Set, kcall R -> R * E) (n : nat) (p : prog σ unit) (s : σ) (e : E)
  : prog σ unit * σ * E :=
  match n, p with
  | S n', Call c k =>
      let '(r, e') := ans e _ c in
      let '(p', s') := settle (k r) s in
      solo ans n' p' s' e'
  | _, _ => (p, s, e)
  end.
(** The configuration then, from one with the pool [l]. *)
Definition solo_config ans (l : list (kind * prog σ unit)) n t p s e : config :=
  let '(p', s', e') := solo ans n (settle p s).1 (settle p s).2 e in
  Config (l ++ [(t, p')]) s' e'.

Lemma solo_steps ans n l t p s e :
  (forall e R (c : kcall R), api e R c (ans e R c).1 (ans e R c).2) ->
  rtc step (Config (l ++ [(t, p)]) s e)
    (let '(p', s', e') := solo ans n p s e in Config (l ++ [(t, p')]) s' e').
Proof.
  intros Ha. revert p s e. induction n as [|n IH]; intros p s e; [apply rtc_refl|].
  destruct p as [| | |R x k|]; try apply rtc_refl. simpl.
  destruct (ans e R x) as [r e'] eqn:Er. destruct (settle (k r) s) as [p' s'] eqn:Es.
  eapply rtc_l; [|apply IH].
  replace (l ++ [(t, p')]) with (<[length l := (t, p')]> (l ++ [(t, Call x k)])).
  - eapply step_call; simpl.
    + by rewrite lookup_app_r, Nat.sub_diag by lia.
    + exists r. split; [|exact Es]. specialize (Ha e R x). by rewrite Er in Ha.
  - by rewrite insert_app_r_alt, Nat.sub_diag by lia.
Qed.

Lemma solo_reachable ans n l t p s e e' :
  (forall e R (c : kcall R), api e R c (ans e R c).1 (ans e R c).2) ->
  spawn e t p e' ->
  reachable (Config l s e) (solo_config ans l n t p s e').
Proof.
  intros Ha Hsp. eapply rtc_l; [exact (step_spawn (Config l s e) t p e' Hsp)|].
  by apply solo_steps.
Qed.
End threads.
Arguments config : clear implicits.
