(* ===== verification/Discipline.v ===== *)
(** * Disciplines that programs obey whatever the kernel answers

    A [discipline] is a type system for programs with three parts: an invariant
    of the module's variables, what the answers of the kernel may be, and an
    automaton that says which calls are allowed when (typestate).  [obeys] is
    the judgement, defined by recursion on the program, so that it speaks of
    every kernel and every value of the variables at once; it allows faults.

    [obeys_run] shows what an obedient program does in a run, and
    [obeys_threads] what a pool of them does when they run side by side. *)

From stdpp Require Import relations.
From S2P Require Import Prelude Kernel Prog Threads.

#[local] Open Scope Z_scope.

Record discipline (σ Q : Type) := Discipline {
  d_state : σ -> Prop;
  d_answer : forall R : Set, kcall R -> R -> Prop;
  d_next : Q -> forall R : Set, kcall R -> R -> option Q;
}.
Arguments Discipline {_ _} _ _ _.
Arguments d_state {_ _} _ _.
Arguments d_answer {_ _} _ _ _ _.
Arguments d_next {_ _} _ _ _ _ _.

Section obeys.
Context {σ Q : Type} (D : discipline σ Q).

Fixpoint obeys {A} (q : Q) (p : prog σ A) (post : Q -> A -> Prop) : Prop :=
  match p with
  | Ret a => post q a
  | Get k => forall s, d_state D s -> obeys q (k s) post
  | Put s p => d_state D s /\ obeys q p post
  | @Call _ _ R c k => forall r, d_answer D R c r ->
      match d_next D q R c r with Some q' => obeys q' (k r) post | None => False end
  | Fail _ => True
  end.

Lemma obeys_mono {A} q (p : prog σ A) (post post' : Q -> A -> Prop) :
  obeys q p post -> (forall q a, post q a -> post' q a) -> obeys q p post'.
Proof.
  intros Hp Hm. revert q Hp. induction p as [a|k IH|s p IH|R c k IH|f]; simpl; intros q Hp;
    [by apply Hm|auto|destruct Hp; auto| |done].
  intros r Hr. specialize (Hp r Hr). destruct (d_next D q R c r); [by apply IH|done].
Qed.

Lemma obeys_bind {A B} q (p : prog σ A) (f : A -> prog σ B) post :
  obeys q p (fun q' a => obeys q' (f a) post) -> obeys q (bind p f) post.
Proof.
  revert q. induction p as [a|k IH|s p IH|R c k IH|e]; simpl; intros q Hp;
    [done|intros s Hs; by apply IH, Hp|destruct Hp; split; auto| |done].
  intros r Hr. specialize (Hp r Hr). destruct (d_next D q R c r); [by apply IH|done].
Qed.

Lemma obeys_ret {A} q (a : A) (post : Q -> A -> Prop) : post q a -> obeys q (Ret a) post.
Proof. done. Qed.

Lemma obeys_call {R : Set} q (c : kcall R) (post : Q -> R -> Prop) :
  (forall r, d_answer D R c r ->
     match d_next D q R c r with Some q' => post q' r | None => False end) ->
  obeys q (call c) post.
Proof. done. Qed.

Lemma obeys_printk q fmt args (post : Q -> unit -> Prop) :
  match d_next D q unit (Printk fmt args) tt with Some q' => post q' tt | None => False end ->
  obeys q (printk fmt args) post.
Proof. intros H [] _. exact H. Qed.

Lemma obeys_get q (post : Q -> σ -> Prop) :
  (forall s, d_state D s -> post q s) -> obeys q get post.
Proof. done. Qed.

Lemma obeys_gets {A} q (f : σ -> A) (post : Q -> A -> Prop) :
  (forall s, d_state D s -> post q (f s)) -> obeys q (gets f) post.
Proof. done. Qed.

Lemma obeys_put q s (post : Q -> unit -> Prop) :
  d_state D s -> post q tt -> obeys q (put s) post.
Proof. by split. Qed.

Lemma obeys_modify q f (post : Q -> unit -> Prop) :
  (forall s, d_state D s -> d_state D (f s)) -> post q tt -> obeys q (modify f) post.
Proof. intros Hf Hp s Hs. split; [by apply Hf|done]. Qed.

Lemma obeys_skip q (post : Q -> unit -> Prop) : post q tt -> obeys q skip post.
Proof. done. Qed.

Lemma obeys_fail {A} q f (post : Q -> A -> Prop) : obeys q (Fail f) post.
Proof. done. Qed.

(** An access outside its object ends the program. *)
Lemma obeys_access {A} q (o : option A) (post : Q -> A -> Prop) :
  (forall a, o = Some a -> post q a) -> obeys q (access o) post.
Proof. destruct o; simpl; auto. Qed.

Lemma obeys_for_each {X} (J : Q -> Prop) q (l : list X) (body : X -> prog σ unit)
    (post : Q -> unit -> Prop) :
  J q -> (forall x q, x ∈ l -> J q -> obeys q (body x) (fun q' _ => J q')) ->
  (forall q, J q -> post q tt) ->
  obeys q (for_each l body) post.
Proof.
  intros Hq Hb Hp. revert q Hq. induction l as [|x l IH]; intros q Hq.
  - apply obeys_skip. auto.
  - rewrite for_each_cons. apply obeys_bind. eapply obeys_mono; [apply Hb; [set_solver|done]|].
    intros q1 [] Hq1. apply IH; [|done]. intros y q2 Hy. apply Hb. set_solver.
Qed.

(** A loop that runs out of fuel counts as a fault. *)
Lemma obeys_loop {I R} (J : Q -> I -> Prop) q fuel (body : I -> prog σ (I + R)) i
    (post : Q -> R -> Prop) :
  J q i ->
  (forall q i, J q i -> obeys q (body i) (fun q' r =>
     match r with inl i' => J q' i' | inr r => post q' r end)) ->
  obeys q (loop fuel body i) post.
Proof.
  intros Hq Hb. revert q i Hq. induction fuel as [|fuel IH]; intros q i Hq; [done|].
  rewrite loop_S. apply obeys_bind. eapply obeys_mono; [by apply Hb|].
  intros q' [i'|r]; [apply IH|done].
Qed.

(** Where the calls of a history take the automaton. *)
Fixpoint track (q : Q) (h : history) : option Q :=
  match h with
  | [] => Some q
  | Ev c r :: h' => q' ← track q h'; d_next D q' _ c r
  end.

Lemma track_app q h h' : track q (h ++ h') = track q h' ≫= fun q' => track q' h.
Proof.
  induction h as [|[R c r] h IH]; simpl; [by destruct (track q h')|].
  rewrite IH. by destruct (track q h').
Qed.

(** A run keeps the invariant, makes no call that is not allowed, and ends, when
    it ends, in a state the judgement names. *)
Lemma obeys_run {A} (K : kernel) q (p : prog σ A) post s h o s' h' :
  (forall R h (c : kcall R), d_answer D R c (K R h c)) ->
  d_state D s -> obeys q p post -> run K p s h = (o, s', h') ->
  d_state D s' /\ exists new q', h' = new ++ h /\ track q new = Some q' /\
    forall a, o = Done a -> post q' a.
Proof.
  intros HK. revert q s h.
  induction p as [a|k IH|s0 p IH|R c k IH|f]; simpl; intros q s h Hs Hp Hr.
  - simplify_eq. split; [done|]. exists [], q. split_and!; [done..|]. by intros ? [= <-].
  - eapply IH; eauto.
  - destruct Hp as [Hs0 Hp]. eapply IH; eauto.
  - specialize (Hp _ (HK R h c)). destruct (d_next D q R c _) as [q1|] eqn:E; [|done].
    destruct (IH _ _ _ _ Hs Hp Hr) as (Hs' & new & q' & -> & Ht & Hpost). split; [done|].
    exists (new ++ [Ev c (K R h c)]), q'. rewrite <- app_assoc. split_and!; [done| |done].
    rewrite track_app. simpl. by rewrite E.
  - simplify_eq. split; [done|]. by exists [], q.
Qed.

Lemma obeys_settle {A} q (p : prog σ A) post s p' s' :
  d_state D s -> obeys q p post -> settle p s = (p', s') ->
  d_state D s' /\ obeys q p' post.
Proof.
  revert s. induction p as [a|k IH|s0 p IH|R c k IH|f]; simpl; intros s Hs Hp Hset;
    try (simplify_eq; by split).
  - eapply IH; eauto.
  - destruct Hp as [Hs0 Hp]. eapply IH; eauto.
Qed.

(** ** Side by side *)

Section threads.
Context {E kind : Type}.
Context (api : E -> forall R : Set, kcall R -> R -> E -> Prop).
Context (spawn : E -> kind -> prog σ unit -> E -> Prop).
(** [J] relates the state of the kernel to where the threads are in the
    automaton; [post] is what a kind of thread ends in. *)
Context (J : E -> list (kind * Q) -> Prop) (post : kind -> Q -> unit -> Prop).

Class Pooled := {
  pooled_answer : forall e R (c : kcall R) r e', api e R c r e' -> d_answer D R c r;
  pooled_call : forall e qs i t q R (c : kcall R) r e' q',
    J e qs -> qs !! i = Some (t, q) -> api e R c r e' -> d_next D q R c r = Some q' ->
    J e' (<[i := (t, q')]> qs);
  pooled_spawn : forall e qs t p e',
    J e qs -> spawn e t p e' -> exists q, obeys q p (post t) /\ J e' (qs ++ [(t, q)]);
}.

Definition thread_at (x : kind * prog σ unit) (y : kind * Q) : Prop :=
  x.1 = y.1 /\ obeys y.2 x.2 (post x.1).

Definition pool_inv (c : config σ E kind) : Prop :=
  d_state D (mem c) /\ exists qs, Forall2 thread_at (pool c) qs /\ J (env c) qs.

Lemma pool_step `{!Pooled} c c' : pool_inv c -> step api spawn c c' -> pool_inv c'.
Proof.
  intros (Hs & qs & Hth & HJ) Hst. destruct Hst as [i t p p' s' e' Hi Hadv|t p e' Hsp].
  - destruct p as [| | |R x k|]; simpl in Hadv; try done. destruct Hadv as (r & Hapi & Hset).
    destruct (Forall2_lookup_l _ _ _ _ _ Hth Hi) as ([t' q] & Hq & [Ht Hob]).
    simpl in Ht, Hob. subst t'. specialize (Hob r (pooled_answer _ _ _ _ _ Hapi)).
    destruct (d_next D q R x r) as [q'|] eqn:En; [|done].
    destruct (obeys_settle _ _ _ _ _ _ Hs Hob Hset) as [Hs' Hob'].
    split; [done|]. exists (<[i := (t, q')]> qs). split; [|by eapply pooled_call].
    apply Forall2_insert; [done|]. by split.
  - destruct (pooled_spawn _ _ _ _ _ HJ Hsp) as (q & Hob & HJ').
    destruct (settle p (mem c)) as [p' s'] eqn:Hset.
    destruct (obeys_settle _ _ _ _ _ _ Hs Hob Hset) as [Hs' Hob']. simpl.
    split; [done|]. exists (qs ++ [(t, q)]). split; [|done].
    apply Forall2_app; [done|]. constructor; [by split|done].
Qed.

Lemma obeys_threads `{!Pooled} c0 c :
  pool_inv c0 -> reachable api spawn c0 c -> pool_inv c.
Proof. intros H0. apply reachable_inv; [done|]. intros. by eapply pool_step. Qed.
End threads.
End obeys.

#[global] Arguments obeys : simpl never.

(** ** Automation

    [obeys_step] is one instruction; [obeys_go] goes on as long as the program
    says how, and cases on what it branches on. *)

Ltac obeys_step :=
  lazymatch goal with
  | |- obeys _ _ (bind _ _) _ => apply obeys_bind
  | |- obeys _ _ (Ret _) _ => apply obeys_ret
  | |- obeys _ _ (printk _ _) _ => apply obeys_printk
  | |- obeys _ _ (@call _ ?R _) _ =>
      apply obeys_call; let r := fresh "r" in let H := fresh "Hr" in intros r H
  | |- obeys _ _ get _ =>
      apply obeys_get; let s := fresh "s" in let H := fresh "Hs" in intros s H
  | |- obeys _ _ (gets _) _ =>
      apply obeys_gets; let s := fresh "s" in let H := fresh "Hs" in intros s H
  | |- obeys _ _ (put _) _ => apply obeys_put
  | |- obeys _ _ (modify _) _ => apply obeys_modify
  | |- obeys _ _ skip _ => apply obeys_skip
  | |- obeys _ _ (Fail _) _ => apply obeys_fail
  | |- obeys _ _ (access _) _ =>
      apply obeys_access; let a := fresh "a" in let H := fresh "Ha" in intros a H
  | |- obeys _ _ (match ?x with _ => _ end) _ => destruct x eqn:?
  | |- match (if ?b then _ else _) with _ => _ end => destruct b eqn:?
  end; cbv beta iota; cbn [negb].
Ltac obeys_red :=
  repeat match goal with
  | |- context [d_next ?D ?q ?R ?c ?r] =>
      let v := eval cbn in (d_next D q R c r) in
      change (d_next D q R c r) with v
  end; cbv beta iota.
Ltac obeys_go := repeat (obeys_step; obeys_red).
