(* ===== verification/Ownership.v ===== *)
(** * What a program owns while others run

    [own ro n s H p post] says of a program that it never faults, gives back
    only what it holds, and ends as [post] says, while other code of its module
    runs between any two of its kernel calls.  [s] is the value of the variables
    now, [H] what the program holds, and [n] counts the entries of the module
    that are open: the ways on which the kernel can call a handler, opened and
    closed by calls such as [request_irq] and [free_irq] ([gate]).

    There are two roles.  The handlers run while an entry is open and keep the
    variables in [vw_share]; they leave alone what [vw_fixed] reads.  The main
    program ([my_init], then [my_exit]) is alone while no entry is open, and
    then knows the variables; while one is, it knows what the handlers keep.

    The judgement is defined by recursion on the program and speaks of no
    history, so that programs typed one by one are safe together
    ([Interleave]). *)

From stdpp Require Import list.
From S2P Require Import Prelude Kernel Prog Threads.

#[local] Open Scope Z_scope.

(** What the handlers of a module and its main program agree on. *)
Record view (σ : Type) := View {
  vw_share : σ -> Prop;
  vw_rest : Type;
  vw_fixed : σ -> vw_rest;
}.
Arguments View {_} _ _ _.
Arguments vw_share {_} _ _.
Arguments vw_rest {_} _.
Arguments vw_fixed {_} _ _.

Inductive role := Main | Handler.

Section own.
Context {σ : Type} (V : view σ) (gate : event -> Z) (rely : forall R : Set, kcall R -> R -> Prop).
Implicit Types (s : σ) (n : Z) (H : list resource).

(** What others may do to the variables while [n] entries are open. *)
Definition interf (ro : role) n s s' : Prop :=
  match ro with
  | Main => if 0 <? n then vw_share V s' /\ vw_fixed V s' = vw_fixed V s else s' = s
  | Handler => vw_share V s'
  end.
(** What the program itself may do to them. *)
Definition guar (ro : role) n s s' : Prop :=
  match ro with
  | Main => 0 < n -> vw_share V s'
  | Handler => vw_share V s' /\ vw_fixed V s' = vw_fixed V s
  end.
(** When a call may change the number of open entries from [n] to [n']: a
    handler's may not, and the first entry is opened once the variables are ready. *)
Definition turn (ro : role) n n' s : Prop :=
  match ro with
  | Main => n <= 0 < n' -> vw_share V s
  | Handler => n' = n
  end.

Fixpoint own (ro : role) {A} n s H (p : prog σ A)
    (post : Z -> σ -> list resource -> A -> Prop) : Prop :=
  match p with
  | Ret a => post n s H a
  | Get k => own ro n s H (k s) post
  | Put s' p => guar ro n s s' /\ own ro n s' H p post
  | @Call _ _ R c k => forall r, rely R c r ->
      let e := Ev c r in let n' := n + gate e in
      turn ro n n' s /\
      exists H', H ≡ₚ releases e ++ H' /\
        forall s', interf ro (Z.max n n') s s' -> own ro n' s' (acquires e ++ H') (k r) post
  | Fail _ => False
  end.

(** ** Rules *)

(** The order of what is held does not matter. *)
Lemma own_mono {A} ro n s H H' (p : prog σ A) (post post' : Z -> σ -> list resource -> A -> Prop) :
  own ro n s H p post -> H ≡ₚ H' ->
  (forall n s H H' a, post n s H a -> H ≡ₚ H' -> post' n s H' a) -> own ro n s H' p post'.
Proof.
  intros Hp HH Hm. revert n s H H' HH Hp.
  induction p as [a|k IH|s0 p IH|R c k IH|f]; simpl; intros n s H H' HH Hp.
  - by eapply Hm.
  - by eapply IH; [|apply Hp].
  - destruct Hp as [Hk Hp]. split; [done|]. by eapply IH.
  - intros r Hr. destruct (Hp r Hr) as (Ht & H1 & HH1 & Hk). split; [done|].
    exists H1. split; [by rewrite <- HH|]. intros s' Hs'. by eapply IH; [done|apply Hk].
  - done.
Qed.

Lemma own_post {A} ro n s H (p : prog σ A) (post post' : Z -> σ -> list resource -> A -> Prop) :
  own ro n s H p post -> (forall n s H a, post n s H a -> post' n s H a) -> own ro n s H p post'.
Proof.
  intros Hp Hm. revert n s H Hp.
  induction p as [a|k IH|s0 p IH|R c k IH|f]; simpl; intros n s H Hp; auto.
  - destruct Hp. auto.
  - intros r Hr. destruct (Hp r Hr) as (Ht & H1 & HH1 & Hk). split; [done|].
    exists H1. split; [done|]. intros s' Hs'. by apply IH, Hk.
Qed.

Lemma own_bind {A B} ro n s H (p : prog σ A) (f : A -> prog σ B) post :
  own ro n s H p (fun n' s' H' a => own ro n' s' H' (f a) post) -> own ro n s H (bind p f) post.
Proof.
  revert n s H. induction p as [a|k IH|s0 p IH|R c k IH|e]; simpl; intros n s H Hp; auto.
  - destruct Hp as [Hk Hp]. split; [done|]. by apply IH.
  - intros r Hr. destruct (Hp r Hr) as (Ht & H1 & HH1 & Hk). split; [done|].
    exists H1. split; [done|]. intros s' Hs'. by apply IH, Hk.
Qed.

Section rules.
Context (ro : role).

Lemma own_ret {A} n s H (a : A) (post : Z -> σ -> list resource -> A -> Prop) :
  post n s H a -> own ro n s H (Ret a) post.
Proof. done. Qed.
Lemma own_skip n s H (post : Z -> σ -> list resource -> unit -> Prop) :
  post n s H tt -> own ro n s H skip post.
Proof. done. Qed.
Lemma own_get n s H (post : Z -> σ -> list resource -> σ -> Prop) :
  post n s H s -> own ro n s H get post.
Proof. done. Qed.
Lemma own_gets {A} n s H (f : σ -> A) (post : Z -> σ -> list resource -> A -> Prop) :
  post n s H (f s) -> own ro n s H (gets f) post.
Proof. done. Qed.
Lemma own_put n s H s' (post : Z -> σ -> list resource -> unit -> Prop) :
  guar ro n s s' -> post n s' H tt -> own ro n s H (put s') post.
Proof. by split. Qed.
Lemma own_modify n s H f (post : Z -> σ -> list resource -> unit -> Prop) :
  guar ro n s (f s) -> post n (f s) H tt -> own ro n s H (modify f) post.
Proof. by split. Qed.
Lemma own_access {A} n s H (o : option A) a (post : Z -> σ -> list resource -> A -> Prop) :
  o = Some a -> post n s H a -> own ro n s H (access o) post.
Proof. by intros ->. Qed.

(** A call, with what is left of [H] after what it gives back. *)
Lemma own_call {R : Set} n s H (c : kcall R) (post : Z -> σ -> list resource -> R -> Prop) :
  (forall r, rely R c r ->
     turn ro n (n + gate (Ev c r)) s /\
     exists H', H ≡ₚ releases (Ev c r) ++ H' /\
       forall s', interf ro (Z.max n (n + gate (Ev c r))) s s' ->
         post (n + gate (Ev c r)) s' (acquires (Ev c r) ++ H') r) ->
  own ro n s H (call c) post.
Proof. done. Qed.

(** The same with a name for the number of entries that are open then. *)
Lemma own_call_turn {R : Set} n s H (c : kcall R) (post : Z -> σ -> list resource -> R -> Prop) :
  (forall r, rely R c r -> exists n' H', n + gate (Ev c r) = n' /\
     H ≡ₚ releases (Ev c r) ++ H' /\ turn ro n n' s /\
     forall s', interf ro (Z.max n n') s s' -> post n' s' (acquires (Ev c r) ++ H') r) ->
  own ro n s H (call c) post.
Proof.
  intros Hp. apply own_call. intros r Hr. destruct (Hp r Hr) as (n' & H' & -> & HH & Ht & Hk).
  split; [done|]. by exists H'.
Qed.

(** One that opens and closes nothing, and one that does not touch the ledger either. *)
Lemma own_call_quiet {R : Set} n s H (c : kcall R) (post : Z -> σ -> list resource -> R -> Prop) :
  (forall r, gate (Ev c r) = 0) ->
  (forall r, rely R c r -> exists H', H ≡ₚ releases (Ev c r) ++ H' /\
     forall s', interf ro n s s' -> post n s' (acquires (Ev c r) ++ H') r) ->
  own ro n s H (call c) post.
Proof.
  intros Hg Hp. apply own_call. intros r Hr. destruct (Hp r Hr) as (H' & HH & Hk).
  rewrite Hg, Z.add_0_r, Z.max_id. split; [by destruct ro; simpl; [lia|]|]. by exists H'.
Qed.
Lemma own_call_idle {R : Set} n s H (c : kcall R) (post : Z -> σ -> list resource -> R -> Prop) :
  (forall r, gate (Ev c r) = 0 /\ releases (Ev c r) = [] /\ acquires (Ev c r) = []) ->
  (forall r, rely R c r -> forall s', interf ro n s s' -> post n s' H r) ->
  own ro n s H (call c) post.
Proof.
  intros Hi Hp. apply own_call_quiet; [apply Hi|]. intros r Hr. exists H.
  destruct (Hi r) as (_ & -> & ->). split; [done|]. by apply Hp.
Qed.
(** One that takes, when it does, what the answer says. *)
Lemma own_call_take {R : Set} n s H (c : kcall R) (post : Z -> σ -> list resource -> R -> Prop) :
  (forall r, gate (Ev c r) = 0 /\ releases (Ev c r) = []) ->
  (forall r, rely R c r -> forall s', interf ro n s s' -> post n s' (acquires (Ev c r) ++ H) r) ->
  own ro n s H (call c) post.
Proof.
  intros Hi Hp. apply own_call_quiet; [apply Hi|]. intros r Hr. exists H.
  destruct (Hi r) as (_ & ->). split; [done|]. by apply Hp.
Qed.
(** One that gives back [x]. *)
Lemma own_call_give {R : Set} n s H H' x (c : kcall R)
    (post : Z -> σ -> list resource -> R -> Prop) :
  (forall r, gate (Ev c r) = 0 /\ releases (Ev c r) = [x] /\ acquires (Ev c r) = []) ->
  H ≡ₚ x :: H' ->
  (forall r, rely R c r -> forall s', interf ro n s s' -> post n s' H' r) ->
  own ro n s H (call c) post.
Proof.
  intros Hi HH Hp. apply own_call_quiet; [apply Hi|]. intros r Hr. exists H'.
  destruct (Hi r) as (_ & -> & ->). split; [done|]. by apply Hp.
Qed.

(** The invariant rule of [for_each]: [J] speaks of the elements done. *)
Lemma own_for_each {X} (l : list X) (body : X -> prog σ unit)
    (J : list X -> Z -> σ -> list resource -> Prop)
    (post : Z -> σ -> list resource -> unit -> Prop) n s H :
  J [] n s H ->
  (forall dn x todo n s H, l = dn ++ x :: todo -> J dn n s H ->
     own ro n s H (body x) (fun n' s' H' _ => J (dn ++ [x]) n' s' H')) ->
  (forall n s H, J l n s H -> post n s H tt) ->
  own ro n s H (for_each l body) post.
Proof.
  intros HJ Hbody Hpost.
  assert (forall todo dn n s H, l = dn ++ todo -> J dn n s H ->
    own ro n s H (for_each todo body) post) as Hgen; [|by apply (Hgen l [])].
  intros todo. induction todo as [|x todo IH]; intros dn n1 s1 H1 Hl HJ1.
  - rewrite app_nil_r in Hl. subst dn. by apply own_skip, Hpost.
  - rewrite for_each_cons. apply own_bind. eapply own_post; [by eapply Hbody|].
    intros n2 s2 H2 [] HJ2. eapply IH; [|exact HJ2]. by rewrite <- app_assoc.
Qed.
End rules.

(** ** Threads

    What is known of a thread between two of its steps: the judgement, for
    every value that the others may leave in the variables. *)
Definition ready (ro : role) {A} n s H (p : prog σ A) post : Prop :=
  forall s', interf ro n s s' -> own ro n s' H p post.
(** The variables, seen from the thread: shared while an entry is open. *)
Definition seen (ro : role) n s : Prop :=
  match ro with Main => 0 < n -> vw_share V s | Handler => vw_share V s end.

Lemma interf_refl ro n s : seen ro n s -> interf ro n s s.
Proof. destruct ro; simpl; [|done]. destruct (Z.ltb_spec 0 n); auto. Qed.
Lemma interf_trans ro n s1 s2 s3 : interf ro n s1 s2 -> interf ro n s2 s3 -> interf ro n s1 s3.
Proof.
  destruct ro; simpl; [|done]. destruct (0 <? n); [|by intros ->].
  intros [_ H1] [H2 H3]. split; [done|]. congruence.
Qed.

Lemma ready_now ro {A} n s H (p : prog σ A) post :
  seen ro n s -> ready ro n s H p post -> own ro n s H p post.
Proof. intros Hs Hp. by apply Hp, interf_refl. Qed.
Lemma ready_interf ro {A} n s s' H (p : prog σ A) post :
  ready ro n s H p post -> interf ro n s s' -> ready ro n s' H p post.
Proof. intros Hp Hs s'' Hs'. eapply Hp, interf_trans; eauto. Qed.

(** The thread has ended. *)
Lemma ready_ret ro {A} n s H (a : A) post :
  ready ro n s H (Ret a) post -> seen ro n s -> post n s H a.
Proof. intros Hp Hs. exact (ready_now _ _ _ _ _ _ Hs Hp). Qed.

(** The answer of a call is delivered. *)
Lemma ready_call ro {A} n s H (R : Set) (c : kcall R) (k : R -> prog σ A) post r :
  seen ro n s -> ready ro n s H (Call c k) post -> rely R c r ->
  turn ro n (n + gate (Ev c r)) s /\
  exists H', H ≡ₚ releases (Ev c r) ++ H' /\
    ready ro (n + gate (Ev c r)) s (acquires (Ev c r) ++ H') (k r) post.
Proof.
  intros Hs Hp Hr. destruct (ready_now _ _ _ _ _ _ Hs Hp r Hr) as (Ht & H' & HH & Hk).
  split; [done|]. exists H'. split; [done|]. intros s' Hs'. apply Hk.
  set (n' := n + gate (Ev c r)) in *. destruct ro; simpl in *; [|done].
  destruct (Z.ltb_spec 0 n').
  - by rewrite (proj2 (Z.ltb_lt 0 (Z.max n n'))) by lia.
  - subst s'. destruct (Z.ltb_spec 0 (Z.max n n')); [|done]. split; [apply Hs; lia|done].
Qed.

Lemma guar_refl ro n s : seen ro n s -> guar ro n s s.
Proof. by destruct ro. Qed.
Lemma guar_trans ro n s1 s2 s3 : guar ro n s1 s2 -> guar ro n s2 s3 -> guar ro n s1 s3.
Proof. destruct ro; simpl; [done|]. intros [_ H1] [H2 H3]. split; [done|]. congruence. Qed.
Lemma guar_seen ro n s s' : guar ro n s s' -> seen ro n s'.
Proof. destruct ro; simpl; tauto. Qed.

(** The code up to the next call runs. *)
Lemma own_settle ro {A} n s H (p : prog σ A) post p' s' :
  seen ro n s -> own ro n s H p post -> settle p s = (p', s') ->
  guar ro n s s' /\ own ro n s' H p' post /\
  match p' with Get _ | Put _ _ => False | _ => True end.
Proof.
  revert s. induction p as [a|k IH|s0 p IH|R c k IH|f]; simpl; intros s Hs Hp Hset.
  - simplify_eq. split; [by apply guar_refl|done].
  - by eapply IH.
  - destruct Hp as [Hg Hp]. destruct (IH s0 (guar_seen _ _ _ _ Hg) Hp Hset) as (Hg' & ? & ?).
    split; [by eapply guar_trans|done].
  - simplify_eq. split; [by apply guar_refl|done].
  - done.
Qed.

(** What holds at the end of a thread holds whatever the others do then. *)
Definition stable (ro : role) {A} (post : Z -> σ -> list resource -> A -> Prop) : Prop :=
  forall n s s' H a, post n s H a -> interf ro n s s' -> post n s' H a.

Lemma ready_settle ro {A} n s H (p : prog σ A) post p' s' :
  stable ro post -> seen ro n s -> ready ro n s H p post -> settle p s = (p', s') ->
  guar ro n s s' /\ ready ro n s' H p' post.
Proof.
  intros Hst Hs Hp Hset.
  destruct (own_settle _ _ _ _ _ _ _ _ Hs (ready_now _ _ _ _ _ _ Hs Hp) Hset) as (Hg & Hp' & Hh).
  split; [done|]. intros s'' Hs''. destruct p' as [a| | |R c k|f]; simpl in *; try done.
  - by eapply Hst.
  - intros r Hr. destruct (Hp' r Hr) as (Ht & H' & HH & Hk). clear Hp'.
    set (n' := n + gate (Ev c r)) in *.
    assert (s'' = s' /\ ro = Main \/ interf ro (Z.max n n') s' s'' /\ (ro = Main -> 0 < n))
      as [[-> _]|[Hmax Hopen]].
    { destruct ro; simpl in *; [|by right]. destruct (Z.ltb_spec 0 n); [right|by left].
      by rewrite (proj2 (Z.ltb_lt 0 (Z.max n n'))) by lia. }
    + split; [done|]. by exists H'.
    + split; [destruct ro; simpl in *; [specialize (Hopen eq_refl); lia|done]|]. exists H'. split; [done|].
      intros s3 Hs3. eapply Hk, interf_trans; eauto.
Qed.

(** One thread of the module does not disturb another: what the main program
    does is allowed for a handler, and what a handler does for all. *)
Lemma guar_interf ro n s s' :
  0 < n -> guar ro n s s' -> interf Handler n s s' /\ (ro = Handler -> interf Main n s s').
Proof.
  intros Hn. destruct ro; simpl; intros Hg; [by split; [auto|]|].
  rewrite (proj2 (Z.ltb_lt 0 n) Hn). by destruct Hg.
Qed.
End own.

(** The view of a module whose handlers do not touch its variables. *)
Definition still {σ} : view σ := View (fun _ => True) σ id.
Lemma still_interf {σ} n (s s' : σ) : interf still Main n s s' -> s' = s.
Proof. simpl. destruct (0 <? n); [by intros []|done]. Qed.

#[global] Arguments own : simpl never.
#[global] Arguments interf _ _ _ _ _ _ /.
#[global] Arguments guar _ _ _ _ _ _ /.

(** ** The ledger *)

Lemma remove_all_app rs X L : X ≡ₚ rs ++ L -> exists L', remove_all rs X = Some L' /\ L' ≡ₚ L.
Proof.
  revert X. induction rs as [|r rs IH]; simpl; intros X HX; [by exists X|].
  destruct (remove_first r X) as [X'|] eqn:E.
  - apply remove_first_Permutation in E. rewrite E in HX.
    apply Permutation.Permutation_cons_inv in HX. by apply IH in HX.
  - assert (is_Some (remove_first r X)) as [X' HX'].
    { apply remove_first_in. rewrite HX. apply list_elem_of_here. }
    congruence.
Qed.

(** What an event does to a share of the ledger it does to the whole. *)
Lemma holds_event L0 e h L :
  holds L0 h (releases e ++ L) -> holds L0 (e :: h) (acquires e ++ L).
Proof.
  intros (X & HX & HXL). destruct (remove_all_app _ _ _ HXL) as (L' & HL' & HP).
  exists (acquires e ++ L'). split; [by eapply held_cons|]. by rewrite HP.
Qed.

(** ** Automation

    [own_step] is one instruction of the program in the goal, where it opens,
    closes, takes and gives back nothing; [own_go] goes on as long as it can. *)
Ltac own_idle := intros; split_and!; reflexivity.
Ltac own_seen Hs :=
  lazymatch type of Hs with
  | interf still Main _ _ _ => apply still_interf in Hs
  | _ => cbn in Hs
  end;
  match type of Hs with
  | True => clear Hs
  | True /\ ?s' = ?s => is_var s'; destruct Hs as [_ Hs]; subst s'
  | ?s' = ?s => is_var s'; subst s'
  | _ /\ _ => let H := fresh "Hs" in destruct Hs as [H Hs]
  | _ => idtac
  end.
Ltac own_next :=
  let s := fresh "s" in let Hs := fresh "Hs" in intros s Hs; own_seen Hs.
Ltac own_answer := let r := fresh "r" in let Hr := fresh "Hr" in intros r Hr; own_next.
Ltac own_step :=
  lazymatch goal with
  | |- own _ _ _ _ _ _ _ (bind _ _) _ => apply own_bind
  | |- own _ _ _ _ _ _ _ (Ret _) _ => apply own_ret
  | |- own _ _ _ _ _ _ _ (printk _ _) _ => apply own_call_idle; [own_idle|own_answer]
  | |- own _ _ _ _ _ _ _ (call _) _ => apply own_call_idle; [own_idle|own_answer]
  | |- own _ _ _ _ _ _ _ get _ => apply own_get
  | |- own _ _ _ _ _ _ _ (gets _) _ => apply own_gets
  | |- own _ _ _ _ _ _ _ (put _) _ => apply own_put
  | |- own _ _ _ _ _ _ _ (modify _) _ => apply own_modify
  | |- own _ _ _ _ _ _ _ skip _ => apply own_skip
  end; cbv beta.
Ltac own_go := repeat own_step.
Ltac own_if :=
  lazymatch goal with
  | |- own _ _ _ _ _ _ _ (if ?b then _ else _) _ => destruct b eqn:?
  end.
