(* ===== verification/Modules.v ===== *)
(** * Modules as components, and systems of them

    A [kmodule] is what a source file hands to the kernel: its variables, its
    init and exit functions and its handlers.  The kernel keeps a module loaded
    when its init function returns zero or a positive number, and drops it when
    the result is negative.  [Contract] is what a well-behaved module promises:
    a load that is dropped keeps nothing, a handler of a loaded module runs
    without a fault, and the unload gives back exactly what the module holds.
    The promise says nothing of the order in which modules are loaded, used and
    unloaded; [system] is any number of them, and [system_safe_gen] what
    follows: a load, a call and an unload are each one event, done to its end. *)

From stdpp Require Import relations.
From Stdlib Require Import Permutation.
From S2P Require Import Prelude Kernel Prog Threads Discipline.

#[local] Open Scope Z_scope.

(** [km_start] says which values the variables may have before the load: the
    static initialisers, and the module parameters. *)
Record kmodule := KModule {
  km_state : Type;
  km_start : km_state -> Prop;
  km_init : prog km_state Z;
  km_exit : prog km_state unit;
  km_op : Type;
  km_handler : km_op -> prog km_state unit;
}.

Class Contract (K : kernel) (m : kmodule) := {
  (** The variables of a loaded module, and what it holds then. *)
  ct_loaded : km_state m -> list resource -> Prop;
  (** When the kernel may call a handler. *)
  ct_valid : km_op m -> km_state m -> history -> Prop;
  ct_init : forall s L L0 h,
    km_start m s -> holds L0 h L ->
    wp K (km_init m) (fun r s' h' =>
      if r <? 0 then holds L0 h' L
      else exists R, ct_loaded s' R /\ holds L0 h' (R ++ L)) s h;
  ct_handler : forall o s R L L0 h,
    ct_loaded s R -> ct_valid o s h -> holds L0 h (R ++ L) ->
    wp K (km_handler m o) (fun _ s' h' =>
      exists R', ct_loaded s' R' /\ holds L0 h' (R' ++ L)) s h;
  ct_exit : forall s R L L0 h,
    ct_loaded s R -> holds L0 h (R ++ L) ->
    wp K (km_exit m) (fun _ _ h' => holds L0 h' L) s h;
}.

(** ** Programs that acquire and give back nothing *)

Definition neutral_next (_ : unit) (R : Set) (c : kcall R) (r : R) : option unit :=
  match acquires (Ev c r), releases (Ev c r) with [], [] => Some tt | _, _ => None end.
(** [I] is what such a program keeps of its variables. *)
Definition Neutral {σ : Type} (I : σ -> Prop) : discipline σ unit :=
  Discipline I (fun _ _ _ => True) neutral_next.

Lemma neutral_track {σ} (I : σ -> Prop) new h L0 L :
  track (Neutral I) tt new = Some tt -> holds L0 h L -> holds L0 (new ++ h) L.
Proof.
  revert h. induction new as [|[R c r] new IH]; simpl; intros h Ht HL; [done|].
  destruct (track (Neutral I) tt new) as [[]|]; [|done]. simpl in Ht.
  unfold neutral_next in Ht.
  destruct (acquires (Ev c r)) eqn:Ha, (releases (Ev c r)) eqn:Hr; try done.
  apply holds_idle; auto.
Qed.

(** Besides what such a program does otherwise. *)
Lemma wp_neutral {σ A} (K : kernel) (I : σ -> Prop) (p : prog σ A) Q s h :
  wp K p Q s h -> I s -> obeys (Neutral I) tt p (fun _ _ => True) ->
  wp K p (fun a s' h' =>
    Q a s' h' /\ I s' /\ forall L0 L, holds L0 h L -> holds L0 h' L) s h.
Proof.
  unfold wp. intros Hw Hs Ho. destruct (run K p s h) as [[o s'] h'] eqn:E.
  destruct (obeys_run (Neutral I) K tt p _ s h o s' h' ltac:(done) Hs Ho E)
    as (HI & new & [] & -> & Ht & _).
  destruct o; [|done]. split_and!; [done..|]. intros L0 L. by apply (neutral_track I).
Qed.

Section system.
Context (K : kernel).

(** A place for a module, and its variables while it is loaded. *)
Record slot := Slot {
  sl_mod : kmodule; sl_contract : Contract K sl_mod; sl_state : option (km_state sl_mod) }.

Definition system : Type := list slot * history.

(** One event: [insmod], a call of a handler, [rmmod]. *)
Inductive sys_step : system -> system -> Prop :=
| sys_insmod i m ct s0 slots h r s' h' :
    slots !! i = Some (Slot m ct None) -> km_start m s0 ->
    run K (km_init m) s0 h = (Done r, s', h') ->
    sys_step (slots, h) (<[i := Slot m ct (if r <? 0 then None else Some s')]> slots, h')
| sys_call i m ct s slots h o r s' h' :
    slots !! i = Some (Slot m ct (Some s)) -> ct_valid (Contract := ct) o s h ->
    run K (km_handler m o) s h = (Done r, s', h') ->
    sys_step (slots, h) (<[i := Slot m ct (Some s')]> slots, h')
| sys_rmmod i m ct s slots h r s' h' :
    slots !! i = Some (Slot m ct (Some s)) ->
    run K (km_exit m) s h = (Done r, s', h') ->
    sys_step (slots, h) (<[i := Slot m ct None]> slots, h').

(** An event whose program stops at a fault. *)
Inductive sys_fault : system -> Prop :=
| fault_insmod i m ct s0 slots h f s' h' :
    slots !! i = Some (Slot m ct None) -> km_start m s0 ->
    run K (km_init m) s0 h = (Fault f, s', h') -> sys_fault (slots, h)
| fault_call i m ct s slots h o f s' h' :
    slots !! i = Some (Slot m ct (Some s)) -> ct_valid (Contract := ct) o s h ->
    run K (km_handler m o) s h = (Fault f, s', h') -> sys_fault (slots, h)
| fault_rmmod i m ct s slots h f s' h' :
    slots !! i = Some (Slot m ct (Some s)) ->
    run K (km_exit m) s h = (Fault f, s', h') -> sys_fault (slots, h).

Definition slot_holds (x : slot) (R : list resource) : Prop :=
  match x with
  | Slot m ct None => R = []
  | Slot m ct (Some s) => ct_loaded (Contract := ct) s R
  end.

Definition sys_inv (L0 L : list resource) (c : system) : Prop :=
  exists Rs, Forall2 slot_holds c.1 Rs /\ holds L0 c.2 (mjoin Rs ++ L).

Lemma mjoin_replicate_nil {A} n : mjoin (replicate n (@nil A)) = [].
Proof. induction n; [done|]. by simpl. Qed.

(** What the module of slot [i] holds, and the rest. *)
Lemma mjoin_insert_perm {A} (Rs : list (list A)) i R R' :
  Rs !! i = Some R -> mjoin (<[i := R']> Rs) ≡ₚ R' ++ mjoin (<[i := []]> Rs).
Proof.
  revert i. induction Rs as [|R1 Rs IH]; intros [|i]; simpl; intros Hi; simplify_eq; [done|].
  rewrite (IH i) by done. rewrite !app_assoc. by rewrite (Permutation_app_comm R1 R').
Qed.

(** The frame of an event: what one module does to its share of the ledger. *)
Lemma sys_inv_frame L0 L slots h i x :
  sys_inv L0 L (slots, h) -> slots !! i = Some x ->
  exists R Lf, slot_holds x R /\ holds L0 h (R ++ Lf) /\
    forall y R' h', slot_holds y R' -> holds L0 h' (R' ++ Lf) ->
      sys_inv L0 L (<[i := y]> slots, h').
Proof.
  intros (Rs & HRs & HL) Hi. simpl in *.
  destruct (Forall2_lookup_l _ _ _ _ _ HRs Hi) as (R & HR & Hx).
  exists R, (mjoin (<[i := []]> Rs) ++ L). split_and!; [done| |].
  - rewrite <- (list_insert_id Rs i R HR) in HL.
    by rewrite (mjoin_insert_perm _ _ _ _ HR), <- app_assoc in HL.
  - intros y R' h' Hy HL'. exists (<[i := R']> Rs). simpl. split; [by apply Forall2_insert|].
    by rewrite (mjoin_insert_perm _ _ _ _ HR), <- app_assoc.
Qed.

Lemma wp_fault {σ A} (p : prog σ A) Q s h f s' h' :
  wp K p Q s h -> run K p s h = (Fault f, s', h') -> False.
Proof. unfold wp. intros H E. by rewrite E in H. Qed.

Lemma wp_done {σ A} (p : prog σ A) Q s h a s' h' :
  wp K p Q s h -> run K p s h = (Done a, s', h') -> Q a s' h'.
Proof. unfold wp. intros H E. by rewrite E in H. Qed.

Lemma sys_step_inv L0 L c c' : sys_inv L0 L c -> sys_step c c' -> sys_inv L0 L c'.
Proof.
  intros HI Hst.
  destruct Hst as [i m ct s0 slots h r s' h' Hi Hs Hr
                  |i m ct s slots h o r s' h' Hi Hv Hr|i m ct s slots h r s' h' Hi Hr];
    destruct (sys_inv_frame _ _ _ _ _ _ HI Hi) as (R & Lf & Hx & HL & Hput); simpl in Hx.
  - subst R. eapply (wp_done _ _ _ _ _ _ _ (ct_init s0 Lf L0 h Hs HL)) in Hr. destruct (r <? 0).
    + by apply (Hput _ []).
    + destruct Hr as (R & HR & HL'). by apply (Hput _ R).
  - eapply (wp_done _ _ _ _ _ _ _ (ct_handler o s R Lf L0 h Hx Hv HL)) in Hr.
    destruct Hr as (R' & HR & HL'). by apply (Hput _ R').
  - eapply (wp_done _ _ _ _ _ _ _ (ct_exit s R Lf L0 h Hx HL)) in Hr. by apply (Hput _ []).
Qed.

Lemma sys_inv_no_fault L0 L c : sys_inv L0 L c -> ~ sys_fault c.
Proof.
  intros HI Hf.
  destruct Hf as [i m ct s0 slots h f s' h' Hi Hs Hr
                 |i m ct s slots h o f s' h' Hi Hv Hr|i m ct s slots h f s' h' Hi Hr];
    destruct (sys_inv_frame _ _ _ _ _ _ HI Hi) as (R & Lf & Hx & HL & _); simpl in Hx.
  - subst R. exact (wp_fault _ _ _ _ _ _ _ (ct_init s0 Lf L0 h Hs HL) Hr).
  - exact (wp_fault _ _ _ _ _ _ _ (ct_handler o s R Lf L0 h Hx Hv HL) Hr).
  - exact (wp_fault _ _ _ _ _ _ _ (ct_exit s R Lf L0 h Hx HL) Hr).
Qed.

Definition unloaded (c : system) : Prop := Forall (fun x => sl_state x = None) c.1.

Lemma unloaded_holds L0 L c : unloaded c -> sys_inv L0 L c -> holds L0 c.2 L.
Proof.
  intros Hu (Rs & HRs & HL). replace (mjoin Rs) with (@nil resource) in HL; [done|].
  clear HL. unfold unloaded in Hu. induction HRs as [|[m ct o] R slots Rs Hx _ IH]; [done|].
  apply Forall_cons in Hu as [Ho Hu]. simpl in Ho. subst o. simpl in Hx. subst R. simpl. auto.
Qed.

Lemma unloaded_inv L0 L c : unloaded c -> holds L0 c.2 L -> sys_inv L0 L c.
Proof.
  intros Hu HL. exists (replicate (length c.1) []). split.
  - apply Forall2_same_length_lookup_2; [by rewrite length_replicate|].
    intros i [m ct o] R Hx HR. apply lookup_replicate in HR as [-> _].
    unfold unloaded in Hu. rewrite Forall_lookup in Hu. specialize (Hu _ _ Hx). simpl in Hu.
    by subst o.
  - by rewrite mjoin_replicate_nil.
Qed.

(** The modules of a system do not disturb each other. *)
Lemma system_safe_gen L0 L c0 c :
  unloaded c0 -> holds L0 c0.2 L -> rtc sys_step c0 c ->
  ~ sys_fault c /\ sys_inv L0 L c /\ (unloaded c -> holds L0 c.2 L).
Proof.
  intros Hu HL Hr. apply (unloaded_inv L0 L) in Hu as HI; [|done].
  assert (sys_inv L0 L c) as HI'.
  { clear Hu HL. induction Hr as [|c0 c1 c2 Hs _ IH]; [done|]. by eapply IH, sys_step_inv. }
  split_and!; [by eapply sys_inv_no_fault|done|]. intros Hu'. by apply unloaded_holds.
Qed.
End system.
