(* ===== verification/Interleave.v ===== *)
(** * Modules and their handlers, interleaved call by call

    In the system of [Modules] a load, a handler and an unload are each one
    event.  Here they are threads: at any moment the kernel lets the load or the
    unload of some module, or one of the handlers that are running, do its next
    kernel call, or the code up to the call after.  Handlers of a module start
    as soon as it opened an entry, often while [my_init] still runs, and until
    the last entry is closed; what closes it waits for those that run.

    [Component] is the interface: what each module promises, program by program,
    in the judgement of [Ownership].  [interleaved_gen] is what follows for any
    number of modules that keep it: in every interleaving no thread faults, the
    ledger is the union of what the threads own, and no handler is left running
    in a module that is not loaded. *)

From stdpp Require Import relations.
From Stdlib Require Import Permutation.
From S2P Require Import Prelude Kernel Prog Threads Ownership Modules.

#[local] Open Scope Z_scope.

(** How the kernel calls a module.  [wr_gate] counts the entries that a call
    opens and closes; [wr_users] is what the users of the module hand over in
    the answers of the kernel, and [wr_valid] which calls of a handler may come.
    A pinned module counts its users: they come while it is loaded, and it is
    not unloaded before they are gone. *)
Class Wiring (m : kmodule) := {
  wr_gate : event -> Z;
  wr_users : forall R : Set, kcall R -> R -> Prop;
  wr_valid : km_op m -> Prop;
  wr_pinned : bool;
}.

Section interleave.
Context (K : kernel).

(** ** A module in the system *)

Inductive phase (m : kmodule) :=
| Out | Loading (p : prog (km_state m) Z) | Live | Unloading (p : prog (km_state m) unit).
Arguments Out {_}.
Arguments Loading {_} _.
Arguments Live {_}.
Arguments Unloading {_} _.

Record place (m : kmodule) := Place {
  pl_phase : phase m; pl_mem : km_state m; pl_gate : Z; pl_hs : list (prog (km_state m) unit) }.
Arguments Place {_} _ _ _ _.
Arguments pl_phase {_} _.
Arguments pl_mem {_} _.
Arguments pl_gate {_} _.
Arguments pl_hs {_} _.

Definition finished {σ} (hs : list (prog σ unit)) : Prop := Forall (fun p => p = Ret tt) hs.

Section place.
Context (m : kmodule) `{W : !Wiring m}.

(** A step of the main program. *)
Inductive main_step {A} : prog (km_state m) A -> km_state m -> Z -> list (prog (km_state m) unit) ->
    history -> prog (km_state m) A -> km_state m -> Z -> history -> Prop :=
| main_call (R : Set) (c : kcall R) k s n hs h r :
    r = K R h c -> wr_users R c r ->
    (0 < n -> n + wr_gate (Ev c r) <= 0 -> finished hs) ->
    main_step (Call c k) s n hs h (k r) s (n + wr_gate (Ev c r)) (Ev c r :: h)
| main_local p s n hs h p' s' :
    settle p s = (p', s') -> main_step p s n hs h p' s' n h.

Inductive place_step : place m -> history -> place m -> history -> Prop :=
| st_insmod s n hs h s0 :
    km_start m s0 ->
    place_step (Place Out s n hs) h (Place (Loading (km_init m)) s0 0 hs) h
| st_load p s n hs h p' s' n' h' :
    main_step p s n hs h p' s' n' h' ->
    place_step (Place (Loading p) s n hs) h (Place (Loading p') s' n' hs) h'
| st_refused r s n hs h :
    r < 0 -> place_step (Place (Loading (Ret r)) s n hs) h (Place Out s n hs) h
| st_loaded r s n hs h :
    0 <= r ->
    place_step (Place (Loading (Ret r)) s n hs) h
               (Place Live s (if wr_pinned then 1 else n) hs) h
| st_start ph s n hs h o :
    0 < n -> wr_valid o ->
    place_step (Place ph s n hs) h (Place ph s n (hs ++ [km_handler m o])) h
| st_call ph s n hs h i (R : Set) (c : kcall R) k r :
    hs !! i = Some (Call c k) -> r = K R h c -> wr_users R c r ->
    place_step (Place ph s n hs) h
               (Place ph s (n + wr_gate (Ev c r)) (<[i := k r]> hs)) (Ev c r :: h)
| st_local ph s n hs h i p p' s' :
    hs !! i = Some p -> settle p s = (p', s') ->
    place_step (Place ph s n hs) h (Place ph s' n (<[i := p']> hs)) h
| st_rmmod s n hs h :
    (wr_pinned = true -> finished hs) ->
    place_step (Place Live s n hs) h
               (Place (Unloading (km_exit m)) s (if wr_pinned then 0 else n) hs) h
| st_unload p s n hs h p' s' n' h' :
    main_step p s n hs h p' s' n' h' ->
    place_step (Place (Unloading p) s n hs) h (Place (Unloading p') s' n' hs) h'
| st_unloaded r s n hs h :
    place_step (Place (Unloading (Ret r)) s n hs) h (Place Out s n hs) h.

(** The history grows. *)
Lemma main_step_suffix {A} (p : prog (km_state m) A) s n hs h p' s' n' h' :
  main_step p s n hs h p' s' n' h' -> h `suffix_of` h'.
Proof. intros Hs. destruct Hs as [R c k s n hs h r _ _ _|]; [by exists [Ev c r]|done]. Qed.
Lemma place_step_suffix x h x' h' : place_step x h x' h' -> h `suffix_of` h'.
Proof.
  intros Hs. destruct Hs as [| | | | |ph s n hs h i R c k r _ _ _| | | |]; try done;
    try by eapply main_step_suffix. by exists [Ev c r].
Qed.

(** Some thread of the module stopped at a fault. *)
Definition place_fault (x : place m) : Prop :=
  exists f, pl_phase x = Loading (Fail f) \/ pl_phase x = Unloading (Fail f) \/ Fail f ∈ pl_hs x.
End place.

(** ** The interface of a module

    [cp_loaded n s R] says what the variables of a loaded module are and what it
    holds, with [n] entries open. *)

(** The answers the kernel may give at some time. *)
Definition answers (users : forall R : Set, kcall R -> R -> Prop) (R : Set) (c : kcall R) (r : R)
  : Prop := (exists h, r = K R h c) /\ users R c r.

Class Component (m : kmodule) := {
  cp_wiring :: Wiring m;
  cp_view : view (km_state m);
  cp_loaded : Z -> km_state m -> list resource -> Prop;
  cp_stable : forall n s s' R,
    cp_loaded n s R -> interf cp_view Main n s s' -> cp_loaded n s' R;
  cp_init : forall s, km_start m s ->
    own cp_view wr_gate (answers wr_users) Main 0 s [] (km_init m) (fun n s' H r =>
      if r <? 0 then n <= 0 /\ H = []
      else let n' := if wr_pinned then 1 else n in
           (0 < n' -> vw_share cp_view s') /\ exists R, H ≡ₚ R /\ cp_loaded n' s' R);
  cp_handler : forall o s, wr_valid o -> vw_share cp_view s ->
    own cp_view wr_gate (answers wr_users) Handler 0 s [] (km_handler m o)
      (fun _ _ H _ => H = []);
  cp_exit : forall n s R, cp_loaded n s R -> (0 < n -> vw_share cp_view s) ->
    own cp_view wr_gate (answers wr_users) Main (if wr_pinned then 0 else n) s R (km_exit m)
      (fun n' _ H _ => n' <= 0 /\ H = []);
}.

(** ** The system *)

Record cell := Cell { cl_mod : kmodule; cl_comp : Component cl_mod; cl_place : place cl_mod }.
Definition world : Type := list cell * history.

Inductive world_step : world -> world -> Prop :=
| step_cell i m C x cells h x' h' :
    cells !! i = Some (Cell m C x) -> place_step m x h x' h' ->
    world_step (cells, h) (<[i := Cell m C x']> cells, h').

Definition cell_out (x : cell) : Prop := pl_phase (cl_place x) = Out.
(** No entry of the module is open, and nothing of it runs. *)
Definition cell_idle (x : cell) : Prop :=
  pl_gate (cl_place x) <= 0 /\ finished (pl_hs (cl_place x)).
Definition cell_fault (x : cell) : Prop := place_fault (cl_mod x) (cl_place x).

(** ** The invariant of a module *)

Section invariant.
Context (m : kmodule) `{C : !Component m}.
Abbreviation V := cp_view.
Abbreviation rely := (answers wr_users).
Abbreviation gate := wr_gate.

Definition init_post (n : Z) (s : km_state m) (H : list resource) (r : Z) : Prop :=
  if r <? 0 then n <= 0 /\ H = []
  else let n' := if wr_pinned then 1 else n in
       (0 < n' -> vw_share V s) /\ exists R, H ≡ₚ R /\ cp_loaded n' s R.
Definition exit_post (n : Z) (s : km_state m) (H : list resource) (_ : unit) : Prop :=
  n <= 0 /\ H = [].
Definition handler_post (n : Z) (s : km_state m) (H : list resource) (_ : unit) : Prop := H = [].

(** What the main program owns. *)
Definition main_inv (ph : phase m) (s : km_state m) (n : Z) (H : list resource) : Prop :=
  match ph with
  | Out => n <= 0 /\ H = []
  | Loading p => ready V gate rely Main n s H p init_post
  | Live => exists R, H ≡ₚ R /\ cp_loaded n s R
  | Unloading p => ready V gate rely Main n s H p exit_post
  end.
(** What a handler owns: it has ended when no entry is open. *)
Definition handler_inv (s : km_state m) (n : Z) (p : prog (km_state m) unit) (H : list resource)
  : Prop := if 0 <? n then ready V gate rely Handler 0 s H p handler_post else p = Ret tt /\ H = [].

Definition place_inv (x : place m) (R : list resource) : Prop :=
  exists Hm Hs, R ≡ₚ Hm ++ mjoin Hs /\
    main_inv (pl_phase x) (pl_mem x) (pl_gate x) Hm /\
    Forall2 (handler_inv (pl_mem x) (pl_gate x)) (pl_hs x) Hs /\
    (0 < pl_gate x -> vw_share V (pl_mem x)).

Lemma init_post_stable : stable V Main init_post.
Proof.
  intros n s s' H r. unfold init_post. simpl. destruct (r <? 0); [by intros|].
  intros (Hsh & R & HR & Hl) Hs.
  destruct (Z.ltb_spec 0 n); [|by subst s'; eauto]. split; [by intros _; apply Hs|].
  exists R. split; [done|]. eapply cp_stable; [exact Hl|]. simpl.
  destruct (Z.ltb_spec 0 (if wr_pinned then 1 else n)) as [_|Hn]; [done|].
  destruct wr_pinned; lia.
Qed.
Lemma exit_post_stable : stable V Main exit_post.
Proof. by intros n s s' H a Hp _. Qed.
Lemma handler_post_stable : stable V Handler handler_post.
Proof. by intros n s s' H a Hp _. Qed.

(** What a handler knows does not depend on the variables now. *)
Lemma handler_inv_mem s s' n p H : handler_inv s n p H -> handler_inv s' n p H.
Proof. done. Qed.

(** A main program that lets the handlers change the variables. *)
Lemma main_inv_interf ph s s' n H :
  main_inv ph s n H -> interf V Main n s s' -> main_inv ph s' n H.
Proof.
  destruct ph as [|p| |p]; simpl main_inv; [done|intros; by eapply ready_interf| |
    intros; by eapply ready_interf].
  intros (R & HR & Hl) Hs. exists R. split; [done|]. by eapply cp_stable.
Qed.

(** The handlers when the number of open entries changes. *)
Lemma handlers_turn s n n' hs Hs :
  Forall2 (handler_inv s n) hs Hs -> (0 < n -> vw_share V s) ->
  (0 < n -> n' <= 0 -> finished hs) -> Forall2 (handler_inv s n') hs Hs.
Proof.
  intros Hh Hsh. induction Hh as [|p H hs Hs Hp _ IH]; intros Hfin; constructor.
  - unfold handler_inv in *. destruct (Z.ltb_spec 0 n), (Z.ltb_spec 0 n'); [done| | |done].
    + assert (p = Ret tt) as -> by (by apply Hfin, Forall_inv in H0).
      split; [done|]. by apply (Hp s), Hsh.
    + destruct Hp as [-> ->]. by intros s' _.
  - apply IH. intros H1 H2. by eapply Forall_inv_tail, Hfin.
Qed.

(** The main program does its next call. *)
Lemma main_step_inv {A} L0 L (p : prog (km_state m) A) s n hs h p' s' n' h' H Hs post :
  stable V Main post -> ready V gate rely Main n s H p post ->
  Forall2 (handler_inv s n) hs Hs -> (0 < n -> vw_share V s) ->
  holds L0 h (H ++ mjoin Hs ++ L) ->
  main_step m p s n hs h p' s' n' h' ->
  exists H', ready V gate rely Main n' s' H' p' post /\
    Forall2 (handler_inv s' n') hs Hs /\ (0 < n' -> vw_share V s') /\
    holds L0 h' (H' ++ mjoin Hs ++ L).
Proof.
  intros Hst Hp Hh Hsh HL Hstep. destruct Hstep as [R c k s n hs h r -> Hu Hfin|p s n hs h p' s' Hset].
  - destruct (ready_call V gate rely Main n s H R c k post (K R h c)) as (Ht & H' & HH & Hk);
      [done|done|by split; [eexists|]|].
    set (e := Ev c (K R h c)) in *. exists (acquires e ++ H'). split; [exact Hk|].
    split; [by eapply handlers_turn|]. split.
    + intros Hn'. simpl in Ht. destruct (Z.lt_ge_cases 0 n); auto.
    + rewrite HH in HL. rewrite <- app_assoc. apply holds_event. by rewrite app_assoc.
  - destruct (ready_settle V gate rely Main n s H p post p' s' Hst Hsh Hp Hset) as [Hg Hp'].
    by exists H.
Qed.

(** A handler that is running owns its share. *)
Lemma handler_lookup s n hs Hs i p :
  Forall2 (handler_inv s n) hs Hs -> (0 < n -> vw_share V s) -> hs !! i = Some p -> p <> Ret tt ->
  exists H, Hs !! i = Some H /\ 0 < n /\ vw_share V s /\
    ready V gate rely Handler 0 s H p handler_post.
Proof.
  intros Hh Hsh Hi Hne. destruct (Forall2_lookup_l _ _ _ _ _ Hh Hi) as (H & HH & Hp).
  exists H. unfold handler_inv in Hp. destruct (Z.ltb_spec 0 n); [by auto|].
  by destruct Hp as [-> _].
Qed.

Lemma handlers_insert s n hs Hs i p H :
  Forall2 (handler_inv s n) hs Hs -> 0 < n -> ready V gate rely Handler 0 s H p handler_post ->
  Forall2 (handler_inv s n) (<[i := p]> hs) (<[i := H]> Hs).
Proof.
  intros Hh Hn Hp. apply Forall2_insert; [done|]. unfold handler_inv.
  by rewrite (proj2 (Z.ltb_lt 0 n) Hn).
Qed.

Lemma mjoin_share (Hs : list (list resource)) i H :
  Hs !! i = Some H -> mjoin Hs ≡ₚ H ++ mjoin (<[i := []]> Hs).
Proof.
  intros Hi. rewrite <- (mjoin_insert_perm _ _ _ H Hi). by rewrite list_insert_id.
Qed.

Lemma handler_call_inv L0 L ph s n hs Hs h i (R : Set) (c : kcall R) k r Hm :
  main_inv ph s n Hm -> Forall2 (handler_inv s n) hs Hs -> (0 < n -> vw_share V s) ->
  holds L0 h (Hm ++ mjoin Hs ++ L) ->
  hs !! i = Some (Call c k) -> r = K R h c -> wr_users R c r ->
  exists R', place_inv (Place ph s (n + gate (Ev c r)) (<[i := k r]> hs)) R' /\
    holds L0 (Ev c r :: h) (R' ++ L).
Proof.
  intros HM Hh Hsh HL Hi Hr Hu. set (e := Ev c r).
  destruct (handler_lookup _ _ _ _ _ _ Hh Hsh Hi) as (H & HH & Hn & Hs1 & Hp); [done|].
  destruct (ready_call V gate rely Handler 0 s H R c k handler_post r Hs1 Hp)
    as (Ht & H' & HH' & Hk); [by split; [eexists|]|]. fold e in Ht, HH', Hk. simpl in Ht.
  replace (n + gate e) with n by lia.
  exists (Hm ++ mjoin (<[i := acquires e ++ H']> Hs)). split.
  - exists Hm, (<[i := acquires e ++ H']> Hs). split_and!; [done|done| |done].
    rewrite Ht in Hk. by apply handlers_insert.
  - rewrite (mjoin_insert_perm _ _ _ _ HH), <- app_assoc.
    rewrite (mjoin_share _ _ _ HH), HH' in HL.
    eapply holds_perm; [apply (holds_event L0 e h (H' ++ Hm ++ mjoin (<[i := []]> Hs) ++ L))|].
    + eapply holds_perm; [exact HL|]. solve_Permutation.
    + solve_Permutation.
Qed.

Lemma handler_local_inv ph s n hs Hs i p p' s' Hm :
  main_inv ph s n Hm -> Forall2 (handler_inv s n) hs Hs -> (0 < n -> vw_share V s) ->
  hs !! i = Some p -> settle p s = (p', s') ->
  exists Hs', mjoin Hs' = mjoin Hs /\ main_inv ph s' n Hm /\
    Forall2 (handler_inv s' n) (<[i := p']> hs) Hs' /\ (0 < n -> vw_share V s').
Proof.
  intros HM Hh Hsh Hi Hset.
  assert (p = Ret tt \/ p <> Ret tt) as [->|Hne] by (destruct p as [[]| | | |]; auto).
  - simpl in Hset. simplify_eq. exists Hs. rewrite list_insert_id by done. done.
  - destruct (handler_lookup _ _ _ _ _ _ Hh Hsh Hi Hne) as (H & HH & Hn & Hs1 & Hp).
    destruct (ready_settle V gate rely Handler 0 s H p handler_post p' s' handler_post_stable Hs1 Hp Hset)
      as [Hg Hp'].
    exists Hs. split_and!; [done| | |].
    + eapply main_inv_interf; [exact HM|]. by apply (guar_interf V Handler n).
    + rewrite <- (list_insert_id Hs i H HH). by apply handlers_insert.
    + intros _. apply Hg.
Qed.

Lemma place_step_inv L0 L x h x' h' R :
  place_inv x R -> holds L0 h (R ++ L) -> place_step m x h x' h' ->
  exists R', place_inv x' R' /\ holds L0 h' (R' ++ L).
Proof.
  intros (Hm & Hs & HR & HM & Hh & Hsh) HL Hst. rewrite HR, <- app_assoc in HL.
  assert (forall Hm' s' n' ph' hs' h', main_inv ph' s' n' Hm' ->
    Forall2 (handler_inv s' n') hs' Hs -> (0 < n' -> vw_share V s') ->
    holds L0 h' (Hm' ++ mjoin Hs ++ L) ->
    exists R', place_inv (Place ph' s' n' hs') R' /\ holds L0 h' (R' ++ L)) as Hput.
  { intros Hm' s' n' ph' hs' h1 HM' Hh' Hsh' HL'. exists (Hm' ++ mjoin Hs).
    split; [by exists Hm', Hs|by rewrite <- app_assoc]. }
  destruct Hst as [s n hs h s0 Hs0|p s n hs h p' s' n' h' Hmain|r s n hs h Hr|r s n hs h Hr
    |ph s n hs h o Hn Hv|ph s n hs h i R1 c k r Hi Hr Hu|ph s n hs h i p p' s' Hi Hset
    |s n hs h Hfin|p s n hs h p' s' n' h' Hmain|r s n hs h]; simpl in HM, Hh, Hsh.
  - destruct HM as [Hn ->]. apply (Hput []); [|exact (handlers_turn s n 0 hs Hs Hh Hsh ltac:(intros; lia))|lia|done].
    simpl. intros s' Hs'. simpl in Hs'. subst s'. by apply cp_init.
  - destruct (main_step_inv L0 L p s n hs h p' s' n' h' Hm Hs _ init_post_stable HM Hh Hsh HL Hmain)
      as (H' & Hp' & Hh' & Hsh' & HL'). by eapply Hput.
  - apply ready_ret in HM; [|exact Hsh].
    unfold init_post in HM. rewrite (proj2 (Z.ltb_lt r 0) Hr) in HM. by eapply Hput.
  - apply ready_ret in HM; [|exact Hsh].
    unfold init_post in HM. rewrite (proj2 (Z.ltb_ge r 0) Hr) in HM. destruct HM as [Hsh' HM].
    eapply Hput; [exact HM| |exact Hsh'|exact HL].
    eapply handlers_turn; [done|done|]. intros. destruct wr_pinned; lia.
  - exists (Hm ++ mjoin (Hs ++ [[]])). split.
    + exists Hm, (Hs ++ [[]]). split_and!; [done|done| |done]. apply Forall2_app; [done|].
      constructor; [|done]. unfold handler_inv. simpl. rewrite (proj2 (Z.ltb_lt 0 n) Hn).
      intros s' Hs'. by apply cp_handler.
    + rewrite join_app. simpl. by rewrite app_nil_r, <- app_assoc.
  - by eapply handler_call_inv.
  - destruct (handler_local_inv _ _ _ _ _ _ _ _ _ _ HM Hh Hsh Hi Hset) as (Hs' & HJ & HM' & Hh' & Hsh').
    exists (Hm ++ mjoin Hs'). split; [by exists Hm, Hs'|by rewrite HJ, <- app_assoc].
  - destruct HM as (R1 & HR1 & Hl). eapply Hput; [| | |exact HL]; simpl.
    + intros s' Hs'. eapply own_mono; [apply (cp_exit n s' R1)|by symmetry|].
      * destruct wr_pinned; [|by eapply cp_stable]. simpl in Hs'. by subst s'.
      * destruct wr_pinned; simpl in Hs'; [by subst s'|]. intros Hn.
        rewrite (proj2 (Z.ltb_lt 0 n) Hn) in Hs'. apply Hs'.
      * intros n1 s1 H1 H2 [] [Hn1 ->] HP. by apply Permutation_nil in HP.
    + eapply handlers_turn; [done|done|]. destruct wr_pinned; [auto|lia].
    + destruct wr_pinned; [lia|done].
  - destruct (main_step_inv L0 L p s n hs h p' s' n' h' Hm Hs _ exit_post_stable HM Hh Hsh HL Hmain)
      as (H' & Hp' & Hh' & Hsh' & HL'). by eapply Hput.
  - apply ready_ret in HM; [|exact Hsh]. by eapply Hput.
Qed.

Lemma place_inv_no_fault x R : place_inv x R -> ~ place_fault m x.
Proof.
  intros (Hm & Hs & _ & HM & Hh & Hsh) (f & Hf). destruct Hf as [Hf|[Hf|Hf]].
  - rewrite Hf in HM. exact (ready_now V gate rely Main _ _ _ (Fail f) _ Hsh HM).
  - rewrite Hf in HM. exact (ready_now V gate rely Main _ _ _ (Fail f) _ Hsh HM).
  - apply list_elem_of_lookup in Hf as [i Hi].
    destruct (handler_lookup _ _ _ _ _ _ Hh Hsh Hi) as (H & _ & _ & Hs1 & Hp); [done|].
    exact (ready_now V gate rely Handler _ _ _ (Fail f) _ Hs1 Hp).
Qed.

(** A module that is not loaded holds nothing and nothing of it runs. *)
Lemma place_inv_out x R :
  place_inv x R -> pl_phase x = Out -> R = [] /\ pl_gate x <= 0 /\ finished (pl_hs x).
Proof.
  intros (Hm & Hs & HR & HM & Hh & _) Hout. rewrite Hout in HM. destruct HM as [Hn ->].
  assert (mjoin Hs = [] /\ finished (pl_hs x)) as [HJ Hf].
  { clear HR Hout. unfold handler_inv in Hh. rewrite (proj2 (Z.ltb_ge 0 _) Hn) in Hh.
    induction Hh as [|p H hs Hs [-> ->] _ [HJ Hf]]; [by split; [|constructor]|]. split; [exact HJ|by constructor]. }
  rewrite HJ in HR. apply Permutation_nil_r in HR. by split_and!.
Qed.

Lemma place_inv_fresh x :
  pl_phase x = Out -> pl_gate x <= 0 -> finished (pl_hs x) -> place_inv x [].
Proof.
  intros Hout Hn Hf. exists [], (replicate (length (pl_hs x)) []). split_and!.
  - by rewrite mjoin_replicate_nil.
  - by rewrite Hout.
  - unfold handler_inv. rewrite (proj2 (Z.ltb_ge 0 _) Hn).
    induction Hf as [|p hs -> _ IH]; simpl; by constructor.
  - lia.
Qed.
End invariant.

(** ** The invariant of the system *)

Definition cell_inv (x : cell) (R : list resource) : Prop :=
  place_inv (cl_mod x) (C := cl_comp x) (cl_place x) R.
Definition world_inv (L0 L : list resource) (w : world) : Prop :=
  exists Rs, Forall2 cell_inv w.1 Rs /\ holds L0 w.2 (mjoin Rs ++ L).

Lemma world_step_inv L0 L w w' : world_inv L0 L w -> world_step w w' -> world_inv L0 L w'.
Proof.
  intros (Rs & HRs & HL) Hst. destruct Hst as [i m C x cells h x' h' Hi Hst]. simpl in *.
  destruct (Forall2_lookup_l _ _ _ _ _ HRs Hi) as (R & HR & Hx).
  rewrite (mjoin_share _ _ _ HR), <- app_assoc in HL.
  destruct (place_step_inv m L0 _ _ _ _ _ _ Hx HL Hst) as (R' & Hx' & HL').
  exists (<[i := R']> Rs). split; [by apply Forall2_insert|]. simpl.
  by rewrite (mjoin_insert_perm _ _ _ _ HR), <- app_assoc.
Qed.

(** No module is loaded, as at boot. *)
Definition world_out (w : world) : Prop := Forall cell_out w.1.
Definition world_fresh (w : world) : Prop := Forall (fun x => cell_out x /\ cell_idle x) w.1.

Lemma world_fresh_inv L0 L w : world_fresh w -> holds L0 w.2 L -> world_inv L0 L w.
Proof.
  intros Hf HL. exists (replicate (length w.1) []). split.
  - unfold world_fresh in Hf. induction Hf as [|x cells [Ho [Hn Hh]] _ IH]; constructor; [|done].
    by apply place_inv_fresh.
  - by rewrite mjoin_replicate_nil.
Qed.

Lemma world_out_holds L0 L w : world_inv L0 L w -> world_out w -> holds L0 w.2 L.
Proof.
  intros (Rs & HRs & HL) Ho. replace (mjoin Rs) with (@nil resource) in HL; [done|].
  clear HL. unfold world_out in Ho. induction HRs as [|x R cells Rs Hx _ IH]; [done|].
  apply Forall_cons in Ho as [Hx' Ho]. destruct (place_inv_out _ _ _ Hx Hx') as (-> & _). simpl. auto.
Qed.

(** What a module holds: nothing when it is not loaded, and between two
    operations what a loaded one says. *)
Definition cell_holds (x : cell) (R : list resource) : Prop :=
  match x with
  | Cell m C (Place Out _ _ _) => R = []
  | Cell m C (Place Live s n hs) =>
      finished hs -> exists R', R ≡ₚ R' /\ cp_loaded (Component := C) n s R'
  | _ => True
  end.
Lemma cell_inv_holds x R : cell_inv x R -> cell_holds x R.
Proof.
  intros Hx. destruct x as [m C [ph s n hs]]. destruct ph; simpl; try done.
  - by destruct (place_inv_out _ _ _ Hx eq_refl).
  - destruct Hx as (Hm & Hs & HR & (R' & HR' & Hl) & Hh & Hsh). simpl in *. intros Hf.
    exists R'. split; [|done]. rewrite HR, HR'.
    apply (handlers_turn m s n 0) in Hh; [|done|by intros].
    replace (mjoin Hs) with (@nil resource); [by rewrite app_nil_r|].
    clear HR Hf. induction Hh as [|p H hs Hs [_ ->] _ IH]; done.
Qed.

Lemma world_steps_inv L0 L w w' : world_inv L0 L w -> rtc world_step w w' -> world_inv L0 L w'.
Proof.
  intros HI Hr. induction Hr as [|w0 w1 w2 Hs _ IH]; [done|]. by eapply IH, world_step_inv.
Qed.

(** Every interleaving of modules that keep the interface is safe. *)
Lemma interleaved_gen L0 L w0 w :
  world_fresh w0 -> holds L0 w0.2 L -> rtc world_step w0 w ->
  Forall (fun x => ~ cell_fault x) w.1 /\
  Forall (fun x => cell_out x -> cell_idle x) w.1 /\
  (exists Rs, Forall2 cell_holds w.1 Rs /\ holds L0 w.2 (mjoin Rs ++ L)) /\
  (world_out w -> holds L0 w.2 L).
Proof.
  intros Hf HL Hr. assert (world_inv L0 L w) as HI.
  { eapply world_steps_inv; [by apply world_fresh_inv|exact Hr]. }
  destruct HI as (Rs & HRs & HL'). split_and!.
  - clear HL'. induction HRs as [|x R cells Rs Hx _ IH]; constructor; [|done].
    by eapply place_inv_no_fault.
  - clear HL'. induction HRs as [|x R cells Rs Hx _ IH]; constructor; [|done].
    intros Ho. by destruct (place_inv_out _ _ _ Hx Ho) as (_ & ? & ?).
  - exists Rs. split; [|done]. eapply Forall2_impl; [exact HRs|]. apply cell_inv_holds.
  - apply world_out_holds. by exists Rs.
Qed.

(** ** Steps of one module, seen from the system *)
Definition one_step m `{W : !Wiring m} (a b : place m * history) : Prop :=
  place_step m a.1 a.2 b.1 b.2.
Lemma one_steps_world m C x h x' h' cells i :
  rtc (one_step m (W := cp_wiring (Component := C))) (x, h) (x', h') -> cells !! i = Some (Cell m C x) ->
  rtc world_step (cells, h) (<[i := Cell m C x']> cells, h').
Proof.
  intros Hr. remember (x, h) as a eqn:Ha. remember (x', h') as b eqn:Hb.
  revert x h cells Ha. induction Hr as [a|a [x1 h1] b Hst _ IH]; intros x h cells Ha Hi; subst.
  - simplify_eq. by rewrite list_insert_id.
  - specialize (IH eq_refl x1 h1 (<[i := Cell m C x1]> cells) eq_refl).
    rewrite list_insert_insert_eq in IH. eapply rtc_l; [by apply (step_cell i m C x)|].
    apply IH. apply list_lookup_insert_eq. by eapply lookup_lt_Some.
Qed.
End interleave.

#[global] Arguments Component K m : assert.

(** ** Automation

    The steps of one module from concrete programs; [tac] says which of the two
    main programs goes on. *)
Ltac by_step tac := eapply (rtc_l _ _ (_, _)); [unfold one_step; cbn [fst snd]; tac|].
Ltac finished_now :=
  repeat (apply Forall_cons; split; [lazymatch goal with |- ?p = _ =>
    let v := eval hnf in p in change (v = Ret tt);
    lazymatch v with Ret ?x => by destruct x end end|]);
  apply Forall_nil; done.
(** The answer, so that it does not mention the history. *)
Ltac answer_now :=
  lazymatch goal with |- ?r = ?x => let v := eval red in x in unify r v; reflexivity end.
Ltac main_now tac :=
  by_step ltac:(tac; eapply main_call; [answer_now|try done|intros; try first [done | finished_now]]).
Ltac local_now tac := by_step ltac:(tac; eapply main_local; reflexivity).
Ltac handler_call j := by_step ltac:(eapply st_call with (i := j); [reflexivity|answer_now|try done]).
Ltac handler_local j := by_step ltac:(eapply st_local with (i := j); [reflexivity|reflexivity]).
