(* ===== verification/Drain.v ===== *)
(** * Every system of modules can be unloaded

    The other half of [Interleave]: no interleaving leads to a deadlock.  What
    closes the last entry of a module waits for the handlers that run, and
    [rmmod] of a pinned module for its users; [can_unload] shows that from every
    state that can be reached all handlers can finish and all modules can be
    unloaded, whatever the kernel answers.  A handler is a program without an
    unbounded loop, so that it does finish; what is to be shown is that none of
    its calls, nor one of the load or the unload, is refused or stops at a
    fault on the way. *)

From stdpp Require Import relations.
From S2P Require Import Prelude Kernel Prog Threads Ownership Modules Interleave.

#[local] Open Scope Z_scope.

Section drain.
Context (K : kernel).

Section place.
Context (m : kmodule) `{C : !Component K m} (L0 L : list resource).
(** From [h0] on the kernel and the users answer as the module expects. *)
Context (h0 : history).
Context (Husers : forall R h (c : kcall R), h0 `suffix_of` h -> wr_users R c (K R h c)).

(** The invariant of the module and its share of the ledger, later than [h0]. *)
Definition sound (a : place m * history) : Prop :=
  h0 `suffix_of` a.2 /\ exists R, place_inv K m a.1 R /\ holds L0 a.2 (R ++ L).
Abbreviation steps := (rtc (one_step K m)).

Lemma sound_steps a b : sound a -> steps a b -> sound b.
Proof.
  intros Ha Hr. induction Hr as [|a b c Hab _ IH]; [done|]. apply IH.
  destruct Ha as (Hh & R & HR & HL). destruct a as [x h], b as [x' h'].
  split; [etrans; [exact Hh|by eapply place_step_suffix]|by eapply place_step_inv].
Qed.
Lemma sound_no_fault x h : sound (x, h) -> ~ place_fault m x.
Proof. intros (_ & R & HR & _). by eapply place_inv_no_fault. Qed.

(** ** A handler finishes *)
Lemma settled_handler_finishes p ph s n hs h i p' s' :
  settle p s = (p', s') -> hs !! i = Some p' -> sound (Place m ph s' n hs, h) ->
  exists s1 n1 h1, steps (Place m ph s' n hs, h) (Place m ph s1 n1 (<[i := Ret tt]> hs), h1).
Proof.
  revert s n hs h p' s'. induction p as [[]|k IH|s0 p IH|R c k IH|f];
    intros s n hs h p' s' Hset Hi Hsound; simpl in Hset; try by eapply IH.
  - simplify_eq. exists s', n, h. by rewrite list_insert_id.
  - simplify_eq. destruct (settle (k (K R h c)) s') as [p1 s1] eqn:Hset.
    set (e := Ev c (K R h c)).
    assert (steps (Place m ph s' n hs, h) (Place m ph s1 (n + wr_gate e) (<[i := p1]> hs), e :: h))
      as Hsteps.
    { eapply (rtc_l _ _ (_, _));
        [by apply (st_call K m ph s' n hs h i R c k (K R h c)), Husers, Hsound|].
      apply rtc_once. rewrite <- (list_insert_insert_eq hs i p1 (k (K R h c))).
      eapply st_local; [|exact Hset]. apply list_lookup_insert_eq. by eapply lookup_lt_Some. }
    destruct (IH (K R h c) s' (n + wr_gate e) (<[i := p1]> hs) (e :: h) p1 s1 Hset) as (s2 & n2 & h2 & H2).
    + apply list_lookup_insert_eq. by eapply lookup_lt_Some.
    + by eapply sound_steps.
    + rewrite list_insert_insert_eq in H2. exists s2, n2, h2. by etrans.
  - simplify_eq. exfalso. apply (sound_no_fault _ _ Hsound). exists f. right. right.
    by eapply list_elem_of_lookup_2.
Qed.

Lemma handler_finishes ph s n hs h i p :
  hs !! i = Some p -> sound (Place m ph s n hs, h) ->
  exists s1 n1 h1, steps (Place m ph s n hs, h) (Place m ph s1 n1 (<[i := Ret tt]> hs), h1).
Proof.
  intros Hi Hsound. destruct (settle p s) as [p' s'] eqn:Hset.
  assert (steps (Place m ph s n hs, h) (Place m ph s' n (<[i := p']> hs), h)) as Hstep
    by (apply rtc_once; by eapply st_local).
  destruct (settled_handler_finishes p ph s n (<[i := p']> hs) h i p' s' Hset) as (s1 & n1 & h1 & H1).
  - apply list_lookup_insert_eq. by eapply lookup_lt_Some.
  - by eapply sound_steps.
  - rewrite list_insert_insert_eq in H1. exists s1, n1, h1. by etrans.
Qed.

Lemma handlers_finish ph s n hs h :
  sound (Place m ph s n hs, h) ->
  exists s1 n1 hs1 h1, finished hs1 /\ steps (Place m ph s n hs, h) (Place m ph s1 n1 hs1, h1).
Proof.
  intros Hsound.
  assert (forall j, (j <= length hs)%nat -> exists s1 n1 hs1 h1, length hs1 = length hs /\
    finished (take j hs1) /\ steps (Place m ph s n hs, h) (Place m ph s1 n1 hs1, h1)) as Hgen.
  { induction j as [|j IH]; intros Hj; [by exists s, n, hs, h; rewrite take_0; split_and!; [|constructor|]|].
    destruct IH as (s1 & n1 & hs1 & h1 & Hl & Hf & H1); [lia|].
    destruct (lookup_lt_is_Some_2 hs1 j) as [p Hp]; [lia|].
    destruct (handler_finishes ph s1 n1 hs1 h1 j p Hp) as (s2 & n2 & h2 & H2);
      [by eapply sound_steps|].
    exists s2, n2, (<[j := Ret tt]> hs1), h2. split_and!; [by rewrite length_insert| |by etrans].
    rewrite (take_S_r _ _ (Ret tt)) by (apply list_lookup_insert_eq; lia).
    apply Forall_app. split; [|by constructor]. by rewrite take_insert_ge by lia. }
  destruct (Hgen (length hs)) as (s1 & n1 & hs1 & h1 & Hl & Hf & H1); [done|].
  rewrite take_ge in Hf by lia. by exists s1, n1, hs1, h1.
Qed.

(** ** The load and the unload finish, once the handlers have *)
Section main.
Context {A : Type} (wrap : prog (km_state m) A -> phase m).
Context (Hwrap : forall p s n hs h p' s' n' h', main_step K m p s n hs h p' s' n' h' ->
  place_step K m (Place m (wrap p) s n hs) h (Place m (wrap p') s' n' hs) h').
Context (Hfault : forall f s n hs, place_fault m (Place m (wrap (Fail f)) s n hs)).

Lemma settled_main_finishes p s n hs h p' s' :
  settle p s = (p', s') -> finished hs -> sound (Place m (wrap p') s' n hs, h) ->
  exists a s1 n1 h1, steps (Place m (wrap p') s' n hs, h) (Place m (wrap (Ret a)) s1 n1 hs, h1).
Proof.
  revert s n h p' s'. induction p as [a|k IH|s0 p IH|R c k IH|f];
    intros s n h p' s' Hset Hf Hsound; simpl in Hset; try by eapply IH.
  - simplify_eq. by exists a, s', n, h.
  - simplify_eq. destruct (settle (k (K R h c)) s') as [p1 s1] eqn:Hset.
    set (e := Ev c (K R h c)).
    assert (steps (Place m (wrap (Call c k)) s' n hs, h)
      (Place m (wrap p1) s1 (n + wr_gate e) hs, e :: h)) as Hsteps.
    { eapply (rtc_l _ _ (_, _)); [by eapply Hwrap, main_call; [|apply Husers, Hsound|]|].
      apply rtc_once. by apply Hwrap, main_local. }
    destruct (IH (K R h c) s' (n + wr_gate e) (e :: h) p1 s1 Hset Hf)
      as (a & s2 & n2 & h2 & H2); [by eapply sound_steps|].
    exists a, s2, n2, h2. by etrans.
  - simplify_eq. exfalso. by eapply sound_no_fault.
Qed.

Lemma main_finishes p s n hs h :
  finished hs -> sound (Place m (wrap p) s n hs, h) ->
  exists a s1 n1 h1, steps (Place m (wrap p) s n hs, h) (Place m (wrap (Ret a)) s1 n1 hs, h1).
Proof.
  intros Hf Hsound. destruct (settle p s) as [p' s'] eqn:Hset.
  assert (steps (Place m (wrap p) s n hs, h) (Place m (wrap p') s' n hs, h)) as Hstep
    by (by apply rtc_once, Hwrap, main_local).
  destruct (settled_main_finishes p s n hs h p' s' Hset Hf) as (a & s1 & n1 & h1 & H1);
    [by eapply sound_steps|]. exists a, s1, n1, h1. by etrans.
Qed.
End main.

(** ** The module is unloaded *)
Definition unloads (a : place m * history) : Prop :=
  exists s n hs h, steps a (Place m (Out m) s n hs, h).
Lemma unloads_steps a b : steps a b -> unloads b -> unloads a.
Proof. intros Hab (s & n & hs & h & Hb). exists s, n, hs, h. by etrans. Qed.

Lemma unloading_unloads p s n hs h :
  finished hs -> sound (Place m (Unloading m p) s n hs, h) ->
  unloads (Place m (Unloading m p) s n hs, h).
Proof.
  intros Hf Hsound.
  destruct (main_finishes (Unloading m) ltac:(by constructor) ltac:(by eexists; right; left)
    p s n hs h Hf Hsound) as ([] & s1 & n1 & h1 & H1).
  eapply unloads_steps; [exact H1|]. exists s1, n1, hs, h1. apply rtc_once. by constructor.
Qed.

Lemma live_unloads s n hs h :
  finished hs -> sound (Place m (Live m) s n hs, h) -> unloads (Place m (Live m) s n hs, h).
Proof.
  intros Hf Hsound.
  assert (steps (Place m (Live m) s n hs, h) (Place m (Unloading m (km_exit m)) s
    (if wr_pinned then 0 else n) hs, h)) as Hstep by (apply rtc_once; by constructor).
  eapply unloads_steps; [exact Hstep|]. apply unloading_unloads; [done|]. by eapply sound_steps.
Qed.

Lemma loading_unloads p s n hs h :
  finished hs -> sound (Place m (Loading m p) s n hs, h) ->
  unloads (Place m (Loading m p) s n hs, h).
Proof.
  intros Hf Hsound.
  destruct (main_finishes (Loading m) ltac:(by constructor) ltac:(by eexists; left)
    p s n hs h Hf Hsound) as (r & s1 & n1 & h1 & H1).
  eapply unloads_steps; [exact H1|]. destruct (Z.lt_ge_cases r 0) as [Hr|Hr].
  - exists s1, n1, hs, h1. apply rtc_once. by constructor.
  - assert (steps (Place m (Loading m (Ret r)) s1 n1 hs, h1)
      (Place m (Live m) s1 (if wr_pinned then 1 else n1) hs, h1)) as Hstep
      by (apply rtc_once; by constructor).
    eapply unloads_steps; [exact Hstep|]. apply live_unloads; [done|].
    eapply sound_steps; [|exact Hstep]. by eapply sound_steps.
Qed.

Lemma place_unloads x h : sound (x, h) -> unloads (x, h).
Proof.
  intros Hsound. destruct x as [ph s n hs].
  destruct (handlers_finish ph s n hs h Hsound) as (s1 & n1 & hs1 & h1 & Hf & H1).
  eapply unloads_steps; [exact H1|]. apply (sound_steps _ _ Hsound) in H1.
  destruct ph; [by eexists _, _, _, _|by apply loading_unloads|by apply live_unloads|
    by apply unloading_unloads].
Qed.
End place.

(** ** All of them *)
Definition served (h0 : history) (x : cell K) : Prop :=
  forall R h (c : kcall R), h0 `suffix_of` h -> wr_users (Wiring := cp_wiring K (Component := cl_comp K x)) R c (K R h c).

Lemma served_weaken h0 h1 x : h0 `suffix_of` h1 -> served h0 x -> served h1 x.
Proof. intros Hh Hs R h c Hc. apply Hs. by etrans. Qed.
Lemma served_steps h0 w w' :
  Forall (served h0) w.1 -> rtc (world_step K) w w' -> Forall (served h0) w'.1.
Proof.
  intros Hs Hr. induction Hr as [|w0 w1 w2 Hst _ IH]; [done|]. apply IH.
  destruct Hst as [i m C x cells h x' h' Hi _]. apply Forall_insert; [done|].
  exact (Forall_lookup_1 _ _ _ _ Hs Hi).
Qed.

(** From the states in which, from now on, they are served. *)
Lemma can_unload L0 L w :
  world_inv K L0 L w -> Forall (served w.2) w.1 ->
  exists w', rtc (world_step K) w w' /\ world_out K w'.
Proof.
  destruct w as [cells h]. intros HI Hserved. simpl in *.
  assert (forall j, (j <= length cells)%nat -> exists cells' h', rtc (world_step K) (cells, h) (cells', h') /\
    length cells' = length cells /\ h `suffix_of` h' /\ Forall (served h) cells' /\
    Forall (cell_out K) (take j cells')) as Hgen.
  { induction j as [|j IH]; intros Hj; [exists cells, h; rewrite take_0; split_and!; [done..|constructor]|].
    destruct IH as (cells1 & h1 & H1 & Hl & Hh & Hs & Hout); [lia|].
    assert (world_inv K L0 L (cells1, h1)) as (Rs & HRs & HL).
    { by eapply world_steps_inv. }
    destruct (lookup_lt_is_Some_2 cells1 j) as [[m C x] Hx]; [lia|].
    destruct (Forall2_lookup_l _ _ _ _ _ HRs Hx) as (R & HR & HxR). simpl in HL.
    rewrite (mjoin_share _ _ _ HR), <- app_assoc in HL.
    pose proof (Forall_lookup_1 _ _ _ _ Hs Hx) as Hm.
    assert (sound m L0 (mjoin (<[j := []]> Rs) ++ L) h (x, h1)) as Hsound by (split; [done|by exists R]).
    destruct (place_unloads m L0 (mjoin (<[j := []]> Rs) ++ L) h Hm x h1 Hsound)
      as (s2 & n2 & hs2 & h2 & H2).
    exists (<[j := Cell K m C (Place m (Out m) s2 n2 hs2)]> cells1), h2. split_and!.
    - etrans; [exact H1|]. by eapply one_steps_world.
    - by rewrite length_insert.
    - exact (proj1 (sound_steps m L0 _ h _ _ Hsound H2)).
    - by apply Forall_insert.
    - rewrite (take_S_r _ _ (Cell K m C (Place m (Out m) s2 n2 hs2)))
        by (apply list_lookup_insert_eq; lia).
      apply Forall_app. split; [|by constructor]. by rewrite take_insert_ge by lia. }
  destruct (Hgen (length cells)) as (cells' & h' & Hr & Hl & _ & _ & Hout); [done|].
  rewrite take_ge in Hout by lia. by exists (cells', h').
Qed.
End drain.
