(* ===== verification/CString.v ===== *)
(** * Formatted printing and scanning

    The conversions of [sprintf]/[printk] and [sscanf] that the modules use:
    [%d], [%u], [%02x], [%08zx], and [%d] of [sscanf].  Text is a list of bytes.

    [sscanf] reads its argument until the conversion ends, and has no meaning
    when it runs off the end of the block ([None]); it skips white space,
    accepts a [-] sign, and stores the value into an [int], which keeps it
    modulo 2^32. *)

From S2P Require Import Prelude.
From Stdlib Require Import Ascii.

(** ** Decimal *)

Definition isdigit (c : byte) : bool := (48 <=? c) && (c <=? 57).
Definition isspace (c : byte) : bool := ((9 <=? c) && (c <=? 13)) || (c =? 32).

(** The digits of [n]; twenty turns are enough for 64 bits. *)
Fixpoint dec (fuel : nat) (n : Z) : bytes :=
  match fuel with
  | O => []
  | S f => if n <? 10 then [48 + n] else dec f (n / 10) ++ [48 + n mod 10]
  end.

Definition fmt_u (n : Z) : bytes := dec 20 n.
Definition fmt_d (z : Z) : bytes := if z <? 0 then 45 :: dec 20 (- z) else dec 20 z.

Fixpoint skip_spaces (m : bytes) : option bytes :=
  match m with
  | [] => None
  | c :: m' => if isspace c then skip_spaces m' else Some m
  end.

Fixpoint scan_digits (acc : Z) (m : bytes) : option Z :=
  match m with
  | [] => None
  | c :: m' => if isdigit c then scan_digits (acc * 10 + (c - 48)) m' else Some acc
  end.

(** [sscanf(m, "%d", &v)]: [None] when it reads past the block, [Some None]
    when nothing is converted and [v] is left alone. *)
Definition sscanf_d (m : bytes) : option (option Z) :=
  m ← skip_spaces m;
  match m with
  | [] => None
  | c :: m' =>
      if c =? 45 then
        match m' with
        | [] => None
        | d :: _ => if isdigit d then (fun v => Some (s32 (- v))) <$> scan_digits 0 m'
                    else Some None
        end
      else if isdigit c then (fun v => Some (s32 v)) <$> scan_digits 0 m
      else Some None
  end.

(** What is converted is an [int]. *)
Lemma sscanf_d_int m v : sscanf_d m = Some (Some v) -> in_int v.
Proof.
  assert (forall o (w : Z -> Z), (fun n => Some (s32 (w n))) <$> o = Some (Some v) -> in_int v) as Hf.
  { intros [n|] w Hv; simplify_eq/=. auto with ctype. }
  unfold sscanf_d. destruct (skip_spaces m) as [[|c m']|]; cbn [mbind option_bind]; [done| |done].
  destruct (c =? 45); [destruct m' as [|d m'']; [done|]; destruct (isdigit d); [|done]|
    destruct (isdigit c); [|done]].
  - apply (Hf _ Z.opp).
  - apply (Hf _ id).
Qed.

Section decimal.
Implicit Types (n : Z).

Lemma dec_digits fuel n : 0 <= n -> Forall (fun c => 48 <= c <= 57) (dec fuel n).
Proof.
  revert n. induction fuel as [|f IH]; intros n Hn; simpl; [done|].
  pose proof (Z.div_pos n 10). pose proof (Z.mod_pos_bound n 10).
  destruct (Z.ltb_spec n 10).
  - repeat constructor; lia.
  - apply Forall_app. split; [apply IH; lia|]. repeat constructor; lia.
Qed.

Lemma dec_length fuel n k :
  0 <= n < 10 ^ Z.of_nat k -> (1 <= k)%nat -> (length (dec fuel n) <= k)%nat.
Proof.
  revert n k. induction fuel as [|f IH]; intros n k Hn Hk; simpl; [lia|].
  destruct (Z.ltb_spec n 10); simpl; [lia|].
  rewrite length_app. simpl. destruct k as [|[|k]]; [lia|simpl in Hn; lia|].
  enough (length (dec f (n / 10)) <= S k)%nat by lia.
  apply IH; [|lia]. rewrite (Nat2Z.inj_succ (S k)), Z.pow_succ_r in Hn by lia.
  split; [apply Z.div_pos; lia|]. apply Z.div_lt_upper_bound; lia.
Qed.

Lemma dec_nonempty fuel n : (0 < fuel)%nat -> dec fuel n <> [].
Proof.
  destruct fuel; simpl; [lia|]. intros _. destruct (n <? 10); [done|].
  by destruct (dec fuel (n / 10)).
Qed.

Lemma isdigit_true c : isdigit c = true <-> 48 <= c <= 57.
Proof. unfold isdigit. rewrite andb_true_iff, !Z.leb_le. tauto. Qed.

Lemma isdigit_of c : 48 <= c <= 57 -> isdigit c = true.
Proof. by rewrite isdigit_true. Qed.

Lemma scan_digits_app ds tail acc :
  Forall (fun c => 48 <= c <= 57) ds ->
  scan_digits acc (ds ++ tail) =
  scan_digits (fold_left (fun a c => a * 10 + (c - 48)) ds acc) tail.
Proof.
  intros H. revert acc. induction H as [|c ds Hc _ IH]; intros acc; simpl; [done|].
  by rewrite isdigit_of.
Qed.

Lemma dec_value fuel n acc :
  0 <= n < 10 ^ Z.of_nat fuel ->
  fold_left (fun a c => a * 10 + (c - 48)) (dec fuel n) acc =
  acc * 10 ^ zlen (dec fuel n) + n.
Proof.
  revert n acc. induction fuel as [|f IH]; intros n acc Hn; [simpl in *; lia|].
  cbn [dec]. destruct (Z.ltb_spec n 10).
  - cbn [fold_left length]. change (10 ^ Z.of_nat 1) with 10. lia.
  - rewrite Nat2Z.inj_succ, Z.pow_succ_r in Hn by lia.
    rewrite fold_left_app, IH by
      (split; [apply Z.div_pos; lia|apply Z.div_lt_upper_bound; lia]).
    cbn [fold_left]. rewrite length_app. cbn [length].
    rewrite Nat2Z.inj_add, Z.pow_add_r by lia. change (10 ^ Z.of_nat 1) with 10.
    pose proof (Z.div_mod n 10). lia.
Qed.

Lemma scan_dec n c tail :
  0 <= n < 10 ^ 20 -> isdigit c = false ->
  scan_digits 0 (dec 20 n ++ c :: tail) = Some n.
Proof.
  intros Hn Hc. rewrite scan_digits_app by (apply dec_digits; lia).
  rewrite dec_value by (exact Hn). cbn [scan_digits]. rewrite Hc. f_equal; lia.
Qed.

(** The head of a printed number is a digit. *)
Lemma dec_cons n : 0 <= n -> exists c ds, dec 20 n = c :: ds /\ isdigit c = true.
Proof.
  intros Hn. pose proof (dec_digits 20 n Hn) as Hd.
  destruct (dec 20 n) as [|c ds] eqn:E; [by apply dec_nonempty in E; [|lia]|].
  exists c, ds. split; [done|]. apply isdigit_true. by inversion Hd.
Qed.

Lemma isdigit_not_space c : isdigit c = true -> isspace c = false.
Proof.
  rewrite isdigit_true. unfold isspace. intros. zcases; done.
Qed.

Lemma skip_spaces_digit d m : isdigit d = true -> skip_spaces (d :: m) = Some (d :: m).
Proof. intros Hd. simpl. by rewrite isdigit_not_space. Qed.

(** [sscanf] on a sign and digits, and on digits. *)
Lemma sscanf_neg d m :
  isdigit d = true ->
  sscanf_d (45 :: d :: m) = (fun v => Some (s32 (- v))) <$> scan_digits 0 (d :: m).
Proof. intros Hd. unfold sscanf_d. cbn -[scan_digits]. by rewrite Hd. Qed.

Lemma sscanf_pos d m :
  isdigit d = true ->
  sscanf_d (d :: m) = (fun v => Some (s32 v)) <$> scan_digits 0 (d :: m).
Proof.
  intros Hd. unfold sscanf_d. rewrite skip_spaces_digit by done.
  cbn -[scan_digits]. rewrite Hd.
  assert ((d =? 45) = false) as -> by (apply isdigit_true in Hd; by zcases). done.
Qed.

(** Scanning what was printed gives the number back, and the scan stops at
    the first character that is not a digit. *)
Lemma sscanf_fmt_d z c tail :
  -2147483648 <= z < 2147483648 -> isdigit c = false ->
  sscanf_d (fmt_d z ++ c :: tail) = Some (Some z).
Proof.
  intros Hz Hc. unfold fmt_d. assert (10 ^ 20 = 100000000000000000000) as E10 by done.
  destruct (Z.ltb_spec z 0).
  - destruct (dec_cons (- z)) as (d & ds & E & Hd); [lia|].
    rewrite E. cbn [app]. rewrite sscanf_neg by done.
    rewrite app_comm_cons, <- E, scan_dec; [|rewrite E10; lia|done].
    simpl. rewrite Z.opp_involutive. by rewrite s32_small.
  - destruct (dec_cons z) as (d & ds & E & Hd); [lia|].
    rewrite E. cbn [app]. rewrite sscanf_pos by done.
    rewrite app_comm_cons, <- E, scan_dec; [|rewrite E10; lia|done].
    simpl. by rewrite s32_small.
Qed.

(** An unterminated number is read past its end. *)
Lemma sscanf_unterminated z : sscanf_d (fmt_d z) = None.
Proof.
  assert (forall n, 0 <= n -> scan_digits 0 (dec 20 n) = None) as Hs.
  { intros n Hn. rewrite <- (app_nil_r (dec 20 n)).
    by rewrite scan_digits_app by (by apply dec_digits). }
  unfold fmt_d. destruct (Z.ltb_spec z 0).
  - destruct (dec_cons (- z)) as (d & ds & E & Hd); [lia|].
    rewrite E, sscanf_neg, <- E by done. by rewrite Hs by lia.
  - destruct (dec_cons z) as (d & ds & E & Hd); [lia|].
    rewrite E, sscanf_pos, <- E by done. by rewrite Hs by lia.
Qed.

Lemma fmt_d_length z :
  -2147483648 <= z < 2147483648 -> (1 <= length (fmt_d z) <= 11)%nat.
Proof.
  intros Hz.
  assert (forall n, 0 <= n <= 2147483648 -> (1 <= length (dec 20 n) <= 10)%nat) as Hl.
  { intros n Hn. split.
    - pose proof (dec_nonempty 20 n) as Hne. destruct (dec 20 n); simpl; [|lia].
      exfalso. apply Hne; [lia|done].
    - apply dec_length; [|lia]. change (10 ^ Z.of_nat 10) with 10000000000. lia. }
  unfold fmt_d. destruct (Z.ltb_spec z 0).
  - cbn [length]. specialize (Hl (- z)). lia.
  - specialize (Hl z). lia.
Qed.

Lemma fmt_d_nonzero z : Forall (fun b => b <> 0) (fmt_d z).
Proof.
  assert (forall n, 0 <= n -> Forall (fun b => b <> 0) (dec 20 n)) as Hd.
  { intros n Hn. eapply Forall_impl; [by apply dec_digits|]. simpl. lia. }
  unfold fmt_d. destruct (Z.ltb_spec z 0); [constructor; [done|]|]; apply Hd; lia.
Qed.
End decimal.

#[global] Arguments dec : simpl never.

(** ** Hexadecimal *)

Definition hexdigit (d : Z) : byte := if d <? 10 then 48 + d else 97 + (d - 10).
Definition unhexdigit (c : byte) : option Z :=
  if (48 <=? c) && (c <=? 57) then Some (c - 48)
  else if (97 <=? c) && (c <=? 102) then Some (c - 87)
  else None.

Fixpoint hex (fuel : nat) (n : Z) : bytes :=
  match fuel with
  | O => []
  | S f => if n <? 16 then [hexdigit n] else hex f (n / 16) ++ [hexdigit (n mod 16)]
  end.

(** [%0<w>x]: at least [w] digits, padded with zeros. *)
Definition zero_pad (w : nat) (s : bytes) : bytes := replicate (w - length s) 48 ++ s.
Definition fmt_02x (v : Z) : bytes := zero_pad 2 (hex 16 v).
Definition fmt_08x (v : Z) : bytes := zero_pad 8 (hex 16 v).

Definition unhex2 (a b : byte) : option Z :=
  x ← unhexdigit a; y ← unhexdigit b; Some (x * 16 + y).

Lemma unhexdigit_hexdigit d : 0 <= d < 16 -> unhexdigit (hexdigit d) = Some d.
Proof.
  intros Hd. unfold unhexdigit, hexdigit. zcases; f_equal; lia.
Qed.

Lemma hexdigit_range d : 0 <= d < 16 -> 48 <= hexdigit d <= 102.
Proof. intros. unfold hexdigit. zcases. Qed.

Lemma fmt_02x_byte b :
  0 <= b < 256 -> fmt_02x b = [hexdigit (b / 16); hexdigit (b mod 16)].
Proof.
  intros Hb. unfold fmt_02x. cbn [hex].
  destruct (Z.ltb_spec b 16).
  - rewrite Z.div_small, Z.mod_small by lia. reflexivity.
  - assert (0 <= b / 16 < 16) by (split; [apply Z.div_pos|apply Z.div_lt_upper_bound]; lia).
    destruct (Z.ltb_spec (b / 16) 16); [|lia]. reflexivity.
Qed.

Lemma fmt_02x_length b : 0 <= b < 256 -> length (fmt_02x b) = 2%nat.
Proof. intros. by rewrite fmt_02x_byte. Qed.

Lemma unhex2_byte b :
  0 <= b < 256 -> unhex2 (hexdigit (b / 16)) (hexdigit (b mod 16)) = Some b.
Proof.
  intros Hb. unfold unhex2.
  assert (0 <= b / 16 < 16) by (split; [apply Z.div_pos|apply Z.div_lt_upper_bound]; lia).
  pose proof (Z.mod_pos_bound b 16).
  rewrite !unhexdigit_hexdigit by lia. simpl. f_equal.
  pose proof (Z.div_mod b 16). lia.
Qed.

Lemma hex_length fuel n k :
  0 <= n < 16 ^ Z.of_nat k -> (1 <= k)%nat -> (length (hex fuel n) <= k)%nat.
Proof.
  revert n k. induction fuel as [|f IH]; intros n k Hn Hk; simpl; [lia|].
  destruct (Z.ltb_spec n 16); simpl; [lia|].
  rewrite length_app. simpl. destruct k as [|[|k]]; [lia|simpl in Hn; lia|].
  enough (length (hex f (n / 16)) <= S k)%nat by lia.
  apply IH; [|lia]. rewrite (Nat2Z.inj_succ (S k)), Z.pow_succ_r in Hn by lia.
  split; [apply Z.div_pos; lia|]. apply Z.div_lt_upper_bound; lia.
Qed.

(** [sprintf(buf + off, ...)]: the text and its terminator, inside the block. *)
Definition sprintf (buf : bytes) (off : Z) (text : bytes) : option bytes :=
  store buf off (text ++ [0]).

(** [snprintf(buf + off, size, ...)]: at most [size - 1] characters and the
    terminator.  Its value is the length of the whole text. *)
Definition snprintf (buf : bytes) (off size : Z) (text : bytes) : option bytes :=
  if size =? 0 then Some buf else store buf off (take (Z.to_nat (size - 1)) text ++ [0]).

Lemma snprintf_fits m rest size text :
  zlen text < size -> zlen m + size <= zlen (m ++ rest) ->
  exists rest', snprintf (m ++ rest) (zlen m) size text = Some ((m ++ text) ++ 0 :: rest') /\
    length ((m ++ text) ++ 0 :: rest') = length (m ++ rest).
Proof.
  intros Ht Hs. rewrite length_app in Hs. unfold snprintf.
  rewrite (proj2 (Z.eqb_neq size 0)), take_ge by lia.
  exists (drop (S (length text)) rest).
  assert (length (take (S (length text)) rest) = length (text ++ [0])) as Hl.
  { rewrite length_take, length_app. cbn [length]. lia. }
  rewrite <- (take_drop (S (length text)) rest) at 1. rewrite (store_mid m _ (text ++ [0])) by done.
  split; [by rewrite <- !app_assoc|].
  rewrite !length_app. simpl. rewrite length_drop. lia.
Qed.

Lemma hex_digits fuel n : 0 <= n -> Forall (fun c => 48 <= c <= 102) (hex fuel n).
Proof.
  revert n. induction fuel as [|f IH]; intros n Hn; simpl; [done|].
  pose proof (Z.div_pos n 16). pose proof (Z.mod_pos_bound n 16).
  destruct (Z.ltb_spec n 16).
  - repeat constructor; by apply hexdigit_range.
  - apply Forall_app. split; [apply IH; lia|]. repeat constructor; apply hexdigit_range; lia.
Qed.

Lemma fmt_08x_length n : 0 <= n < 4294967296 -> length (fmt_08x n) = 8%nat.
Proof.
  intros Hn. unfold fmt_08x, zero_pad. rewrite length_app, length_replicate.
  pose proof (hex_length 16 n 8 ltac:(simpl; lia) ltac:(lia)). lia.
Qed.

Lemma fmt_08x_nonzero n : 0 <= n -> Forall (fun c => c <> 0) (fmt_08x n).
Proof.
  intros Hn. apply Forall_app. split; [by apply Forall_replicate|].
  eapply Forall_impl; [by apply hex_digits|]. simpl. lia.
Qed.

Lemma fmt_02x_nonzero b : 0 <= b < 256 -> Forall (fun c => c <> 0) (fmt_02x b).
Proof.
  intros Hb. apply Forall_app. split; [by apply Forall_replicate|].
  eapply Forall_impl; [apply hex_digits; lia|]. simpl. lia.
Qed.

#[global] Arguments hex : simpl never.

(** The texts have no NUL in them. *)
Create HintDb text.
#[export] Hint Resolve fmt_d_nonzero fmt_08x_nonzero fmt_02x_nonzero : text.
