(* ===== verification/FileDev.v ===== *)
(** * What a memory-backed character device promises

    [file_step] is the abstract device: a block of [dev_size] bytes and a
    position; a read or a write moves the bytes that fit between the position
    and the end, a seek moves the position.  The drivers differ in what they do
    to the bytes written, in what they answer when no byte fits and in where a
    seek outside the block ends ([BoundedDev]).

    [FileDriver] is the interface of a driver as the VFS sees it and
    [FileDriverOK] its contract; [session_refines] shows, against the contract,
    that every sequence of system calls on a file of the driver is a run of the
    abstract device with the same results and the same transfers. *)

From S2P Require Import Prelude Kernel Prog.

Class BoundedDev := {
  dev_size : Z;
  dev_conv : byte -> byte;         (* applied to each byte written *)
  dev_eof : option Z;              (* the error returned when no byte fits, if any *)
  dev_clamp : Z -> Z;              (* where a seek to a target ends *)
}.

Record file := File { content : bytes; pos : Z }.

(** The system calls, and the calls with the transfer they did: the bytes, and
    how many of them were not copied. *)
Inductive req := RRead (n : Z) | RWrite (n : Z) | RSeek (off whence : Z).
Inductive label :=
| LRead (n : Z) (io : option (bytes * Z))
| LWrite (n : Z) (io : option (bytes * Z))
| LSeek (off whence : Z).

Definition label_req (l : label) : req :=
  match l with
  | LRead n _ => RRead n
  | LWrite n _ => RWrite n
  | LSeek off whence => RSeek off whence
  end.

Inductive io := ToUser (d : bytes) (uncopied : Z) | FromUser (d : bytes) (uncopied : Z).

Definition label_io (l : label) : list io :=
  match l with
  | LRead _ (Some (d, k)) => [ToUser d k]
  | LWrite _ (Some (d, k)) => [FromUser d k]
  | _ => []
  end.

(** The transfers of a history, newest first. *)
Definition io_of_event (e : event) : option io :=
  match e with
  | Ev c r =>
    match c in kcall R return R -> option io with
    | Copy_to_user d => fun k => Some (ToUser d k)
    | Copy_from_user _ => fun r => Some (FromUser r.1 r.2)
    | _ => fun _ => None
    end r
  end.
Definition io_trace (h : history) : list io := omap io_of_event h.

Definition seek_target `{BoundedDev} (f : file) (off whence : Z) : option Z :=
  if whence =? 0 then Some off
  else if whence =? 1 then Some (pos f + off)
  else if whence =? 2 then Some (dev_size + off)
  else None.

Section spec.
Context `{D : BoundedDev}.

(** How many bytes a call for [n] moves. *)
Definition room (f : file) (n : Z) : Z := Z.min n (dev_size - pos f).

Inductive file_step (f : file) : label -> Z -> file -> Prop :=
| step_read n d k :
    (dev_eof = None \/ 0 < room f n) ->
    load (content f) (pos f) (room f n) = Some d ->
    0 <= k <= zlen d ->
    file_step f (LRead n (Some (d, k))) (zlen d - k)
      (File (content f) (pos f + (zlen d - k)))
| step_write n d k c :
    (dev_eof = None \/ 0 < room f n) ->
    zlen d = room f n ->
    store (content f) (pos f) d = Some c ->
    0 <= k <= zlen d ->
    file_step f (LWrite n (Some (d, k))) (zlen d - k)
      (File (map_range dev_conv (pos f) (zlen d - k) c) (pos f + (zlen d - k)))
| step_read_eof n e :
    dev_eof = Some e -> room f n = 0 -> file_step f (LRead n None) (- e) f
| step_write_eof n e :
    dev_eof = Some e -> room f n = 0 -> file_step f (LWrite n None) (- e) f
| step_seek off whence t :
    seek_target f off whence = Some t ->
    file_step f (LSeek off whence) (dev_clamp t) (File (content f) (dev_clamp t))
| step_seek_bad off whence :
    seek_target f off whence = None -> file_step f (LSeek off whence) (- 22) f.

Definition file_ok (f : file) : Prop :=
  zlen (content f) = dev_size /\ 0 <= pos f <= dev_size.

(** The position never leaves the block and the block keeps its size. *)
Lemma file_step_ok f l r f' :
  (forall t, 0 <= dev_clamp t <= dev_size) ->
  file_step f l r f' -> file_ok f -> file_ok f'.
Proof.
  intros Hc Hs [Hl Hp]. unfold file_ok. destruct Hs; simpl; auto.
  - apply load_length in H0. unfold room in H0. split; [done|lia].
  - rewrite map_range_length. apply store_length in H1. unfold room in H0. lia.
Qed.

Inductive file_steps : file -> list label -> list Z -> file -> Prop :=
| steps_nil f : file_steps f [] [] f
| steps_cons f l r f1 ls rs f2 :
    file_step f l r f1 -> file_steps f1 ls rs f2 ->
    file_steps f (l :: ls) (r :: rs) f2.

Lemma file_steps_ok f ls rs f' :
  (forall t, 0 <= dev_clamp t <= dev_size) ->
  file_steps f ls rs f' -> file_ok f -> file_ok f'.
Proof. induction 2; eauto using file_step_ok. Qed.
End spec.

(** ** The interface of a driver *)

(** [drv_read n ppos], [drv_write n ppos] and [drv_lseek f_pos off whence]
    return the result and the new position. *)
Class FileDriver (σ : Type) := {
  drv_read : Z -> Z -> prog σ (Z * Z);
  drv_write : Z -> Z -> prog σ (Z * Z);
  drv_lseek : Z -> Z -> Z -> prog σ (Z * Z);
  drv_content : σ -> bytes;
}.

Section session.
Context {σ : Type} `{FileDriver σ}.

(** [read(2)], [write(2)] and [lseek(2)]: the handler gets the position of
    the open file, and what it leaves there is the position of the next. *)
Definition exec_req (r : req) (f_pos : Z) : prog σ (Z * Z) :=
  match r with
  | RRead n => drv_read n f_pos
  | RWrite n => drv_write n f_pos
  | RSeek off whence => drv_lseek f_pos off whence
  end.

Fixpoint session (rs : list req) (f_pos : Z) : prog σ (list Z * Z) :=
  match rs with
  | [] => Ret ([], f_pos)
  | r :: rs' =>
      x <- exec_req r f_pos ;;
      y <- session rs' x.2 ;;
      Ret (x.1 :: y.1, y.2)
  end.
End session.

Class FileDriverOK (σ : Type) `{FileDriver σ} `{BoundedDev} (valid : req -> Prop) (K : kernel) := {
  dev_clamp_bound : forall t, 0 <= dev_clamp t <= dev_size;
  drv_step : forall r s h f_pos,
    valid r -> file_ok (File (drv_content s) f_pos) ->
    wp K (exec_req r f_pos) (fun x s' h' =>
      exists l, label_req l = r /\
        file_step (File (drv_content s) f_pos) l x.1 (File (drv_content s') x.2) /\
        io_trace h' = label_io l ++ io_trace h) s h;
}.

Lemma session_refines_gen `{FileDriverOK σ valid K} rs s h f_pos :
  Forall valid rs -> file_ok (File (drv_content s) f_pos) ->
  wp K (session rs f_pos) (fun x s' h' =>
    exists ls, label_req <$> ls = rs /\
      file_steps (File (drv_content s) f_pos) ls x.1 (File (drv_content s') x.2) /\
      io_trace h' = mjoin (label_io <$> reverse ls) ++ io_trace h) s h.
Proof.
  intros Hv. revert s h f_pos. induction Hv as [|r rs Hr _ IH]; intros s h f_pos Hok; simpl.
  - exists []. repeat split; constructor.
  - apply wp_bind. eapply wp_mono; [by apply drv_step|].
    intros [ret p1] s1 h1 (l & Hl & Hs & Hio). simpl in *.
    apply wp_bind. eapply wp_mono.
    { apply IH. eapply file_step_ok; eauto using dev_clamp_bound. }
    intros [rets p2] s2 h2 (ls & Hls & Hss & Hio2). simpl in *. exists (l :: ls).
    split_and!; [by f_equal/=; congruence|by econstructor|].
    rewrite Hio2, Hio, reverse_cons, fmap_app, join_app. simpl.
    by rewrite app_nil_r, <- app_assoc.
Qed.

(** ** Writing and reading back *)

Definition uncopied (i : io) : Z :=
  match i with ToUser _ k => k | FromUser _ k => k end.

(** When the user's memory is mapped every transfer is complete. *)
Lemma run_mapped {σ A} K `{!UserMapped K} (p : prog σ A) s h o s' h' :
  run K p s h = (o, s', h') ->
  exists new, h' = new ++ h /\ Forall (fun i => uncopied i = 0) (io_trace new).
Proof.
  revert s h. induction p as [a|k IH|s0 p IH|R c k IH|f]; intros s h Hr; cbn [run] in Hr;
    [|by eapply IH|by eapply IH| |];
    try (simplify_eq; exists []; split; [done|constructor]).
  destruct (IH _ _ _ Hr) as (new & -> & Hn). exists (new ++ [Ev c (K R h c)]).
  rewrite <- app_assoc. split; [done|]. unfold io_trace in *. rewrite omap_app.
  apply Forall_app. split; [done|].
  destruct c; simpl; repeat constructor; simpl; [apply mapped_to_user|apply mapped_from_user].
Qed.

Section write_read.
Context `{D : BoundedDev}.

Lemma file_write_seek_read f n ls rets f2 :
  dev_eof = None -> dev_clamp (pos f) = pos f ->
  file_ok f -> 0 <= n -> pos f + n <= dev_size ->
  label_req <$> ls = [RWrite n; RSeek (pos f) 0; RRead n] ->
  file_steps f ls rets f2 ->
  Forall (fun i => uncopied i = 0) (mjoin (label_io <$> reverse ls)) ->
  exists d, zlen d = n /\ rets = [n; pos f; n] /\ pos f2 = pos f + n /\
    mjoin (label_io <$> reverse ls) = [ToUser (dev_conv <$> d) 0; FromUser d 0].
Proof.
  intros He Hc [Hl Hp] Hn Hfit Hreq Hs Hk.
  destruct ls as [|l1 [|l2 [|l3 [|]]]]; simplify_eq/=.
  inversion Hs as [|? ? r1 f1 ? ? ? S1 Hs1]; subst. clear Hs.
  inversion Hs1 as [|? ? r2 f1' ? ? ? S2 Hs2]; subst. clear Hs1.
  inversion Hs2 as [|? ? r3 f1'' ? ? ? S3 Hs3]; subst. clear Hs2.
  inversion Hs3; subst. clear Hs3.
  inversion S1 as [|n1 d k1 c E1 Hd Hst Hk1| |? ? ? ?| |]; subst; simplify_eq/=.
  inversion S2 as [| | | |? ? t Ht|? ? Ht]; subst; simplify_eq/=.
  inversion S3 as [n3 d3 k3 E3 Hd3 Hk3| |? ? ? ?| | |]; subst; simplify_eq/=.
  apply Forall_cons in Hk as [Hz3 Hk]. apply Forall_cons in Hk as [Hz1 _].
  simpl in Hz1, Hz3. subst k1 k3.
  clear S1 S2 S3. unfold seek_target in Ht. injection Ht as <-.
  unfold room in *. simpl in *. rewrite Hc in *. rewrite Z.sub_0_r in *.
  rewrite Z.min_l in Hd, Hd3 by lia. subst n.
  rewrite (load_map_range _ _ _ _ d) in Hd3 by (by eapply load_store). simplify_eq.
  exists d. rewrite length_fmap, !Z.sub_0_r. split_and!; done || lia.
Qed.
End write_read.
