(* ===== verification/Mychar.v ===== *)
(** * char_dev/mychar.c: a character device over a 40960-byte buffer

    The static variables are [state]; one definition per file operation, [init]
    and [exit].  The read and write handlers hand [kbuf + *ppos] and the
    caller's length to the user-copy functions without a bounds check, so the
    theorems say exactly when they stay inside the buffer. *)

From S2P Require Import Prelude Kernel Prog.

Definition MYDEV_NAME : string := "mycdrv".
(** [10 * PAGE_SIZE], an unsigned long. *)
Definition KBUF_SIZE : Z := 10 * 4096.

Record state := State {
  kbuf_p : Z; kbuf : bytes; first : dev_t; count : Z;
  my_major : Z; my_minor : Z; my_cdev : Z }.

Definition set_kbuf (b : kblock) (s : state) : state :=
  State (kb_addr b) (kb_bytes b) (first s) (count s) (my_major s) (my_minor s) (my_cdev s).
Definition set_bytes (m : bytes) (s : state) : state :=
  State (kbuf_p s) m (first s) (count s) (my_major s) (my_minor s) (my_cdev s).
Definition set_first (d : dev_t) (s : state) : state :=
  State (kbuf_p s) (kbuf s) d (count s) (my_major s) (my_minor s) (my_cdev s).
Definition set_cdev (p : Z) (s : state) : state :=
  State (kbuf_p s) (kbuf s) (first s) (count s) (my_major s) (my_minor s) p.

(** The static initialisers. *)
Definition statics : state := State 0 [] (MKDEV 0 0) 10 900 0 0.

Definition my_open : prog state Z :=
  printk " OPEN device : %s\n" [PName MYDEV_NAME] ;; Ret 0.

Definition my_release : prog state Z :=
  printk " CLOSE device : %s\n" [PName MYDEV_NAME] ;; Ret 0.

(** The result and the new [*ppos]. *)
Definition my_read (lbuf ppos : Z) : prog state (Z * Z) :=
  s <- get ;;
  d <- access (load (kbuf s) ppos lbuf) ;;
  k <- call (Copy_to_user d) ;;
  let nbytes := s32 (u64 (lbuf - k)) in
  let ppos' := s64 (ppos + nbytes) in
  printk "\n my_read, nbytes=%d, pos=%d\n" [PInt nbytes; PInt (s32 ppos')] ;;
  Ret (nbytes, ppos').

Definition my_write (lbuf ppos : Z) : prog state (Z * Z) :=
  x <- call (Copy_from_user lbuf) ;;
  s <- get ;;
  m <- access (store (kbuf s) ppos x.1) ;;
  modify (set_bytes m) ;;
  let nbytes := s32 (u64 (lbuf - x.2)) in
  let ppos' := s64 (ppos + nbytes) in
  printk "\n my_write, nbytes=%d, pos=%d\n" [PInt nbytes; PInt (s32 ppos')] ;;
  Ret (nbytes, ppos').

(** [testpos < KBUF_SIZE] compares a [loff_t] with an unsigned long, so both
    sides are unsigned; so is the value of the conditional expression. *)
Definition clamp (testpos : Z) : Z :=
  let testpos := s64 (if u64 testpos <? KBUF_SIZE then u64 testpos else KBUF_SIZE) in
  if testpos >=? 0 then testpos else 0.

(** The result and the new [file->f_pos]. *)
Definition my_lseek (f_pos offset orig : Z) : prog state (Z * Z) :=
  match
    (if orig =? 0 then Some offset
     else if orig =? 1 then Some (s64 (f_pos + offset))
     else if orig =? 2 then Some (s64 (u64 (KBUF_SIZE + offset)))
     else None)
  with
  | None => Ret (-22, f_pos)
  | Some testpos => Ret (clamp testpos, clamp testpos)
  end.

Definition my_init : prog state Z :=
  b <- call (Kmalloc KBUF_SIZE) ;;
  modify (set_kbuf b) ;;
  modify (fun s => set_first (MKDEV (my_major s) (my_minor s)) s) ;;
  s <- get ;;
  call (Register_chrdev_region (first s) (count s) MYDEV_NAME) ;;
  p <- call Cdev_alloc ;;
  modify (set_cdev p) ;;
  call (Cdev_init p) ;;
  call (Cdev_add p (first s) (count s)) ;;
  printk "Success\n" [] ;;
  Ret 0.

Definition my_exit : prog state unit :=
  s <- get ;;
  call (Cdev_del (my_cdev s)) ;;
  call (Unregister_chrdev_region (first s) (count s)) ;;
  call (Kfree (kbuf_p s)) ;;
  printk "\nunregistered\n" [].

(** ** Lemmas *)

Lemma KBUF_SIZE_value : KBUF_SIZE = 40960.
Proof. reflexivity. Qed.

(** Where a seek ends: inside the buffer at the target, and at the end of the
    buffer for every other target, negative ones included. *)
Lemma mychar_clamp_value t :
  -9223372036854775808 <= t < 9223372036854775808 ->
  clamp t = if (0 <=? t) && (t <? 40960) then t else 40960.
Proof.
  intros Ht. apply (ulong_clamp KBUF_SIZE t); [by rewrite KBUF_SIZE_value|exact Ht].
Qed.

(** The number of bytes the C code reports. *)
Lemma nbytes_value n k : 0 <= k <= n -> n < 2147483648 -> s32 (u64 (n - k)) = n - k.
Proof. intros. by cint. Qed.

(** No byte, or a range inside the buffer. *)
Lemma fits_spec n pos :
  BoolSpec (n = 0 \/ pos + n <= 40960) (n <> 0 /\ 40960 < pos + n) ((n =? 0) || (pos + n <=? 40960)).
Proof. destruct (Z.eqb_spec n 0), (Z.leb_spec (pos + n) 40960); constructor; auto. Qed.

Section handlers.
Context (K : kernel) `{!UaccessSpec K}.

(** ** Properties *)

(** C37: a read of [lbuf] bytes at [*ppos] accesses memory outside [kbuf], or
    delivers the bytes at the position and advances by what was copied:
    exactly when the range fits, or is empty, since the handler has no bounds
    check. *)
Theorem mychar_read_spec lbuf ppos s h :
  0 <= lbuf < 2147483648 -> 0 <= ppos < 9223372036854775808 -> zlen (kbuf s) = KBUF_SIZE ->
  if (lbuf =? 0) || (ppos + lbuf <=? KBUF_SIZE) then
    let d := take (Z.to_nat lbuf) (drop (Z.to_nat ppos) (kbuf s)) in
    let k := K _ h (Copy_to_user d) in
    wp K (my_read lbuf ppos) (fun x s' _ =>
      x = (lbuf - k, ppos + (lbuf - k)) /\ s' = s /\ 0 <= x.1 <= lbuf) s h
  else faults K (my_read lbuf ppos) OutOfBounds s h.
Proof.
  intros Hn Hp Hl. rewrite KBUF_SIZE_value in *.
  destruct (fits_spec lbuf ppos) as [Hfit|Hfit].
  - unfold my_read. wp_go. eapply wp_access; [apply load_fits; lia|]. wp_go.
    set (d := take _ _) in *. assert (zlen d = lbuf) as Hd.
    { subst d. rewrite length_take, length_drop. lia. }
    pose proof (copy_to_user_bound h d) as Hk. rewrite <- E in *.
    rewrite nbytes_value by lia. simpl. cint. auto with lia.
  - unfold my_read. faults_go. faults_here. apply load_none; lia.
Qed.
End handlers.

(** [my_write] has the same bounds: outside the buffer it corrupts memory;
    inside, exactly the bytes at the position are replaced. *)
Theorem mychar_write_spec (K : kernel) `{!UaccessSpec K} lbuf ppos s h :
  0 <= lbuf < 2147483648 -> 0 <= ppos < 9223372036854775808 -> zlen (kbuf s) = KBUF_SIZE ->
  if (lbuf =? 0) || (ppos + lbuf <=? KBUF_SIZE) then
    let d := (K _ h (Copy_from_user lbuf)).1 in
    let k := (K _ h (Copy_from_user lbuf)).2 in
    wp K (my_write lbuf ppos) (fun x s' _ =>
      x = (lbuf - k, ppos + (lbuf - k)) /\
      store (kbuf s) ppos d = Some (kbuf s') /\ zlen (kbuf s') = KBUF_SIZE) s h
  else faults K (my_write lbuf ppos) OutOfBounds s h.
Proof.
  intros Hn Hp Hl. rewrite KBUF_SIZE_value in *.
  pose proof (copy_from_user_bound h lbuf) as Hk.
  pose proof (copy_from_user_length h lbuf) as Hd.
  destruct (fits_spec lbuf ppos) as [Hfit|Hfit].
  - destruct (K _ h (Copy_from_user lbuf)) as [d k] eqn:E. simpl in *.
    assert (exists m, store (kbuf s) ppos d = Some m) as [m Hm].
    { destruct Hfit as [Hz|Hfit]; [|eexists; apply store_ok; lia].
      destruct d; [eexists; apply store_nil|simpl in Hd; lia]. }
    unfold my_write. wp_go. rewrite <- E0 in E. subst r. eapply wp_access; [exact Hm|]. wp_go. simpl.
    rewrite nbytes_value by lia. cint. apply store_length in Hm as Hml. auto with lia.
  - unfold my_write. faults_go. faults_here. rewrite <- E in *. apply store_none; lia.
Qed.

(** [my_lseek] moves to the target when it lies inside the buffer and to the
    end of the buffer otherwise, also for a negative target (the comparison is
    unsigned, so the clamp to 0 is never reached); an unknown origin is
    refused and leaves the position alone. *)
Theorem mychar_lseek_spec K f_pos offset orig s h :
  0 <= f_pos <= KBUF_SIZE ->
  -9223372036854775808 <= offset < 9223372036854775808 - KBUF_SIZE ->
  wp K (my_lseek f_pos offset orig) (fun x s' h' =>
    s' = s /\ h' = h /\ 0 <= x.2 <= KBUF_SIZE /\
    match (if orig =? 0 then Some offset else if orig =? 1 then Some (f_pos + offset)
           else if orig =? 2 then Some (KBUF_SIZE + offset) else None) with
    | Some t => x = if (0 <=? t) && (t <? KBUF_SIZE) then (t, t) else (KBUF_SIZE, KBUF_SIZE)
    | None => x = (-22, f_pos)
    end) s h.
Proof.
  rewrite KBUF_SIZE_value. intros Hp Ho. unfold my_lseek.
  rewrite KBUF_SIZE_value.
  destruct (orig =? 0); [|destruct (orig =? 1); [|destruct (orig =? 2)]];
    apply wp_ret; cint; rewrite ?mychar_clamp_value by lia; split_and!; try done; simpl;
    try lia; zcases; done.
Qed.

(** ** Concrete instances *)

Definition loaded : state :=
  State 4096 (replicate (Z.to_nat KBUF_SIZE) 0) (MKDEV 900 0) 10 900 0 1.

Lemma mychar_loaded_size : zlen (kbuf loaded) = KBUF_SIZE.
Proof.
  change (kbuf loaded) with (replicate (Z.to_nat KBUF_SIZE) 0).
  rewrite length_replicate, Z2Nat.id; unfold KBUF_SIZE; lia.
Qed.

Lemma mychar_read_witness :
  wp quiet_kernel (my_read 16 8) (fun x s' _ => x = (16, 24) /\ s' = loaded) loaded [] /\
  faults quiet_kernel (my_read 16 40950) OutOfBounds loaded [].
Proof.
  pose proof (mychar_read_spec quiet_kernel 16 8 loaded []
    ltac:(lia) ltac:(lia) mychar_loaded_size) as H.
  pose proof (mychar_read_spec quiet_kernel 16 40950 loaded []
    ltac:(lia) ltac:(lia) mychar_loaded_size) as H'.
  rewrite (eq_refl : (8 + 16 <=? KBUF_SIZE) = true) in H.
  rewrite (eq_refl : (40950 + 16 <=? KBUF_SIZE) = false) in H'.
  split; [|exact H']. cbv zeta in H. eapply wp_mono; [exact H|].
  intros x s' h' (Hx & Hs & _). split; [exact Hx|exact Hs].
Defined.

Lemma mychar_write_witness :
  wp quiet_kernel (my_write 16 8) (fun x s' _ => x = (16, 24) /\
    store (kbuf loaded) 8 (replicate 16 0) = Some (kbuf s')) loaded [] /\
  faults quiet_kernel (my_write 16 40950) OutOfBounds loaded [].
Proof.
  pose proof (mychar_write_spec quiet_kernel 16 8 loaded []
    ltac:(lia) ltac:(lia) mychar_loaded_size) as H.
  pose proof (mychar_write_spec quiet_kernel 16 40950 loaded []
    ltac:(lia) ltac:(lia) mychar_loaded_size) as H'.
  rewrite (eq_refl : (8 + 16 <=? KBUF_SIZE) = true) in H.
  rewrite (eq_refl : (40950 + 16 <=? KBUF_SIZE) = false) in H'.
  split; [|exact H']. cbv zeta in H. eapply wp_mono; [exact H|].
  intros x s' h' (Hx & Hs & _). split; [exact Hx|exact Hs].
Defined.

Lemma mychar_lseek_witness :
  wp quiet_kernel (my_lseek 8 (-20) 1) (fun x _ _ => x = (40960, 40960)) loaded [].
Proof.
  eapply wp_mono.
  { apply (mychar_lseek_spec quiet_kernel 8 (-20) 1 loaded []); unfold KBUF_SIZE; lia. }
  intros x s' h' (_ & _ & _ & Hx). exact Hx.
Defined.
