(* ===== verification/Mydynamic.v ===== *)
(** * char_dev/mydynamic.c: a bounded character device

    The handlers check the length of a transfer against the end of the buffer.
    [mydynamic_session_refines] shows that, for the positions the driver's own
    [lseek] can produce, they implement the abstract device of [FileDev];
    [mydynamic_pread_oob] shows what the check misses. *)

From S2P Require Import Prelude Kernel Prog FileDev.
From S2P Require Mychar.

Definition MYDEV_NAME : string := "mycdrv".
(** [(size_t)(10*PAGE_SIZE)] *)
Definition KBUF_SIZE : Z := 10 * 4096.

Record state := State {
  kbuf_p : Z; kbuf : bytes; first : dev_t; count : Z; my_cdev : Z; counter : Z }.

Definition set_kbuf (b : kblock) (s : state) : state :=
  State (kb_addr b) (kb_bytes b) (first s) (count s) (my_cdev s) (counter s).
Definition set_bytes (m : bytes) (s : state) : state :=
  State (kbuf_p s) m (first s) (count s) (my_cdev s) (counter s).
Definition set_first (d : dev_t) (s : state) : state :=
  State (kbuf_p s) (kbuf s) d (count s) (my_cdev s) (counter s).
Definition set_cdev (p : Z) (s : state) : state :=
  State (kbuf_p s) (kbuf s) (first s) (count s) p (counter s).
Definition set_counter (c : Z) (s : state) : state :=
  State (kbuf_p s) (kbuf s) (first s) (count s) (my_cdev s) c.

Definition statics : state := State 0 [] (MKDEV 0 0) 1 0 0.

Definition mycdrv_open (inode : dev_t) : prog state Z :=
  printk " attempting to open device: %s:\n" [PName MYDEV_NAME] ;;
  printk " MAJOR number = %d, MINOR number = %d\n" [PInt (MAJOR inode); PInt (MINOR inode)] ;;
  modify (fun s => set_counter (s32 (counter s + 1)) s) ;;
  printk " successfully open  device: %s:\n\n" [PName MYDEV_NAME] ;;
  s <- get ;;
  printk "I have been opened  %d times since being loaded\n" [PInt (counter s)] ;;
  r <- call Module_refcount ;;
  printk "ref=%ld\n" [PInt r] ;;
  Ret 0.

Definition mycdrv_release : prog state Z :=
  printk " CLOSING device: %s:\n\n" [PName MYDEV_NAME] ;; Ret 0.

(** [maxbytes = KBUF_SIZE - *ppos] truncates to an [int]; [maxbytes > lbuf]
    compares it as a [size_t]. *)
Definition bytes_to_do (lbuf ppos : Z) : Z :=
  let maxbytes := s32 (u64 (KBUF_SIZE - ppos)) in
  s32 (if u64 maxbytes >? lbuf then lbuf else u64 maxbytes).

Definition mycdrv_read (lbuf ppos : Z) : prog state (Z * Z) :=
  let n := bytes_to_do lbuf ppos in
  (if n =? 0 then printk "Reached end of the device on a read" [] else skip) ;;
  s <- get ;;
  d <- access (load (kbuf s) ppos (u64 n)) ;;
  k <- call (Copy_to_user d) ;;
  let nbytes := s32 (u64 (n - k)) in
  let ppos' := s64 (ppos + nbytes) in
  printk "\n Leaving the   READ function, nbytes=%d, pos=%d\n" [PInt nbytes; PInt (s32 ppos')] ;;
  Ret (nbytes, ppos').

Definition mycdrv_write (lbuf ppos : Z) : prog state (Z * Z) :=
  let n := bytes_to_do lbuf ppos in
  (if n =? 0 then printk "Reached end of the device on a write" [] else skip) ;;
  x <- call (Copy_from_user (u64 n)) ;;
  s <- get ;;
  m <- access (store (kbuf s) ppos x.1) ;;
  modify (set_bytes m) ;;
  let nbytes := s32 (u64 (n - x.2)) in
  let ppos' := s64 (ppos + nbytes) in
  printk "\n Leaving the   WRITE function, nbytes=%d, pos=%d\n" [PInt nbytes; PInt (s32 ppos')] ;;
  Ret (nbytes, ppos').

Definition clamp (testpos : Z) : Z :=
  let testpos := s64 (if u64 testpos <? KBUF_SIZE then u64 testpos else KBUF_SIZE) in
  if testpos >=? 0 then testpos else 0.

Definition mycdrv_lseek (f_pos offset orig : Z) : prog state (Z * Z) :=
  match
    (if orig =? 0 then Some offset
     else if orig =? 1 then Some (s64 (f_pos + offset))
     else if orig =? 2 then Some (s64 (u64 (KBUF_SIZE + offset)))
     else None)
  with
  | None => Ret (-22, f_pos)
  | Some testpos =>
      printk "Seeking to pos=%ld\n" [PInt (clamp testpos)] ;;
      Ret (clamp testpos, clamp testpos)
  end.

Definition my_init : prog state Z :=
  s0 <- get ;;
  r <- call (Alloc_chrdev_region 0 (count s0) MYDEV_NAME) ;;
  (* the call leaves [first] alone when it fails *)
  (if r.1 <? 0 then skip else modify (set_first r.2)) ;;
  if r.1 <? 0 then
    printk "failed to allocate character device region\n" [] ;; Ret (-1)
  else
    p <- call Cdev_alloc ;;
    modify (set_cdev p) ;;
    s <- get ;;
    if p =? 0 then
      printk "cdev_alloc() failed\n" [] ;;
      call (Unregister_chrdev_region (first s) (count s)) ;;
      Ret (-1)
    else
      call (Cdev_init p) ;;
      b <- call (Kmalloc KBUF_SIZE) ;;
      modify (set_kbuf b) ;;
      r <- call (Cdev_add p (first s) (count s)) ;;
      if r <? 0 then
        printk "cdev_add() failed\n" [] ;;
        call (Cdev_del p) ;;
        call (Unregister_chrdev_region (first s) (count s)) ;;
        call (Kfree (kb_addr b)) ;;
        Ret (-1)
      else
        printk "\nSucceeded in registering character device %s\n" [PName MYDEV_NAME] ;;
        printk "Major number = %d, Minor number = %d\n"
          [PInt (MAJOR (first s)); PInt (MINOR (first s))] ;;
        Ret 0.

Definition my_exit : prog state unit :=
  s <- get ;;
  (if my_cdev s =? 0 then skip else call (Cdev_del (my_cdev s))) ;;
  call (Unregister_chrdev_region (first s) (count s)) ;;
  (if kbuf_p s =? 0 then skip else call (Kfree (kbuf_p s))) ;;
  printk "\ndevice unregistered\n" [].

(** ** The contract of [FileDev] *)

#[export] Instance mydynamic_dev : BoundedDev := {|
  dev_size := KBUF_SIZE; dev_conv := id; dev_eof := None;
  dev_clamp := fun t => if (0 <=? t) && (t <? KBUF_SIZE) then t else KBUF_SIZE |}.

#[export] Instance mydynamic_driver : FileDriver state := {|
  drv_read := mycdrv_read; drv_write := mycdrv_write; drv_lseek := mycdrv_lseek;
  drv_content := kbuf |}.

(** What the VFS passes: a length below 2^31 (it caps every transfer at
    [MAX_RW_COUNT]) and an offset whose sum with a position fits a [loff_t]. *)
Definition valid_req (r : req) : Prop :=
  match r with
  | RRead n | RWrite n => 0 <= n < 2147483648
  | RSeek off _ => -9223372036854775808 <= off < 9223372036854775808 - KBUF_SIZE
  end.

Lemma mydynamic_clamp_value t :
  -9223372036854775808 <= t < 9223372036854775808 ->
  clamp t = if (0 <=? t) && (t <? KBUF_SIZE) then t else KBUF_SIZE.
Proof. intros Ht. apply (ulong_clamp KBUF_SIZE t); [done|exact Ht]. Qed.

Lemma mydynamic_bytes_to_do_value lbuf ppos :
  0 <= lbuf < 2147483648 -> 0 <= ppos <= KBUF_SIZE ->
  bytes_to_do lbuf ppos = Z.min lbuf (KBUF_SIZE - ppos).
Proof.
  unfold bytes_to_do, KBUF_SIZE. intros. cint. rewrite Z.gtb_ltb. zcases; cint; lia.
Qed.

Section contract.
Context (K : kernel) `{!UaccessSpec K}.

Lemma mycdrv_read_step n s h f_pos :
  0 <= n < 2147483648 -> file_ok (File (kbuf s) f_pos) ->
  wp K (mycdrv_read n f_pos) (fun x s' h' =>
    exists l, label_req l = RRead n /\
      file_step (File (kbuf s) f_pos) l x.1 (File (kbuf s') x.2) /\
      io_trace h' = label_io l ++ io_trace h) s h.
Proof.
  intros Hn [Hl Hp]. simpl in *. unfold mycdrv_read.
  rewrite mydynamic_bytes_to_do_value by lia. unfold KBUF_SIZE in *.
  set (m := Z.min n (10 * 4096 - f_pos)). assert (0 <= m <= n /\ f_pos + m <= 40960) by lia.
  apply wp_bind, wp_opt_printk. intros h1 Hh1.
  assert (io_trace h1 = io_trace h) as <- by (by destruct Hh1 as [-> | ->]).
  wp_go. rewrite u64_small by lia.
  destruct (proj2 (load_is_some (kbuf s) f_pos m)) as [d Hd]; [lia|].
  apply load_length in Hd as Hdl. eapply wp_access; [exact Hd|]. wp_go.
  rename r into k. pose proof (copy_to_user_bound h1 d) as Hk. rewrite <- E in Hk.
  rewrite Mychar.nbytes_value, s64_small by lia.
  exists (LRead n (Some (d, k))). split_and!; [done| |done]. simpl.
  rewrite <- Hdl. constructor; [by left| |lia]. exact Hd.
Qed.

Lemma mycdrv_write_step n s h f_pos :
  0 <= n < 2147483648 -> file_ok (File (kbuf s) f_pos) ->
  wp K (mycdrv_write n f_pos) (fun x s' h' =>
    exists l, label_req l = RWrite n /\
      file_step (File (kbuf s) f_pos) l x.1 (File (kbuf s') x.2) /\
      io_trace h' = label_io l ++ io_trace h) s h.
Proof.
  intros Hn [Hl Hp]. simpl in *. unfold mycdrv_write.
  rewrite mydynamic_bytes_to_do_value by lia. unfold KBUF_SIZE in *.
  set (m := Z.min n (10 * 4096 - f_pos)). assert (0 <= m <= n /\ f_pos + m <= 40960) by lia.
  apply wp_bind, wp_opt_printk. intros h1 Hh1.
  assert (io_trace h1 = io_trace h) as <- by (by destruct Hh1 as [-> | ->]).
  rewrite u64_small by lia. wp_go.
  pose proof (copy_from_user_bound h1 m) as Hk.
  pose proof (copy_from_user_length h1 m) as Hdl.
  rewrite <- E in *. destruct r as [d k]. simpl in *.
  destruct (store (kbuf s) f_pos d) as [c|] eqn:Hc;
    [|by rewrite store_ok in Hc by lia].
  eapply wp_access; [reflexivity|]. wp_go. simpl.
  rewrite Mychar.nbytes_value, s64_small by lia.
  exists (LWrite n (Some (d, k))). split_and!; [done| |done].
  specialize (Hdl ltac:(lia)). rewrite <- Hdl.
  replace c with (map_range dev_conv f_pos (zlen d - k) c) at 1 by (apply map_range_id).
  apply (step_write (File _ _)); [by left| |exact Hc|lia]. done.
Qed.

Lemma mycdrv_lseek_step off whence s h f_pos :
  valid_req (RSeek off whence) -> file_ok (File (kbuf s) f_pos) ->
  wp K (mycdrv_lseek f_pos off whence) (fun x s' h' =>
    exists l, label_req l = RSeek off whence /\
      file_step (File (kbuf s) f_pos) l x.1 (File (kbuf s') x.2) /\
      io_trace h' = label_io l ++ io_trace h) s h.
Proof.
  unfold valid_req, KBUF_SIZE. intros Hv [Hl Hp]. simpl in *. unfold KBUF_SIZE in *.
  assert (forall t, seek_target (File (kbuf s) f_pos) off whence = Some t ->
    -9223372036854775808 <= t < 9223372036854775808) as Ht.
  { unfold seek_target. simpl. unfold KBUF_SIZE. intros t.
    repeat case_match; intros [=]; lia. }
  unfold mycdrv_lseek.
  match goal with |- context [match ?o with _ => _ end] =>
    assert (o = seek_target (File (kbuf s) f_pos) off whence) as -> end.
  { unfold seek_target. simpl. unfold KBUF_SIZE. by cint. }
  destruct (seek_target _ _ _) as [t|] eqn:E; wp_go; exists (LSeek off whence);
    (split_and!; [done| |done]); simpl.
  - rewrite mydynamic_clamp_value by eauto. exact (step_seek (File (kbuf s) f_pos) off whence t E).
  - exact (step_seek_bad (File (kbuf s) f_pos) off whence E).
Qed.
End contract.

#[export] Instance mydynamic_ok (K : kernel) `{!UaccessSpec K} :
  FileDriverOK state valid_req K.
Proof.
  split.
  - intros t. simpl. unfold KBUF_SIZE. zcases; done.
  - intros [n|n|off whence] s h f_pos Hv Hok.
    + by apply mycdrv_read_step.
    + by apply mycdrv_write_step.
    + by apply mycdrv_lseek_step.
Qed.

Section lifecycle.
Context (K : kernel) `{!ChrdevSpec K}.

Lemma my_init_held L L0 s h :
  held L0 h = Some L ->
  wp K my_init (fun r s' h' =>
    (r = -1 /\ held L0 h' = Some L) \/
    (r = 0 /\ my_cdev s' <> 0 /\
     held L0 h' = Some (unless_null (kbuf_p s') (RMem (kbuf_p s')) ++
       RCdev (my_cdev s') :: RChrdevRegion (first s') (count s') :: L))) s h.
Proof.
  intros HL. unfold my_init. wp_go.
  pose proof (alloc_chrdev_ret h 0 (count s) MYDEV_NAME) as Hr. rewrite <- E in Hr.
  destruct r as [r d]. simpl in *.
  destruct (Z.ltb_spec r 0); wp_go.
  - left. split; [done|]. assert (r <> 0) by lia. ledger.
  - assert (r = 0) as -> by lia. wp_if; wp_go.
    + left. split; [done|]. ledger.
    + wp_if; wp_go.
      * left. split; [done|]. alloc_case; ledger.
      * right. split; [done|]. zbool. split; [done|]. ledger.
Qed.

Lemma my_exit_held L L0 s h :
  my_cdev s <> 0 ->
  held L0 h = Some (unless_null (kbuf_p s) (RMem (kbuf_p s)) ++
    RCdev (my_cdev s) :: RChrdevRegion (first s) (count s) :: L) ->
  wp K my_exit (fun _ _ h' => held L0 h' = Some L) s h.
Proof.
  unfold unless_null. intros Hc HL. unfold my_exit. wp_go.
  rewrite (proj2 (Z.eqb_neq _ _) Hc). wp_go.
  destruct (kbuf_p s =? 0) eqn:Hp; simpl in HL; wp_go; ledger.
Qed.
End lifecycle.

(** [insmod] followed by [rmmod], when the first succeeds. *)
Definition load_unload : prog state Z :=
  r <- my_init ;; (if r =? 0 then my_exit else skip) ;; Ret r.

(** ** Properties *)

(** C12: every sequence of reads, writes and seeks on an open file of the driver
    is a run of the abstract bounded device: no access leaves the buffer, the
    results and the transfers are those of the device, and the position ends
    where the device has it. *)
Theorem mydynamic_session_refines K `{!UaccessSpec K} rs s h f_pos :
  Forall valid_req rs -> zlen (kbuf s) = KBUF_SIZE -> 0 <= f_pos <= KBUF_SIZE ->
  wp K (session rs f_pos) (fun x s' h' =>
    exists ls, label_req <$> ls = rs /\
      file_steps (File (kbuf s) f_pos) ls x.1 (File (kbuf s') x.2) /\
      io_trace h' = mjoin (label_io <$> reverse ls) ++ io_trace h) s h.
Proof.
  intros Hv Hl Hp. exact (session_refines_gen (K := K) rs s h f_pos Hv (conj Hl Hp)).
Qed.

(** [my_init] succeeds or returns -1; when it fails, at whatever step, all it
    had acquired has been given back, and when it succeeds [my_exit] gives back
    the buffer, the cdev and the device numbers, and nothing else. *)
Theorem mydynamic_init_exit_balanced K `{!ChrdevSpec K} L L0 s h :
  held L0 h = Some L ->
  wp K load_unload (fun r _ h' => (r = 0 \/ r = -1) /\ held L0 h' = Some L) s h.
Proof.
  intros HL. apply wp_bind. eapply wp_mono; [by apply my_init_held|].
  intros r s1 h1 [[-> HL1]|[-> [Hc HL1]]]; simpl; apply wp_bind.
  - wp_go. auto.
  - eapply wp_mono; [by apply my_exit_held|]. intros [] s2 h2 HL2. wp_go. auto.
Qed.

(** C39: the position of [pread(2)] and [pwrite(2)] is the caller's, and a
    position past the end makes [maxbytes] negative, which the unsigned
    comparison takes for a huge room: the handlers then copy the whole length
    from, or over, the memory behind the buffer. *)
Theorem mydynamic_pread_oob K lbuf ppos s h :
  KBUF_SIZE < ppos < 2147483648 -> 0 < lbuf < 2147483648 -> zlen (kbuf s) = KBUF_SIZE ->
  faults K (mycdrv_read lbuf ppos) OutOfBounds s h /\
  forall `{!UaccessSpec K}, faults K (mycdrv_write lbuf ppos) OutOfBounds s h.
Proof.
  unfold KBUF_SIZE. intros Hp Hn Hl.
  assert (bytes_to_do lbuf ppos = lbuf) as Hb.
  { unfold bytes_to_do, KBUF_SIZE. cint.
    rewrite u64_neg by lia. rewrite Z.gtb_ltb. zcases; cint; lia. }
  split; [unfold mycdrv_read|intros HU; unfold mycdrv_write]; rewrite Hb;
    (assert ((lbuf =? 0) = false) as -> by (apply Z.eqb_neq; lia));
    faults_go; rewrite u64_small in * by lia; faults_here.
  - apply load_none; lia.
  - subst. apply store_none; rewrite copy_from_user_length by lia; lia.
Qed.

(** C30: what a process writes at a position inside the buffer and reads back
    from there, after seeking, is what it wrote. *)
Theorem mydynamic_write_read K `{!UaccessSpec K, !UserMapped K} n s h f_pos :
  0 <= n -> 0 <= f_pos -> f_pos + n <= KBUF_SIZE -> zlen (kbuf s) = KBUF_SIZE ->
  wp K (session [RWrite n; RSeek f_pos 0; RRead n] f_pos) (fun x s' h' =>
    exists d, zlen d = n /\ x = ([n; f_pos; n], f_pos + n) /\
      io_trace h' = [ToUser d 0; FromUser d 0] ++ io_trace h) s h.
Proof.
  intros Hn Hp Hfit Hl.
  assert (dev_clamp f_pos = f_pos) as Hc.
  { simpl. unfold KBUF_SIZE in *. zcases. }
  assert (file_ok (File (kbuf s) f_pos)) as Hok.
  { split; simpl; unfold KBUF_SIZE in *; lia. }
  pose proof (session_refines_gen (K := K) [RWrite n; RSeek f_pos 0; RRead n] s h f_pos) as Hw.
  apply wp_run in Hw as ([rets p2] & s' & h' & Hrun & ls & Hreq & Hs & Hio).
  - apply wp_run. do 3 eexists. split; [exact Hrun|].
    destruct (run_mapped K _ _ _ _ _ _ Hrun) as (new & -> & Hk).
    unfold io_trace in *. rewrite omap_app in *. apply app_inv_tail in Hio.
    rewrite Hio in Hk.
    destruct (file_write_seek_read (D := mydynamic_dev) (File (kbuf s) f_pos) n ls rets _ eq_refl Hc
      Hok Hn Hfit Hreq Hs Hk) as (d & Hd & -> & Hp2 & Hls).
    simpl in *. exists d. split_and!; [done|by subst|].
    by rewrite Hio, Hls, list_fmap_id.
  - repeat constructor; simpl; unfold KBUF_SIZE in *; lia.
  - exact Hok.
Qed.

(** ** Concrete instances *)

Definition loaded : state :=
  State 4096 (replicate (Z.to_nat KBUF_SIZE) 0) (MKDEV 240 0) 1 1 0.

Lemma mydynamic_loaded_size : zlen (kbuf loaded) = KBUF_SIZE.
Proof.
  change (kbuf loaded) with (replicate (Z.to_nat KBUF_SIZE) 0).
  rewrite length_replicate, Z2Nat.id; unfold KBUF_SIZE; lia.
Qed.

Lemma mydynamic_session_witness :
  wp quiet_kernel (session [RWrite 4; RSeek (-2) 1; RRead 4] 40958) (fun x s' h' =>
    exists ls, label_req <$> ls = [RWrite 4; RSeek (-2) 1; RRead 4] /\
      file_steps (File (kbuf loaded) 40958) ls x.1 (File (kbuf s') x.2) /\
      io_trace h' = mjoin (label_io <$> reverse ls) ++ io_trace []) loaded [].
Proof.
  apply (mydynamic_session_refines quiet_kernel).
  - repeat constructor; simpl; lia.
  - apply mydynamic_loaded_size.
  - unfold KBUF_SIZE. lia.
Defined.

Lemma mydynamic_init_exit_witness :
  wp quiet_kernel load_unload (fun r _ h' => (r = 0 \/ r = -1) /\ held [] h' = Some [])
    statics [].
Proof. apply (mydynamic_init_exit_balanced quiet_kernel [] []). reflexivity. Defined.

Lemma mydynamic_pread_oob_witness :
  faults quiet_kernel (mycdrv_read 8 50000) OutOfBounds loaded [] /\
  faults quiet_kernel (mycdrv_write 8 50000) OutOfBounds loaded [].
Proof.
  destruct (mydynamic_pread_oob quiet_kernel 8 50000 loaded []) as [Hr Hw].
  - unfold KBUF_SIZE. lia.
  - lia.
  - apply mydynamic_loaded_size.
  - split; [exact Hr|exact (Hw _)].
Defined.

Lemma mydynamic_write_read_witness :
  wp quiet_kernel (session [RWrite 4; RSeek 100 0; RRead 4] 100) (fun x s' h' =>
    exists d, zlen d = 4 /\ x = ([4; 100; 4], 104) /\
      io_trace h' = [ToUser d 0; FromUser d 0] ++ io_trace []) loaded [].
Proof.
  apply (mydynamic_write_read quiet_kernel 4 loaded [] 100);
    [lia|lia|unfold KBUF_SIZE; lia|apply mydynamic_loaded_size].
Defined.
