(* ===== verification/Udev.v ===== *)
(** * char_dev/mydynamic_udev.c: a bounded device that converts case

    Five minors over one buffer: what is written through minor 1 is stored in
    lower case, through minor 2 in upper case.  A transfer for which no byte
    fits is refused with [-ENOSPC].  The driver has no [llseek]. *)

From S2P Require Import Prelude Kernel Prog FileDev.
From S2P Require Mychar.
From Stdlib Require Import Ascii.

Definition MYDEV_NAME : string := "mydrv".
(** [(int)(10 * PAGE_SIZE)] *)
Definition KBUF_SIZE : Z := 10 * 4096.

Record state := State {
  kbuf_p : Z; kbuf : bytes; first : dev_t; count : Z; my_cdev : Z; my_class : Z;
  counter : Z }.

Definition set_kbuf (b : kblock) (s : state) : state :=
  State (kb_addr b) (kb_bytes b) (first s) (count s) (my_cdev s) (my_class s) (counter s).
Definition set_bytes (m : bytes) (s : state) : state :=
  State (kbuf_p s) m (first s) (count s) (my_cdev s) (my_class s) (counter s).
Definition set_first (d : dev_t) (s : state) : state :=
  State (kbuf_p s) (kbuf s) d (count s) (my_cdev s) (my_class s) (counter s).
Definition set_cdev (p : Z) (s : state) : state :=
  State (kbuf_p s) (kbuf s) (first s) (count s) p (my_class s) (counter s).
Definition set_class (c : Z) (s : state) : state :=
  State (kbuf_p s) (kbuf s) (first s) (count s) (my_cdev s) c (counter s).
Definition set_counter (c : Z) (s : state) : state :=
  State (kbuf_p s) (kbuf s) (first s) (count s) (my_cdev s) (my_class s) c.

Definition statics : state := State 0 [] (MKDEV 0 0) 5 0 0 0.

Definition my_open (inode : dev_t) : prog state Z :=
  printk " my_open(%s)\n\n" [PName MYDEV_NAME] ;;
  printk " major = %d, minor = %d\n" [PInt (MAJOR inode); PInt (MINOR inode)] ;;
  modify (fun s => set_counter (s32 (counter s + 1)) s) ;;
  s <- get ;;
  printk "counter = %d\n" [PInt (counter s)] ;;
  Ret 0.

Definition my_release : prog state Z :=
  printk " my_release(%s)\n" [PName MYDEV_NAME] ;; Ret 0.

(** [maxbytes = KBUF_SIZE - *ppos]: an [int] minus a [loff_t], truncated. *)
Definition bytes_to_do (lbuf ppos : Z) : Z :=
  let maxbytes := s32 (s64 (KBUF_SIZE - ppos)) in
  s32 (if u64 maxbytes >? lbuf then lbuf else u64 maxbytes).

Definition my_read (lbuf ppos : Z) : prog state (Z * Z) :=
  let n := bytes_to_do lbuf ppos in
  if n =? 0 then
    printk "reach end of the device\n" [] ;; Ret (-28, ppos)
  else
    s <- get ;;
    d <- access (load (kbuf s) ppos (u64 n)) ;;
    k <- call (Copy_to_user d) ;;
    let nbytes := s32 (u64 (n - k)) in
    let ppos' := s64 (ppos + nbytes) in
    printk "\n my_read, nbytes = %d, pos = %d\n" [PInt nbytes; PInt (s32 ppos')] ;;
    Ret (nbytes, ppos').

(** On the values of a [char]. *)
Definition to_lower (c : Z) : Z :=
  if (c >=? chr "A") && (c <=? chr "Z") then s8 (c - chr "A" + chr "a") else c.
Definition to_upper (c : Z) : Z :=
  if (c >=? chr "a") && (c <=? chr "z") then s8 (c - chr "a" + chr "A") else c.

(** The byte stored for a byte of [kbuf]: what one turn of [convert] does. *)
Definition convert_byte (minor : Z) (b : byte) : byte :=
  let c := schar b in
  u8 (if minor =? 1 then to_lower c else if minor =? 2 then to_upper c else c).

(** [convert(kbuf + off, lbuf, minor)] *)
Definition convert (off lbuf minor : Z) : prog state Z :=
  for_each (seqZ 0 lbuf) (fun i =>
    s <- get ;;
    b <- access (load1 (kbuf s) (off + i)) ;;
    m <- access (store1 (kbuf s) (off + i) (convert_byte minor b)) ;;
    modify (set_bytes m)) ;;
  Ret (s32 lbuf).

Definition my_write (minor lbuf ppos : Z) : prog state (Z * Z) :=
  let n := bytes_to_do lbuf ppos in
  if n =? 0 then
    printk "Reach end of the device\n" [] ;; Ret (-28, ppos)
  else
    x <- call (Copy_from_user (u64 n)) ;;
    s <- get ;;
    m <- access (store (kbuf s) ppos x.1) ;;
    modify (set_bytes m) ;;
    let nbytes := s32 (u64 (n - x.2)) in
    convert ppos (u64 nbytes) minor ;;
    let ppos' := s64 (ppos + nbytes) in
    printk "\n my_write : nbytes = %d, pos = %d\n" [PInt nbytes; PInt (s32 ppos')] ;;
    Ret (nbytes, ppos').

Definition my_init : prog state Z :=
  s0 <- get ;;
  r <- call (Alloc_chrdev_region 0 (count s0) MYDEV_NAME) ;;
  (if r.1 <? 0 then skip else modify (set_first r.2)) ;;
  if r.1 <? 0 then
    printk "Failed to allocate character device\n" [] ;; Ret (-1)
  else
    p <- call Cdev_alloc ;;
    modify (set_cdev p) ;;
    s <- get ;;
    if p =? 0 then
      printk "cdev_alloc() failed\n" [] ;;
      call (Unregister_chrdev_region (first s) (count s)) ;;
      Ret (-1)
    else
      call (Cdev_init p) ;;
      b <- call (Kmalloc KBUF_SIZE) ;;
      modify (set_kbuf b) ;;
      r <- call (Cdev_add p (first s) (count s)) ;;
      if r <? 0 then
        printk "cdev_add() failed\n" [] ;;
        call (Unregister_chrdev_region (first s) (count s)) ;;
        Ret (-1)
      else
        c <- call (Class_create "mydrv") ;;
        modify (set_class c) ;;
        for_each (seqZ 0 (count s)) (fun i =>
          call (Device_create c (MKDEV (MAJOR (first s)) i) "mydrv%d" i) ;; skip) ;;
        Ret 0.

Definition my_exit : prog state unit :=
  s <- get ;;
  for_each (seqZ 0 (count s)) (fun i =>
    call (Device_destroy (my_class s) (MKDEV (MAJOR (first s)) i))) ;;
  call (Class_destroy (my_class s)) ;;
  (if my_cdev s =? 0 then skip else call (Cdev_del (my_cdev s))) ;;
  call (Unregister_chrdev_region (first s) (count s)) ;;
  (if kbuf_p s =? 0 then skip else call (Kfree (kbuf_p s))).

(** ** The conversion *)

Lemma convert_byte_ok minor b : 0 <= b < 256 -> 0 <= convert_byte minor b < 256.
Proof. intros _. unfold convert_byte. apply (wrapu_range 8). lia. Qed.

(** The loop converts the bytes of its range in place, and nothing else. *)
Lemma convert_loop K off lbuf minor s h :
  0 <= off -> 0 <= lbuf < 2147483648 -> off + lbuf <= zlen (kbuf s) ->
  wp K (convert off lbuf minor) (fun r s' h' =>
    r = lbuf /\ h' = h /\
    s' = set_bytes (map_range (convert_byte minor) off lbuf (kbuf s)) s) s h.
Proof.
  intros Ho Hn Hl. unfold convert. apply wp_bind.
  eapply wp_for_each with (I := fun dn s' h' => h' = h /\
    s' = set_bytes (map_range (convert_byte minor) off (zlen dn) (kbuf s)) s).
  - rewrite map_range_0. by destruct s.
  - intros dn i todo s1 h1 Hseq [-> ->].
    destruct (seqZ_split _ _ _ _ Hseq) as (-> & Hi & _).
  wp_go. set (m := map_range _ _ _ _). simpl.
    destruct (load1_ok m (off + zlen dn)) as (x & Hx & Hmx).
    { unfold m. rewrite map_range_length. lia. }
    eapply wp_access; [exact Hx|]. wp_go.
    eapply wp_access; [apply store1_ok; unfold m; rewrite map_range_length; lia|].
    wp_go. split; [done|]. unfold set_bytes. simpl. f_equal.
    rewrite length_app, Nat2Z.inj_add. simpl.
    unfold m in Hmx. rewrite map_range_lookup in Hmx.
    destruct (kbuf s !! Z.to_nat (off + zlen dn)) as [y|] eqn:Hy; [|done].
    simpl in Hmx. assert (x = y) as -> by (revert Hmx; zcases; naive_solver).
    unfold m. by rewrite map_range_succ by (done || lia).
  - intros s1 h1 [-> ->]. wp_go. split_and!; [by cint|done|].
    rewrite length_seqZ, Z2Nat.id by lia. done.
Qed.

(** The two letter conversions, on every byte. *)
Lemma convert_byte_spec minor b :
  0 <= b < 256 ->
  convert_byte minor b =
    if (minor =? 1) && (65 <=? b) && (b <=? 90) then b + 32
    else if (minor =? 2) && (97 <=? b) && (b <=? 122) then b - 32
    else b.
Proof.
  intros Hb. unfold convert_byte, to_lower, to_upper, schar.
  change (chr "A") with 65. change (chr "Z") with 90.
  change (chr "a") with 97. change (chr "z") with 122.
  rewrite !Z.geb_leb.
  assert (u8 (s8 b) = b) as Hub.
  { unfold wrapu, wraps. change (2 ^ 8) with 256. change (2 ^ (8 - 1)) with 128.
    rewrite Zminus_mod_idemp_l. replace (b + 128 - 128) with b by lia. apply Z.mod_small. lia. }
  destruct (Z.lt_ge_cases b 128).
  - rewrite (s8_small b) in * by lia.
    destruct (Z.eqb_spec minor 1), (Z.eqb_spec minor 2); simpl; try lia; zcases; cint; lia.
  - assert (s8 b = b - 256) as Hs by (apply s8_big; lia).
    rewrite Hs in *. destruct (Z.eqb_spec minor 1), (Z.eqb_spec minor 2); simpl; try lia;
      zcases; done.
Qed.

(** ** The contract of [FileDev] *)

Section contract.
Context (minor : Z).

#[local] Instance udev_dev : BoundedDev := {|
  dev_size := KBUF_SIZE; dev_conv := convert_byte minor; dev_eof := Some 28;
  dev_clamp := fun _ => 0 |}.

#[local] Instance udev_driver : FileDriver state := {|
  drv_read := my_read; drv_write := my_write minor;
  drv_lseek := fun _ _ _ => Fail OutOfFuel; drv_content := kbuf |}.

(** The driver is never asked to seek: its [llseek] is NULL. *)
Definition valid_req (r : req) : Prop :=
  match r with
  | RRead n | RWrite n => 0 <= n < 2147483648
  | RSeek _ _ => False
  end.

Lemma udev_bytes_to_do_value lbuf ppos :
  0 <= lbuf < 2147483648 -> 0 <= ppos <= KBUF_SIZE ->
  bytes_to_do lbuf ppos = Z.min lbuf (KBUF_SIZE - ppos).
Proof.
  unfold bytes_to_do, KBUF_SIZE. intros. cint. rewrite Z.gtb_ltb. zcases; cint; lia.
Qed.

Context (K : kernel) `{!UaccessSpec K}.

Lemma my_read_step n s h f_pos :
  0 <= n < 2147483648 -> file_ok (File (kbuf s) f_pos) ->
  wp K (my_read n f_pos) (fun x s' h' =>
    exists l, label_req l = RRead n /\
      file_step (File (kbuf s) f_pos) l x.1 (File (kbuf s') x.2) /\
      io_trace h' = label_io l ++ io_trace h) s h.
Proof.
  intros Hn [Hl Hp]. simpl in *. unfold my_read.
  rewrite udev_bytes_to_do_value by lia. unfold KBUF_SIZE in *.
  set (m := Z.min n (10 * 4096 - f_pos)). assert (0 <= m <= n /\ f_pos + m <= 40960) by lia.
  wp_if; wp_go; zbool.
  - exists (LRead n None). split_and!; [done| |done].
    by apply (step_read_eof (File _ _) n 28).
  - rewrite u64_small by lia.
    destruct (proj2 (load_is_some (kbuf s) f_pos m)) as [d Hd]; [lia|].
    apply load_length in Hd as Hdl. eapply wp_access; [exact Hd|]. wp_go.
    rename r into k. pose proof (copy_to_user_bound h d) as Hk. rewrite <- E in Hk.
    rewrite Mychar.nbytes_value, s64_small by lia.
    exists (LRead n (Some (d, k))). split_and!; [done| |done]. simpl.
    rewrite <- Hdl. constructor; [right; unfold room; simpl; unfold KBUF_SIZE; lia| |lia]. exact Hd.
Qed.

Lemma my_write_step n s h f_pos :
  0 <= n < 2147483648 -> file_ok (File (kbuf s) f_pos) ->
  wp K (my_write minor n f_pos) (fun x s' h' =>
    exists l, label_req l = RWrite n /\
      file_step (File (kbuf s) f_pos) l x.1 (File (kbuf s') x.2) /\
      io_trace h' = label_io l ++ io_trace h) s h.
Proof.
  intros Hn [Hl Hp]. simpl in *. unfold my_write.
  rewrite udev_bytes_to_do_value by lia. unfold KBUF_SIZE in *.
  set (m := Z.min n (10 * 4096 - f_pos)). assert (0 <= m <= n /\ f_pos + m <= 40960) by lia.
  wp_if; wp_go; zbool.
  - exists (LWrite n None). split_and!; [done| |done].
    by apply (step_write_eof (File _ _) n 28).
  - rewrite u64_small in * by lia.
    pose proof (copy_from_user_bound h m ltac:(lia)) as Hk.
    pose proof (copy_from_user_length h m ltac:(lia)) as Hdl.
    rewrite <- E in *. destruct r as [d k]. simpl in *.
    destruct (store (kbuf s) f_pos d) as [c|] eqn:Hc;
      [|by rewrite store_ok in Hc by lia].
    eapply wp_access; [reflexivity|]. wp_go. apply store_length in Hc as Hcl.
    rewrite Mychar.nbytes_value, (u64_small (m - k)) by lia.
    eapply wp_mono; [apply convert_loop; simpl; lia|].
    intros r s1 h1 (-> & -> & ->). wp_go. simpl. rewrite s64_small by lia.
    exists (LWrite n (Some (d, k))). split_and!; [done| |done].
    rewrite <- Hdl. apply (step_write (D := udev_dev) (File (kbuf s) f_pos) n d k c); [right; unfold room; simpl; unfold KBUF_SIZE; lia|done|done|lia].
Qed.

#[local] Instance udev_ok : FileDriverOK state valid_req K.
Proof.
  split; [simpl; unfold KBUF_SIZE; lia|].
  intros [n|n|off whence] s h f_pos Hv Hok; [by apply my_read_step|by apply my_write_step|done].
Qed.

(** C16: every sequence of reads and writes on a file of minor [minor] is a run
    of the abstract device that converts what is written by [convert_byte]
    and refuses with [-ENOSPC] the transfers for which no byte fits. *)
Theorem udev_session_refines rs s h f_pos :
  Forall valid_req rs -> zlen (kbuf s) = KBUF_SIZE -> 0 <= f_pos <= KBUF_SIZE ->
  wp K (session rs f_pos) (fun x s' h' =>
    exists ls, label_req <$> ls = rs /\
      file_steps (File (kbuf s) f_pos) ls x.1 (File (kbuf s') x.2) /\
      io_trace h' = mjoin (label_io <$> reverse ls) ++ io_trace h) s h.
Proof.
  intros Hv Hl Hp. exact (session_refines_gen (K := K) rs s h f_pos Hv (conj Hl Hp)).
Qed.
End contract.

(** C38: minor 1 stores the letters A-Z as a-z, minor 2 stores a-z as A-Z, every
    other byte and every other minor is stored unchanged; converting what was
    converted changes nothing. *)
Theorem udev_convert_spec minor b :
  0 <= b < 256 ->
  convert_byte minor b =
    (if (minor =? 1) && (65 <=? b) && (b <=? 90) then b + 32
     else if (minor =? 2) && (97 <=? b) && (b <=? 122) then b - 32
     else b) /\
  convert_byte minor (convert_byte minor b) = convert_byte minor b.
Proof.
  intros Hb. split; [by apply convert_byte_spec|].
  rewrite (convert_byte_spec minor (convert_byte minor b)) by (by apply convert_byte_ok).
  rewrite convert_byte_spec by done.
  destruct (Z.eqb_spec minor 1), (Z.eqb_spec minor 2); try lia;
    destruct (Z.leb_spec 65 b), (Z.leb_spec b 90), (Z.leb_spec 97 b), (Z.leb_spec b 122);
    simpl; zcases; lia.
Qed.

(** [my_init] fails cleanly except when [cdev_add] refuses: it then returns
    -1 still holding the buffer and the cdev (the other two drivers give them
    back there). *)
Theorem udev_init_leak K `{!ChrdevSpec K} L L0 s h :
  held L0 h = Some L -> count s = 5 ->
  wp K my_init (fun r s' h' =>
    (r = -1 /\ held L0 h' = Some L) \/
    (r = -1 /\
     (exists e, e < 0 /\ Ev (Cdev_add (my_cdev s') (first s') (count s')) e ∈ h') /\
     held L0 h' =
       Some (unless_null (kbuf_p s') (RMem (kbuf_p s')) ++ RCdev (my_cdev s') :: L)) \/
    (r = 0 /\ exists devs, devs ⊆ ((fun i => RDevice (my_class s') (MKDEV (MAJOR (first s')) i))
        <$> seqZ 0 5) /\
     held L0 h' =
       Some (devs ++ unless_err (my_class s') (RClass (my_class s')) ++
             unless_null (kbuf_p s') (RMem (kbuf_p s')) ++
             RCdev (my_cdev s') :: RChrdevRegion (first s') (count s') :: L))) s h.
Proof.
  intros HL Hcount. unfold my_init. wp_go.
  pose proof (alloc_chrdev_ret h 0 (count s) MYDEV_NAME) as Hr. rewrite <- E in Hr.
  destruct r as [r d]. simpl in *.
  destruct (Z.ltb_spec r 0); wp_go.
  - left. split; [done|]. assert (r <> 0) by lia. ledger.
  - assert (r = 0) as -> by lia. wp_if; wp_go.
    + left. split; [done|]. ledger.
    + wp_if; wp_go.
      * right; left. simpl. split_and!; [done| |unfold unless_null; alloc_case; ledger].
        exists r1. zbool. split; [done|]. set_solver.
      * simpl in *. rewrite Hcount. zbool.
        eapply wp_mono; [apply (wp_create_devices _ _ _ _ _ L0); ledger|].
        intros _ s' h' (-> & devs & Hdevs & Hh). wp_go. right; right. split; [done|].
        exists devs. split; [done|]. simpl. rewrite Hcount. exact Hh.
Qed.

(** ** Concrete instances *)

Definition loaded : state :=
  State 4096 (replicate (Z.to_nat KBUF_SIZE) 0) (MKDEV 240 0) 5 1 1 0.

Lemma udev_loaded_size : zlen (kbuf loaded) = KBUF_SIZE.
Proof.
  change (kbuf loaded) with (replicate (Z.to_nat KBUF_SIZE) 0).
  rewrite length_replicate, Z2Nat.id; unfold KBUF_SIZE; lia.
Qed.

Lemma udev_session_witness :
  wp quiet_kernel (@session state (udev_driver 2) [RWrite 4; RRead 4] 40956) (fun x s' h' =>
    exists ls, label_req <$> ls = [RWrite 4; RRead 4] /\
      @file_steps (udev_dev 2) (File (kbuf loaded) 40956) ls x.1 (File (kbuf s') x.2) /\
      io_trace h' = mjoin (label_io <$> reverse ls) ++ io_trace []) loaded [].
Proof.
  apply (udev_session_refines 2 quiet_kernel).
  - repeat constructor; simpl; lia.
  - apply udev_loaded_size.
  - unfold KBUF_SIZE. lia.
Defined.

Lemma udev_convert_witness :
  convert_byte 1 77 = 109 /\ convert_byte 2 109 = 77 /\ convert_byte 3 77 = 77.
Proof.
  split_and!; [exact (proj1 (udev_convert_spec 1 77 ltac:(lia)))
    |exact (proj1 (udev_convert_spec 2 109 ltac:(lia)))
    |exact (proj1 (udev_convert_spec 3 77 ltac:(lia)))].
Defined.

(** A kernel whose [cdev_add] refuses (what the buffer holds is no matter). *)
Definition no_cdev : kernel := fun _ _ c =>
  match c in kcall R return R with
  | Cdev_add _ _ _ => -16
  | Kmalloc _ => KBlock 4096 []
  | c => quiet c
  end.

#[export] Instance no_cdev_chrdev : ChrdevSpec no_cdev.
Proof. by split. Qed.

Lemma udev_init_leak_witness :
  wp no_cdev my_init (fun r s' h' => r = -1 /\ held [] h' = Some [RMem 4096; RCdev 1]) statics [].
Proof.
  pose proof (udev_init_leak no_cdev [] [] statics [] eq_refl eq_refl) as H.
  apply wp_run in H as (r & s' & h' & Hrun & _). apply wp_run.
  exists r, s', h'. split; [exact Hrun|]. vm_compute in Hrun. injection Hrun as <- <- <-.
  by split.
Defined.
