(* ===== verification/CharDevs.v ===== *)
(** * char_dev/: two drivers compared

    mydynamic_udev.c is mydynamic.c with a conversion of the letters written to
    two of its minors.  On the others the two drivers do the same, but for the
    transfers for which no byte fits. *)

From S2P Require Import Prelude Kernel Prog FileDev.
From S2P Require Mychar Mydynamic Udev.

#[local] Open Scope Z_scope.

(** How many bytes fit. *)
Definition fits (n pos : Z) : Z := Z.min n (Mydynamic.KBUF_SIZE - pos).

Lemma convert_byte_other minor b :
  minor <> 1 -> minor <> 2 -> 0 <= b < 256 -> Udev.convert_byte minor b = b.
Proof.
  intros H1 H2 Hb. rewrite Udev.convert_byte_spec by done.
  by rewrite (proj2 (Z.eqb_neq minor 1) H1), (proj2 (Z.eqb_neq minor 2) H2).
Qed.

(** On bytes that [f] leaves alone nothing changes. *)
Lemma map_range_fixed {A} (f : A -> A) off n m :
  Forall (fun b => f b = b) m -> map_range f off n m = m.
Proof.
  intros Hf. apply list_eq. intros i. rewrite map_range_lookup.
  destruct (m !! i) as [x|] eqn:Hx; [|done]. simpl.
  pose proof (Forall_lookup_1 _ _ _ _ Hf Hx) as E. simpl in E. by case_match; rewrite ?E.
Qed.

(** Where a transfer that left [k] bytes uncopied ends. *)
Lemma moved m k pos :
  0 <= k <= m -> 0 <= pos -> pos + m <= 40960 ->
  (s32 (u64 (m - k)), s64 (pos + s32 (u64 (m - k)))) = (m - k, pos + (m - k)).
Proof.
  intros Hk Hp Hm. rewrite (u64_small (m - k)), (s32_small (m - k)), s64_small by lia. done.
Qed.

Section drivers.
Context (K : kernel) `{!UaccessSpec K} (n pos : Z) (su : Udev.state)
  (sm : Mydynamic.state) (h : history).
Context (Hn : 0 <= n < 2147483648) (Hp : 0 <= pos <= Mydynamic.KBUF_SIZE).
Context (Hl : zlen (Mydynamic.kbuf sm) = Mydynamic.KBUF_SIZE).
Context (Hb : bytes_ok (Mydynamic.kbuf sm)) (Hk : Udev.kbuf su = Mydynamic.kbuf sm).

(** What the two calls have in common. *)
Definition same (x y : Z * Z) (hu hm : history) : Prop :=
  if fits n pos =? 0 then x = (-28, pos) /\ y = (0, pos)
  else x = y /\ io_trace hu = io_trace hm.

Lemma fits_range : 0 <= fits n pos <= n /\ pos + fits n pos <= 40960.
Proof. unfold fits, Mydynamic.KBUF_SIZE in *. lia. Qed.

Lemma read_same :
  wp K (Udev.my_read n pos) (fun x su' hu =>
    wp K (Mydynamic.mycdrv_read n pos) (fun y sm' hm =>
      Udev.kbuf su' = Mydynamic.kbuf sm' /\ same x y hu hm) sm h) su h.
Proof.
  unfold Udev.my_read, Mydynamic.mycdrv_read, same.
  rewrite Udev.udev_bytes_to_do_value, Mydynamic.mydynamic_bytes_to_do_value by done.
  change Udev.KBUF_SIZE with Mydynamic.KBUF_SIZE. fold (fits n pos).
  pose proof fits_range as Hf. unfold Mydynamic.KBUF_SIZE in *.
  set (m := fits n pos) in *. clearbody m. rewrite (u64_small m) by lia.
  destruct (proj2 (load_is_some (Mydynamic.kbuf sm) pos m)) as [d Hd]; [lia|].
  apply load_length in Hd as Hdl. destruct (m =? 0) eqn:Hm; wp_go.
  - eapply wp_access; [exact Hd|]. wp_go.
    assert (0 <= r <= zlen d) as Hr by (rewrite E; apply copy_to_user_bound). zbool. assert (r = 0) as -> by lia. rewrite moved by lia.
    split_and!; [done|done|]. f_equal; lia.
  - rewrite Hk. eapply wp_access; [exact Hd|]. wp_go. eapply wp_access; [exact Hd|]. wp_go.
    subst r r0. simpl. pose proof (copy_to_user_bound h d). rewrite !moved by lia. by split_and!.
Qed.

Context (minor : Z) (H1 : minor <> 1) (H2 : minor <> 2).

Lemma write_same :
  wp K (Udev.my_write minor n pos) (fun x su' hu =>
    wp K (Mydynamic.mycdrv_write n pos) (fun y sm' hm =>
      Udev.kbuf su' = Mydynamic.kbuf sm' /\ same x y hu hm) sm h) su h.
Proof.
  unfold Udev.my_write, Mydynamic.mycdrv_write, same.
  rewrite Udev.udev_bytes_to_do_value, Mydynamic.mydynamic_bytes_to_do_value by done.
  change Udev.KBUF_SIZE with Mydynamic.KBUF_SIZE. fold (fits n pos).
  pose proof fits_range as Hf. unfold Mydynamic.KBUF_SIZE in *.
  set (m := fits n pos) in *. clearbody m. rewrite (u64_small m) by lia.
  destruct (m =? 0) eqn:Hm; wp_go; zbool.
  - assert (zlen r.1 = m /\ 0 <= r.2 <= m) as [Hx Hr].
    { rewrite E. split; [apply copy_from_user_length|apply copy_from_user_bound]; lia. }
    destruct (store (Mydynamic.kbuf sm) pos r.1) as [c|] eqn:Hc; [|by rewrite store_ok in Hc by lia].
    eapply wp_access; [reflexivity|]. wp_go. rewrite moved by lia. simpl.
    destruct r as [d k]. simpl in *. destruct d; [|simpl in *; lia].
    assert (c = Mydynamic.kbuf sm) as ->.
    { rewrite store_ok in Hc by (simpl; lia). injection Hc as <-. simpl.
      by rewrite Nat.add_0_r, take_drop. }
    split_and!; [done|done|f_equal; lia].
  - assert (zlen r.1 = m /\ 0 <= r.2 <= m /\ bytes_ok r.1) as (Hx & Hr & Hxb).
    { rewrite E. split_and!; [apply copy_from_user_length; lia|
        apply copy_from_user_bound; lia..|apply copy_from_user_bytes]. }
    rewrite Hk. destruct (store (Mydynamic.kbuf sm) pos r.1) as [c|] eqn:Hc;
      [|by rewrite store_ok in Hc by lia].
    assert (bytes_ok c) as Hcb by (by eapply store_Forall).
    apply store_length in Hc as Hcl. eapply wp_access; [reflexivity|]. wp_go.
    rewrite Mychar.nbytes_value, (u64_small (m - r.2)) by lia.
    eapply wp_mono; [apply Udev.convert_loop; simpl; lia|].
    intros x s1 h1 (-> & -> & ->). wp_go. rewrite <- E in E0. subst r0.
    eapply wp_access; [exact Hc|]. wp_go. simpl. rewrite moved, s64_small by lia.
    split_and!; [|done|done]. apply map_range_fixed. eapply Forall_impl; [exact Hcb|].
    intros b Hbb. by apply convert_byte_other.
Qed.
End drivers.

(** ** Properties *)

(** C18: for a file of a minor other than 1 and 2, mydynamic_udev.c is equivalent
    to mydynamic.c: with the same buffer, the same user and the same kernel, a
    read and a write of the one and of the other move the same bytes, leave the
    same buffer, and return the same result and position; only where no byte
    fits does the one return [-ENOSPC] and the other 0. *)
Theorem udev_equivalent_mydynamic K `{!UaccessSpec K} minor n pos su sm h :
  minor <> 1 -> minor <> 2 -> 0 <= n < 2147483648 -> 0 <= pos <= Mydynamic.KBUF_SIZE ->
  zlen (Mydynamic.kbuf sm) = Mydynamic.KBUF_SIZE -> bytes_ok (Mydynamic.kbuf sm) ->
  Udev.kbuf su = Mydynamic.kbuf sm ->
  wp K (Udev.my_read n pos) (fun x su' hu =>
    wp K (Mydynamic.mycdrv_read n pos) (fun y sm' hm =>
      Udev.kbuf su' = Mydynamic.kbuf sm' /\ same n pos x y hu hm) sm h) su h /\
  wp K (Udev.my_write minor n pos) (fun x su' hu =>
    wp K (Mydynamic.mycdrv_write n pos) (fun y sm' hm =>
      Udev.kbuf su' = Mydynamic.kbuf sm' /\ same n pos x y hu hm) sm h) su h.
Proof. intros. split; [by apply read_same|by apply write_same]. Qed.

(** ** Concrete instances *)

Lemma udev_equivalent_mydynamic_witness :
  let su := Udev.State 4096 (Mydynamic.kbuf Mydynamic.loaded) (MKDEV 240 0) 5 1 1 0 in
  wp quiet_kernel (Udev.my_read 8 40956) (fun x su' hu =>
    wp quiet_kernel (Mydynamic.mycdrv_read 8 40956) (fun y sm' hm =>
      Udev.kbuf su' = Mydynamic.kbuf sm' /\ same 8 40956 x y hu hm) Mydynamic.loaded []) su [] /\
  wp quiet_kernel (Udev.my_write 3 8 40956) (fun x su' hu =>
    wp quiet_kernel (Mydynamic.mycdrv_write 8 40956) (fun y sm' hm =>
      Udev.kbuf su' = Mydynamic.kbuf sm' /\ same 8 40956 x y hu hm) Mydynamic.loaded []) su [].
Proof.
  apply (udev_equivalent_mydynamic quiet_kernel 3 8 40956);
    [lia|lia|lia|unfold Mydynamic.KBUF_SIZE; lia|apply Mydynamic.mydynamic_loaded_size| |reflexivity].
  change (Mydynamic.kbuf Mydynamic.loaded) with
    (replicate (Z.to_nat Mydynamic.KBUF_SIZE) 0).
  apply Forall_replicate. lia.
Defined.
