(* ===== verification/Morse.v ===== *)
(** * io_port/morse_io.c: the PC speaker keyed in Morse code

    What is written to the device is keyed, letter by letter, on the speaker:
    tone on and off through port 0x61, the frequency through the timer chip's
    ports 0x43 and 0x42, durations by [schedule_timeout].  [timeline] reads the
    keying off a history; the theorems compare it with the International Morse
    Code. *)

From S2P Require Import Prelude Kernel Prog.
From Stdlib Require Import Ascii.

Definition MORSE_CLK_FREQ : Z := 1193180.
Definition MORSE_PIO : Z := 0x61.
Definition MORSE_PIT_CMD : Z := 0x43.
Definition MORSE_PIT_DATA : Z := 0x42.
Definition MORSE_SETUP : Z := 0xB6.
Definition MORSE_TONE_ON : Z := 0x03.
Definition MORSE_TONE_OFF : Z := 0xFC.
Definition MORSE_SPACE_MASK : Z := Z.shiftl 1 15.
Definition MORSE_BIT_MASK : Z := 0xFE.
Definition MORSE_UNIT_TIME : Z := 60.
Definition MORSE_FREQUENCY : Z := 2000.
Definition DEV_NAME : string := "morse".
Definition TASK_INTERRUPTIBLE : Z := 1.

Record state := State {
  major_no : Z; minor_count : Z; morse_cdev : Z; dev_id : dev_t; morse_class : Z }.
Definition set_major (m : Z) (s : state) : state :=
  State m (minor_count s) (morse_cdev s) (dev_id s) (morse_class s).
Definition set_cdev (p : Z) (s : state) : state :=
  State (major_no s) (minor_count s) p (dev_id s) (morse_class s).
Definition set_dev (d : dev_t) (s : state) : state :=
  State (major_no s) (minor_count s) (morse_cdev s) d (morse_class s).
Definition set_class (c : Z) (s : state) : state :=
  State (major_no s) (minor_count s) (morse_cdev s) (dev_id s) c.

(** [morse] reads its codes through an index below 64. *)
Definition codes : list Z := [
    MORSE_SPACE_MASK; 0; 0; 0; 0; 0; 0; 0;
    0; 0; 0; 0; 115; 49; 106; 41;
    63; 62; 60; 56; 48; 32; 33; 35;
    39; 47; 0; 0; 0; 0; 0; 76;
    0; 6; 17; 21; 9; 2; 20; 11;
    16; 4; 30; 13; 18; 7; 5; 15;
    22; 27; 10; 8; 3; 12; 24; 14;
    25; 29; 19; 0; 0; 0; 0; 0].

Section driver.
(** The tick rate of the kernel. *)
Context (HZ : Z).

Definition sound (freq : Z) : prog state unit :=
  value <- call (Inb MORSE_PIO) ;;
  if freq =? 0 then Fail DivByZero else
  let freq := s32 (Z.quot MORSE_CLK_FREQ freq) in
  (if Z.land value MORSE_TONE_ON =? 0 then
     call (Outb (u8 (Z.lor value MORSE_TONE_ON)) MORSE_PIO) ;;
     call (Outb MORSE_SETUP MORSE_PIT_CMD)
   else skip) ;;
  call (Outb (u8 (Z.land freq 0xff)) MORSE_PIT_DATA) ;;
  call (Outb (u8 (Z.land (Z.shiftr freq 8) 0xff)) MORSE_PIT_DATA).

Definition nosound : prog state unit :=
  value <- call (Inb MORSE_PIO) ;;
  call (Outb (u8 (Z.land value MORSE_TONE_OFF)) MORSE_PIO).

Definition jiffies_of (ms : Z) : Z := Z.quot (s32 (ms * HZ)) 1000.

Definition morse_mdelay (ms : Z) : prog state unit :=
  call (Set_current_state TASK_INTERRUPTIBLE) ;;
  call (Schedule_timeout (jiffies_of ms)) ;;
  skip.

Definition send_dot (minor_no : Z) : prog state unit :=
  sound (s32 (MORSE_FREQUENCY * minor_no)) ;;
  morse_mdelay MORSE_UNIT_TIME ;;
  nosound ;;
  morse_mdelay MORSE_UNIT_TIME.

Definition send_dash (minor_no : Z) : prog state unit :=
  sound (s32 (MORSE_FREQUENCY * minor_no)) ;;
  morse_mdelay (MORSE_UNIT_TIME * 3) ;;
  nosound ;;
  morse_mdelay MORSE_UNIT_TIME.

Definition letter_space (minor_no : Z) : prog state unit :=
  morse_mdelay (MORSE_UNIT_TIME * 2).

Definition word_space (minor_no : Z) : prog state unit :=
  morse_mdelay (MORSE_UNIT_TIME * 4).

(** [while (c & MORSE_BIT_MASK) ...]: 32 turns clear an unsigned int. *)
Definition send_code (c minor_no : Z) : prog state unit :=
  loop 33 (fun c =>
    if Z.land c MORSE_BIT_MASK =? 0 then Ret (inr tt)
    else
      (if Z.land c 1 =? 0 then send_dot minor_no else send_dash minor_no) ;;
      Ret (inl (Z.shiftr c 1))) c.

(** The body of the loop over the text, for [c = *cp++]. *)
Definition morse_char (c minor_no : Z) : prog state unit :=
  if c <? chr "A" then skip
  else
    let c := if (c >=? chr "a") && (c <=? chr "z") then u32 (c - chr "a" + chr "A") else c in
    let c := u32 (c - chr " ") in
    if c >? 58 then skip
    else
      c <- access (load1 codes c) ;;
      if Z.land c MORSE_SPACE_MASK =? 0 then
        send_code c minor_no ;; letter_space minor_no
      else word_space minor_no.

(** [c] is an unsigned int assigned from a (signed) char. *)
Fixpoint morse (cp : bytes) (minor_no : Z) : prog state unit :=
  match cp with
  | [] => Fail OutOfBounds
  | b :: cp' =>
      let c := u32 (schar b) in
      if c =? 0 then skip
      else morse_char c minor_no ;; morse cp' minor_no
  end.

Definition m_write (inode : dev_t) (length : Z) : prog state Z :=
  let minor_no := s32 (MINOR inode + 1) in
  data <- call (Kmalloc length) ;;
  if kb_addr data =? 0 then Ret 0
  else
    x <- call (Copy_from_user length) ;;
    m <- access (store (kb_bytes data) 0 x.1) ;;
    let length := u64 (length - x.2) in
    m <- access (store1 m length 0) ;;
    morse m minor_no ;;
    call (Kfree (kb_addr data)) ;;
    Ret (s64 length).
End driver.

Definition morse_init : prog state Z :=
  s0 <- get ;;
  retval <-
    (if s0.(major_no) =? 0 then
       r <- call (Alloc_chrdev_region 0 (minor_count s0) DEV_NAME) ;;
       (if r.1 <? 0 then skip else modify (set_dev r.2)) ;;
       modify (fun s => set_major (MAJOR (dev_id s)) s) ;;
       Ret r.1
     else
       modify (set_dev (MKDEV (major_no s0) 0)) ;;
       call (Register_chrdev_region (MKDEV (major_no s0) 0) (minor_count s0) DEV_NAME)) ;;
  if retval =? 0 then
    p <- call Cdev_alloc ;;
    modify (set_cdev p) ;;
    s <- get ;;
    if p =? 0 then
      call (Unregister_chrdev_region (dev_id s) (minor_count s)) ;;
      Ret (-1)
    else
      call (Cdev_init p) ;;
      call (Cdev_add p (dev_id s) (minor_count s)) ;;
      c <- call (Class_create DEV_NAME) ;;
      modify (set_class c) ;;
      for_each (seqZ 0 (minor_count s)) (fun i =>
        call (Device_create c (MKDEV (MAJOR (dev_id s)) i) "morse%d" i) ;; skip) ;;
      Ret 0
  else Ret (-1).

Definition morse_exit : prog state unit :=
  s <- get ;;
  for_each (seqZ 0 (minor_count s)) (fun i =>
    call (Device_destroy (morse_class s) (MKDEV (MAJOR (dev_id s)) i))) ;;
  call (Class_destroy (morse_class s)) ;;
  call (Cdev_del (morse_cdev s)) ;;
  call (Kfree (morse_cdev s)) ;;
  call (Unregister_chrdev_region (dev_id s) (minor_count s)).

(** ** What is heard *)

Definition outb_of (e : event) : option (Z * Z) :=
  match e with
  | Ev c r => match c with Outb v port => Some (port, v) | _ => None end
  end.
Definition timeout_of (e : event) : option Z :=
  match e with
  | Ev c r => match c with Schedule_timeout j => Some j | _ => None end
  end.

(** The low two bits of port 0x61 after a history: both set, the tone is on. *)
Fixpoint speaker (h : history) : Z :=
  match h with
  | [] => 0
  | e :: h' =>
      match outb_of e with
      | Some (port, v) => if port =? MORSE_PIO then Z.land v 3 else speaker h'
      | None => speaker h'
      end
  end.

(** Port 0x61 is a latch, and [inb] returns a byte. *)
Class PortLatch (K : kernel) := {
  inb_byte : forall h, 0 <= K _ h (Inb MORSE_PIO) < 256;
  inb_latch : forall h, Z.land (K _ h (Inb MORSE_PIO)) 3 = speaker h;
}.

(** The tone and the silence in order, each with its duration in ticks. *)
Fixpoint timeline (h : history) : list (bool * Z) :=
  match h with
  | [] => []
  | e :: h' =>
      match timeout_of e with
      | Some j => timeline h' ++ [(speaker h' =? 3, j)]
      | None => timeline h'
      end
  end.

(** The bytes written to the data port of the timer, oldest first. *)
Fixpoint pit_data (h : history) : list Z :=
  match h with
  | [] => []
  | e :: h' =>
      match outb_of e with
      | Some (port, v) => if port =? MORSE_PIT_DATA then pit_data h' ++ [v] else pit_data h'
      | None => pit_data h'
      end
  end.

(** ** The International Morse Code *)

Inductive symbol := Dot | Dash.
#[export] Instance symbol_eq_dec : EqDecision symbol.
Proof. solve_decision. Defined.

Definition symbol_of (a : ascii) : symbol := if (a =? ".")%char then Dot else Dash.
Definition itu_table : list (Z * string) := [
  (chr "A", ".-"); (chr "B", "-..."); (chr "C", "-.-."); (chr "D", "-.."); (chr "E", ".");
  (chr "F", "..-."); (chr "G", "--."); (chr "H", "...."); (chr "I", ".."); (chr "J", ".---");
  (chr "K", "-.-"); (chr "L", ".-.."); (chr "M", "--"); (chr "N", "-."); (chr "O", "---");
  (chr "P", ".--."); (chr "Q", "--.-"); (chr "R", ".-."); (chr "S", "..."); (chr "T", "-");
  (chr "U", "..-"); (chr "V", "...-"); (chr "W", ".--"); (chr "X", "-..-"); (chr "Y", "-.--");
  (chr "Z", "--..")]%string.
Definition itu : list (Z * list symbol) :=
  (fun x => (x.1, symbol_of <$> String.list_ascii_of_string x.2)) <$> itu_table.
Definition itu_code (l : Z) : list symbol :=
  default [] (snd <$> list_find (fun x => x.1 = l) itu ≫= fun x => Some x.2).

(** The letters of a text, in upper case: all that the device keys. *)
Definition letter_of (b : byte) : option Z :=
  if (65 <=? b) && (b <=? 90) then Some b
  else if (97 <=? b) && (b <=? 122) then Some (b - 32)
  else None.
Definition letters (s : bytes) : list Z := omap letter_of s.

(** The keying of a symbol, of a letter and of a text, with the durations in
    ticks: a dot is one unit, a dash three, one unit of silence follows each,
    and two more follow a letter. *)
Definition key_symbol (HZ : Z) (x : symbol) : list (bool * Z) :=
  [(true, jiffies_of HZ (if x is Dot then 60 else 180)); (false, jiffies_of HZ 60)].
Definition key_letter (HZ l : Z) : list (bool * Z) :=
  mjoin (key_symbol HZ <$> itu_code l) ++ [(false, jiffies_of HZ 120)].
Definition key_text (HZ : Z) (ls : list Z) : list (bool * Z) :=
  mjoin (key_letter HZ <$> ls).

(** A receiver: it collects symbols by the length of the tones, and a silence
    that follows a silence ends a letter. *)
Definition letter_of_symbols (xs : list symbol) : Z :=
  default 0 (list_find (fun x : Z * list symbol => x.2 = xs) itu ≫= fun x => Some x.2.1).
Fixpoint receive (HZ : Z) (acc : list symbol) (tl : list (bool * Z)) : list Z :=
  match tl with
  | (true, d) :: (false, _) :: tl' =>
      receive HZ (acc ++ [if d =? jiffies_of HZ 60 then Dot else Dash]) tl'
  | (false, _) :: tl' => letter_of_symbols acc :: receive HZ [] tl'
  | _ => []
  end.

(** ** Lemmas *)

(** The symbols [send_code] sends for a code: its bits from the lowest, down
    to the leading one. *)
Fixpoint symbols (fuel : nat) (c : Z) : list symbol :=
  match fuel with
  | O => []
  | S fuel' =>
      if Z.land c MORSE_BIT_MASK =? 0 then []
      else (if Z.land c 1 =? 0 then Dot else Dash) :: symbols fuel' (Z.shiftr c 1)
  end.

Definition is_letter (l : Z) : bool := (65 <=? l) && (l <=? 90).

Lemma letter_cases (P : Z -> Prop) l :
  65 <= l <= 90 -> Forall P (seqZ 65 26) -> P l.
Proof. intros Hl HP. rewrite Forall_forall in HP. apply HP, elem_of_seqZ. lia. Qed.

(** The table holds the International Morse Code for the letters. *)
Lemma codes_itu l :
  65 <= l <= 90 -> exists c, load1 codes (l - 32) = Some c /\ 0 <= c < 32 /\
    Z.land c MORSE_SPACE_MASK = 0 /\ symbols 33 c = itu_code l.
Proof.
  intros Hl. apply (letter_cases (fun l => exists c, _) l Hl).
  repeat (apply Forall_cons; split;
    [eexists; split; [vm_compute; reflexivity|split_and!; try lia; vm_compute; reflexivity]|]).
  constructor.
Qed.

Lemma letter_of_itu l : 65 <= l <= 90 -> letter_of_symbols (itu_code l) = l.
Proof.
  intros Hl. apply (letter_cases (fun l => _ = l) l Hl).
  repeat (apply Forall_cons; split; [vm_compute; reflexivity|]). constructor.
Qed.

Lemma letters_range s : Forall (fun l => 65 <= l <= 90) (letters s).
Proof.
  unfold letters. induction s as [|b s IH]; simpl; [constructor|].
  unfold letter_of at 1. destruct (Z.leb_spec 65 b), (Z.leb_spec b 90); simpl;
    try (constructor; [lia|done]);
    destruct (Z.leb_spec 97 b), (Z.leb_spec b 122); simpl; try done; constructor; (lia || done).
Qed.

Lemma receive_key_symbols HZ xs acc tl :
  jiffies_of HZ 60 <> jiffies_of HZ 180 ->
  receive HZ acc (mjoin (key_symbol HZ <$> xs) ++ tl) = receive HZ (acc ++ xs) tl.
Proof.
  intros Hj. revert acc. induction xs as [|x xs IH]; intros acc; [by rewrite app_nil_r|].
  cbn [fmap list_fmap mjoin list_join key_symbol app receive].
  fold (key_symbol HZ <$> xs). rewrite IH, <- app_assoc. f_equal. f_equal. simpl. f_equal.
  destruct x; [by rewrite Z.eqb_refl|by rewrite (proj2 (Z.eqb_neq _ _))].
Qed.

(** The receiver recovers the letters that were keyed. *)
Lemma receive_key_text HZ ls :
  jiffies_of HZ 60 <> jiffies_of HZ 180 -> Forall (fun l => 65 <= l <= 90) ls ->
  receive HZ [] (key_text HZ ls) = ls.
Proof.
  intros Hj. unfold key_text. induction 1 as [|l ls Hl _ IH]; [done|].
  cbn [fmap list_fmap mjoin list_join]. unfold key_letter at 1.
  rewrite <- app_assoc, receive_key_symbols by done. cbn [app receive].
  rewrite letter_of_itu by done. by f_equal.
Qed.

(** ** The speaker *)

Section keying.
Context (K : kernel) `{!PortLatch K} (HZ : Z).

(** What a step of the keying leaves: the speaker and what was heard. *)
Definition keyed (h : history) (sp : Z) (tl : list (bool * Z)) (s : state)
    (_ : unit) (s' : state) (h' : history) : Prop :=
  s' = s /\ speaker h' = sp /\ timeline h' = timeline h ++ tl.

Lemma land_u8 v m : 0 <= m < 256 -> Z.land (u8 v) m = Z.land v m.
Proof.
  intros Hm. unfold wrapu. rewrite <- Z.land_ones by lia.
  rewrite <- Z.land_assoc. f_equal.
  rewrite Z.land_comm, Z.land_ones by lia. by apply Z.mod_small.
Qed.

Lemma tone_on freq s h :
  freq <> 0 -> speaker h = 0 -> wp K (sound freq) (keyed h 3 [] s) s h.
Proof.
  intros Hf Hs. unfold sound. wp_go. rewrite (proj2 (Z.eqb_neq freq 0)) by done.
  pose proof (inb_latch h) as Hl. rewrite <- E, Hs in Hl.
  assert (Z.land r MORSE_TONE_ON = 0) as -> by exact Hl. cbv beta iota zeta.
  replace (0 =? 0) with true by done. wp_go.
  split_and!; [done| |by rewrite app_nil_r].
  cbn [speaker outb_of]. cbn. rewrite land_u8 by lia.
  rewrite Z.land_lor_distr_l. unfold MORSE_TONE_ON. by rewrite Hl.
Qed.

Lemma tone_off s h : wp K nosound (keyed h 0 [] s) s h.
Proof.
  unfold nosound. wp_go. split_and!; [done| |by rewrite app_nil_r].
  cbn. rewrite land_u8 by lia. unfold MORSE_TONE_OFF. rewrite <- Z.land_assoc.
  change (Z.land 252 3) with 0. apply Z.land_0_r.
Qed.

Lemma wait ms s h :
  wp K (morse_mdelay HZ ms)
    (keyed h (speaker h) [(speaker h =? 3, jiffies_of HZ ms)] s) s h.
Proof. unfold morse_mdelay. wp_go. by split_and!. Qed.

(** A symbol: tone, silence. *)
Lemma send_symbol freq ms s h :
  freq <> 0 -> speaker h = 0 ->
  wp K (sound freq ;; morse_mdelay HZ ms ;; nosound ;; morse_mdelay HZ 60)
    (keyed h 0 [(true, jiffies_of HZ ms); (false, jiffies_of HZ 60)] s) s h.
Proof.
  intros Hf Hs. apply wp_bind. eapply wp_mono; [by apply tone_on|].
  intros [] s1 h1 (-> & S1 & T1). apply wp_bind. eapply wp_mono; [apply wait|].
  intros [] s1 h2 (-> & S2 & T2). apply wp_bind. eapply wp_mono; [apply tone_off|].
  intros [] s1 h3 (-> & S3 & T3). eapply wp_mono; [apply wait|].
  intros [] s1 h4 (-> & S4 & T4). rewrite S1 in *. rewrite S3 in *.
  split_and!; [done|done|]. rewrite T4, T3, T2, T1, !app_nil_r, <- app_assoc. done.
Qed.

Context (minor_no : Z) (Hfreq : s32 (MORSE_FREQUENCY * minor_no) <> 0).

Lemma send_symbol_of (d : bool) s h :
  speaker h = 0 ->
  wp K (if d then send_dot HZ minor_no else send_dash HZ minor_no)
    (keyed h 0 (key_symbol HZ (if d then Dot else Dash)) s) s h.
Proof.
  intros Hs. destruct d; by apply send_symbol.
Qed.

(** The loop of [send_code] sends the symbols of its code. *)
Lemma send_code_symbols fuel n c s h :
  0 <= c < 2 ^ Z.of_nat n -> (n < fuel)%nat -> speaker h = 0 ->
  wp K (loop fuel (fun c =>
      if Z.land c MORSE_BIT_MASK =? 0 then Ret (inr tt)
      else
        (if Z.land c 1 =? 0 then send_dot HZ minor_no else send_dash HZ minor_no) ;;
        Ret (inl (Z.shiftr c 1))) c)
    (keyed h 0 (mjoin (key_symbol HZ <$> symbols fuel c)) s) s h.
Proof.
  revert n c h. induction fuel as [|fuel IH]; intros n c h Hc Hn Hs; [lia|].
  cbn [loop symbols]. apply wp_bind.
  destruct (Z.land c MORSE_BIT_MASK =? 0) eqn:Hm.
  { apply wp_ret, wp_ret. split_and!; [done|done|by rewrite app_nil_r]. }
  destruct n as [|n].
  { assert (c = 0) as -> by lia. by rewrite Z.land_0_l in Hm. }
  apply wp_bind. eapply wp_mono; [by apply send_symbol_of|].
  intros [] s1 h1 (-> & S1 & T1). apply wp_ret. cbv beta iota.
  eapply wp_mono.
  { apply (IH n); [|lia|done]. rewrite Z.shiftr_div_pow2 by lia.
    rewrite Nat2Z.inj_succ, Z.pow_succ_r in Hc by lia. change (2 ^ 1) with 2.
    split; [apply Z.div_pos; lia|apply Z.div_lt_upper_bound; lia]. }
  intros [] s2 h2 (-> & S2 & T2). split_and!; [done|done|].
  rewrite T2, T1. cbn [fmap list_fmap mjoin list_join]. by rewrite <- app_assoc.
Qed.

(** What one character of the text keys. *)
Lemma morse_char_keyed b s h :
  0 <= b < 256 -> speaker h = 0 ->
  wp K (morse_char HZ (u32 (schar b)) minor_no)
    (keyed h 0 (if letter_of b is Some l then key_letter HZ l else []) s) s h.
Proof.
  intros Hb Hs.
  assert (forall l, 65 <= l <= 90 ->
    wp K (c <- access (load1 codes (l - 32)) ;;
          if Z.land c MORSE_SPACE_MASK =? 0 then
            send_code HZ c minor_no ;; letter_space HZ minor_no
          else word_space HZ minor_no) (keyed h 0 (key_letter HZ l) s) s h) as Hletter.
  { intros l Hl. destruct (codes_itu l Hl) as (c & Hc & Hr & Hm & Hi).
    apply wp_bind. eapply wp_access; [exact Hc|]. rewrite Hm. cbv beta iota.
    replace (0 =? 0) with true by done. apply wp_bind.
    eapply wp_mono; [apply (send_code_symbols 33 5); [exact Hr|lia|done]|].
    intros [] s1 h1 (-> & S1 & T1). rewrite Hi in T1.
    eapply wp_mono; [apply wait|]. intros [] s2 h2 (-> & S2 & T2).
    rewrite S1 in *. split_and!; [done|done|]. rewrite T2, T1, <- app_assoc. done. }
  assert (wp K skip (keyed h 0 [] s) s h) as Hskip.
  { apply wp_skip. split_and!; [done|done|by rewrite app_nil_r]. }
  unfold morse_char, letter_of, schar.
  change (chr "A") with 65. change (chr "a") with 97. change (chr "z") with 122.
  change (chr " ") with 32.
  destruct (Z.lt_ge_cases b 128).
  - rewrite (s8_small b), (u32_small b) by lia. rewrite Z.geb_leb.
    destruct (Z.ltb_spec b 65); [zcases; done|].
    destruct (Z.leb_spec 97 b), (Z.leb_spec b 122); simpl; try lia.
    + rewrite (u32_small (b - 97 + 65)), (u32_small (b - 97 + 65 - 32)) by lia.
      rewrite Z.gtb_ltb. destruct (Z.ltb_spec 58 (b - 97 + 65 - 32)); [lia|].
      destruct (Z.leb_spec 65 b), (Z.leb_spec b 90); simpl; try lia.
      replace (b - 97 + 65 - 32) with (b - 32 - 32) by lia. apply Hletter. lia.
    + rewrite (u32_small (b - 32)), Z.gtb_ltb by lia.
      destruct (Z.ltb_spec 58 (b - 32)); [zcases; done|lia].
    + rewrite (u32_small (b - 32)), Z.gtb_ltb by lia.
      destruct (Z.ltb_spec 58 (b - 32)); zcases; try done. by apply Hletter.
  - rewrite s8_big, (u32_neg (b - 256)) by lia.
    replace (b - 256 + 4294967296) with (b + 4294967040) by lia.
    destruct (Z.ltb_spec (b + 4294967040) 65); [lia|].
    rewrite Z.geb_leb. destruct (Z.leb_spec 97 (b + 4294967040)); [|lia].
    destruct (Z.leb_spec (b + 4294967040) 122); [lia|]. cbn [andb].
    rewrite u32_small, Z.gtb_ltb by lia.
    destruct (Z.ltb_spec 58 (b + 4294967040 - 32)); [|lia]. zcases; done.
Qed.

Lemma morse_keyed m t s h :
  cstr m = Some t -> bytes_ok m -> speaker h = 0 ->
  wp K (morse HZ m minor_no) (keyed h 0 (key_text HZ (letters t)) s) s h.
Proof.
  intros Ht Hm. revert t h Ht. induction Hm as [|b m Hb Hm IH]; intros t h Ht Hs; [done|].
  simpl in Ht. cbn [morse].
  assert ((u32 (schar b) =? 0) = (b =? 0)) as ->.
  { apply eqb_prop, (seqZ_check (fun b => Bool.eqb (u32 (schar b) =? 0) (b =? 0)) 0 256);
      [vm_compute; reflexivity|lia]. }
  destruct (b =? 0).
  - simplify_eq. apply wp_skip. split_and!; [done|done|by rewrite app_nil_r].
  - destruct (cstr m) as [t'|] eqn:E; simplify_eq/=. apply wp_bind.
    eapply wp_mono; [by apply morse_char_keyed|].
    intros [] s1 h1 (-> & S1 & T1). eapply wp_mono; [by apply IH|].
    intros [] s2 h2 (-> & S2 & T2). split_and!; [done|done|].
    rewrite T2, T1, <- app_assoc. f_equal. unfold letters. simpl.
    destruct (letter_of b); done.
Qed.
End keying.

Lemma itu_no_zero_tone minor :
  0 <= minor < 1048576 -> s32 (MORSE_FREQUENCY * (minor + 1)) = 2000 * (minor + 1).
Proof. intros. unfold MORSE_FREQUENCY. cint. done. Qed.

(** The bytes of the text up to its terminator, when one is put at [n]. *)
Lemma cstr_insert (d rest : bytes) n :
  0 <= n <= zlen d -> (length d < length (d ++ rest))%nat ->
  exists t, cstr (<[Z.to_nat n := 0]> (d ++ rest)) = Some t /\
    cstr (take (Z.to_nat n) d ++ [0]) = Some t.
Proof.
  intros Hn Hl. rewrite insert_take_drop by (rewrite length_app in *; lia).
  rewrite take_app_le by lia. generalize (drop (S (Z.to_nat n)) (d ++ rest)). intros tl.
  induction (take (Z.to_nat n) d) as [|b l IH]; simpl; [eauto|].
  destruct (b =? 0); [eauto|]. destruct IH as (t & -> & ->). eauto.
Qed.

(** ** Properties *)

(** C11: what the speaker plays for a text is the International Morse Code of
    its letters, in the order of the text and in either case, with the
    standard proportions (a dash is three dots long, one unit separates the
    symbols and three the letters); every other character, digits and spaces
    included, is silent, although the table has codes for them. *)
Theorem morse_plays_letters K `{!PortLatch K} HZ m t minor_no s h :
  cstr m = Some t -> bytes_ok m -> speaker h = 0 ->
  s32 (MORSE_FREQUENCY * minor_no) <> 0 ->
  wp K (morse HZ m minor_no) (fun _ s' h' =>
    s' = s /\ speaker h' = 0 /\
    timeline h' = timeline h ++ key_text HZ (letters t)) s h.
Proof. intros Ht Hm Hs Hf. by apply (morse_keyed K HZ minor_no Hf). Qed.

(** C26: the keying can be decoded: at any tick rate from 100 on, a receiver
    that only tells long tones from short ones, and notices two silences in a
    row, recovers exactly the letters of the text. *)
Theorem morse_decodes K `{!PortLatch K} HZ m t minor_no s h :
  100 <= HZ <= 1000000 -> cstr m = Some t -> bytes_ok m -> speaker h = 0 ->
  timeline h = [] -> s32 (MORSE_FREQUENCY * minor_no) <> 0 ->
  wp K (morse HZ m minor_no) (fun _ _ h' => receive HZ [] (timeline h') = letters t) s h.
Proof.
  intros HHZ Ht Hm Hs Htl Hf. eapply wp_mono; [by apply (morse_keyed K HZ minor_no Hf)|].
  intros [] s' h' (_ & _ & ->). rewrite Htl. apply receive_key_text, letters_range.
  unfold jiffies_of. rewrite !s32_small by lia. rewrite !Z.quot_div_nonneg by lia.
  pose proof (Z.div_mod (60 * HZ) 1000). pose proof (Z.mod_pos_bound (60 * HZ) 1000).
  pose proof (Z.div_mod (180 * HZ) 1000). pose proof (Z.mod_pos_bound (180 * HZ) 1000). lia.
Qed.

(** for a device of any minor number the tone is [2000 * (minor + 1)] Hz:
    the division is defined, the timer chip gets the low and the high byte of
    the clock divided by it, and the speaker is on. *)
Theorem morse_tone_divisor K `{!PortLatch K} minor s h :
  0 <= minor < 1048576 -> speaker h = 0 ->
  wp K (sound (s32 (MORSE_FREQUENCY * (minor + 1)))) (fun _ s' h' =>
    s' = s /\ speaker h' = 3 /\
    exists lo hi, pit_data h' = pit_data h ++ [lo; hi] /\ 0 <= lo < 256 /\ 0 <= hi < 256 /\
      lo + 256 * hi = MORSE_CLK_FREQ / (2000 * (minor + 1))) s h.
Proof.
  intros Hm Hs. rewrite itu_no_zero_tone by done. unfold sound. wp_go.
  rewrite (proj2 (Z.eqb_neq (2000 * _) 0)) by lia.
  pose proof (inb_latch h) as Hl. rewrite <- E, Hs in Hl.
  assert (Z.land r MORSE_TONE_ON = 0) as -> by exact Hl. cbv beta iota zeta.
  replace (0 =? 0) with true by done. wp_go.
  unfold MORSE_CLK_FREQ. set (q := 1193180 / (2000 * (minor + 1))).
  assert (0 <= q < 65536) as Hq.
  { split; [apply Z.div_pos; lia|]. apply Z.div_lt_upper_bound; nia. }
  rewrite Z.quot_div_nonneg by lia. fold q. rewrite (s32_small q) by lia.
  split_and!; [done| |].
  - cbn. rewrite land_u8, Z.land_lor_distr_l by lia. unfold MORSE_TONE_ON. by rewrite Hl.
  - do 2 eexists. cbn. split; [by rewrite <- app_assoc|].
    split_and!; try apply (wrapu_range 8); try lia.
    assert (forall x, u8 (Z.land x 0xff) = x mod 256) as Hu.
    { intros x. change 0xff with (Z.ones 8). unfold wrapu.
      rewrite Z.land_ones, Z.mod_mod by lia. done. }
    rewrite !Hu, Z.shiftr_div_pow2 by lia. change (2 ^ 8) with 256. rewrite (Z.mod_small (q / 256)) by
      (split; [apply Z.div_pos|apply Z.div_lt_upper_bound]; lia).
    pose proof (Z.div_mod q 256). lia.
Qed.

(** [m_write] terminates the text one byte past the length it allocated:
    whenever the block is no longer than asked for and the copy is complete,
    the terminator is written outside the block. *)
Theorem morse_write_off_by_one (K : kernel) HZ inode length s h :
  0 <= length < 2147483648 ->
  kb_addr (K _ h (Kmalloc length)) <> 0 ->
  zlen (kb_bytes (K _ h (Kmalloc length))) = length ->
  (forall h', (K _ h' (Copy_from_user length)).2 = 0) ->
  faults K (m_write HZ inode length) OutOfBounds s h.
Proof.
  intros Hl Ha Hb Hc. unfold m_write. faults_go. rewrite <- E in *.
  rewrite (proj2 (Z.eqb_neq _ _) Ha). faults_go.
  match goal with E : ?x = K _ _ (Copy_from_user _) |- _ =>
    pose proof (Hc (Ev (Kmalloc length) r :: h)) as Hc1; rewrite <- E in Hc1 end.
  destruct (store (kb_bytes r) 0 _) as [m|] eqn:Hst; [|by faults_here].
  faults_past ltac:(reflexivity). faults_here.
  apply store_length in Hst. apply store1_none. rewrite Hc1, Hst, u64_small by lia. lia.
Qed.

(** C28: when the allocator gives at least one byte more, [m_write] plays the
    letters of what it copied (up to the first NUL), returns the number of
    bytes copied and gives the buffer back; when it gives nothing, [m_write]
    reports that nothing was written. *)
Theorem morse_write_plays K `{!PortLatch K, !UaccessSpec K} HZ inode length s h :
  0 <= length < 2147483648 -> 0 <= MINOR inode < 1048576 -> speaker h = 0 ->
  let b := K _ h (Kmalloc length) in
  kb_addr b = 0 \/ length < zlen (kb_bytes b) -> bytes_ok (kb_bytes b) ->
  wp K (m_write HZ inode length) (fun r _ h' =>
    exists d k t, r = length - k /\ 0 <= r /\ cstr (take (Z.to_nat r) d ++ [0]) = Some t /\
      timeline h' = timeline h ++ key_text HZ (letters t) /\
      (if kb_addr b =? 0 then k = length
       else (d, k) = K _ (Ev (Kmalloc length) b :: h) (Copy_from_user length) /\
            (exists h2, h' = Ev (Kfree (kb_addr b)) tt :: h2))) s h.
Proof.
  intros Hl Hmin Hs b Hb Hbok. unfold m_write. wp_go. subst b. rewrite <- E in *.
  wp_if; wp_go.
  { exists [], length, []. split_and!; [lia|lia|done|by rewrite app_nil_r|done]. }
  destruct Hb as [Hb|Hb]; [zbool; lia|].
  set (h1 := Ev (Kmalloc length) r :: h) in *.
  pose proof (copy_from_user_bound h1 length ltac:(lia)) as Hk.
  pose proof (copy_from_user_length h1 length ltac:(lia)) as Hd.
  pose proof (copy_from_user_bytes h1 length) as Hdok.
  rewrite <- E0 in *. destruct r0 as [d k]. simpl in Hk, Hd, Hdok. cbn [fst snd].
  destruct (store (kb_bytes r) 0 d) as [m|] eqn:Hst; [|rewrite store_ok in Hst by lia; done].
  eapply wp_access; [done|]. apply store_length in Hst as Hml.
  rewrite store_ok in Hst by lia. injection Hst as <-. cbn [Z.to_nat take app Nat.add] in *.
  rewrite (u64_small (length - k)) by lia.
  wp_go. eapply wp_access; [apply store1_ok; lia|]. wp_go.
  destruct (cstr_insert d (drop (Datatypes.length d) (kb_bytes r)) (length - k)) as (t & Ht & Ht').
  { lia. } { rewrite Hml. lia. }
  set (h2 := Ev (Copy_from_user length) (d, k) :: h1).
  rewrite s32_small by lia.
  eapply wp_mono.
  { apply (morse_keyed K HZ (MINOR inode + 1)) with (t := t); [|exact Ht| |exact Hs].
    - rewrite itu_no_zero_tone; lia.
    - apply Forall_insert; [|lia]. apply Forall_app. split; [done|by apply Forall_drop]. }
  intros [] s3 h3 (-> & S3 & T3). wp_go. exists d, k, t. rewrite s64_small by lia.
  split_and!; [lia|lia|done|exact T3|done|]. by eexists.
Qed.

(** [insmod] followed by [rmmod], when the first succeeds. *)
Definition load_unload : prog state Z :=
  r <- morse_init ;; (if r =? 0 then morse_exit else skip) ;; Ret r.

(** [morse_init] allocates no plain memory, so none is held after it. *)
Lemma morse_init_held (K : kernel) L0 s h :
  held L0 h = Some [] ->
  wp K morse_init (fun r s' h' =>
    (r = -1 /\ held L0 h' = Some []) \/
    (r = 0 /\ morse_cdev s' <> 0 /\ forall p, absent L0 (RMem p) h')) s h.
Proof.
  intros HL. unfold morse_init. apply wp_bind, wp_get, wp_bind.
  eapply wp_mono with (Q := fun r s' h' => exists X,
    held L0 h' = Some (when_zero r (RChrdevRegion (dev_id s') (minor_count s'))) /\
    h' = X ++ h).
  { destruct (major_no s =? 0); wp_go.
    - destruct r as [r d]. simpl.
      assert (held L0 (Ev (Alloc_chrdev_region 0 (minor_count s) DEV_NAME) (r, d) :: h) =
              Some (when_zero r (RChrdevRegion d (minor_count s)))) as Hh.
      { eapply held_cons; [exact HL|reflexivity|simpl; by rewrite app_nil_r]. }
      destruct (Z.ltb_spec r 0); wp_go; simpl; eexists [_]; split; try done.
      unfold when_zero in *. rewrite (proj2 (Z.eqb_neq r 0)) in * by lia. exact Hh.
    - eexists [_]. split; [|done].
      eapply held_cons; [exact HL|reflexivity|simpl; by rewrite app_nil_r]. }
  intros r s1 h1 (X & HX & _). destruct (r =? 0) eqn:Hr; [|wp_go; left; split; [done|]].
  2:{ unfold when_zero in HX. by rewrite Hr in HX. }
  unfold when_zero in HX. rewrite Hr in HX. wp_go. simpl. wp_if; wp_go.
  { left. split; [done|]. simpl. ledger. }
  apply Z.eqb_neq in Heqb. simpl.
  eapply wp_mono.
  { apply (wp_create_devices _ _ _ _ _ L0). ledger. }
  intros [] s2 h2 (-> & devs & Hdevs & Hh). wp_go. right. split_and!; [done|done|].
  intros p. unfold absent. rewrite Hh. unfold unless_err.
  intros Hin. apply elem_of_app in Hin as [Hin|Hin].
  - apply Hdevs, list_elem_of_fmap in Hin as (? & ? & _). congruence.
  - repeat case_match; repeat (apply elem_of_cons in Hin as [?|Hin]; [congruence|]);
      by apply elem_of_nil in Hin.
Qed.

(** unloading frees the cdev twice: [cdev_del] drops the last reference of
    what [cdev_alloc] gave and [morse_exit] then hands the same pointer to
    [kfree].  Every load that succeeds ends, after its unload, in a release of
    something not held; a load that fails gives everything back. *)
Theorem morse_exit_double_free (K : kernel) L0 s h :
  held L0 h = Some [] ->
  wp K load_unload (fun r _ h' =>
    (r = -1 /\ held L0 h' = Some []) \/ (r = 0 /\ held L0 h' = None)) s h.
Proof.
  intros HL. apply wp_bind. eapply wp_mono; [by apply morse_init_held|].
  intros r s1 h1 [[-> HX]|(-> & Hp & Ha)]; simpl; apply wp_bind; [wp_go; auto|].
  unfold morse_exit. wp_go.
  eapply wp_for_each with (I := fun _ s' h' => s' = s1 /\ absent L0 (RMem (morse_cdev s1)) h').
  { auto. }
  { intros dn i todo s2 h2 _ [-> Ha2]. wp_go. split; [done|]. apply absent_cons; [done|set_solver]. }
  intros s2 h2 [-> Ha2]. wp_go. right. split; [done|]. apply held_none_cons.
  eapply release_absent with (r := RMem (morse_cdev s1)).
  - do 2 (apply absent_cons; [|set_solver]). exact Ha2.
  - simpl. unfold unless_null. by rewrite (proj2 (Z.eqb_neq _ _) Hp).
Qed.

(** ** Concrete instances *)

Lemma speaker_low h : 0 <= speaker h < 256 /\ Z.land (speaker h) 3 = speaker h.
Proof.
  induction h as [|e h IH]; simpl; [by split|]. destruct (outb_of e) as [[port v]|]; [|done].
  destruct (port =? MORSE_PIO); [|done]. split.
  - change 3 with (Z.ones 2). rewrite Z.land_ones by lia.
    pose proof (Z.mod_pos_bound v (2 ^ 2) ltac:(lia)). lia.
  - by rewrite <- Z.land_assoc.
Qed.

(** A kernel with a latched port, whose allocations have [extra] bytes more
    than asked for, and a user who writes [text]. *)
Definition player (extra : nat) (text : bytes) : kernel := fun _ h c =>
  match c in kcall R return R with
  | Inb _ => speaker h
  | Kmalloc n => KBlock 4096 (replicate (Z.to_nat n + extra) 0)
  | Copy_from_user n => (resize (Z.to_nat n) 0 text, 0)
  | c => quiet c
  end.

#[export] Instance player_latch extra text : PortLatch (player extra text).
Proof. split; intros h; apply speaker_low. Qed.

Definition SOS : bytes := Eval vm_compute in bytes_of_string "s.O S".

#[export] Instance player_uaccess extra : UaccessSpec (player extra SOS).
Proof.
  split; simpl; intros; try lia.
  - rewrite length_resize. lia.
  - apply Forall_resize; [lia|]. repeat constructor; lia.
Qed.

Definition idle : state := State 240 3 1 (MKDEV 240 0) 1.

Lemma morse_plays_letters_witness :
  wp (player 0 SOS) (morse 1000 (SOS ++ [0]) 1) (fun _ _ h' =>
    timeline h' = key_text 1000 [83; 79; 83]) idle [].
Proof.
  eapply wp_mono.
  { apply (morse_plays_letters (player 0 SOS) 1000 (SOS ++ [0]) SOS 1 idle []).
    - reflexivity.
    - repeat constructor; lia.
    - reflexivity.
    - vm_compute. discriminate. }
  intros x s' h' (_ & _ & H). exact H.
Defined.

Lemma morse_decodes_witness :
  wp (player 0 SOS) (morse 100 (SOS ++ [0]) 1) (fun _ _ h' =>
    receive 100 [] (timeline h') = [83; 79; 83]) idle [].
Proof.
  apply (morse_decodes (player 0 SOS) 100 (SOS ++ [0]) SOS 1 idle []); try reflexivity.
  - lia.
  - repeat constructor; lia.
  - vm_compute. discriminate.
Defined.

Lemma morse_tone_divisor_witness :
  wp (player 0 []) (sound (s32 (MORSE_FREQUENCY * (2 + 1)))) (fun _ s' h' =>
    s' = idle /\ speaker h' = 3 /\
    exists lo hi, pit_data h' = pit_data [] ++ [lo; hi] /\ 0 <= lo < 256 /\ 0 <= hi < 256 /\
      lo + 256 * hi = 198) idle [].
Proof. apply (morse_tone_divisor (player 0 []) 2 idle []); [lia|reflexivity]. Defined.

Lemma morse_write_off_by_one_witness :
  faults (player 0 SOS) (m_write 1000 (MKDEV 240 0) 5) OutOfBounds idle [].
Proof.
  apply (morse_write_off_by_one (player 0 SOS) 1000 (MKDEV 240 0) 5 idle []).
  - lia.
  - discriminate.
  - reflexivity.
  - reflexivity.
Defined.

Lemma morse_write_plays_witness :
  wp (player 1 SOS) (m_write 1000 (MKDEV 240 0) 5) (fun r _ h' =>
    exists d k t, r = 5 - k /\ 0 <= r /\ cstr (take (Z.to_nat r) d ++ [0]) = Some t /\
      timeline h' = timeline [] ++ key_text 1000 (letters t) /\
      (d, k) = (SOS, 0) /\
      (exists h2, h' = Ev (Kfree 4096) tt :: h2)) idle [].
Proof.
  eapply wp_mono.
  { apply (morse_write_plays (player 1 SOS) 1000 (MKDEV 240 0) 5 idle []).
    - lia.
    - simpl. lia.
    - reflexivity.
    - right. reflexivity.
    - apply Forall_replicate. lia. }
  intros r s' h' (d & k & t & H1 & H2 & H3 & H4 & H5). exists d, k, t.
  exact (conj H1 (conj H2 (conj H3 (conj H4 H5)))).
Defined.

Lemma morse_exit_double_free_witness :
  wp quiet_kernel load_unload (fun r _ h' =>
    (r = -1 /\ held [] h' = Some []) \/ (r = 0 /\ held [] h' = None)) (State 0 3 0 (MKDEV 0 0) 0) [].
Proof. apply (morse_exit_double_free quiet_kernel). reflexivity. Defined.
