(* ===== verification/Speaker.v ===== *)
(** * io_port/morse_io.c: several writers on one speaker

    Each write to the device plays its text in the process that writes, and
    sleeps during every tone, so that the tones of several writers mix.  The
    latch of port 0x61 is shared; a write that found the speaker on does not
    turn it on, and the reads and writes of the latch are separate calls.  The
    writers are threads ([Threads]); [Tone] is the typestate of one of them. *)

From stdpp Require Import relations.
From S2P Require Import Prelude Kernel Prog Threads Discipline Morse.

#[local] Open Scope Z_scope.

(** The bits of the latch that gate the tone. *)
Definition tone_on (v : Z) : bool := negb (Z.land v MORSE_TONE_ON =? 0).

(** Whether what a thread last wrote to the latch left the tone on. *)
Definition tone_next (q : bool) (R : Set) (c : kcall R) (_ : R) : option bool :=
  match c with
  | Outb v port => if port =? MORSE_PIO then Some (tone_on v) else Some q
  | _ => Some q
  end.
Definition Tone : discipline Morse.state bool :=
  Discipline (fun _ => True) (fun _ _ _ => True) tone_next.

Lemma tone_off_mask v : tone_on (u8 (Z.land v MORSE_TONE_OFF)) = false.
Proof.
  unfold tone_on. apply negb_false_iff, Z.eqb_eq. unfold wrapu.
  change (2 ^ 8) with (2 ^ 8)%Z. rewrite <- Z.land_ones by lia.
  apply Z.bits_inj'. intros n Hn. rewrite !Z.land_spec, Z.bits_0.
  unfold MORSE_TONE_OFF, MORSE_TONE_ON.
  destruct (Z.lt_ge_cases n 8).
  - assert (n = 0 \/ n = 1 \/ n = 2 \/ n = 3 \/ n = 4 \/ n = 5 \/ n = 6 \/ n = 7) as Hc by lia.
    destruct_or! Hc; subst n; simpl; by rewrite ?andb_false_r.
  - rewrite (Z.bits_above_log2 3 n) by (simpl; lia). apply andb_false_r.
Qed.

(** Every tone is followed by its end. *)
Section tone.
Context (HZ : Z).
#[local] Abbreviation quiet_after p := (obeys Tone false p (fun q _ => q = false)).

Lemma nosound_off q : obeys Tone q nosound (fun q' _ => q' = false).
Proof. unfold nosound. obeys_go. apply tone_off_mask. Qed.

Lemma mdelay_keeps q ms : obeys Tone q (morse_mdelay HZ ms) (fun q' _ => q' = q).
Proof. unfold morse_mdelay. by obeys_go. Qed.

Lemma sound_any q f : obeys Tone q (sound f) (fun _ _ => True).
Proof.
  unfold sound. obeys_go; simpl; obeys_go; try done.
Qed.

Lemma send_tone_quiet f ms q :
  obeys Tone q (sound f ;; morse_mdelay HZ ms ;; nosound ;; morse_mdelay HZ MORSE_UNIT_TIME)
    (fun q' _ => q' = false).
Proof.
  apply obeys_bind. eapply obeys_mono; [apply sound_any|]. intros q1 [] _.
  apply obeys_bind. eapply obeys_mono; [apply mdelay_keeps|]. intros q2 [] _.
  apply obeys_bind. eapply obeys_mono; [apply nosound_off|]. intros q3 [] ->.
  apply mdelay_keeps.
Qed.

Lemma morse_char_quiet c minor_no : quiet_after (morse_char HZ c minor_no).
Proof.
  unfold morse_char, send_code, letter_space, word_space. obeys_go; try done;
    try apply mdelay_keeps.
  eapply (obeys_loop _ (fun q _ => q = false)); [done|]. intros q i ->.
  obeys_go; simpl; try (by eapply obeys_mono; [apply mdelay_keeps|intros ? [] ->]);
    (eapply obeys_mono; [apply send_tone_quiet|]); by intros q1 [] ->.
Qed.
End tone.

Section writers.
Context (HZ : Z).

Lemma morse_quiet cp minor_no : obeys Tone false (morse HZ cp minor_no) (fun q _ => q = false).
Proof.
  induction cp as [|b cp IH]; simpl; [done|]. case_match; [done|].
  apply obeys_bind. eapply obeys_mono; [apply morse_char_quiet|]. by intros q [] ->.
Qed.

Lemma m_write_quiet inode length :
  obeys Tone false (m_write HZ inode length) (fun q _ => q = false).
Proof.
  unfold m_write. obeys_go; try done. eapply obeys_mono; [apply morse_quiet|].
  intros q [] ->. by obeys_go.
Qed.

(** ** The writers side by side *)

(** The shared state is the latch: an [outb] sets it, an [inb] reads it. *)
Definition latch_api (latch : Z) (R : Set) (c : kcall R) : R -> Z -> Prop :=
  match c in kcall R return R -> Z -> Prop with
  | Inb port => fun r latch' => (port = MORSE_PIO -> r = latch) /\ latch' = latch
  | Outb v port => fun _ latch' => latch' = if port =? MORSE_PIO then v else latch
  | _ => fun _ latch' => latch' = latch
  end.

(** A process may write any length to any node at any time. *)
Inductive writer (latch : Z) : unit -> prog state unit -> Z -> Prop :=
| writer_starts inode length :
    writer latch () (m_write HZ inode length ;; skip) latch.

(** When the tone is on, some writer still has to turn it off. *)
Definition owed (latch : Z) (qs : list (unit * bool)) : Prop :=
  tone_on latch = true -> exists i, qs !! i = Some ((), true).

#[export] Instance writers_pooled :
  Pooled Tone latch_api writer owed (fun _ q _ => q = false).
Proof.
  split.
  - done.
  - intros latch qs i [] q R c r latch' q' HJ Hi Hapi Hn Hon.
    assert (i < length qs)%nat as Hlt by (by eapply lookup_lt_Some).
    assert (q' = q /\ latch' = latch \/ tone_on latch' = q') as [[-> ->]|<-].
    { destruct c; simpl in *; simplify_eq; destruct_and?; auto. case_match; simplify_eq; auto. }
    + destruct (HJ Hon) as [j Hj]. exists j.
      destruct (decide (i = j)) as [<-|Hij]; [|by rewrite list_lookup_insert_ne].
      simplify_eq. by apply list_lookup_insert_eq.
    + exists i. rewrite Hon. by apply list_lookup_insert_eq.
  - intros latch qs [] p latch' HJ Hsp. inversion Hsp; subst. exists false. split.
    + apply obeys_bind. eapply obeys_mono; [apply m_write_quiet|]. by intros q r ->.
    + intros Hon. destruct (HJ Hon) as [i Hi]. exists i. rewrite lookup_app_l; [done|].
      by eapply lookup_lt_Some.
Qed.

(** ** Properties *)

(** C10: however the tones of several writers mix, with the speaker silent at
    first and when none is writing: once every writer has returned the tone is
    off, and while it is on some writer has yet to return. *)
Theorem morse_speaker_silent_at_rest s0 latch0 c :
  tone_on latch0 = false ->
  reachable latch_api writer (Config [] s0 latch0) c ->
  tone_on (env c) = true ->
  exists i p, pool c !! i = Some ((), p) /\ p <> Ret tt.
Proof.
  intros Hoff Hr Hon.
  destruct (obeys_threads Tone latch_api writer owed (fun _ q _ => q = false)
              (Config [] s0 latch0) c) as (_ & qs & Hth & HJ); [|done|].
  { split; [done|]. exists []. split; [constructor|]. simpl. intros Ht. congruence. }
  destruct (HJ Hon) as [i Hi].
  destruct (Forall2_lookup_r _ _ _ _ _ Hth Hi) as ([[] p] & Hp & [_ Hob]).
  exists i, p. split; [done|]. simpl in Hob. by intros ->.
Qed.
End writers.

(** ** A concrete instance *)

(** Answers for a writer of the letter E, one dot. *)
Definition answers (latch : Z) (R : Set) (c : kcall R) : R * Z :=
  match c in kcall R return R * Z with
  | Inb port => (latch, latch)
  | Outb v port => (tt, if port =? MORSE_PIO then v else latch)
  | Copy_from_user n => (([69], 0), latch)
  | Kmalloc n => (KBlock 4096 [0; 0], latch)
  | c => (quiet c, latch)
  end.

Definition one_writer : prog state unit := m_write 1000 (MKDEV 240 0) 1 ;; skip.
Definition sounding : config state Z unit := solo_config answers [] 4 () one_writer idle 0.

Lemma morse_speaker_silent_at_rest_witness :
  exists i p, pool sounding !! i = Some ((), p) /\ p <> Ret tt.
Proof.
  apply (morse_speaker_silent_at_rest 1000 idle 0).
  - reflexivity.
  - apply (solo_reachable latch_api (writer 1000) answers 4 [] () one_writer idle 0 0).
    + intros latch R c. by destruct c.
    + exact (writer_starts 1000 0 (MKDEV 240 0) 1).
  - vm_compute. reflexivity.
Defined.
