(* ===== verification/Sbd.v ===== *)
(** * block_dev/sbd.c: a RAM disk

    The disk is a [vmalloc]ed block; the request function takes requests off
    the queue of the block layer, copies the bytes of each segment and completes
    it.  The block layer is a parameter: [BlkQueueSpec] states what the driver
    relies on, that it hands out the segments of the queued requests in order.
    [sbd_request] is a [while] loop, so it takes fuel; the theorems give the
    fuel that is enough for a queue, and the queue for which none is. *)

From S2P Require Import Prelude Kernel Prog.

Definition KERNEL_SECTOR_SIZE : Z := 512.

Record state := State {
  major_num : Z; logical_block_size : Z; nsectors : Z;
  Queue : Z; size : Z; data_p : Z; data : bytes; gd : Z }.

Definition set_major_num (m : Z) (s : state) : state :=
  State m (logical_block_size s) (nsectors s) (Queue s) (size s) (data_p s) (data s) (gd s).
Definition set_queue (q : Z) (s : state) : state :=
  State (major_num s) (logical_block_size s) (nsectors s) q (size s) (data_p s) (data s) (gd s).
Definition set_size (n : Z) (s : state) : state :=
  State (major_num s) (logical_block_size s) (nsectors s) (Queue s) n (data_p s) (data s) (gd s).
Definition set_block (b : kblock) (s : state) : state :=
  State (major_num s) (logical_block_size s) (nsectors s) (Queue s) (size s)
    (kb_addr b) (kb_bytes b) (gd s).
Definition set_data (m : bytes) (s : state) : state :=
  State (major_num s) (logical_block_size s) (nsectors s) (Queue s) (size s) (data_p s) m (gd s).
Definition set_gd (p : Z) (s : state) : state :=
  State (major_num s) (logical_block_size s) (nsectors s) (Queue s) (size s) (data_p s) (data s) p.

Definition statics : state := State 0 512 1024 0 0 0 [] 0.

(** [sbd_transfer]: the result is the buffer of the request afterwards.  A
    [memcpy] reads its source and writes its destination within their blocks. *)
Definition sbd_transfer (sector nsect : Z) (buffer : bytes) (write : bool) : prog state bytes :=
  s <- get ;;
  let offset := u64 (sector * logical_block_size s) in
  let nbytes := u64 (nsect * logical_block_size s) in
  if u64 (offset + nbytes) >? size s then
    printk "sbd: Beyond-end write (%ld %ld)\n" [PInt (s64 offset); PInt (s64 nbytes)] ;;
    Ret buffer
  else if write then
    d <- access (load buffer 0 nbytes) ;;
    m <- access (store (data s) offset d) ;;
    modify (set_data m) ;;
    Ret buffer
  else
    d <- access (load (data s) offset nbytes) ;;
    access (store buffer 0 d).

(** One turn of the [while (req != NULL)] loop. *)
Definition request_turn (q : Z) (req : option request)
  : prog state (option request + unit) :=
  match req with
  | None => Ret (inr tt)
  | Some rq =>
      if negb (rq_fs rq) then
        printk "Skip non-CMD request\n" [] ;;
        call (Blk_end_request_all (-5)) ;;
        Ret (inl (Some rq))
      else
        b <- sbd_transfer (rq_pos rq) (rq_cur_sectors rq) (rq_buffer rq) (rq_write rq) ;;
        more <- call (Blk_end_request_cur 0 b) ;;
        match more with
        | None => req' <- call (Blk_fetch_request q) ;; Ret (inl req')
        | Some rq' => Ret (inl (Some rq'))
        end
  end.

Definition sbd_request (fuel : nat) (q : Z) : prog state unit :=
  req <- call (Blk_fetch_request q) ;;
  loop fuel (request_turn q) req.

(** The four fields of [struct hd_geometry]: [cylinders] is an unsigned short,
    [heads] and [sectors] are unsigned chars. *)
Record geometry := Geometry { cylinders : Z; heads : Z; sectors : Z; start : Z }.
Definition sbd_getgeo : prog state geometry :=
  s <- get ;;
  let size := s64 (u64 (size s * Z.quot (logical_block_size s) KERNEL_SECTOR_SIZE)) in
  Ret (Geometry (u16 (Z.shiftr (Z.land size (Z.lnot 0x3f)) 6)) 4 16 0).

Definition sbd_init : prog state Z :=
  modify (fun s => set_size (u64 (s32 (nsectors s * logical_block_size s))) s) ;;
  s <- get ;;
  b <- call (Vmalloc (size s)) ;;
  modify (set_block b) ;;
  if kb_addr b =? 0 then Ret (-12)
  else
    q <- call Blk_init_queue ;;
    modify (set_queue q) ;;
    let out := call (Vfree (kb_addr b)) ;; Ret (-12) in
    if q =? 0 then out
    else
      call (Blk_queue_logical_block_size q (u16 (logical_block_size s))) ;;
      m <- call (Register_blkdev (major_num s) "sbd") ;;
      modify (set_major_num m) ;;
      if m <? 0 then
        printk "sbd: unable to get major number\n" [] ;;
        out
      else
        g <- call (Alloc_disk 16) ;;
        modify (set_gd g) ;;
        if g =? 0 then
          call (Unregister_blkdev m "sbd") ;;
          out
        else
          call (Set_capacity g (u64 (nsectors s))) ;;
          call (Add_disk g m 0 "sbd0" q) ;;
          Ret 0.

Definition sbd_exit : prog state unit :=
  s <- get ;;
  call (Del_gendisk (gd s)) ;;
  call (Put_disk (gd s)) ;;
  call (Unregister_blkdev (major_num s) "sbd") ;;
  call (Blk_cleanup_queue (Queue s)) ;;
  call (Vfree (data_p s)).

(** ** The block layer *)

(** What is queued: requests, each a non-empty list of segments (a [request]
    shows its current segment), and the request being served. *)
Record blkq := BlkQ { bq_cur : list request; bq_todo : list (list request) }.

Definition blkq_step (e : event) (b : blkq) : blkq :=
  match e with
  | Ev c r =>
    match c with
    | Blk_fetch_request _ => BlkQ (default [] (head (bq_todo b))) (tail (bq_todo b))
    | Blk_end_request_cur _ _ => BlkQ (tail (bq_cur b)) (bq_todo b)
    | Blk_end_request_all _ => BlkQ [] (bq_todo b)
    | _ => b
    end
  end.
Fixpoint blkq_after (b : blkq) (h : history) : blkq :=
  match h with
  | [] => b
  | e :: h' => blkq_step e (blkq_after b h')
  end.

(** [blk_fetch_request] starts the next request, [__blk_end_request_cur]
    completes the current segment and moves on to the next of the request. *)
Class BlkQueueSpec (K : kernel) (b0 : blkq) := {
  fetch_next : forall h q,
    K _ h (Blk_fetch_request q) = head (bq_todo (blkq_after b0 h)) ≫= head;
  end_cur_next : forall h e d,
    K _ h (Blk_end_request_cur e d) = head (tail (bq_cur (blkq_after b0 h)));
}.

(** The segments completed, oldest first, with the error and the buffer. *)
Fixpoint completions (h : history) : list (Z * bytes) :=
  match h with
  | [] => []
  | Ev c r :: h' =>
      match c with
      | Blk_end_request_cur e d => completions h' ++ [(e, d)]
      | _ => completions h'
      end
  end.

(** ** The disk the driver implements *)

(** A segment on a disk [m]: a write replaces the bytes of its sectors, a read
    returns them; outside the disk nothing happens. *)
Definition seg_fits (m : bytes) (r : request) : bool :=
  (rq_pos r + rq_cur_sectors r) * 512 <=? zlen m.
Definition disk_step (m : bytes) (r : request) : bytes * bytes :=
  let offset := rq_pos r * 512 in
  let n := rq_cur_sectors r * 512 in
  if seg_fits m r then
    if rq_write r then (default m (store m offset (rq_buffer r)), rq_buffer r)
    else (m, default [] (load m offset n))
  else (m, rq_buffer r).
Fixpoint disk_run (m : bytes) (l : list request) : bytes * list bytes :=
  match l with
  | [] => (m, [])
  | r :: l' =>
      let x := disk_step m r in
      let y := disk_run x.1 l' in
      (y.1, x.2 :: y.2)
  end.

(** The segments the block layer sends: of the file-system type, with a buffer
    of the size of their sectors, at a sector number below 2^54. *)
Definition seg_ok (r : request) : Prop :=
  rq_fs r = true /\ 0 <= rq_pos r < 18014398509481984 /\ 0 <= rq_cur_sectors r < 16384 /\
  zlen (rq_buffer r) = rq_cur_sectors r * 512.

Lemma disk_step_length m r : length (disk_step m r).1 = length m.
Proof.
  unfold disk_step. destruct (seg_fits m r); [|done]. destruct (rq_write r); [|done]. simpl.
  destruct (store _ _ _) eqn:E; simpl; [by apply store_length in E|done].
Qed.

Lemma disk_run_app m l1 l2 :
  disk_run m (l1 ++ l2) =
    let x := disk_run m l1 in let y := disk_run x.1 l2 in (y.1, x.2 ++ y.2).
Proof.
  revert m. induction l1 as [|r l1 IH]; intros m; simpl; [by destruct (disk_run m l2)|].
  by rewrite IH.
Qed.

Section requests.
Context (K : kernel).

(** With 512-byte blocks [sbd_transfer] is a step of the disk. *)
Lemma transfer_disk r s h :
  seg_ok r -> logical_block_size s = 512 -> zlen (data s) = size s ->
  wp K (sbd_transfer (rq_pos r) (rq_cur_sectors r) (rq_buffer r) (rq_write r))
    (fun b s' h' =>
      s' = set_data (disk_step (data s) r).1 s /\ b = (disk_step (data s) r).2 /\
      (h' = h \/ exists l, h' = Ev (Printk "sbd: Beyond-end write (%ld %ld)\n" l) tt :: h))
    s h.
Proof.
  intros (_ & Hp & Hn & Hb) Hs Hl. unfold sbd_transfer, disk_step, seg_fits. wp_go.
  rewrite Hs, <- Hl. rewrite (u64_small (rq_pos r * 512)), (u64_small (rq_cur_sectors r * 512)),
    u64_small, Z.gtb_ltb by lia.
  destruct (Z.leb_spec ((rq_pos r + rq_cur_sectors r) * 512) (zlen (data s)));
    destruct (Z.ltb_spec (zlen (data s)) (rq_pos r * 512 + rq_cur_sectors r * 512)); try lia.
  - destruct (rq_write r).
    + wp_go. eapply wp_access; [apply load_ok; lia|]. wp_go.
      rewrite drop_0, take_ge by lia.
      rewrite store_ok by lia. eapply wp_access; [done|]. wp_go. auto.
    + wp_go. rewrite load_ok by lia. eapply wp_access; [done|].
      set (d := take _ _). assert (zlen d = rq_cur_sectors r * 512) as Hd.
      { unfold d. rewrite length_take, length_drop. lia. }
      eapply wp_access; [apply store_ok; lia|]. split_and!; [by destruct s|simpl|by left].
      rewrite drop_ge by (simpl; lia). by rewrite app_nil_r.
  - wp_go. split_and!; [by destruct s|done|right; eauto].
Qed.

Context (b0 : blkq) `{!BlkQueueSpec K b0}.

(** What is left to serve at a history: the rest of the current request and
    the queue. *)
Definition pending (h : history) : list request :=
  bq_cur (blkq_after b0 h) ++ mjoin (bq_todo (blkq_after b0 h)).

(** The loop: after each turn, [done] segments are served and the request in
    hand is the first one pending. *)
Definition serving (all : list request) (s0 : state) (h0 : history)
    (req : option request) (s : state) (h : history) : Prop :=
  exists dn, all = dn ++ pending h /\ req = head (pending h) /\
    req = head (bq_cur (blkq_after b0 h)) /\
    Forall (fun l => l <> []) (bq_todo (blkq_after b0 h)) /\
    s = set_data (disk_run (data s0) dn).1 s0 /\
    completions h = completions h0 ++ ((fun b => (0, b)) <$> (disk_run (data s0) dn).2).

Lemma serving_fetch all s0 h0 q s h dn :
  bq_cur (blkq_after b0 h) = [] -> all = dn ++ pending h ->
  Forall (fun l => l <> []) (bq_todo (blkq_after b0 h)) ->
  s = set_data (disk_run (data s0) dn).1 s0 ->
  completions h = completions h0 ++ ((fun b => (0, b)) <$> (disk_run (data s0) dn).2) ->
  let r := K _ h (Blk_fetch_request q) in
  serving all s0 h0 r s (Ev (Blk_fetch_request q) r :: h) /\
  pending (Ev (Blk_fetch_request q) r :: h) = pending h.
Proof.
  intros Hc Hall Hne Hs Hcmp r. subst r. rewrite fetch_next. unfold serving, pending in *.
  simpl. rewrite Hc in *. destruct (bq_todo (blkq_after b0 h)) as [|[|x l] todo]; simpl in *.
  - split; [|done]. by exists dn.
  - by inversion Hne.
  - split; [|done]. exists dn. split_and!; try done. by inversion Hne.
Qed.

Lemma request_turn_serving all s0 h0 q req s h :
  Forall seg_ok all -> logical_block_size s0 = 512 -> zlen (data s0) = size s0 ->
  serving all s0 h0 req s h ->
  wp K (request_turn q req) (fun r s' h' =>
    match r with
    | inl req' => serving all s0 h0 req' s' h' /\ (length (pending h') < length (pending h))%nat
    | inr _ => pending h = [] /\ h' = h /\ s' = s
    end) s h.
Proof.
  intros Hok Hb Hl (dn & Hall & Hreq & Hcur & Hne & Hs & Hcmp). unfold request_turn.
  destruct req as [rq|].
  2:{ wp_go. by destruct (pending h). }
  destruct (bq_cur (blkq_after b0 h)) as [|x cur] eqn:Ecur; simplify_eq/=.
  assert (pending h = x :: cur ++ mjoin (bq_todo (blkq_after b0 h))) as Ep.
  { unfold pending. by rewrite Ecur. }
  assert (seg_ok x) as Hx.
  { rewrite Forall_forall in Hok. apply Hok. rewrite Ep. set_solver. }
  rewrite (proj1 Hx). cbn [negb]. apply wp_bind.
  assert (forall dn', zlen (disk_run (data s0) dn').1 = size s0) as Hlen.
  { intros dn'. rewrite <- Hl. f_equal. generalize (data s0).
    induction dn' as [|y dn' IH]; intros m; simpl; [done|]. by rewrite IH, disk_step_length. }
  eapply wp_mono.
  { apply transfer_disk; [done|done|]. simpl. by rewrite Hlen. }
  intros b s1 h1 (-> & -> & Hh1).
  assert (blkq_after b0 h1 = blkq_after b0 h /\ completions h1 = completions h) as [Eq Ec].
  { by destruct Hh1 as [-> | [? ->]]. }
  simpl. wp_go. rewrite end_cur_next, Eq, Ecur in E. simpl in E.
  set (dn' := dn ++ [x]).
  assert (disk_run (data s0) dn' =
    ((disk_step (disk_run (data s0) dn).1 x).1,
     (disk_run (data s0) dn).2 ++ [(disk_step (disk_run (data s0) dn).1 x).2])) as Edn.
  { unfold dn'. rewrite disk_run_app. done. }
  assert (all_eq : dn ++ pending h = dn' ++ cur ++ mjoin (bq_todo (blkq_after b0 h))).
  { rewrite Ep. unfold dn'. by rewrite <- app_assoc. }
  set (h2 := Ev (Blk_end_request_cur 0 _) r :: h1).
  assert (bq_cur (blkq_after b0 h2) = cur /\ bq_todo (blkq_after b0 h2) = bq_todo (blkq_after b0 h))
    as [Ec2 Et2].
  { unfold h2. simpl. by rewrite Eq, Ecur. }
  assert (pending h2 = cur ++ mjoin (bq_todo (blkq_after b0 h))) as Ep2.
  { unfold pending. by rewrite Ec2, Et2. }
  assert (completions h2 = completions h0 ++ ((fun b => (0, b)) <$> (disk_run (data s0) dn').2))
    as Ec3.
  { unfold h2. simpl. rewrite Ec, Hcmp, Edn. cbn [snd]. by rewrite fmap_app, <- app_assoc. }
  rewrite all_eq. destruct cur as [|y cur]; simpl in E; subst r; wp_go.
  - edestruct (serving_fetch (dn' ++ [] ++ mjoin (bq_todo (blkq_after b0 h))) s0 h0 q
      (set_data (disk_run (data s0) dn').1 s0) h2 dn') as [Hsv Hpd];
      [done|by rewrite Ep2|by rewrite Et2|done|exact Ec3|].
    rewrite E. rewrite Hpd, Ep2, Ep. split; [|simpl; lia].
    rewrite Edn in Hsv. exact Hsv.
  - split; [|rewrite Ep2, Ep; simpl; lia].
    exists dn'. rewrite Ep2, Ec2, Et2, Edn. rewrite Edn in Ec3. by split_and!.
Qed.
End requests.

(** Serving a queue, from a state in which no request is in hand. *)
Lemma sbd_request_run (K : kernel) b0 `{!BlkQueueSpec K b0} fuel q all s h :
  blkq_after b0 h = BlkQ [] all -> Forall (fun l => l <> []) all ->
  Forall seg_ok (mjoin all) -> logical_block_size s = 512 -> zlen (data s) = size s ->
  (length (mjoin all) < fuel)%nat ->
  wp K (sbd_request fuel q) (fun _ s' h' =>
    s' = set_data (disk_run (data s) (mjoin all)).1 s /\ pending b0 h' = [] /\
    completions h' =
      completions h ++ ((fun b => (0, b)) <$> (disk_run (data s) (mjoin all)).2)) s h.
Proof.
  intros Hq Hne Hok Hb Hl Hf. unfold sbd_request. apply wp_bind, wp_call_as. intros r E.
  destruct (serving_fetch K b0 (mjoin all) s h q s h []) as [Hsv Hpd]; rewrite ?Hq; try done.
  { unfold pending. by rewrite Hq. } { by destruct s. } { by rewrite app_nil_r. }
  rewrite <- E in *.
  eapply wp_loop with (J := serving b0 (mjoin all) s h)
    (m := fun _ _ h => length (pending b0 h)); [exact Hsv| |].
  { rewrite Hpd. unfold pending. rewrite Hq. exact Hf. }
  intros req s1 h1 Hs1. eapply wp_mono; [by eapply request_turn_serving|].
  intros [req'|[]] s2 h2; [tauto|]. intros (Hp & -> & ->).
  destruct Hs1 as (dn & Hall & _ & _ & _ & -> & Hc). rewrite Hp, app_nil_r in Hall.
  by subst dn.
Qed.

(** ** Properties *)

(** C1: [sbd_request] implements the disk: with 512-byte blocks it serves every
    queued segment, in order and once, within as many turns as there are
    segments; each is completed without an error, with the bytes the disk
    has at its sectors if it is a read, and the disk ends as the writes leave
    it.  A segment beyond the end moves nothing, and is reported complete. *)
Theorem sbd_request_serves (K : kernel) b0 `{!BlkQueueSpec K b0} fuel q all s h :
  blkq_after b0 h = BlkQ [] all -> Forall (fun l => l <> []) all ->
  Forall seg_ok (mjoin all) -> logical_block_size s = 512 -> zlen (data s) = size s ->
  (length (mjoin all) < fuel)%nat ->
  wp K (sbd_request fuel q) (fun _ s' h' =>
    s' = set_data (disk_run (data s) (mjoin all)).1 s /\ pending b0 h' = [] /\
    completions h' =
      completions h ++ ((fun b => (0, b)) <$> (disk_run (data s) (mjoin all)).2)) s h.
Proof. intros. by apply sbd_request_run. Qed.

(** C29: what is written to sectors of the disk is what a later request reads
    from them. *)
Theorem sbd_write_read (K : kernel) b0 `{!BlkQueueSpec K b0} q sector n d buf s h :
  blkq_after b0 h =
    BlkQ [] [[Request true sector n true d]; [Request true sector n false buf]] ->
  0 <= sector -> 0 <= n < 16384 -> (sector + n) * 512 <= size s < 4611686018427387904 ->
  zlen d = n * 512 -> zlen buf = n * 512 ->
  logical_block_size s = 512 -> zlen (data s) = size s ->
  wp K (sbd_request 3 q) (fun _ s' h' =>
    store (data s) (sector * 512) d = Some (data s') /\
    completions h' = completions h ++ [(0, d); (0, d)]) s h.
Proof.
  intros Hq Hp Hn Hfit Hd Hbuf Hb Hl.
  assert (Forall seg_ok [Request true sector n true d; Request true sector n false buf]) as Hok.
  { repeat constructor; simpl; lia. }
  eapply wp_mono; [apply (sbd_request_run K b0 3 q _ s h Hq)|]; simpl; try done.
  { by repeat constructor. } { lia. }
  intros [] s' h' (-> & _ & ->).
  destruct (store (data s) (sector * 512) d) as [m|] eqn:Est; [|rewrite store_ok in Est; (done || lia)].
  apply store_length in Est as Hml.
  assert (disk_step (data s) (Request true sector n true d) = (m, d)) as Hw.
  { unfold disk_step, seg_fits. simpl. destruct (Z.leb_spec ((sector + n) * 512) (zlen (data s))); [|lia].
    by rewrite Est. }
  rewrite Hw. simpl.
  assert (disk_step m (Request true sector n false buf) = (m, d)) as Hr.
  { unfold disk_step, seg_fits. simpl. rewrite Hml.
    destruct (Z.leb_spec ((sector + n) * 512) (zlen (data s))); [|lia].
    apply load_store in Est. rewrite Hd in Est. by rewrite Est. }
  rewrite Hr. done.
Qed.

(** C36: a request that is not of the file-system type is completed with an
    error and then taken for the next one again: the loop never ends, and
    each turn completes the same request once more. *)
Theorem sbd_request_diverges (K : kernel) fuel q rq s h :
  K _ h (Blk_fetch_request q) = Some rq -> rq_fs rq = false ->
  faults K (sbd_request fuel q) OutOfFuel s h /\
  (run K (sbd_request fuel q) s h).2 =
    mjoin (replicate fuel [Ev (Blk_end_request_all (-5)) tt; Ev (Printk "Skip non-CMD request\n" []) tt])
    ++ Ev (Blk_fetch_request q) (Some rq) :: h.
Proof.
  intros Hq Hfs. unfold faults, sbd_request.
  assert (forall h, run K (loop fuel (request_turn q) (Some rq)) s h =
    (Fault OutOfFuel, s,
     mjoin (replicate fuel [Ev (Blk_end_request_all (-5)) tt; Ev (Printk "Skip non-CMD request\n" []) tt])
     ++ h)) as Hloop.
  { induction fuel as [|fuel IH]; intros h1; [done|]. rewrite loop_S.
    assert (exists u v, run K (request_turn q (Some rq)) s h1 =
      (Done (inl (Some rq)), s, Ev (Blk_end_request_all (-5)) u ::
         Ev (Printk "Skip non-CMD request\n" []) v :: h1)) as ([] & [] & Ht).
    { unfold request_turn. rewrite Hfs. simpl. eauto. }
    rewrite run_bind, Ht, IH. f_equal.
    rewrite (replicate_S_end fuel), join_app. cbn [mjoin list_join]. rewrite app_nil_r.
    by rewrite <- app_assoc. }
  rewrite (run_bind_done _ (call (Blk_fetch_request q)) _ s h (Some rq) s
    (Ev (Blk_fetch_request q) (Some rq) :: h)) by (simpl; by rewrite Hq).
  by rewrite Hloop.
Qed.

(** the sum that the bounds check compares wraps: a segment whose offset is
    within its own length of 2^64 passes the check and accesses memory outside
    the disk. *)
Theorem sbd_transfer_wraps (K : kernel) sector n buf write s h :
  logical_block_size s = 512 -> zlen (data s) = size s -> 0 <= size s < 9223372036854775808 ->
  0 < n < 16384 -> zlen buf = n * 512 ->
  18446744073709551616 - n * 512 <= sector * 512 < 18446744073709551616 ->
  (sector + n) * 512 - 18446744073709551616 <= size s ->
  faults K (sbd_transfer sector n buf write) OutOfBounds s h.
Proof.
  intros Hb Hl Hs Hn Hbuf Hw Hpass. unfold sbd_transfer. faults_go. rewrite Hb.
  rewrite (u64_small (sector * 512)), (u64_small (n * 512)) by lia.
  assert (u64 (sector * 512 + n * 512) = (sector + n) * 512 - 18446744073709551616) as ->.
  { unfold wrapu. change (2 ^ 64) with 18446744073709551616. symmetry.
    apply Z.mod_unique with 1; lia. }
  rewrite Z.gtb_ltb. destruct (Z.ltb_spec (size s) ((sector + n) * 512 - 18446744073709551616)); [lia|].
  destruct write.
  - faults_past ltac:(apply load_ok; lia). faults_here. apply store_none;
      rewrite drop_0, take_ge by lia; lia.
  - faults_here. apply load_none; lia.
Qed.

(** sectors are counted in 512 bytes but copied in units of
    [logical_block_size]: with any larger block size a transfer inside the disk
    runs off the buffer of its request. *)
Theorem sbd_block_size_overrun (K : kernel) sector n buf write s h :
  512 < logical_block_size s < 65536 -> 0 <= sector -> 0 < n < 16384 ->
  zlen (data s) = size s -> (sector + n) * logical_block_size s <= size s < 4611686018427387904 ->
  zlen buf = n * 512 ->
  faults K (sbd_transfer sector n buf write) OutOfBounds s h.
Proof.
  intros Hb Hp Hn Hl Hfit Hbuf. unfold sbd_transfer. faults_go.
  set (lbs := logical_block_size s) in *.
  assert (0 <= sector * lbs < 4611686018427387904) by nia.
  assert (n * 512 < n * lbs < 1073741824) by nia.
  rewrite (u64_small (sector * lbs)), (u64_small (n * lbs)), u64_small, Z.gtb_ltb by lia.
  destruct (Z.ltb_spec (size s) (sector * lbs + n * lbs)); [lia|].
  destruct write.
  - faults_here. apply load_none; lia.
  - faults_past ltac:(apply load_ok; lia). faults_here. apply store_none;
      rewrite length_take, length_drop; lia.
Qed.

(** [sbd_getgeo] takes the size in bytes for a number of sectors: the
    geometry describes 512 times the sectors of the disk. *)
Theorem sbd_getgeo_inflated (K : kernel) s h :
  logical_block_size s = 512 -> 0 <= nsectors s < 8192 -> size s = nsectors s * 512 ->
  wp K sbd_getgeo (fun g s' _ =>
    s' = s /\ cylinders g * heads g * sectors g = 512 * nsectors s) s h.
Proof.
  intros Hb Hn Hs. unfold sbd_getgeo. wp_go. split; [done|]. cbn [cylinders heads sectors].
  rewrite Hb, Hs. change (Z.quot 512 KERNEL_SECTOR_SIZE) with 1. rewrite Z.mul_1_r, s64_of_u64 by lia.
  assert (Z.shiftr (Z.land (nsectors s * 512) (Z.lnot 63)) 6 = nsectors s * 8) as ->.
  { rewrite Z.shiftr_land. change (Z.shiftr (Z.lnot 63) 6) with (-1). rewrite Z.land_m1_r.
    rewrite Z.shiftr_div_pow2 by lia. change (2 ^ 6) with 64.
    replace (nsectors s * 512) with (nsectors s * 8 * 64) by lia. apply Z.div_mul. lia. }
  unfold wrapu. rewrite Z.mod_small by (change (2 ^ 16) with 65536; lia). lia.
Qed.

(** [register_blkdev] returns 0 for a major it was given, a positive major it
    chose, or a negative error. *)
Class BlkdevSpec (K : kernel) := {
  register_blkdev_given : forall h m name, m <> 0 -> K _ h (Register_blkdev m name) <= 0;
  register_blkdev_chosen : forall h name, K _ h (Register_blkdev 0 name) <> 0;
}.

(** [insmod] followed by [rmmod], when the first succeeds. *)
Definition load_unload : prog state Z :=
  r <- sbd_init ;; (if r =? 0 then sbd_exit else skip) ;; Ret r.

(** with a dynamic major, loading and unloading give everything back; a
    load that fails after the request queue was created returns -ENOMEM
    and keeps the queue.  (A disk that was added stays referenced until
    [put_disk].) *)
Theorem sbd_load_unload (K : kernel) `{!BlkdevSpec K} L L0 s h :
  held L0 h = Some L -> major_num s = 0 ->
  wp K load_unload (fun r s' h' =>
    (r = 0 /\ held L0 h' = Some L) \/
    (r = -12 /\ (held L0 h' = Some L \/
                 (Queue s' <> 0 /\ held L0 h' = Some (RQueue (Queue s') :: L))))) s h.
Proof.
  intros HL Hm. unfold load_unload, sbd_init. wp_go. wp_if; wp_go.
  { right. split; [done|]. left. ledger. }
  wp_if; wp_go.
  { right. split; [done|]. left. ledger. }
  simpl in *. rewrite Hm in *.
  match goal with E : ?m = K _ _ (Register_blkdev _ _) |- _ =>
    assert (m <> 0) as Hnz by (rewrite E; apply register_blkdev_chosen) end.
  wp_if; wp_go.
  { right. split; [done|]. right. simpl. split; [by apply Z.eqb_neq|]. ledger. }
  wp_if; wp_go.
  { right. split; [done|]. right. simpl. split; [by apply Z.eqb_neq|]. ledger. }
  unfold sbd_exit. wp_go. left. split; [done|]. simpl. ledger.
Qed.

(** with a major given as a parameter, [major_num] is overwritten with the 0
    that [register_blkdev] returns: the disk is added under major 0, and the
    unload unregisters a major that was never registered. *)
Theorem sbd_given_major_lost (K : kernel) `{!BlkdevSpec K} L0 s h :
  held L0 h = Some [] -> 0 < major_num s ->
  wp K load_unload (fun r s' h' =>
    r = 0 -> major_num s' = 0 /\
      (exists g, Ev (Add_disk g 0 0 "sbd0" (Queue s')) tt ∈ h') /\ held L0 h' = None) s h.
Proof.
  intros HL Hm. unfold load_unload, sbd_init. wp_go. wp_if; wp_go; [done|].
  wp_if; wp_go; [done|]. simpl in *.
  match goal with E : ?m = K _ _ (Register_blkdev _ _) |- _ =>
    assert (m <= 0) as Hle by (rewrite E; apply register_blkdev_given; lia) end.
  wp_if; wp_go; [done|]. wp_if; wp_go; [done|]. zbool. assert (r1 = 0) as -> by lia.
  unfold sbd_exit. wp_go. intros _. simpl. split_and!; [done|eexists; in_history|].
  do 2 apply held_none_cons. apply release_absent with (r := RBlkdev 0 "sbd"); [|done].
  unfold absent.
  match goal with |- context [held L0 ?h] =>
    assert (held L0 h =
      Some [RBlkdev (major_num s) "sbd"; RQueue r0; RVmem (kb_addr r)]) as -> end.
  { assert (major_num s <> 0) by lia. ledger. }
  intros [[=]|[[=]|[[=]|[]%elem_of_nil]%elem_of_cons]%elem_of_cons]%elem_of_cons. lia.
Qed.

(** ** Concrete instances *)

(** A disk of 8 sectors. *)
Definition disk (lbs : Z) : state := State 259 lbs 8 1 4096 8192 (replicate 4096 0) 1.

Lemma disk_size lbs : zlen (data (disk lbs)) = size (disk lbs).
Proof. change (data (disk lbs)) with (replicate 4096 (0 : Z)). by rewrite length_replicate. Qed.

(** A kernel that serves the queue [b0]. *)
Definition queue_kernel (b0 : blkq) : kernel := fun _ h c =>
  match c in kcall R return R with
  | Blk_fetch_request _ => head (bq_todo (blkq_after b0 h)) ≫= head
  | Blk_end_request_cur _ _ => head (tail (bq_cur (blkq_after b0 h)))
  | c => quiet c
  end.

#[export] Instance queue_kernel_ok b0 : BlkQueueSpec (queue_kernel b0) b0.
Proof. by split. Qed.

(** A write of sector 1, a read of sectors 1 and 2 in two segments, and a read
    past the end. *)
Definition demo_queue : list (list request) :=
  [[Request true 1 1 true (replicate 512 7)];
   [Request true 1 1 false (replicate 512 0); Request true 2 1 false (replicate 512 0)];
   [Request true 8 1 false (replicate 512 9)]].

Lemma sbd_request_serves_witness :
  wp (queue_kernel (BlkQ [] demo_queue)) (sbd_request 5 1) (fun _ s' h' =>
    s' = set_data (disk_run (data (disk 512)) (mjoin demo_queue)).1 (disk 512) /\
    pending (BlkQ [] demo_queue) h' = [] /\
    completions h' = completions [] ++
      ((fun b => (0, b)) <$> (disk_run (data (disk 512)) (mjoin demo_queue)).2)) (disk 512) [].
Proof.
  apply (sbd_request_serves (queue_kernel (BlkQ [] demo_queue)) (BlkQ [] demo_queue)
    5 1 demo_queue (disk 512) []).
  - reflexivity.
  - by repeat constructor.
  - repeat constructor; simpl; lia.
  - reflexivity.
  - apply disk_size.
  - simpl. lia.
Defined.

Lemma sbd_write_read_witness :
  let b0 := BlkQ [] [[Request true 3 1 true (replicate 512 7)];
                     [Request true 3 1 false (replicate 512 0)]] in
  wp (queue_kernel b0) (sbd_request 3 1) (fun _ s' h' =>
    store (data (disk 512)) (3 * 512) (replicate 512 7) = Some (data s') /\
    completions h' = completions [] ++ [(0, replicate 512 7); (0, replicate 512 7)]) (disk 512) [].
Proof.
  intros b0. apply (sbd_write_read (queue_kernel b0) b0 1 3 1 (replicate 512 7) (replicate 512 0));
    [reflexivity|lia|lia|simpl; lia|reflexivity|reflexivity|reflexivity|apply disk_size].
Defined.

(** A kernel whose queue holds a request of another type. *)
Definition scsi_kernel : kernel := fun _ _ c =>
  match c in kcall R return R with
  | Blk_fetch_request _ => Some (Request false 0 1 false [])
  | c => quiet c
  end.

Lemma sbd_request_diverges_witness :
  faults scsi_kernel (sbd_request 1000 1) OutOfFuel (disk 512) [].
Proof.
  apply (sbd_request_diverges scsi_kernel 1000 1 (Request false 0 1 false []) (disk 512) []);
    reflexivity.
Defined.

Lemma sbd_transfer_wraps_witness :
  faults quiet_kernel (sbd_transfer 36028797018963967 2 (replicate 1024 0) false)
    OutOfBounds (disk 512) [].
Proof.
  apply (sbd_transfer_wraps quiet_kernel);
    [reflexivity|apply disk_size|simpl; lia|lia|reflexivity|lia|simpl; lia].
Defined.

Lemma sbd_block_size_overrun_witness :
  faults quiet_kernel (sbd_transfer 1 1 (replicate 512 0) true) OutOfBounds (disk 1024) [].
Proof.
  apply (sbd_block_size_overrun quiet_kernel);
    [simpl; lia|lia|lia|apply disk_size|simpl; lia|reflexivity].
Defined.

Lemma sbd_getgeo_inflated_witness :
  wp quiet_kernel sbd_getgeo (fun g _ _ => cylinders g * heads g * sectors g = 4096) (disk 512) [].
Proof.
  eapply wp_mono; [apply (sbd_getgeo_inflated quiet_kernel (disk 512) [])|].
  - reflexivity.
  - simpl. lia.
  - reflexivity.
  - intros g s' h' [_ H]. exact H.
Defined.

#[export] Instance quiet_blkdev : BlkdevSpec quiet_kernel.
Proof. split; simpl; [|done]. intros _ m _ Hm. by rewrite (proj2 (Z.eqb_neq _ _) Hm). Qed.

Lemma sbd_load_unload_witness :
  wp quiet_kernel load_unload (fun r s' h' =>
    (r = 0 /\ held [] h' = Some []) \/
    (r = -12 /\ (held [] h' = Some [] \/
                 (Queue s' <> 0 /\ held [] h' = Some [RQueue (Queue s')])))) statics [].
Proof. apply (sbd_load_unload quiet_kernel [] []); reflexivity. Defined.

Lemma sbd_given_major_lost_witness :
  wp quiet_kernel load_unload (fun r s' h' =>
    r = 0 -> major_num s' = 0 /\
      (exists g, Ev (Add_disk g 0 0 "sbd0" (Queue s')) tt ∈ h') /\ held [] h' = None)
    (set_major_num 8 statics) [].
Proof. apply (sbd_given_major_lost quiet_kernel []); [reflexivity|simpl; lia]. Defined.
