(* ===== verification/ProcFs.v ===== *)
(** * The /proc and /sys files

    filesystem/my_proc.c, my_new_proc.c, sig_proc.c, my_sysfs.c and
    debug/task_proc.c: files that show a number and take a new one.  Each
    module is a Module here; the steps their handlers share are the
    definitions of the first section.  [IntNode] is what such a file promises
    and its theorems are proved once, against the interface. *)

From S2P Require Import Prelude Kernel Prog CString FileDev.

Definition SIGUSR1 : Z := 10.

(** ** The common steps *)

Section handlers.
Context {σ : Type}.

(** [if ( *offset > strlen(data)) return 0; *offset = strlen(data) + 1;
    return strlen(data) - copy_to_user(buf, data, strlen(data));] with [data]
    a local array of [size] bytes that holds [text], or that no [sprintf]
    initialised.  The result and the new [*offset]. *)
Definition proc_reply (size : nat) (text : option bytes) (offset : Z) : prog σ (Z * Z) :=
  match text with
  | None => Fail UninitRead
  | Some text =>
      m <- access (sprintf (replicate size 0) 0 text) ;;
      data <- access (cstr m) ;;
      let strlen := zlen data in
      if u64 offset >? strlen then Ret (0, offset)
      else
        k <- call (Copy_to_user data) ;;
        Ret (s64 (u64 (strlen - k)), s64 (strlen + 1))
  end.

(** [copy_from_user(str, buffer, count)] into the block just allocated, and
    the number of bytes that were not copied. *)
Definition copy_in (str : kblock) (count : Z) : prog σ (bytes * Z) :=
  x <- call (Copy_from_user count) ;;
  m <- access (store (kb_bytes str) 0 x.1) ;;
  Ret (m, x.2).

(** [sscanf(m, "%d", &v)]: [set] stores the number when there is one. *)
Definition scan_int (m : bytes) (set : Z -> σ -> σ) : prog σ unit :=
  v <- access (sscanf_d m) ;;
  match v with Some v => modify (set v) | None => skip end.
End handlers.

(** "%d\n" *)
Definition line_d (z : Z) : bytes := fmt_d z ++ [10].

(** ** filesystem/my_proc.c *)
Module MyProc.
Definition NODE : string := "myproc".
Record state := State { param : Z; my_proc : Z }.
Definition set_param (v : Z) (s : state) : state := State v (my_proc s).
Definition set_proc (p : Z) (s : state) : state := State (param s) p.
Definition statics : state := State 100 0.

Definition my_proc_read (len offset : Z) : prog state (Z * Z) :=
  s <- get ;;
  proc_reply 20 (Some (line_d (param s))) offset.

Definition my_proc_write (count : Z) : prog state Z :=
  str <- call (Kmalloc count) ;;
  x <- copy_in str count ;;
  if negb (x.2 =? 0) then
    call (Kfree (kb_addr str)) ;; Ret (-14)
  else
    scan_int x.1 set_param ;;
    s <- get ;;
    printk "param has been set to %d\n" [PInt (param s)] ;;
    call (Kfree (kb_addr str)) ;;
    Ret (s64 count).

Definition my_init : prog state Z :=
  p <- call (Proc_create NODE 0 0) ;;
  modify (set_proc p) ;;
  if p =? 0 then
    printk "I failed to make %s\n" [PName NODE] ;; Ret (-1)
  else
    printk "I created %s\n" [PName NODE] ;; Ret 0.

Definition my_exit : prog state unit :=
  s <- get ;;
  if my_proc s =? 0 then skip
  else
    call (Remove_proc_entry NODE 0) ;;
    printk "Removed %s\n" [PName NODE].
End MyProc.

(** ** filesystem/my_new_proc.c *)
Module MyNewProc.
Definition NODE_DIR : string := "my_proc_dir".
Definition NODE_1 : string := "param1".
Definition NODE_2 : string := "param2".
Record state := State {
  param_1 : Z; param_2 : Z; my_proc_dir : Z; my_proc_1 : Z; my_proc_2 : Z }.
Definition set_param_1 (v : Z) (s : state) : state :=
  State v (param_2 s) (my_proc_dir s) (my_proc_1 s) (my_proc_2 s).
Definition set_param_2 (v : Z) (s : state) : state :=
  State (param_1 s) v (my_proc_dir s) (my_proc_1 s) (my_proc_2 s).
Definition set_entries (d p1 p2 : Z) (s : state) : state :=
  State (param_1 s) (param_2 s) d p1 p2.
Definition statics : state := State 100 200 0 0 0.

(** [pde] is [PDE_DATA(file_inode(file))], the datum of the node. *)
Definition my_proc_read (pde len offset : Z) : prog state (Z * Z) :=
  s <- get ;;
  let mydata := None in
  let mydata := if pde =? 1 then Some (line_d (param_1 s)) else mydata in
  let mydata := if pde =? 2 then Some (line_d (param_2 s)) else mydata in
  proc_reply 20 mydata offset.

Definition my_proc_write (pde count : Z) : prog state Z :=
  str <- call (Kmalloc count) ;;
  x <- copy_in str count ;;
  if negb (x.2 =? 0) then
    call (Kfree (kb_addr str)) ;; Ret (-14)
  else if pde =? 1 then
    scan_int x.1 set_param_1 ;;
    s <- get ;;
    printk "param_1 has been set to %d\n" [PInt (param_1 s)] ;;
    call (Kfree (kb_addr str)) ;;
    Ret (s64 count)
  else if pde =? 2 then
    scan_int x.1 set_param_2 ;;
    s <- get ;;
    printk "PARAM2 is set to %d\n" [PInt (param_2 s)] ;;
    call (Kfree (kb_addr str)) ;;
    Ret (s64 count)
  else
    call (Kfree (kb_addr str)) ;; Ret (-22).

Definition my_init : prog state Z :=
  d <- call (Proc_mkdir NODE_DIR) ;;
  p1 <- call (Proc_create NODE_1 d 1) ;;
  p2 <- call (Proc_create NODE_2 d 2) ;;
  modify (set_entries d p1 p2) ;;
  Ret 0.

Definition my_exit : prog state unit :=
  s <- get ;;
  call (Remove_proc_entry NODE_1 (my_proc_dir s)) ;;
  call (Remove_proc_entry NODE_2 (my_proc_dir s)) ;;
  call (Remove_proc_entry NODE_DIR 0).
End MyNewProc.

(** ** filesystem/sig_proc.c *)
Module SigProc.
Definition NODE_DIR : string := "my_sig_dir".
Definition NODE_1 : string := "pid".
Definition NODE_2 : string := "signal".
(** The node data are the addresses of the variables [proc_pid] and
    [proc_signal], which are different. *)
Inductive node := proc_pid | proc_signal | other.
Definition pde_addr (n : node) : Z :=
  match n with proc_pid => 1 | proc_signal => 2 | other => 3 end.
Record state := State {
  proc_sigdir : Z; proc_entries : Z * Z; sig_pid : Z; sig_tosend : Z; sig_tsk : Z }.
Definition set_pid (v : Z) (s : state) : state :=
  State (proc_sigdir s) (proc_entries s) v (sig_tosend s) (sig_tsk s).
Definition set_tosend (v : Z) (s : state) : state :=
  State (proc_sigdir s) (proc_entries s) (sig_pid s) v (sig_tsk s).
Definition set_tsk (t : Z) (s : state) : state :=
  State (proc_sigdir s) (proc_entries s) (sig_pid s) (sig_tosend s) t.
Definition set_entries (d p1 p2 : Z) (s : state) : state :=
  State d (p1, p2) (sig_pid s) (sig_tosend s) (sig_tsk s).
Definition statics : state := State 0 (0, 0) (-1) SIGUSR1 0.

Definition my_proc_read (pde : node) (len offset : Z) : prog state (Z * Z) :=
  s <- get ;;
  proc_reply 1024
    (match pde with
     | proc_pid => Some (line_d (sig_pid s))
     | proc_signal => Some (line_d (sig_tosend s))
     | other => None
     end) offset.

Definition my_proc_write (pde : node) (count : Z) : prog state Z :=
  str <- call (Kmalloc count) ;;
  x <- copy_in str count ;;
  if negb (x.2 =? 0) then
    call (Kfree (kb_addr str)) ;; Ret (-14)
  else
    match pde with
    | proc_pid =>
        scan_int x.1 set_pid ;;
        s <- get ;;
        printk "sig_pid has been set to %d\n" [PInt (sig_pid s)] ;;
        t <- call (Find_task (sig_pid s)) ;;
        modify (set_tsk t) ;;
        call (Kfree (kb_addr str)) ;;
        Ret (s64 count)
    | proc_signal =>
        scan_int x.1 set_tosend ;;
        s <- get ;;
        printk "sig_tosend has been set to %d\n" [PInt (sig_tosend s)] ;;
        (if sig_tsk s =? 0 then
           t <- call Current_task ;;
           p <- call Current_pid ;;
           modify (set_tsk t) ;;
           modify (set_pid p)
         else skip) ;;
        s <- get ;;
        printk "Send signal %d to process %d\n" [PInt (sig_tosend s); PInt (sig_pid s)] ;;
        call (Send_sig (sig_tosend s) (sig_tsk s)) ;;
        call (Kfree (kb_addr str)) ;;
        Ret (s64 count)
    | other => call (Kfree (kb_addr str)) ;; Ret (-22)
    end.

Definition my_init : prog state Z :=
  d <- call (Proc_mkdir NODE_DIR) ;;
  p1 <- call (Proc_create NODE_1 d (pde_addr proc_pid)) ;;
  p2 <- call (Proc_create NODE_2 d (pde_addr proc_signal)) ;;
  modify (set_entries d p1 p2) ;;
  Ret 0.

Definition my_exit : prog state unit :=
  s <- get ;;
  call (Remove_proc_entry NODE_1 (proc_sigdir s)) ;;
  call (Remove_proc_entry NODE_2 (proc_sigdir s)) ;;
  call (Remove_proc_entry NODE_DIR 0).
End SigProc.

(** ** debug/task_proc.c *)
Module TaskProc.
Definition NODE_DIR : string := "my_task_dir".
Definition NODE_1 : string := "pid".
Definition NODE_2 : string := "nr_hashed".
Inductive node := proc_pid | proc_nr_hashed | other.
Definition pde_addr (n : node) : Z :=
  match n with proc_pid => 1 | proc_nr_hashed => 2 | other => 3 end.
Record state := State { proc_taskdir : Z; proc_entries : Z * Z; pid_no : Z; p_task : Z }.
Definition set_pid (v : Z) (s : state) : state :=
  State (proc_taskdir s) (proc_entries s) v (p_task s).
Definition set_task (t : Z) (s : state) : state :=
  State (proc_taskdir s) (proc_entries s) (pid_no s) t.
Definition set_entries (d p1 p2 : Z) (s : state) : state :=
  State d (p1, p2) (pid_no s) (p_task s).
Definition statics : state := State 0 (0, 0) (-1) 0.

(** The lookup at the start of both handlers: the task (0 when [pid_no] is
    -1) and [nr_hashed].  [task_active_pid_ns] dereferences the task, NULL
    when the process does not exist. *)
Definition look_up : prog state (Z * Z) :=
  s <- get ;;
  if pid_no s =? -1 then Ret (0, 0)
  else
    t <- call (Find_task (pid_no s)) ;;
    modify (set_task t) ;;
    if t =? 0 then Fail OutOfBounds
    else n <- call (Pid_allocated t) ;; Ret (t, u32 n).

Definition my_proc_read (pde : node) (len offset : Z) : prog state (Z * Z) :=
  x <- look_up ;;
  s <- get ;;
  proc_reply 1024
    (match pde with
     | proc_pid => Some (line_d (pid_no s))
     | proc_nr_hashed => Some (fmt_u x.2 ++ [10])
     | other => None
     end) offset.

(** [pid_ns] is the namespace of the task found before the write: NULL when
    none was asked for. *)
Definition my_proc_write (pde : node) (count : Z) : prog state Z :=
  str <- call (Kmalloc count) ;;
  l <- look_up ;;
  x <- copy_in str count ;;
  if negb (x.2 =? 0) then
    call (Kfree (kb_addr str)) ;; Ret (-14)
  else
    match pde with
    | proc_pid =>
        scan_int x.1 set_pid ;;
        s <- get ;;
        printk "proc_pid has been set to %d\n" [PInt (pid_no s)] ;;
        call (Kfree (kb_addr str)) ;;
        Ret (s64 count)
    | proc_nr_hashed =>
        v <- access (sscanf_d x.1) ;;
        let nr_hashed := match v with Some v => u32 v | None => l.2 end in
        printk "nr_hashed has been set to %d\n" [PInt (s32 nr_hashed)] ;;
        (if l.1 =? 0 then skip
         else
           n <- call (Pid_allocated l.1) ;;
           call (Set_pid_allocated l.1 (u32 (n + nr_hashed)))) ;;
        call (Kfree (kb_addr str)) ;;
        Ret (s64 count)
    | other => call (Kfree (kb_addr str)) ;; Ret (-22)
    end.

Definition my_init : prog state Z :=
  d <- call (Proc_mkdir NODE_DIR) ;;
  p1 <- call (Proc_create NODE_1 d (pde_addr proc_pid)) ;;
  p2 <- call (Proc_create NODE_2 d (pde_addr proc_nr_hashed)) ;;
  modify (set_entries d p1 p2) ;;
  Ret 0.

Definition my_exit : prog state unit :=
  s <- get ;;
  call (Remove_proc_entry NODE_1 (proc_taskdir s)) ;;
  call (Remove_proc_entry NODE_2 (proc_taskdir s)) ;;
  call (Remove_proc_entry NODE_DIR 0).
End TaskProc.

(** ** filesystem/my_sysfs.c *)
Module MySysfs.
Record state := State { example_kobject : Z; foo : Z }.
Definition set_kobject (p : Z) (s : state) : state := State p (foo s).
Definition set_foo (v : Z) (s : state) : state := State (example_kobject s) v.
Definition statics : state := State 0 0.

(** [sprintf(buf, "%d\n", foo)]: the page afterwards and the length. *)
Definition foo_show (buf : bytes) : prog state (bytes * Z) :=
  s <- get ;;
  m <- access (sprintf buf 0 (line_d (foo s))) ;;
  Ret (m, zlen (line_d (foo s))).

(** The trailing [u] of ["%du"] is matched after the conversion and has no
    effect on it. *)
Definition foo_store (buf : bytes) (count : Z) : prog state Z :=
  scan_int buf set_foo ;;
  Ret (s64 count).

Definition my_init : prog state Z :=
  p <- call (Kobject_create_and_add "example_sysfs") ;;
  modify (set_kobject p) ;;
  if p =? 0 then Ret (-12)
  else call (Sysfs_create_file p "foo").

Definition my_exit : prog state unit :=
  s <- get ;;
  call (Kobject_put (example_kobject s)).
End MySysfs.

(** ** The interface of a file that holds a number *)

Class IntNode (σ : Type) := {
  node_read : Z -> Z -> prog σ (Z * Z);   (* length and offset; result and offset *)
  node_write : Z -> prog σ Z;
  node_val : σ -> Z;
  node_safe : kernel -> Z -> Prop;        (* the handlers may run with this number *)
}.

(** A write of a text that starts with a number and goes on with something
    else stores the number; a read that starts within the text delivers all
    of it, whatever the length asked for, and the next one nothing. *)
Class IntNodeOK {σ} (N : IntNode σ) (K : kernel) := {
  node_write_ok : forall z c tail s h,
    let text := fmt_d z ++ c :: tail in
    -2147483648 <= z < 2147483648 -> isdigit c = false -> zlen text < 2147483648 ->
    (forall h', kb_addr (K _ h' (Kmalloc (zlen text))) <> 0) ->
    (forall h', K _ h' (Copy_from_user (zlen text)) = (text, 0)) ->
    node_safe K (node_val s) ->
    wp K (node_write (zlen text)) (fun r s' h' =>
      r = zlen text /\ node_val s' = z /\
      io_trace h' = FromUser text 0 :: io_trace h) s h;
  node_read_ok : forall len offset s h,
    -2147483648 <= node_val s < 2147483648 -> 0 <= offset < 9223372036854775808 ->
    node_safe K (node_val s) ->
    let line := line_d (node_val s) in
    wp K (node_read len offset) (fun x s' h' =>
      node_val s' = node_val s /\
      if offset <=? zlen line then
        exists k, 0 <= k <= zlen line /\ x = (zlen line - k, zlen line + 1) /\
          io_trace h' = ToUser line k :: io_trace h
      else x = (0, offset) /\ io_trace h' = io_trace h) s h;
}.

(** ** The common steps *)

Lemma line_d_length z : -2147483648 <= z < 2147483648 -> (2 <= length (line_d z) <= 12)%nat.
Proof. intros Hz. unfold line_d. rewrite length_app. simpl. pose proof (fmt_d_length z Hz). lia. Qed.

Lemma line_d_nonzero z : Forall (fun b => b <> 0) (line_d z).
Proof. apply Forall_app. split; [auto with text|by repeat constructor]. Qed.

(** A text printed at the start of a large enough block is the string there. *)
Lemma sprintf_cstr m text :
  Forall (fun b => b <> 0) text -> zlen text < zlen m ->
  exists m', sprintf m 0 text = Some m' /\ cstr m' = Some text.
Proof.
  intros Ht Hl. unfold sprintf. rewrite store_ok by (rewrite ?length_app; simpl; lia).
  eexists. split; [done|]. simpl. rewrite <- app_assoc. by apply cstr_app.
Qed.

Section steps.
Context {σ : Type} (K : kernel).
Implicit Types (s : σ).

Lemma wp_proc_reply `{!UaccessSpec K} size text offset s h :
  Forall (fun b => b <> 0) text -> zlen text < Z.of_nat size < 2147483648 ->
  0 <= offset < 9223372036854775808 ->
  wp K (proc_reply size (Some text) offset) (fun x s' h' =>
    s' = s /\
    if offset <=? zlen text then
      exists k, 0 <= k <= zlen text /\ x = (zlen text - k, zlen text + 1) /\
        io_trace h' = ToUser text k :: io_trace h
    else x = (0, offset) /\ io_trace h' = io_trace h) s h.
Proof.
  intros Ht Hl Ho. unfold proc_reply.
  destruct (sprintf_cstr (replicate size 0) text Ht) as (m & Hm & Hc).
  { rewrite length_replicate. lia. }
  apply wp_bind. eapply wp_access; [exact Hm|]. apply wp_bind. eapply wp_access; [exact Hc|].
  rewrite u64_small, Z.gtb_ltb by lia.
  destruct (Z.ltb_spec (zlen text) offset), (Z.leb_spec offset (zlen text)); try lia; wp_go; auto.
  pose proof (copy_to_user_bound h text) as Hk. rewrite <- E in Hk.
  split; [done|]. exists r. split_and!; try lia; try done. by cint.
Qed.

Lemma wp_copy_in `{!KmallocSpec K} text s h (Q : bytes * Z -> σ -> history -> Prop) h0 :
  (forall h', kb_addr (K _ h' (Kmalloc (zlen text))) <> 0) ->
  (forall h', K _ h' (Copy_from_user (zlen text)) = (text, 0)) ->
  (forall rest, Q (text ++ rest, 0) s (Ev (Copy_from_user (zlen text)) (text, 0) :: h)) ->
  wp K (copy_in (K _ h0 (Kmalloc (zlen text))) (zlen text)) Q s h.
Proof.
  intros Ha Hc HQ. unfold copy_in. wp_go. rewrite Hc in E. subst r. simpl.
  pose proof (kmalloc_size h0 (zlen text) ltac:(lia) (Ha h0)) as Hk.
  eapply wp_access; [apply store_ok; lia|]. wp_go. apply HQ.
Qed.

Lemma wp_scan_int z c tail rest set (Q : unit -> σ -> history -> Prop) s h :
  -2147483648 <= z < 2147483648 -> isdigit c = false -> Q tt (set z s) h ->
  wp K (scan_int ((fmt_d z ++ c :: tail) ++ rest) set) Q s h.
Proof.
  intros Hz Hc HQ. unfold scan_int. rewrite <- app_assoc. simpl.
  apply wp_bind. eapply wp_access; [by apply sscanf_fmt_d|]. by apply wp_modify.
Qed.
End steps.

(** Runs a write handler up to the end: [alloc], [copy], [scan]. *)
Ltac write_node handler :=
  intros z c tail s h text Hz Hc Hlen Halloc Hcopy _; simpl; handler;
  apply wp_bind, wp_call; apply wp_bind;
  lazymatch goal with |- wp ?K _ _ _ _ => apply (wp_copy_in K) end; [exact Halloc|exact Hcopy|intros rest; cbn [fst snd negb Z.eqb]];
  apply wp_bind, wp_scan_int; [exact Hz|exact Hc|].
Ltac read_node handler :=
  intros len offset s h Hz Ho _ line; simpl in *; handler; wp_go;
  eapply wp_mono; [lazymatch goal with |- wp ?K _ _ _ _ => apply (wp_proc_reply K) end; [apply line_d_nonzero| |exact Ho];
                   pose proof (line_d_length _ Hz); simpl in *; lia|];
  intros x s' h' [-> Hx]; split; [done|exact Hx].

Section nodes.
Context (K : kernel) `{!UaccessSpec K, !KmallocSpec K}.

Definition myproc_node : IntNode MyProc.state := {|
  node_read := MyProc.my_proc_read; node_write := MyProc.my_proc_write;
  node_val := MyProc.param; node_safe := fun _ _ => True |}.
#[export] Instance myproc_ok : IntNodeOK myproc_node K.
Proof.
  split; [write_node ltac:(unfold MyProc.my_proc_write)|read_node ltac:(unfold MyProc.my_proc_read)].
  wp_go. split_and!; [cint; done|done|done].
Qed.

Definition param1_node : IntNode MyNewProc.state := {|
  node_read := MyNewProc.my_proc_read 1; node_write := MyNewProc.my_proc_write 1;
  node_val := MyNewProc.param_1; node_safe := fun _ _ => True |}.
#[export] Instance param1_ok : IntNodeOK param1_node K.
Proof.
  split; [write_node ltac:(unfold MyNewProc.my_proc_write)|read_node ltac:(unfold MyNewProc.my_proc_read)].
  wp_go. split_and!; [cint; done|done|done].
Qed.

Definition param2_node : IntNode MyNewProc.state := {|
  node_read := MyNewProc.my_proc_read 2; node_write := MyNewProc.my_proc_write 2;
  node_val := MyNewProc.param_2; node_safe := fun _ _ => True |}.
#[export] Instance param2_ok : IntNodeOK param2_node K.
Proof.
  split; [write_node ltac:(unfold MyNewProc.my_proc_write)|read_node ltac:(unfold MyNewProc.my_proc_read)].
  wp_go. split_and!; [cint; done|done|done].
Qed.

Definition sig_pid_node : IntNode SigProc.state := {|
  node_read := SigProc.my_proc_read SigProc.proc_pid;
  node_write := SigProc.my_proc_write SigProc.proc_pid; node_val := SigProc.sig_pid; node_safe := fun _ _ => True |}.
#[export] Instance sig_pid_ok : IntNodeOK sig_pid_node K.
Proof.
  split; [write_node ltac:(unfold SigProc.my_proc_write)|read_node ltac:(unfold SigProc.my_proc_read)].
  wp_go. split_and!; [cint; done|done|done].
Qed.

Definition sig_signal_node : IntNode SigProc.state := {|
  node_read := SigProc.my_proc_read SigProc.proc_signal;
  node_write := SigProc.my_proc_write SigProc.proc_signal; node_val := SigProc.sig_tosend; node_safe := fun _ _ => True |}.
#[export] Instance sig_signal_ok : IntNodeOK sig_signal_node K.
Proof.
  split; [write_node ltac:(unfold SigProc.my_proc_write)|read_node ltac:(unfold SigProc.my_proc_read)].
  wp_go. wp_if; wp_go; (split_and!; [cint; done|done|done]).
Qed.

(** The handlers of task_proc.c look the process up first; there is none to look
    up when the number is -1. *)
Definition found (K : kernel) (p : Z) : Prop := p = -1 \/ forall h, K _ h (Find_task p) <> 0.
Definition task_pid_node : IntNode TaskProc.state := {|
  node_read := TaskProc.my_proc_read TaskProc.proc_pid;
  node_write := TaskProc.my_proc_write TaskProc.proc_pid; node_val := TaskProc.pid_no;
  node_safe := found |}.
Lemma wp_look_up s h (Q : Z * Z -> TaskProc.state -> history -> Prop) :
  found K (TaskProc.pid_no s) ->
  (forall x t h', io_trace h' = io_trace h -> Q x (TaskProc.set_task t s) h') ->
  wp K TaskProc.look_up Q s h.
Proof.
  intros Hs HQ. unfold TaskProc.look_up. wp_go. wp_if; wp_go; zbool.
  - replace s with (TaskProc.set_task (TaskProc.p_task s) s) by (by destruct s). by apply HQ.
  - destruct Hs as [?|Hs]; [done|].
    wp_if; [zbool; by specialize (Hs h); subst|]. wp_go. by apply HQ.
Qed.
#[export] Instance task_pid_ok : IntNodeOK task_pid_node K.
Proof.
  split.
  - intros z c tail s h text Hz Hc Hlen Halloc Hcopy Hs. simpl. unfold TaskProc.my_proc_write.
    apply wp_bind, wp_call; apply wp_bind, wp_look_up; [exact Hs|]. intros l t h1 Hh1.
    apply wp_bind, (wp_copy_in K); [exact Halloc|exact Hcopy|intros rest; cbn [fst snd negb Z.eqb]].
    apply wp_bind, wp_scan_int; [exact Hz|exact Hc|].
    wp_go. split_and!; [cint; done|done|]. simpl in *. by rewrite Hh1.
  - intros len offset s h Hz Ho Hs line. simpl in *. unfold TaskProc.my_proc_read.
    apply wp_bind, wp_look_up; [exact Hs|]. intros l t h1 Hh1. wp_go.
    eapply wp_mono; [lazymatch goal with |- wp ?K _ _ _ _ => apply (wp_proc_reply K) end; [apply line_d_nonzero| |exact Ho];
                     pose proof (line_d_length _ Hz); simpl in *; lia|].
    intros x s' h' [-> Hx]. rewrite Hh1 in Hx. split; [done|exact Hx].
Qed.

(** Without a process the lookup dereferences NULL. *)
Lemma look_up_faults s h :
  TaskProc.pid_no s <> -1 -> K _ h (Find_task (TaskProc.pid_no s)) = 0 ->
  faults K TaskProc.look_up OutOfBounds s h.
Proof.
  intros Hp Ht. unfold TaskProc.look_up. faults_go. rewrite (proj2 (Z.eqb_neq _ _) Hp).
  faults_go. rewrite Ht in E. by subst r.
Qed.
End nodes.

(** A process writes [text], then another reads the file twice, as [cat] does. *)
Definition put_get {σ} (N : IntNode σ) (count len1 len2 : Z) : prog σ (Z * Z * Z) :=
  w <- node_write count ;;
  x <- node_read len1 0 ;;
  y <- node_read len2 x.2 ;;
  Ret (w, x.1, y.1).

(** A text that starts with a number, and the user and the memory for it. *)
Definition number_text (K : kernel) (z : Z) (text : bytes) : Prop :=
  -2147483648 <= z < 2147483648 /\ zlen text < 2147483648 /\
  (exists c tail, text = fmt_d z ++ c :: tail /\ isdigit c = false) /\
  (forall h', kb_addr (K _ h' (Kmalloc (zlen text))) <> 0) /\
  (forall h', K _ h' (Copy_from_user (zlen text)) = (text, 0)).

(** The file keeps the number written to it. *)
Definition keeps_number {σ} (K : kernel) (N : IntNode σ) : Prop :=
  forall z text len1 len2 s h,
    number_text K z text -> node_safe K (node_val s) -> node_safe K z ->
    wp K (put_get N (zlen text) len1 len2) (fun x _ h' =>
      x = (zlen text, zlen (line_d z), 0) /\
      io_trace h' = ToUser (line_d z) 0 :: FromUser text 0 :: io_trace h) s h.

Lemma node_keeps_number {σ} (N : IntNode σ) K `{!IntNodeOK N K, !UserMapped K} :
  keeps_number K N.
Proof.
  intros z text len1 len2 s h (Hz & Hl & (c & tail & -> & Hc) & Ha & Hcopy) Hs Hsz.
  set (text := fmt_d z ++ c :: tail) in *.
  destruct (run K (put_get N (zlen text) len1 len2) s h) as [[o s3] h3] eqn:Hrun.
  destruct (run_mapped K _ _ _ _ _ _ Hrun) as (new & Hnew & Hk).
  enough (wp K (put_get N (zlen text) len1 len2) (fun x _ h' => exists k,
      x = (zlen text, zlen (line_d z) - k, 0) /\
      io_trace h' = ToUser (line_d z) k :: FromUser text 0 :: io_trace h) s h) as Hwp.
  { unfold wp in *. rewrite Hrun in *. destruct o as [x|]; [|done].
    destruct Hwp as (k & -> & Hio). subst h3. unfold io_trace in *. rewrite omap_app in Hio.
    assert (k = 0) as ->.
    { apply (app_inv_tail (omap io_of_event h) _ [_; _]) in Hio. rewrite Hio in Hk.
      by apply Forall_cons in Hk as [Hk _]. }
    rewrite omap_app, Hio, Z.sub_0_r. done. }
  clear Hrun Hnew Hk. unfold put_get. apply wp_bind.
  eapply wp_mono; [by apply node_write_ok|]. intros w s1 h1 (-> & Hv & Hio1).
  apply wp_bind. eapply wp_mono; [apply node_read_ok; rewrite ?Hv; (done || lia)|].
  intros x s2 h2. rewrite Hv. destruct (Z.leb_spec 0 (zlen (line_d z))); [|lia].
  intros (Hv2 & k & Hk & -> & Hio2). cbn [fst snd].
  pose proof (line_d_length z Hz). apply wp_bind.
  eapply wp_mono; [apply node_read_ok; rewrite ?Hv2; (done || lia)|].
  intros y s4 h4. rewrite Hv2. destruct (Z.leb_spec (zlen (line_d z) + 1) (zlen (line_d z))); [lia|].
  intros (Hv3 & -> & Hio3). wp_go. exists k. split; [done|]. by rewrite Hio3, Hio2, Hio1.
Qed.

(** ** Properties *)


(** C40: the text of a write is never terminated: when a process writes a number
    and nothing after it, and the allocated block is no longer than the text,
    [sscanf] reads past the block (for the two modules with one handler for
    each node, whichever node it is). *)
Theorem proc_write_unterminated (K : kernel) z s s' pde h :
  -2147483648 <= z < 2147483648 ->
  (forall h', K _ h' (Copy_from_user (zlen (fmt_d z))) = (fmt_d z, 0)) ->
  (forall h', zlen (kb_bytes (K _ h' (Kmalloc (zlen (fmt_d z))))) = zlen (fmt_d z)) ->
  pde = 1 \/ pde = 2 ->
  faults K (MyProc.my_proc_write (zlen (fmt_d z))) OutOfBounds s h /\
  faults K (MyNewProc.my_proc_write pde (zlen (fmt_d z))) OutOfBounds s' h.
Proof.
  intros Hz Hc Hb Hpde.
  assert (forall σ (s : σ) h b, zlen (kb_bytes b) = zlen (fmt_d z) ->
    wp K (copy_in b (zlen (fmt_d z))) (fun x s' _ => s' = s /\ x = (fmt_d z, 0)) s h) as Hcopy.
  { intros σ s0 h0 b Hl. unfold copy_in. wp_go. rewrite Hc in E. subst r.
    eapply wp_access; [apply store_ok; simpl; lia|]. wp_go. simpl.
    rewrite drop_ge by lia. by rewrite app_nil_r. }
  assert (forall σ set (s : σ) h, faults K (scan_int (fmt_d z) set) OutOfBounds s h) as Hscan.
  { intros. unfold scan_int. rewrite sscanf_unterminated. faults_here. done. }
  split.
  - unfold MyProc.my_proc_write. faults_go.
    eapply wp_mono; [apply Hcopy; rewrite E; apply Hb|]. intros x s1 h1 [-> ->].
    cbn [fst snd negb Z.eqb]. apply faults_bind, Hscan.
  - unfold MyNewProc.my_proc_write. faults_go.
    eapply wp_mono; [apply Hcopy; rewrite E; apply Hb|]. intros x s1 h1 [-> ->].
    cbn [fst snd negb Z.eqb]. destruct Hpde as [-> | ->]; simpl; apply faults_bind, Hscan.
Qed.

(** once the pid in task_proc.c is that of no process, every read and every
    write of every file dereferences NULL, so that no write can repair it
    (the lookup comes first). *)
Theorem task_proc_no_process (K : kernel) pde len offset count s h :
  TaskProc.pid_no s <> -1 -> (forall h', K _ h' (Find_task (TaskProc.pid_no s)) = 0) ->
  faults K (TaskProc.my_proc_read pde len offset) OutOfBounds s h /\
  faults K (TaskProc.my_proc_write pde count) OutOfBounds s h.
Proof.
  intros Hp Ht.
  assert (forall h, faults K TaskProc.look_up OutOfBounds s h) as Hl
    by (intros h'; by apply look_up_faults).
  split.
  - apply faults_bind, Hl.
  - apply faults_after, wp_call, faults_bind, Hl.
Qed.

(** the attribute of my_sysfs.c shows the number last stored in it, for
    every 32-bit number (sysfs passes a page-sized buffer to [show] and a
    terminated text to [store]). *)
Theorem sysfs_store_show (K : kernel) z buf rest count s h :
  -2147483648 <= z < 2147483648 -> zlen buf = 4096 -> 0 <= count < 2147483648 ->
  wp K (r <- MySysfs.foo_store (fmt_d z ++ 0 :: rest) count ;;
        x <- MySysfs.foo_show buf ;; Ret (r, x))
    (fun x s' h' => x.1 = count /\ cstr x.2.1 = Some (line_d z) /\ x.2.2 = zlen (line_d z) /\
       MySysfs.foo s' = z /\ h' = h) s h.
Proof.
  intros Hz Hb Hn. unfold MySysfs.foo_store. apply wp_bind, wp_bind.
  pose proof (wp_scan_int K z 0 rest [] MySysfs.set_foo) as Hw. rewrite app_nil_r in Hw.
  apply Hw; [done|done|]. wp_go. unfold MySysfs.foo_show. wp_go. simpl.
  destruct (sprintf_cstr buf (line_d z) (line_d_nonzero z)) as (m & Hm & Hc).
  { pose proof (line_d_length z Hz). lia. }
  eapply wp_access; [exact Hm|]. wp_go. split_and!; [by cint|done..].
Qed.

(** a load of my_sysfs.c whose [sysfs_create_file] fails reports the error
    and keeps the kobject; every other load, with its unload when it
    succeeded, gives everything back. *)
Theorem sysfs_init_leak (K : kernel) L L0 s h :
  held L0 h = Some L ->
  wp K (r <- MySysfs.my_init ;; (if r =? 0 then MySysfs.my_exit else skip) ;; Ret r)
    (fun r s' h' =>
      if (r =? 0) || (MySysfs.example_kobject s' =? 0) then held L0 h' = Some L
      else held L0 h' = Some (RKobject (MySysfs.example_kobject s') :: L)) s h.
Proof.
  intros HL. unfold MySysfs.my_init, MySysfs.my_exit. wp_go. wp_if; wp_go.
  { simpl. wp_go. simpl. rewrite Heqb. simpl. ledger. }
  wp_if; wp_go; simpl; rewrite ?Heqb, ?Heqb0; simpl; ledger.
Qed.

(** ** Concrete instances *)

(** A kernel whose user writes [text], with exact allocations. *)
Definition writer (text : bytes) : kernel := fun _ _ c =>
  match c in kcall R return R with
  | Copy_from_user n => (resize (Z.to_nat n) 0 text, 0)
  | c => quiet c
  end.

Lemma writer_uaccess text : bytes_ok text -> UaccessSpec (writer text).
Proof.
  split; simpl; intros; try lia.
  - rewrite length_resize. lia.
  - apply Forall_resize; [lia|done].
Qed.
#[export] Instance writer_kmalloc text : KmallocSpec (writer text).
Proof. split; simpl; intros; [rewrite length_replicate; lia|done]. Qed.
#[export] Instance writer_mapped text : UserMapped (writer text).
Proof. by split. Qed.


Lemma proc_write_unterminated_witness :
  faults (writer (fmt_d 5)) (MyProc.my_proc_write 1) OutOfBounds MyProc.statics [] /\
  faults (writer (fmt_d 5)) (MyNewProc.my_proc_write 2 1) OutOfBounds MyNewProc.statics [].
Proof.
  apply (proc_write_unterminated (writer (fmt_d 5)) 5 MyProc.statics MyNewProc.statics 2 []);
    [lia|reflexivity|reflexivity|by right].
Defined.

(** A kernel without processes. *)
Definition no_tasks : kernel := fun _ _ c =>
  match c in kcall R return R with
  | Find_task _ => 0
  | c => quiet c
  end.

Lemma task_proc_no_process_witness :
  let s := TaskProc.State 1 (1, 1) 99999 0 in
  faults no_tasks (TaskProc.my_proc_read TaskProc.proc_pid 10 0) OutOfBounds s [] /\
  faults no_tasks (TaskProc.my_proc_write TaskProc.proc_pid 3) OutOfBounds s [].
Proof. intros s. apply (task_proc_no_process no_tasks); [discriminate|reflexivity]. Defined.

Lemma sysfs_store_show_witness :
  wp quiet_kernel (r <- MySysfs.foo_store (fmt_d 7 ++ [0]) 1 ;;
        x <- MySysfs.foo_show (replicate 4096 0) ;; Ret (r, x))
    (fun x s' h' => x.1 = 1 /\ cstr x.2.1 = Some (line_d 7) /\ x.2.2 = zlen (line_d 7) /\
       MySysfs.foo s' = 7 /\ h' = []) MySysfs.statics [].
Proof. apply (sysfs_store_show quiet_kernel); [lia|reflexivity|lia]. Defined.

Lemma sysfs_init_leak_witness :
  wp quiet_kernel (r <- MySysfs.my_init ;; (if r =? 0 then MySysfs.my_exit else skip) ;; Ret r)
    (fun r s' h' =>
      if (r =? 0) || (MySysfs.example_kobject s' =? 0) then held [] h' = Some []
      else held [] h' = Some [RKobject (MySysfs.example_kobject s')]) MySysfs.statics [].
Proof. apply (sysfs_init_leak quiet_kernel [] []). reflexivity. Defined.
