(* ===== verification/Efi.v ===== *)
(** * kprobes/efi_reboot_monitor.c: probes on reboot paths and EFI variables

    Two tables of probes, registered all or none; handlers that print what they
    see.  The tables are lists in the order of the source, and the [kp.addr]
    fields of the probes are part of the state. *)

From S2P Require Import Prelude Kernel Prog CString.
From Stdlib Require Import Ascii.

Definition THIS_MODULE_name : string := "efi_reboot_monitor".
Definition NUMKP : Z := 3.
Definition NUMJP : Z := 12.

(** The probes, by the symbol they are put on.  The twelfth element of [jps] is
    missing from its initialiser: it is NULL. *)
Definition kps : list string :=
  ["virt_efi_get_variable"; "virt_efi_set_variable"; "efivar_entry_size"]%string.
Definition jps : list (option string) := [
  Some "acpi_os_write_port"; Some "sys_ioperm"; Some "sys_iopl";
  Some "native_machine_power_off"; Some "native_machine_shutdown";
  Some "native_machine_emergency_restart"; Some "native_machine_restart";
  Some "native_machine_halt"; Some "native_machine_crash_shutdown";
  Some "virt_efi_get_variable"; Some "virt_efi_set_variable"; None]%string.

Record state := State {
  jp_addr : list Z; kp_addr : list Z; efi_name : bytes; vendor_guid : bytes }.
Definition set_jp_addr (i a : Z) (s : state) : state :=
  State (<[Z.to_nat i := a]> (jp_addr s)) (kp_addr s) (efi_name s) (vendor_guid s).
Definition set_kp_addr (i a : Z) (s : state) : state :=
  State (jp_addr s) (<[Z.to_nat i := a]> (kp_addr s)) (efi_name s) (vendor_guid s).
Definition set_name (m : bytes) (s : state) : state :=
  State (jp_addr s) (kp_addr s) m (vendor_guid s).
Definition set_vguid (m : bytes) (s : state) : state :=
  State (jp_addr s) (kp_addr s) (efi_name s) m.
Definition statics : state :=
  State (replicate 12 0) (replicate 3 0) (replicate 50 0) (replicate 37 0).

(** ** The handlers *)

(** [panic] does not return. *)
Definition do_final_job (msg : string) : prog state unit :=
  call Dump_stack ;;
  call (Panic msg).
Definition my_native_machine_power_off : prog state unit :=
  do_final_job "HR: native_machine_power_off() called\n".
Definition my_native_machine_shutdown : prog state unit :=
  do_final_job "HR: native_machine_shutdown() called\n".
Definition my_native_machine_emergency_restart : prog state unit :=
  do_final_job "HR: native_machine_emergency_restart() called\n".
Definition my_native_machine_restart : prog state unit :=
  do_final_job "HR: native_machine_restart() called\n".
Definition my_native_machine_halt : prog state unit :=
  do_final_job "HR: native_machine_halt() called\n".
Definition my_native_machine_crash_shutdown : prog state unit :=
  do_final_job "HR: native_machine_crash_shutdown() called\n".

(** [while ((uchar = *msg++) != 0) efi_name[cnt++] = (char)uchar;] *)
Fixpoint copy_name (msg : list Z) (cnt : Z) : prog state unit :=
  match msg with
  | [] => Fail OutOfBounds
  | uchar :: msg' =>
      if uchar =? 0 then skip
      else
        s <- get ;;
        m <- access (store1 (efi_name s) cnt (u8 uchar)) ;;
        modify (set_name m) ;;
        copy_name msg' (cnt + 1)
  end.

(** [msg] is the memory at the pointer, in units of 16 bits. *)
Definition set_efi_name (msg : list Z) : prog state unit :=
  s <- get ;;
  m <- access (store (efi_name s) 0 (replicate 50 0)) ;;
  modify (set_name m) ;;
  copy_name msg 0.

(** [sprintf(&vendor_guid[cnt], "%02x", vendor->b[i]); cnt = cnt + 2;] for each
    [i] of [l] in turn: the result is the new [cnt]. *)
Fixpoint put_bytes (vendor : bytes) (cnt : Z) (l : list Z) : prog state Z :=
  match l with
  | [] => Ret cnt
  | i :: l' =>
      b <- access (load1 vendor i) ;;
      s <- get ;;
      m <- access (sprintf (vendor_guid s) cnt (fmt_02x b)) ;;
      modify (set_vguid m) ;;
      put_bytes vendor (cnt + 2) l'
  end.

(** [vendor_guid[cnt] = '-'; cnt++;] *)
Definition put_dash (cnt : Z) : prog state Z :=
  s <- get ;;
  m <- access (store1 (vendor_guid s) cnt (chr "-"%char)) ;;
  modify (set_vguid m) ;;
  Ret (cnt + 1).

Definition set_guid (vendor : bytes) : prog state unit :=
  s <- get ;;
  m <- access (store (vendor_guid s) 0 (replicate 37 0)) ;;
  modify (set_vguid m) ;;
  cnt <- put_bytes vendor 0 [3; 2; 1; 0] ;;
  cnt <- put_dash cnt ;;
  cnt <- put_bytes vendor cnt [5; 4] ;;
  cnt <- put_dash cnt ;;
  cnt <- put_bytes vendor cnt [7; 6] ;;
  cnt <- put_dash cnt ;;
  cnt <- put_bytes vendor cnt [8; 9] ;;
  cnt <- put_dash cnt ;;
  put_bytes vendor cnt [10; 11; 12; 13; 14; 15] ;;
  skip.

(** The printing that the two variable handlers share: [data] is a pointer and
    [data_size] what its pointer points to, if it is not NULL.  [PStr] is a
    C string. *)
Definition print_data (data : Z) (data_size : option Z) : prog state unit :=
  (if data =? 0 then skip
   else
     p <- call (Page_of data) ;;
     printk ", data = 0x%p, page = 0x%p, page->flags = 0x%lx (%svalid slab)"
       [PInt data; PInt p.1; PInt p.2;
        PName (if Z.land p.2 0x80 =? 0x80 then "" else "in")]) ;;
  match data_size with
  | None => skip
  | Some n => printk ", data_size = %ld" [PInt (s64 n)]
  end.

Definition my_virt_efi_get_variable (name : list Z) (vendor : bytes) (data : Z)
    (data_size : option Z) : prog state Z :=
  set_efi_name name ;;
  set_guid vendor ;;
  s <- get ;;
  n <- access (cstr (efi_name s)) ;;
  g <- access (cstr (vendor_guid s)) ;;
  printk "HR: vegv(), name : %s-%s" [PStr n; PStr g] ;;
  print_data data data_size ;;
  printk "\n" [] ;;
  call Jprobe_return ;;
  Ret 0.

Definition my_virt_efi_set_variable (name : list Z) (vendor : bytes) (data : Z)
    (data_size : option Z) : prog state Z :=
  set_efi_name name ;;
  set_guid vendor ;;
  s <- get ;;
  n <- access (cstr (efi_name s)) ;;
  g <- access (cstr (vendor_guid s)) ;;
  printk "HR: vesv(), name : %s-%s\n" [PStr n; PStr g] ;;
  print_data data data_size ;;
  call Jprobe_return ;;
  Ret 0.

Definition virt_efi_get_variable_post_handler : prog state unit :=
  printk "HR: vegv()_post\n" [].
Definition virt_efi_set_variable_post_handler : prog state unit :=
  printk "HR: vesv()_post\n" [].
Definition efivar_entry_size_pre_handler : prog state Z :=
  printk "HR: ees()_pre\n" [] ;; Ret 0.
Definition efivar_entry_size_post_handler : prog state unit :=
  printk "HR: ees()_post\n" [].

Definition myjp_acpi_os_write_port (port value width : Z) : prog state Z :=
  (if port =? 0xcf9 then
     printk "acpi_os_write_port: port=0x%llx, value=%u, width=%u\n"
       [PInt port; PInt value; PInt width] ;;
     call Dump_stack
   else skip) ;;
  call Jprobe_return ;;
  Ret 0.

Definition myjp_ioperm (from num turn_on : Z) : prog state Z :=
  (if ((0xcf9 >=? from) && (0xcf9 <=? u64 (from + num))) ||
      ((0x64 >=? from) && (0x64 <=? u64 (from + num)))
   then
     printk "ioperm: from=0x%lx, num=%lu, turn_on=%d\n" [PInt from; PInt num; PInt turn_on] ;;
     call Dump_stack
   else skip) ;;
  call Jprobe_return ;;
  Ret 0.

Definition myjp_iopl (level : Z) : prog state Z :=
  printk "iopl: level=%d\n" [PInt level] ;;
  call Dump_stack ;;
  call Jprobe_return ;;
  Ret 0.

(** ** The tables *)

(** [unregister_jprobe(jps[j])]: a NULL element would be dereferenced. *)
Definition unregister_jp (j : Z) : prog state unit :=
  match mjoin (jps !! Z.to_nat j) with
  | Some name => call (Unregister_jprobe (AtSymbol name))
  | None => Fail OutOfBounds
  end.
Definition unregister_kp (j : Z) : prog state unit :=
  match kps !! Z.to_nat j with
  | Some name => call (Unregister_kprobe (AtSymbol name))
  | None => Fail OutOfBounds
  end.

(** The loop over the indices [l]: [register_jprobe] returns its result and
    leaves the address in [kp.addr]. *)
Fixpoint register_jprobes (l : list Z) : prog state Z :=
  match l with
  | [] => Ret 0
  | i :: l' =>
      match mjoin (jps !! Z.to_nat i) with
      | None => register_jprobes l'
      | Some name =>
          r <- call (Register_jprobe (AtSymbol name)) ;;
          modify (set_jp_addr i r.2) ;;
          if negb (r.1 =? 0) then
            for_each (reverse (seqZ 0 i)) unregister_jp ;;
            printk "failed to register jprobe(%s) from %s.ko (ret %d)\n"
              [PName name; PName THIS_MODULE_name; PInt r.1] ;;
            Ret 1
          else
            printk "%d:Installed jprobe %s at %p (ret %d)\n"
              [PInt i; PName name; PInt r.2; PInt r.1] ;;
            register_jprobes l'
      end
  end.
Definition register_jprobe_list : prog state Z := register_jprobes (seqZ 0 NUMJP).

Definition unregister_jprobe_list : prog state unit :=
  for_each (seqZ 0 NUMJP) (fun i =>
    match mjoin (jps !! Z.to_nat i) with
    | None => skip
    | Some name =>
        s <- get ;;
        a <- access (load1 (jp_addr s) i) ;;
        if a =? 0 then skip
        else
          unregister_jp i ;;
          printk "%d: unregister jprobe(%s) from %s.ko\n"
            [PInt i; PName THIS_MODULE_name; PName name]
    end).

Fixpoint register_kprobes (l : list Z) : prog state Z :=
  match l with
  | [] => Ret 0
  | i :: l' =>
      name <- access (kps !! Z.to_nat i) ;;
      r <- call (Register_kprobe (AtSymbol name)) ;;
      modify (set_kp_addr i r.2) ;;
      if negb (r.1 =? 0) then
        for_each (reverse (seqZ 0 i)) unregister_kp ;;
        printk "failed to register kprobe(%s) from %s.ko (ret %d)\n"
          [PName name; PName THIS_MODULE_name; PInt r.1] ;;
        Ret 1
      else
        printk "%d:Installed kprobe %s at %p (ret %d)\n"
          [PInt i; PName name; PInt r.2; PInt r.1] ;;
        register_kprobes l'
  end.
Definition register_kprobe_list : prog state Z := register_kprobes (seqZ 0 NUMKP).

Definition unregister_kprobe_list : prog state unit :=
  for_each (seqZ 0 NUMKP) (fun i =>
    name <- access (kps !! Z.to_nat i) ;;
    s <- get ;;
    a <- access (load1 (kp_addr s) i) ;;
    if a =? 0 then skip
    else
      unregister_kp i ;;
      printk "%d: unregister kprobe(%s) from %s.ko\n"
        [PInt i; PName THIS_MODULE_name; PName name]).

Definition my_init : prog state Z :=
  ret <- register_jprobe_list ;;
  if ret >? 0 then Ret ret
  else
    ret <- register_kprobe_list ;;
    if ret >? 0 then unregister_jprobe_list ;; Ret ret
    else printk "kprobe/jprobes are installed\n" [] ;; Ret 0.

Definition my_exit : prog state unit :=
  unregister_kprobe_list ;;
  unregister_jprobe_list ;;
  printk "jprobe unregistered\n" [].

(** ** The registration of the tables *)

(** [register_jprobe] and [register_kprobe] resolve the symbol: after a
    success the address is not NULL. *)
Class KprobeSpec (K : kernel) := {
  register_jprobe_addr : forall h a,
    (K _ h (Register_jprobe a)).1 = 0 -> (K _ h (Register_jprobe a)).2 <> 0;
  register_kprobe_addr : forall h a,
    (K _ h (Register_kprobe a)).1 = 0 -> (K _ h (Register_kprobe a)).2 <> 0;
}.

(** The probes of the table elements [l]. *)
Definition jp_res (l : list Z) : list resource :=
  omap (fun i => RJprobe ∘ AtSymbol <$> mjoin (jps !! Z.to_nat i)) l.
Definition kp_res : list resource := RKprobe ∘ AtSymbol <$> kps.

(** The probes registered before index [i] have their address. *)
Definition installed (i : Z) (s : state) : Prop :=
  length (jp_addr s) = 12%nat /\
  forall j, 0 <= j < i -> is_Some (mjoin (jps !! Z.to_nat j)) ->
    exists a, load1 (jp_addr s) j = Some a /\ a <> 0.

Lemma jps_some i : 0 <= i < 11 -> exists name, mjoin (jps !! Z.to_nat i) = Some name.
Proof.
  intros Hi.
  pose proof (seqZ_check (fun i => if mjoin (jps !! Z.to_nat i) is Some _ then true else false)
    0 11 i eq_refl ltac:(lia)) as H. simpl in H. destruct (mjoin _); [eauto|done].
Qed.

Lemma unregister_kp_at i name :
  kps !! Z.to_nat i = Some name -> unregister_kp i = call (Unregister_kprobe (AtSymbol name)).
Proof. unfold unregister_kp. by intros ->. Qed.

Section tables.
Context (K : kernel) (L0 L : list resource).

Lemma unregister_jps l s h :
  Forall (fun i => 0 <= i < 11) l -> holds L0 h (jp_res l ++ L) ->
  wp K (for_each l unregister_jp) (fun _ s' h' => s' = s /\ holds L0 h' L) s h.
Proof.
  intros Hl. revert h. induction Hl as [|i l Hi _ IH]; intros h HL; [by apply wp_skip|].
  rewrite for_each_cons. apply wp_bind. unfold unregister_jp.
  destruct (jps_some i Hi) as [name Hn]. simpl in HL. rewrite Hn in *. simpl in HL.
  apply wp_call. apply IH. by eapply holds_release.
Qed.

Context `{!KprobeSpec K}.

Lemma register_jprobes_spec n i s h :
  Z.of_nat n = 12 - i -> 0 <= i -> installed i s ->
  holds L0 h (jp_res (seqZ 0 i) ++ L) ->
  wp K (register_jprobes (seqZ i (Z.of_nat n))) (fun r s' h' =>
    kp_addr s' = kp_addr s /\
    ((r = 0 /\ installed 12 s' /\ holds L0 h' (jp_res (seqZ 0 12) ++ L)) \/
     (r = 1 /\ holds L0 h' L))) s h.
Proof.
  revert i s h. induction n as [|n IH]; intros i s h Hn Hi [Hlen Ha] HL.
  { assert (i = 12) as -> by lia. apply wp_ret. split; [done|]. left. by split_and!. }
  rewrite seqZ_cons by lia. replace (Z.pred (Z.of_nat (S n))) with (Z.of_nat n) by lia.
  replace (Z.succ i) with (i + 1) by lia. cbn [register_jprobes].
  assert (jp_res (seqZ 0 (i + 1)) = jp_res (seqZ 0 i) ++
    omap (fun i => RJprobe ∘ AtSymbol <$> mjoin (jps !! Z.to_nat i)) [i]) as Hres.
  { rewrite seqZ_last by done. apply omap_app. }
  destruct (mjoin (jps !! Z.to_nat i)) as [name|] eqn:Ename; simpl in Hres; rewrite Ename in Hres;
    simpl in Hres.
  - wp_go. destruct r as [ret a]. simpl. destruct (ret =? 0) eqn:Hret; simpl.
    + wp_go. eapply wp_mono; [apply (IH (i + 1)); [lia|lia| |]|intros r s' h' H; exact H].
      * split; [simpl; by rewrite length_insert|]. intros j Hj Hsome. simpl.
        destruct (Z.eq_dec j i) as [->|Hji].
        -- exists a. split.
           ++ unfold load1. rewrite (proj2 (Z.leb_le 0 i)) by lia.
              apply list_lookup_insert_eq. rewrite Hlen. lia.
           ++ pose proof (register_jprobe_addr h (AtSymbol name)) as Hr. rewrite <- E in Hr.
              apply Hr. by apply Z.eqb_eq.
        -- destruct (Ha j ltac:(lia) Hsome) as (b & Hb & Hb0). exists b. split; [|done].
           unfold load1 in *. destruct (0 <=? j); [|done].
           by rewrite list_lookup_insert_ne by lia.
      * rewrite Hres. apply holds_idle; [|done..].
        rewrite (Permutation_app_comm (jp_res _)). simpl.
        eapply (holds_acquire _ _ _ _ [_] HL); [done|]. simpl. unfold when_zero. simpl.
        by rewrite Hret.
    + apply wp_bind. eapply wp_mono.
      { apply unregister_jps with (l := reverse (seqZ 0 i)).
        - apply Forall_reverse, Forall_forall. intros j Hj%elem_of_seqZ.
          assert (i <> 11) by (intros ->; done). lia.
        - assert (jp_res (reverse (seqZ 0 i)) ≡ₚ jp_res (seqZ 0 i)) as ->.
          { unfold jp_res. by rewrite reverse_Permutation. }
          apply holds_idle; [exact HL|done|]. simpl. unfold when_zero. simpl. by rewrite Hret. }
      intros [] s' h' [-> HL']. wp_go. split; [done|]. right. split; [done|].
      by apply holds_idle.
  - apply (IH (i + 1)); [lia|lia| |].
    + split; [done|]. intros j Hj Hsome. apply Ha; [|done].
      destruct (Z.eq_dec j i) as [->|]; [|lia]. rewrite Ename in Hsome. by destruct Hsome.
    + rewrite Hres, app_nil_r. exact HL.
Qed.

Lemma unregister_jprobe_list_spec s h :
  installed 12 s -> holds L0 h (jp_res (seqZ 0 12) ++ L) ->
  wp K unregister_jprobe_list (fun _ s' h' => s' = s /\ holds L0 h' L) s h.
Proof.
  intros [_ Ha] HL. unfold unregister_jprobe_list.
  eapply wp_for_each with (I := fun dn s' h' => s' = s /\ exists todo,
    seqZ 0 NUMJP = dn ++ todo /\ holds L0 h' (jp_res todo ++ L)).
  - split; [done|]. by exists (seqZ 0 NUMJP).
  - intros dn i todo s1 h1 Hl [-> (todo' & Hl' & HL1)].
    assert (todo' = i :: todo) as -> by (rewrite Hl in Hl'; by apply app_inv_head in Hl').
    assert (0 <= i < 12) as Hi.
    { assert (i ∈ seqZ 0 NUMJP) as Hin by (rewrite Hl; set_solver).
      by apply elem_of_seqZ in Hin. }
    simpl in HL1. destruct (mjoin (jps !! Z.to_nat i)) as [name|] eqn:Ename.
    + simpl in HL1. destruct (Ha i Hi) as (a & Hla & Ha0); [by rewrite Ename|]. wp_go.
      eapply wp_access; [exact Hla|]. rewrite (proj2 (Z.eqb_neq a 0) Ha0).
      unfold unregister_jp. rewrite Ename. wp_go. split; [done|]. exists todo.
      split; [by rewrite <- app_assoc|]. apply holds_idle; [|done..]. by eapply holds_release.
    + wp_go. split; [done|]. exists todo. split; [by rewrite <- app_assoc|exact HL1].
  - intros s1 h1 [-> (todo & Htodo & HL1)]. split; [done|].
    rewrite <- (app_nil_r (seqZ 0 NUMJP)) in Htodo at 1. apply app_inv_head in Htodo.
    by subst todo.
Qed.

(** The three kprobes, step by step. *)
Lemma register_kprobe_list_spec s h :
  length (kp_addr s) = 3%nat -> held L0 h = Some L ->
  wp K register_kprobe_list (fun r s' h' =>
    jp_addr s' = jp_addr s /\
    ((r = 0 /\ Forall (fun a => a <> 0) (kp_addr s') /\ length (kp_addr s') = 3%nat /\
      held L0 h' = Some (reverse kp_res ++ L)) \/
     (r = 1 /\ held L0 h' = Some L))) s h.
Proof.
  intros Hlen HL. destruct s as [ja [|a0 [|a1 [|a2 [|]]]] nm vg]; try done. clear Hlen.
  unfold register_kprobe_list. change (seqZ 0 NUMKP) with [0; 1; 2].
  assert (forall h a r, r = K _ h (Register_kprobe a) -> (r.1 =? 0) = true -> r.2 <> 0) as Haddr.
  { intros h' a' r -> Hr. by apply register_kprobe_addr, Z.eqb_eq. }
  cbn [register_kprobes].
  do 3 (wp_go; eapply wp_access; [reflexivity|]; wp_go;
    match goal with E : ?r = K _ _ (Register_kprobe _) |- _ =>
      destruct (r.1 =? 0) eqn:?; cbn [negb] end;
    [|wp_go; simpl; split; [done|]; right; split; [done|]; ledger]).
  wp_go. simpl. split; [done|]. left. split_and!; [done| |done|].
  - repeat constructor; eauto.
  - unfold kp_res, kps. simpl. ledger.
Qed.

Lemma unregister_kprobe_list_spec s h :
  Forall (fun a => a <> 0) (kp_addr s) -> length (kp_addr s) = 3%nat ->
  held L0 h = Some (reverse kp_res ++ L) ->
  wp K unregister_kprobe_list (fun _ s' h' => s' = s /\ held L0 h' = Some L) s h.
Proof.
  intros Ha Hlen HL. destruct s as [ja [|a0 [|a1 [|a2 [|]]]] nm vg]; try done. simpl in Ha.
  apply Forall_cons in Ha as [H0 Ha]. apply Forall_cons in Ha as [H1 Ha].
  apply Forall_cons in Ha as [H2 _].
  unfold unregister_kprobe_list. change (seqZ 0 NUMKP) with [0; 1; 2].
  do 3 (wp_go; eapply wp_access; [reflexivity|]; wp_go; eapply wp_access; [reflexivity|];
    match goal with |- context [?a =? 0] => rewrite (proj2 (Z.eqb_neq a 0)) by done end;
    wp_go; erewrite unregister_kp_at by reflexivity; wp_go).
  split; [done|]. unfold kp_res, kps in HL. simpl in HL. ledger.
Qed.
End tables.

(** ** The texts *)

(** The canonical text of a GUID of sixteen bytes, and its reading back. *)
Definition hex_at (v : bytes) (i : Z) : bytes := fmt_02x (default 0 (load1 v i)).
Definition guid_text (v : bytes) : bytes :=
  mjoin (hex_at v <$> [3; 2; 1; 0]) ++ [45] ++ mjoin (hex_at v <$> [5; 4]) ++ [45] ++
  mjoin (hex_at v <$> [7; 6]) ++ [45] ++ mjoin (hex_at v <$> [8; 9]) ++ [45] ++
  mjoin (hex_at v <$> [10; 11; 12; 13; 14; 15]).

Fixpoint unhex_all (t : bytes) : option bytes :=
  match t with
  | [] => Some []
  | a :: b :: t' => x ← unhex2 a b; xs ← unhex_all t'; Some (x :: xs)
  | _ => None
  end.
Definition parse_guid (t : bytes) : option bytes :=
  x ← unhex_all (take 8 t ++ take 4 (drop 9 t) ++ take 4 (drop 14 t) ++
                 take 4 (drop 19 t) ++ drop 24 t);
  match x with
  | [b3; b2; b1; b0; b5; b4; b7; b6; b8; b9; b10; b11; b12; b13; b14; b15] =>
      Some [b0; b1; b2; b3; b4; b5; b6; b7; b8; b9; b10; b11; b12; b13; b14; b15]
  | _ => None
  end.

Lemma hex_at_byte v i :
  bytes_ok v -> 0 <= i < zlen v -> exists b, load1 v i = Some b /\ 0 <= b < 256 /\
    hex_at v i = [hexdigit (b / 16); hexdigit (b mod 16)].
Proof.
  intros Hv Hi. destruct (load1_ok v i Hi) as (b & Hb & Hl). exists b.
  assert (0 <= b < 256) as Hr by (by eapply (Forall_lookup_1 (fun b => 0 <= b < 256))).
  split_and!; try done; try lia. unfold hex_at. rewrite Hb. by apply fmt_02x_byte.
Qed.

Lemma hex_at_length v i : bytes_ok v -> 0 <= i < zlen v -> length (hex_at v i) = 2%nat.
Proof. intros Hv Hi. by destruct (hex_at_byte v i Hv Hi) as (b & _ & _ & ->). Qed.

Lemma hexdigit_nonzero d : 0 <= d < 16 -> hexdigit d <> 0.
Proof. intros Hd. pose proof (hexdigit_range d Hd). lia. Qed.

Lemma hex_at_nonzero v i : bytes_ok v -> 0 <= i < zlen v -> Forall (fun b => b <> 0) (hex_at v i).
Proof.
  intros Hv Hi. destruct (hex_at_byte v i Hv Hi) as (b & _ & Hb & ->).
  repeat constructor; apply hexdigit_nonzero.
  - split; [apply Z.div_pos; lia|apply Z.div_lt_upper_bound; lia].
  - apply Z.mod_pos_bound. lia.
Qed.

Lemma hexes_length v l :
  bytes_ok v -> Forall (fun i => 0 <= i < zlen v) l ->
  length (mjoin (hex_at v <$> l)) = (2 * length l)%nat.
Proof.
  intros Hv. induction 1 as [|i l Hi _ IH]; [done|].
  change (mjoin (hex_at v <$> i :: l)) with (hex_at v i ++ mjoin (hex_at v <$> l)).
  rewrite length_app, hex_at_length, IH by done. simpl. lia.
Qed.

Section texts.
Context (K : kernel).

(** [put_bytes] appends to the text in front of the zeros. *)
Lemma put_bytes_appends v l text n s h :
  bytes_ok v -> Forall (fun i => 0 <= i < zlen v) l ->
  vendor_guid s = text ++ replicate n 0 -> (2 * length l < n)%nat ->
  wp K (put_bytes v (zlen text) l) (fun r s' h' =>
    let text' := text ++ mjoin (hex_at v <$> l) in
    r = zlen text' /\ h' = h /\
    s' = set_vguid (text' ++ replicate (n - 2 * length l) 0) s) s h.
Proof.
  intros Hv Hl. revert text n s. induction Hl as [|i l Hi Hl IH]; intros text n s Hs Hn.
  - apply wp_ret. rewrite app_nil_r. split_and!; [done|done|]. simpl. rewrite Nat.sub_0_r, <- Hs.
    by destruct s.
  - simpl in Hn. destruct (hex_at_byte v i Hv Hi) as (b & Hb & _ & _).
    assert (hex_at v i = fmt_02x b) as Hh by (unfold hex_at; by rewrite Hb).
    pose proof (hex_at_length v i Hv Hi) as Hlen. rewrite Hh in Hlen.
    cbn [put_bytes]. wp_go. eapply wp_access; [exact Hb|]. wp_go.
    assert (sprintf (vendor_guid s) (zlen text) (fmt_02x b) =
            Some ((text ++ fmt_02x b) ++ replicate (n - 2) 0)) as Hsp.
    { unfold sprintf. rewrite Hs. replace n with (3 + (n - 3))%nat at 1 by lia.
      rewrite replicate_add, (store_mid text (replicate 3 0)); [|done|].
      - replace (n - 2)%nat with (S (n - 3)) by lia. simpl. by rewrite <- !app_assoc.
      - rewrite length_app, Hlen. done. }
    eapply wp_access; [exact Hsp|]. wp_go.
    replace (zlen text + 2) with (zlen (text ++ fmt_02x b)) by (rewrite length_app, Hlen; lia).
    eapply wp_mono; [apply (IH _ (n - 2)%nat); [done|lia]|].
    intros r s' h' (-> & -> & ->). 
    change (mjoin (hex_at v <$> i :: l)) with (hex_at v i ++ mjoin (hex_at v <$> l)).
    rewrite Hh, (app_assoc text).
    split_and!; [done|done|]. unfold set_vguid. simpl. do 2 f_equal. f_equal. lia.
Qed.

Lemma put_dash_appends text n s h :
  vendor_guid s = text ++ replicate (S n) 0 ->
  wp K (put_dash (zlen text)) (fun r s' h' =>
    r = zlen (text ++ [45]) /\ h' = h /\ s' = set_vguid ((text ++ [45]) ++ replicate n 0) s) s h.
Proof.
  intros Hs. unfold put_dash. wp_go.
  eapply wp_access; [rewrite Hs; apply store1_ok; rewrite length_app; simpl; lia|]. wp_go.
  rewrite length_app. split_and!; [simpl; lia|done|]. f_equal.
  rewrite Nat2Z.id, insert_app_r_alt, Nat.sub_diag by lia. by rewrite <- app_assoc.
Qed.

Lemma set_guid_text v s h :
  bytes_ok v -> length v = 16%nat -> length (vendor_guid s) = 37%nat ->
  wp K (set_guid v) (fun _ s' h' => s' = set_vguid (guid_text v ++ [0]) s /\ h' = h) s h.
Proof.
  intros Hv Hl Hg. unfold set_guid. wp_go.
  eapply wp_access.
  { apply store_ok; [lia|]. rewrite Hg. reflexivity. }
  rewrite drop_ge by (rewrite Hg; simpl; lia). wp_go.
  lazymatch goal with |- wp _ _ _ ?st _ => set (s1 := st) end. assert (vendor_guid s1 = [] ++ replicate 37 0) as H1 by reflexivity.
  assert (forall l, Forall (fun i => 0 <= i < 16) l -> Forall (fun i => 0 <= i < zlen v) l) as Hall.
  { intros l. by rewrite Hl. }
  assert (Hb := fun l text n s h Hr => put_bytes_appends v l text n s h Hv (Hall l Hr)).
  assert (Hlen := fun l Hr => hexes_length v l Hv (Hall l Hr)).
  eapply wp_mono; [apply (Hb _ [] 37%nat); [repeat constructor; lia|exact H1|simpl; lia]|].
  intros ? s2 ? (-> & -> & ->). wp_go.
  eapply wp_mono; [apply (put_dash_appends _ 28); done|]. intros ? s2 ? (-> & -> & ->). wp_go.
  eapply wp_mono; [apply (Hb _ _ 28%nat); [repeat constructor; lia|done|simpl; lia]|].
  intros ? s2 ? (-> & -> & ->). wp_go.
  eapply wp_mono; [apply (put_dash_appends _ 23); done|]. intros ? s2 ? (-> & -> & ->). wp_go.
  eapply wp_mono; [apply (Hb _ _ 23%nat); [repeat constructor; lia|done|simpl; lia]|].
  intros ? s2 ? (-> & -> & ->). wp_go.
  eapply wp_mono; [apply (put_dash_appends _ 18); done|]. intros ? s2 ? (-> & -> & ->). wp_go.
  eapply wp_mono; [apply (Hb _ _ 18%nat); [repeat constructor; lia|done|simpl; lia]|].
  intros ? s2 ? (-> & -> & ->). wp_go.
  eapply wp_mono; [apply (put_dash_appends _ 13); done|]. intros ? s2 ? (-> & -> & ->). wp_go.
  eapply wp_mono; [apply (Hb _ _ 13%nat); [repeat constructor; lia|done|simpl; lia]|].
  intros ? s2 ? (-> & -> & ->). wp_go. split; [|done].
  unfold set_vguid, guid_text. f_equal. rewrite <- !app_assoc. reflexivity.
Qed.
End texts.

Lemma guid_text_parse v :
  bytes_ok v -> length v = 16%nat ->
  parse_guid (guid_text v) = Some v /\ length (guid_text v) = 36%nat /\
  Forall (fun b => b <> 0) (guid_text v).
Proof.
  intros Hv Hl. split_and!.
  - do 16 (destruct v as [|? v]; [done|]). destruct v; [|done].
    repeat match goal with H : bytes_ok (_ :: _) |- _ => apply Forall_cons in H as [? H] end.
    unfold parse_guid, guid_text, hex_at. cbn [fmap list_fmap load1 default].
    unfold load1. cbn [Z.leb Z.compare Z.to_nat Pos.to_nat Pos.iter_op Nat.add lookup list_lookup].
    cbn [default from_option id]. rewrite !fmt_02x_byte by done.
    cbn [mjoin list_join app take drop unhex_all]. rewrite !unhex2_byte by done. reflexivity.
  - unfold guid_text. rewrite !length_app, !hexes_length; try done;
      rewrite Hl; repeat constructor; lia.
  - unfold guid_text. rewrite !Forall_app.
    assert (forall l, Forall (fun i => 0 <= i < zlen v) l ->
      Forall (fun b => b <> 0) (mjoin (hex_at v <$> l))) as Hall.
    { induction 1; simpl; [constructor|]. apply Forall_app. split; [by apply hex_at_nonzero|done]. }
    split_and!; try (by repeat constructor); apply Hall; rewrite Hl; repeat constructor; lia.
Qed.

(** The name loop keeps what it wrote in front of the zeros. *)
Lemma copy_name_appends (K : kernel) name rest text n s h :
  Forall (fun u => u <> 0) name -> efi_name s = text ++ replicate n 0 -> (length name <= n)%nat ->
  wp K (copy_name (name ++ 0 :: rest) (zlen text)) (fun _ s' h' => h' = h /\
    s' = set_name (text ++ (u8 <$> name) ++ replicate (n - length name) 0) s) s h.
Proof.
  intros Hne. revert text n s. induction Hne as [|u name Hu _ IH]; intros text n s Hs Hn.
  - apply wp_skip. simpl. rewrite Nat.sub_0_r, <- Hs. by destruct s.
  - simpl in Hn. cbn [app copy_name]. rewrite (proj2 (Z.eqb_neq u 0) Hu). wp_go.
    destruct n as [|n]; [lia|].
    eapply wp_access.
    { apply store1_ok. rewrite Hs, length_app. simpl. lia. }
    wp_go. rewrite Hs, Nat2Z.id, insert_app_r_alt, Nat.sub_diag by lia. simpl.
    replace (zlen text + 1) with (zlen (text ++ [u8 u])) by (rewrite length_app; simpl; lia).
    eapply wp_mono; [apply (IH _ n); [simpl; by rewrite <- app_assoc|lia]|].
    intros [] s' h' (-> & ->). split; [done|]. unfold set_name. simpl. f_equal.
    by rewrite <- app_assoc.
Qed.

Lemma copy_name_overflows (K : kernel) name rest text n s h :
  Forall (fun u => u <> 0) name -> efi_name s = text ++ replicate n 0 -> (n < length name)%nat ->
  faults K (copy_name (name ++ 0 :: rest) (zlen text)) OutOfBounds s h.
Proof.
  intros Hne. revert text n s. induction Hne as [|u name Hu _ IH]; intros text n s Hs Hn;
    simpl in Hn; [lia|].
  cbn [app copy_name]. rewrite (proj2 (Z.eqb_neq u 0) Hu). faults_go. destruct n as [|n].
  - faults_here. apply store1_none. rewrite Hs, app_nil_r. lia.
  - faults_past ltac:(apply store1_ok; rewrite Hs, length_app; simpl; lia).
    replace (zlen text + 1) with (zlen (text ++ [u8 u])) by (rewrite length_app; simpl; lia).
    apply (IH _ n); [|lia]. simpl. rewrite Hs, Nat2Z.id, insert_app_r_alt, Nat.sub_diag by lia.
    by rewrite <- app_assoc.
Qed.

Lemma store_clear (m : bytes) n : length m = n -> store m 0 (replicate n 0) = Some (replicate n 0).
Proof.
  intros <-. rewrite store_ok by (rewrite ?length_replicate; lia).
  rewrite drop_ge by (rewrite length_replicate; lia). by rewrite app_nil_r.
Qed.

(** [insmod], then [rmmod] when it succeeded. *)
Definition load_unload : prog state Z :=
  r <- my_init ;; (if r =? 0 then my_exit else skip) ;; Ret r.

(** ** Properties *)

(** C7: all or nothing: a load registers the eleven jprobes and the three
    kprobes or, when any of the fourteen registrations is refused, takes
    back exactly those that had succeeded and returns 1; after a load that
    succeeded the unload takes all of them back. *)
Theorem efi_all_or_nothing (K : kernel) `{!KprobeSpec K} L0 L s h :
  length (jp_addr s) = 12%nat -> length (kp_addr s) = 3%nat -> holds L0 h L ->
  wp K my_init (fun r s' h' =>
    (r = 0 /\ holds L0 h' (jp_res (seqZ 0 11) ++ reverse kp_res ++ L) /\
     wp K my_exit (fun _ _ h'' => holds L0 h'' L) s' h') \/
    (r = 1 /\ holds L0 h' L)) s h.
Proof.
  intros Hj Hk HL. unfold my_init. apply wp_bind. unfold register_jprobe_list.
  eapply wp_mono.
  { apply (register_jprobes_spec K L0 L 12 0); [done|done| |exact HL]. split; [done|]. lia. }
  intros r s1 h1 (Hks1 & [(-> & Hi1 & H1)|(-> & H1)]); [|wp_go; by right].
  cbn [Z.gtb Z.compare]. apply wp_bind. destruct H1 as (X & HX & HXL).
  eapply wp_mono; [apply (register_kprobe_list_spec K L0 X); [by rewrite Hks1|exact HX]|].
  intros r s2 h2 (Hjs2 & [(-> & Ha & Hl2 & H2)|(-> & H2)]); cbn [Z.gtb Z.compare].
  - wp_go. left. split; [done|]. split.
    { apply holds_idle; [|done..]. exists (reverse kp_res ++ X). split; [done|].
      rewrite HXL, !app_assoc. apply Permutation_app; [|done]. apply Permutation_app_comm. }
    unfold my_exit. wp_go.
    eapply wp_mono; [apply (unregister_kprobe_list_spec K L0 X); [done|done|]|].
    { eapply held_cons; [exact H2|done|done]. }
    intros [] s3 h3 [-> H3]. wp_go.
    eapply wp_mono; [apply (unregister_jprobe_list_spec K L0 L)|].
    { destruct Hi1 as [Hi1 Hi2]. split; by rewrite Hjs2. }
    { by exists X. }
    intros [] s4 h4 [-> H4]. wp_go. by apply holds_idle.
  - wp_go. eapply wp_mono; [apply (unregister_jprobe_list_spec K L0 L)|].
    { destruct Hi1 as [Hi1 Hi2]. split; by rewrite Hjs2. }
    { by exists X. }
    intros [] s4 h4 [-> H4]. wp_go. by right.
Qed.

(** C23: [set_guid] writes the canonical text of a GUID, for every sixteen bytes
    and whatever the buffer held: 36 characters and the terminator, which
    fill the buffer exactly, and from which the sixteen bytes can be read back. *)
Theorem efi_guid_roundtrip (K : kernel) v s h :
  bytes_ok v -> length v = 16%nat -> length (vendor_guid s) = 37%nat ->
  wp K (set_guid v) (fun _ s' h' =>
    h' = h /\ length (vendor_guid s') = 37%nat /\
    exists t, cstr (vendor_guid s') = Some t /\ length t = 36%nat /\ parse_guid t = Some v) s h.
Proof.
  intros Hv Hl Hg. destruct (guid_text_parse v Hv Hl) as (Hp & H36 & Hne).
  eapply wp_mono; [by apply set_guid_text|]. intros [] s' h' [-> ->].
  split; [done|]. split; [simpl; rewrite length_app, H36; done|].
  exists (guid_text v). split_and!; [by apply cstr_app|done|done].
Qed.

(** C34: what the handler of [virt_efi_get_variable] prints first is the name of
    the variable (the low byte of each of its characters) and the text of its
    GUID, for names of up to 49 characters; it then returns to the probed
    function.  A longer name overruns the buffer: in the copy or, when it is one
    too long, in the printing of a name without a terminator. *)
Theorem efi_get_variable_report (K : kernel) name rest v data data_size s h :
  Forall (fun u => u8 u <> 0) name ->
  bytes_ok v -> length v = 16%nat -> length (vendor_guid s) = 37%nat ->
  length (efi_name s) = 50%nat ->
  if zlen name <=? 49 then
    wp K (my_virt_efi_get_variable (name ++ 0 :: rest) v data data_size) (fun r _ h' =>
      r = 0 /\ exists new, h' = Ev Jprobe_return tt :: new ++
        Ev (Printk "HR: vegv(), name : %s-%s" [PStr (u8 <$> name); PStr (guid_text v)]) tt :: h)
      s h
  else
    faults K (my_virt_efi_get_variable (name ++ 0 :: rest) v data data_size) OutOfBounds s h.
Proof.
  intros Hname Hv Hl Hg He.
  assert (Forall (fun u => u <> 0) name) as Hne.
  { eapply Forall_impl; [exact Hname|]. simpl. by intros u Hu ->. }
  destruct (guid_text_parse v Hv Hl) as (_ & _ & Hgne).
  destruct (Z.leb_spec (zlen name) 49).
  - unfold my_virt_efi_get_variable, set_efi_name. wp_go.
    eapply wp_access; [by apply store_clear|]. wp_go.
    eapply wp_mono; [apply (copy_name_appends K name rest [] 50); [done|done|lia]|].
    intros [] s1 h1 (-> & ->). wp_go.
    eapply wp_mono; [by apply set_guid_text|]. intros [] s2 h2 [-> ->]. wp_go. simpl.
    eapply wp_access.
    { replace (50 - length name)%nat with (S (49 - length name)) by lia.
      apply cstr_app, Forall_fmap, Hname. }
    wp_go. eapply wp_access; [by apply cstr_app|]. wp_go. unfold print_data. wp_go.
    eapply wp_mono with (Q := fun _ _ h' => exists new, h' = new ++
      Ev (Printk "HR: vegv(), name : %s-%s" [PStr (u8 <$> name); PStr (guid_text v)]) tt :: h).
    { destruct (data =? 0); wp_go; [by exists []|by eexists [_; _]]. }
    intros [] s3 h3 [new ->].
    destruct data_size as [sz|]; wp_go; (split; [done|]).
    + by eexists (_ :: _ :: new).
    + by eexists (_ :: new).
  - unfold my_virt_efi_get_variable. destruct (decide (length name = 50%nat)) as [H50|H50].
    + unfold set_efi_name. apply faults_after. wp_go.
      eapply wp_access; [by apply store_clear|]. wp_go.
      eapply wp_mono; [apply (copy_name_appends K name rest [] 50); [done|done|lia]|].
      intros [] s1 h1 (-> & ->). apply faults_after.
      eapply wp_mono; [by apply set_guid_text|]. intros [] s2 h2 [-> ->].
      apply faults_after, wp_get. faults_here. simpl.
      rewrite H50, Nat.sub_diag, app_nil_r. apply cstr_none, Forall_fmap, Hname.
    + unfold set_efi_name.
      apply faults_bind, faults_after, wp_get. faults_past ltac:(by apply store_clear).
      apply (copy_name_overflows K name rest [] 50); [done|done|lia].
Qed.

(** ** Concrete instances *)

#[export] Instance quiet_kprobe : KprobeSpec quiet_kernel.
Proof. by split. Qed.

Lemma efi_all_or_nothing_witness :
  wp quiet_kernel my_init (fun r s' h' =>
    (r = 0 /\ holds [] h' (jp_res (seqZ 0 11) ++ reverse kp_res ++ []) /\
     wp quiet_kernel my_exit (fun _ _ h'' => holds [] h'' []) s' h') \/
    (r = 1 /\ holds [] h' [])) statics [].
Proof.
  apply (efi_all_or_nothing quiet_kernel [] []);
    [reflexivity|reflexivity|by apply holds_of_held].
Defined.

Lemma efi_guid_roundtrip_witness :
  wp quiet_kernel (set_guid (seqZ 0 16)) (fun _ s' h' =>
    h' = [] /\ length (vendor_guid s') = 37%nat /\
    exists t, cstr (vendor_guid s') = Some t /\ length t = 36%nat /\
      parse_guid t = Some (seqZ 0 16)) statics [].
Proof.
  apply (efi_guid_roundtrip quiet_kernel); [|reflexivity|reflexivity].
  repeat constructor; lia.
Defined.

Lemma efi_get_variable_report_witness :
  wp quiet_kernel (my_virt_efi_get_variable ([66; 111; 111; 116] ++ [0]) (seqZ 0 16) 0 None)
    (fun r _ h' => r = 0 /\ exists new, h' = Ev Jprobe_return tt :: new ++
      [Ev (Printk "HR: vegv(), name : %s-%s"
             [PStr [66; 111; 111; 116]; PStr (guid_text (seqZ 0 16))]) tt]) statics [].
Proof.
  apply (efi_get_variable_report quiet_kernel [66; 111; 111; 116] [] (seqZ 0 16) 0 None statics []);
    [|repeat constructor; lia|reflexivity|reflexivity|reflexivity].
  repeat constructor; discriminate.
Defined.
