(* ===== verification/EfiEdge.v ===== *)
(** * kprobes/efi_reboot_monitor.c: the edges

    What the handler on [ioperm] takes for an access to the two reset ports, and
    what becomes of a load that fails: [my_init] returns 1, which is not an
    error to the kernel, and the module stays. *)

From S2P Require Import Prelude Kernel Prog CString Efi.

#[local] Open Scope Z_scope.

(** ** The range of [ioperm]

    The system call grants the ports from [from] to [from + num - 1]. *)
Definition grants (from num port : Z) : Prop := from <= port < from + num.
#[export] Instance grants_dec from num port : Decision (grants from num port).
Proof. unfold grants. solve_decision. Defined.

(** The register that resets the machine, and the keyboard controller. *)
Definition reset_ports : list Z := [0xcf9; 0x64].
Definition reports (from num : Z) : Prop :=
  Exists (fun port => grants from num port \/ from + num = port) reset_ports.
#[export] Instance reports_dec from num : Decision (reports from num).
Proof. unfold reports. apply _. Defined.

Lemma ioperm_condition from num :
  in_ulong from -> in_ulong num -> in_ulong (from + num) ->
  ((0xcf9 >=? from) && (0xcf9 <=? u64 (from + num))) ||
  ((0x64 >=? from) && (0x64 <=? u64 (from + num))) = bool_decide (reports from num).
Proof.
  unfold in_ulong. intros Hf Hn Hs. rewrite (u64_small (from + num)) by lia.
  rewrite !Z.geb_leb. apply eq_true_iff_eq.
  rewrite orb_true_iff, !andb_true_iff, !Z.leb_le, bool_decide_eq_true.
  unfold reports, reset_ports, grants. rewrite !Exists_cons, Exists_nil. lia.
Qed.

(** ** A load that fails *)

Lemma wp_and {σ A} (K : kernel) (p : prog σ A) Q R s h :
  wp K p Q s h -> wp K p R s h -> wp K p (fun a s' h' => Q a s' h' /\ R a s' h') s h.
Proof. unfold wp. by destruct (run K p s h) as [[[a|f] s'] h']. Qed.

(** The first jprobe has its address in the table. *)
Definition first_there (s : state) : Prop :=
  length (jp_addr s) = 12%nat /\ exists a, load1 (jp_addr s) 0 = Some a /\ a <> 0.

Lemma first_there_set i a s : 0 < i -> first_there s -> first_there (set_jp_addr i a s).
Proof.
  intros Hi (Hl & b & Hb & Hb0). split; [simpl; by rewrite length_insert|]. exists b.
  split; [|done]. unfold load1 in *. simpl in *. by rewrite list_lookup_insert_ne by lia.
Qed.

Section failing.
Context (K : kernel).

Lemma unregister_jps_state l (s : state) h :
  Forall (fun i => 0 <= i < 11) l ->
  wp K (for_each l unregister_jp) (fun _ s' _ => s' = s) s h.
Proof.
  intros Hl. apply wp_for_each with (I := fun _ s' _ => s' = s); [done| |done].
  intros dn j todo s1 h1 -> ->. apply Forall_app in Hl as [_ Hl].
  apply Forall_cons in Hl as [Hj _]. destruct (jps_some j Hj) as [name Hn].
  unfold unregister_jp. rewrite Hn. by wp_go.
Qed.

(** The rest of the loop ends in the refusal. *)
Lemma register_rest_refused i name l s h :
  0 < i -> i ∈ l -> mjoin (jps !! Z.to_nat i) = Some name ->
  (forall h, (K _ h (Register_jprobe (AtSymbol name))).1 <> 0) ->
  Forall (fun j => 0 < j < 12) l -> first_there s ->
  wp K (register_jprobes l) (fun r s' _ => r = 1 /\ first_there s') s h.
Proof.
  intros Hi Hin Hname Href Hl. revert s h. induction Hl as [|j l Hj _ IH]; intros s h Hs;
    [set_solver|]. cbn [register_jprobes].
  destruct (mjoin (jps !! Z.to_nat j)) as [name'|] eqn:Hn'.
  - wp_go. destruct (r.1 =? 0) eqn:Hr; cbn [negb]; wp_go.
    + apply IH; [|apply first_there_set; [lia|done]].
      apply elem_of_cons in Hin as [->|]; [|done]. rewrite Hname in Hn'.
      injection Hn' as ->. subst r. apply Z.eqb_eq in Hr. by destruct (Href h).
    + eapply wp_mono; [apply unregister_jps_state|].
      * apply Forall_reverse, Forall_forall. intros k Hk%elem_of_seqZ.
        assert (j <> 11) by (intros ->; done). lia.
      * intros [] s1 h1 ->. wp_go. split; [done|]. apply first_there_set; [lia|done].
  - apply IH; [|done]. apply elem_of_cons in Hin as [->|]; [by simplify_eq|done].
Qed.

Lemma first_refused i name s h :
  0 < i < 11 -> mjoin (jps !! Z.to_nat i) = Some name ->
  (forall h, (K _ h (Register_jprobe (AtSymbol "acpi_os_write_port"))).1 = 0) ->
  (forall h a, (K _ h (Register_jprobe a)).1 = 0 -> (K _ h (Register_jprobe a)).2 <> 0) ->
  (forall h, (K _ h (Register_jprobe (AtSymbol name))).1 <> 0) ->
  length (jp_addr s) = 12%nat ->
  wp K register_jprobe_list (fun r s' _ => r = 1 /\ first_there s') s h.
Proof.
  intros Hi Hname Hfirst Haddr Href Hj. unfold register_jprobe_list.
  change (seqZ 0 NUMJP) with (0 :: seqZ 1 11). cbn [register_jprobes].
  change (mjoin (jps !! Z.to_nat 0)) with (Some "acpi_os_write_port"%string). cbv iota. wp_go.
  rewrite E, Hfirst. cbn [negb Z.eqb]. wp_go.
  apply (register_rest_refused i name); [lia|apply elem_of_seqZ; lia|done|done| |].
  - apply Forall_forall. intros j Hj'%elem_of_seqZ. lia.
  - split; [simpl; by rewrite length_insert|]. eexists. split; [|by apply Haddr].
    unfold load1. simpl. apply list_lookup_insert_eq. lia.
Qed.

(** The unload takes back the first jprobe, which is not there. *)
Lemma unregister_first L0 s h a :
  length (jp_addr s) = 12%nat -> load1 (jp_addr s) 0 = Some a -> a <> 0 ->
  absent L0 (RJprobe (AtSymbol "acpi_os_write_port")) h ->
  wp K unregister_jprobe_list (fun _ _ h' => held L0 h' = None) s h.
Proof.
  intros Hlen Ha Ha0 Habs.
  apply wp_for_each with (I := fun dn s' h' => s' = s /\
    if dn is [] then h' = h else held L0 h' = None); [done| |].
  - intros dn i todo s1 h1 Hseq [-> Hh]. destruct (seqZ_split _ _ _ _ Hseq) as (-> & Hi & _).
    unfold NUMJP in Hi. set (i := zlen dn) in *.
    assert (forall x, (if dn ++ [i] is [] then x = h else held L0 x = None) <-> held L0 x = None)
      as Hne by (by destruct dn).
    destruct (mjoin (jps !! Z.to_nat i)) as [name|] eqn:Hname.
    + wp_go. destruct (load1_ok (jp_addr s) i) as (b & Hb & _); [lia|].
      eapply wp_access; [exact Hb|]. unfold unregister_jp. rewrite Hname.
      destruct dn as [|j dn]; simpl in i; subst i.
      * change (Z.of_nat 0) with 0 in *. rewrite Ha in Hb. injection Hb as <-.
        injection Hname as <-. subst h1. rewrite (proj2 (Z.eqb_neq a 0) Ha0). wp_go. split; [done|]. simpl.
        apply held_none_cons. by eapply release_absent.
      * destruct (b =? 0); wp_go; (split; [done|]); apply Hne; [done|].
        by repeat apply held_none_cons.
    + wp_go. split; [done|]. apply Hne. by destruct dn.
  - intros s1 h1 [_ H]. exact H.
Qed.

Lemma exit_unheld L0 L s h :
  first_there s -> kp_addr s = [0; 0; 0] -> holds L0 h L ->
  RJprobe (AtSymbol "acpi_os_write_port") ∉ L ->
  wp K my_exit (fun _ _ h' => held L0 h' = None) s h.
Proof.
  intros (Hlen & a & Ha & Ha0) Hk (X & HX & HXL) Hnot. unfold my_exit, unregister_kprobe_list.
  change (seqZ 0 NUMKP) with [0; 1; 2]. rewrite !for_each_cons.
  do 3 (wp_go; eapply wp_access; [reflexivity|]; wp_go; eapply wp_access;
    [by rewrite Hk|]; cbn [Z.eqb]; wp_go).
  assert (absent L0 (RJprobe (AtSymbol "acpi_os_write_port")) h) as Habs.
  { unfold absent. rewrite HX. by rewrite HXL. }
  eapply wp_mono; [by apply (unregister_first L0 _ _ a)|]. intros [] s1 h1 H1. wp_go.
  by apply held_none_cons.
Qed.
End failing.

(** ** Properties *)

(** C24: the handler on [ioperm] reports exactly the requests that grant one of
    the reset ports, and also those that end just below one of them; a request
    whose end does not fit an unsigned long, which the system call refuses, is
    left out. *)
Theorem efi_ioperm_reports (K : kernel) from num turn_on s h :
  in_ulong from -> in_ulong num -> in_ulong (from + num) ->
  wp K (myjp_ioperm from num turn_on) (fun r s' h' =>
    let report := Printk "ioperm: from=0x%lx, num=%lu, turn_on=%d\n"
                    [PInt from; PInt num; PInt turn_on] in
    r = 0 /\ s' = s /\
    h' = Ev Jprobe_return tt ::
      (if decide (reports from num) then Ev Dump_stack tt :: Ev report tt :: h else h)) s h.
Proof.
  intros Hf Hn Hs. unfold myjp_ioperm. rewrite ioperm_condition by done.
  destruct (decide (reports from num)) as [Hr|Hr];
    [rewrite bool_decide_true by done|rewrite bool_decide_false by done]; by wp_go.
Qed.

(** C25: a load whose later jprobe is refused returns 1 with nothing registered.
    The kernel keeps such a module, and unloading it takes back probes that are
    not there: the addresses in the table say that they are. *)
Theorem efi_failed_load_unload (K : kernel) `{!KprobeSpec K} i name L0 L s h :
  0 < i < 11 -> mjoin (jps !! Z.to_nat i) = Some name ->
  (forall h, (K _ h (Register_jprobe (AtSymbol "acpi_os_write_port"))).1 = 0) ->
  (forall h, (K _ h (Register_jprobe (AtSymbol name))).1 <> 0) ->
  length (jp_addr s) = 12%nat -> kp_addr s = [0; 0; 0] ->
  holds L0 h L -> RJprobe (AtSymbol "acpi_os_write_port") ∉ L ->
  wp K my_init (fun r s' h' => r = 1 /\ holds L0 h' L /\
    wp K my_exit (fun _ _ h'' => held L0 h'' = None) s' h') s h.
Proof.
  intros Hi Hname Hfirst Href Hj Hk HL Hnot. unfold my_init. apply wp_bind.
  eapply wp_mono; [apply (wp_and _ _ _ _ _ _
    (register_jprobes_spec K L0 L 12 0 s h eq_refl ltac:(lia) ltac:(split; [done|lia]) HL)
    (first_refused K i name s h Hi Hname Hfirst register_jprobe_addr Href Hj))|].
  intros r s1 h1 [[Hk1 Hl] (-> & Hj1 & Ha1)]. destruct Hl as [[? _]|[_ H1]]; [done|].
  simpl. wp_go. split_and!; [done|done|]. apply (exit_unheld K L0 L); [by split|congruence|done..].
Qed.

(** ** Concrete instances *)

(** Nine ports from 0xcf0 end just below the register. *)
Lemma efi_ioperm_reports_witness :
  wp quiet_kernel (myjp_ioperm 0xcf0 9 1) (fun r s' h' => r = 0 /\ s' = statics /\
    h' = [Ev Jprobe_return tt; Ev Dump_stack tt;
      Ev (Printk "ioperm: from=0x%lx, num=%lu, turn_on=%d\n"
            [PInt 0xcf0; PInt 9; PInt 1]) tt]) statics [].
Proof.
  exact (efi_ioperm_reports quiet_kernel 0xcf0 9 1 statics []
    ltac:(unfold in_ulong; lia) ltac:(unfold in_ulong; lia) ltac:(unfold in_ulong; lia)).
Defined.

(** A kernel without [sys_ioperm]. *)
Definition no_ioperm : kernel := fun R h c =>
  match c in kcall R return R with
  | Register_jprobe a => if decide (a = AtSymbol "sys_ioperm") then (-2, 0) else (0, 4096)
  | c => quiet c
  end.
#[export] Instance no_ioperm_spec : KprobeSpec no_ioperm.
Proof. split; simpl; intros h a; [by destruct (decide _)|done]. Qed.

Lemma efi_failed_load_unload_witness :
  wp no_ioperm my_init (fun r s' h' => r = 1 /\ holds [] h' [] /\
    wp no_ioperm my_exit (fun _ _ h'' => held [] h'' = None) s' h') statics [].
Proof.
  apply (efi_failed_load_unload no_ioperm 1 "sys_ioperm" [] []);
    [lia|reflexivity|reflexivity|intros h; discriminate|reflexivity|reflexivity
    |by apply holds_of_held|apply not_elem_of_nil].
Defined.
