(* ===== verification/EfiText.v ===== *)
(** * kprobes/efi_reboot_monitor.c: filling the two text buffers

    [set_efi_name] and [set_guid] call nothing: they only store characters, and
    obey every discipline that lets the contents of the two buffers change as
    such stores change them. *)

From S2P Require Import Prelude Kernel Prog CString Discipline Efi.

#[local] Open Scope Z_scope.

Lemma u8_byte b : 0 <= u8 b < 256.
Proof. apply (wrapu_range 8). lia. Qed.

Lemma bytes_ok_repeat n : bytes_ok (replicate n 0).
Proof. apply Forall_replicate. lia. Qed.

Lemma fmt_02x_bytes b : 0 <= b < 256 -> bytes_ok (fmt_02x b ++ [0]).
Proof.
  intros Hb. rewrite fmt_02x_byte by done.
  assert (0 <= b / 16 < 16) by (split; [apply Z.div_pos|apply Z.div_lt_upper_bound]; lia).
  pose proof (hexdigit_range (b / 16) ltac:(lia)).
  pose proof (Z.mod_pos_bound b 16 ltac:(lia)) as Hm. pose proof (hexdigit_range _ Hm).
  repeat constructor; lia.
Qed.

(** The content [m] may become [m'] in a buffer of bytes. *)
Definition fills (V : Prop) (m m' : bytes) : Prop :=
  length m' = length m /\ (V -> bytes_ok m -> bytes_ok m').

Lemma fills_store (V : Prop) m off d m' :
  store m off d = Some m' -> (V -> bytes_ok d) -> fills V m m'.
Proof.
  intros Hs Hd. split; [by eapply store_length|]. intros HV Hm.
  eapply store_Forall; [exact Hs|done|auto].
Qed.
Lemma fills_store1 (V : Prop) m i x m' : store1 m i x = Some m' -> 0 <= x < 256 -> fills V m m'.
Proof.
  intros Hs Hx. split; [by eapply store1_length|]. intros _ Hm. by eapply store1_Forall.
Qed.

Section fill.
Context {Q : Type} (D : discipline state Q) (V : Prop).
Context (Hname : forall s s' m, d_state D s -> d_state D s' ->
  fills V (efi_name s) m -> d_state D (set_name m s')).
Context (Hguid : forall s s' m, d_state D s -> d_state D s' ->
  fills V (vendor_guid s) m -> d_state D (set_vguid m s')).

Lemma obeys_copy_name q msg cnt (post : Q -> unit -> Prop) :
  post q tt -> obeys D q (copy_name msg cnt) post.
Proof.
  intros Hp. revert cnt. induction msg as [|c msg IH]; intros cnt; [done|]. cbn [copy_name].
  destruct (c =? 0); [by apply obeys_skip|]. obeys_go; [|auto]. intros s' Hs'.
  eapply Hname; [exact Hs|done|]. eapply fills_store1; [exact Ha|apply u8_byte].
Qed.

Lemma obeys_set_efi_name q msg (post : Q -> unit -> Prop) :
  post q tt -> obeys D q (set_efi_name msg) post.
Proof.
  intros Hp. unfold set_efi_name. obeys_go; [|by apply obeys_copy_name]. intros s' Hs'.
  eapply Hname; [exact Hs|done|]. eapply fills_store; [exact Ha|]. intros _.
  apply bytes_ok_repeat.
Qed.

Context (v : bytes) (HV : V -> bytes_ok v).

Lemma obeys_put_bytes q cnt l (post : Q -> Z -> Prop) :
  (forall c, post q c) -> obeys D q (put_bytes v cnt l) post.
Proof.
  intros Hp. revert cnt. induction l as [|i l IH]; intros cnt; cbn [put_bytes];
    [by apply obeys_ret|]. obeys_go; [|auto]. intros s' Hs'.
  eapply Hguid; [exact Hs|done|]. eapply fills_store; [exact Ha0|]. intros Hv.
  apply fmt_02x_bytes. by apply (load1_Forall (fun b => 0 <= b < 256) v i); [|apply HV].
Qed.

Lemma obeys_put_dash q cnt (post : Q -> Z -> Prop) :
  (forall c, post q c) -> obeys D q (put_dash cnt) post.
Proof.
  intros Hp. unfold put_dash. obeys_go; [|auto]. intros s' Hs'.
  eapply Hguid; [exact Hs|done|]. eapply fills_store1; [exact Ha|done].
Qed.

Lemma obeys_set_guid q (post : Q -> unit -> Prop) :
  post q tt -> obeys D q (set_guid v) post.
Proof.
  intros Hp. unfold set_guid. apply obeys_bind, obeys_get. intros s Hs. obeys_go.
  - intros s' Hs'. eapply Hguid; [exact Hs|done|]. eapply fills_store; [exact Ha|]. intros _.
    apply bytes_ok_repeat.
  - do 4 (apply obeys_put_bytes; intros ?; apply obeys_bind, obeys_put_dash; intros ?;
      apply obeys_bind). apply obeys_put_bytes. intros ?. by apply obeys_skip.
Qed.
End fill.
