(* ===== verification/Irq.v ===== *)
(** * irq/: interrupt handlers and deferred work

    irq_delayed.c, irq_tasklet.c, simple_tasklet.c and myinterrupt.c.  The
    handlers of irq_delayed.c run side by side ([Threads]): the kernel state is
    the line, the pending bit of the tasklet and the one of the work item. *)

From S2P Require Import Prelude Kernel Prog Threads.

Definition IRQ_NONE : Z := 0.
Definition IRQ_HANDLED : Z := 1.

(** ** irq/irq_delayed.c *)
Module IrqDelayed.
Record state := State {
  irq : Z; delay : Z; counter_bh : Z; counter_th : Z; counter_wq : Z;
  my_data_jiffies : Z; my_workqueue : Z }.
Definition inc_bh (s : state) : state :=
  State (irq s) (delay s) (s32 (counter_bh s + 1)) (counter_th s) (counter_wq s)
    (my_data_jiffies s) (my_workqueue s).
Definition inc_th (s : state) : state :=
  State (irq s) (delay s) (counter_bh s) (s32 (counter_th s + 1)) (counter_wq s)
    (my_data_jiffies s) (my_workqueue s).
Definition inc_wq (s : state) : state :=
  State (irq s) (delay s) (counter_bh s) (counter_th s) (s32 (counter_wq s + 1))
    (my_data_jiffies s) (my_workqueue s).
Definition set_jiffies (j : Z) (s : state) : state :=
  State (irq s) (delay s) (counter_bh s) (counter_th s) (counter_wq s) j (my_workqueue s).
Definition set_workqueue (p : Z) (s : state) : state :=
  State (irq s) (delay s) (counter_bh s) (counter_th s) (counter_wq s) (my_data_jiffies s) p.
Definition reset_counters (s : state) : state :=
  State (irq s) (delay s) 0 0 0 (my_data_jiffies s) (my_workqueue s).

Definition t_func : prog state unit :=
  modify inc_bh ;;
  s <- get ;;
  j <- call Jiffies ;;
  printk "In tasklet: counter_th = %d, counter_bh = %d, jiffies = %ld,%ld\n"
    [PInt (counter_th s); PInt (counter_bh s); PInt (my_data_jiffies s); PInt j].

Definition w_func : prog state unit :=
  modify inc_wq ;;
  s <- get ;;
  j <- call Jiffies ;;
  printk "In workqueue: counter_th = %d, counter_wq = %d, jiffies = %ld,%ld\n"
    [PInt (counter_th s); PInt (counter_wq s); PInt (my_data_jiffies s); PInt j].

Definition my_interrupt : prog state Z :=
  modify inc_th ;;
  j <- call Jiffies ;;
  modify (set_jiffies j) ;;
  call Tasklet_schedule ;;
  s <- get ;;
  call (Queue_work (my_workqueue s)) ;;
  s <- get ;;
  call (Mdelay (delay s)) ;;
  Ret IRQ_NONE.

(** The cookie is the address of [my_data]. *)
Definition my_data : Z := 1.

Definition my_init : prog state Z :=
  p <- call (Create_workqueue "my_work") ;;
  modify (set_workqueue p) ;;
  modify reset_counters ;;
  s <- get ;;
  call (Request_irq (irq s) "my_int" my_data) ;;
  printk "Successfully loaded\n" [] ;;
  Ret 0.

Definition my_exit : prog state unit :=
  s <- get ;;
  call (Free_irq (irq s) my_data) ;;
  s <- get ;;
  printk "counter_th = %d, counter_wq = %d, counter_bh = %d\n"
    [PInt (counter_th s); PInt (counter_wq s); PInt (counter_bh s)] ;;
  call (Destroy_workqueue (my_workqueue s)).
End IrqDelayed.

(** ** irq/irq_tasklet.c *)
Module IrqTasklet.
Record state := State {
  irq : Z; delay : Z; counter_bh : Z; counter_th : Z; my_data_jiffies : Z }.
Definition inc_bh (s : state) : state :=
  State (irq s) (delay s) (s32 (counter_bh s + 1)) (counter_th s) (my_data_jiffies s).
Definition inc_th (s : state) : state :=
  State (irq s) (delay s) (counter_bh s) (s32 (counter_th s + 1)) (my_data_jiffies s).
Definition set_jiffies (j : Z) (s : state) : state :=
  State (irq s) (delay s) (counter_bh s) (counter_th s) j.
Definition reset_counters (s : state) : state :=
  State (irq s) (delay s) 0 0 (my_data_jiffies s).

Definition t_func : prog state unit :=
  modify inc_bh ;;
  s <- get ;;
  j <- call Jiffies ;;
  printk "In BH: counter_th = %d, counter_bh = %d, jiffies = %ld,%ld\n"
    [PInt (counter_th s); PInt (counter_bh s); PInt (my_data_jiffies s); PInt j].

Definition my_interrupt : prog state Z :=
  modify inc_th ;;
  j <- call Jiffies ;;
  modify (set_jiffies j) ;;
  call Tasklet_schedule ;;
  s <- get ;;
  call (Mdelay (delay s)) ;;
  Ret IRQ_NONE.

Definition my_data : Z := 1.

Definition my_init : prog state Z :=
  modify reset_counters ;;
  s <- get ;;
  call (Request_irq (irq s) "my_int" my_data) ;;
  printk "Successfully loaded\n" [] ;;
  Ret 0.

Definition my_exit : prog state unit :=
  s <- get ;;
  call (Free_irq (irq s) my_data) ;;
  s <- get ;;
  printk "counter_th = %d, counter_bh = %d\n" [PInt (counter_th s); PInt (counter_bh s)].
End IrqTasklet.

(** ** irq/simple_tasklet.c *)
Module SimpleTasklet.
Definition tasklet_func : prog unit unit := printk "Tasklet called.\n" [].
Definition drv_init : prog unit Z :=
  printk "drv_init called\n" [] ;;
  call Tasklet_schedule ;;
  Ret 0.
Definition drv_exit : prog unit unit :=
  printk "drv_exit called\n" [] ;;
  call Tasklet_kill.
End SimpleTasklet.

(** ** irq/myinterrupt.c *)
Module MyInterrupt.
Section driver.
Context (NR_IRQS : Z).

Record state := State { my_dev_id : list Z }.
Definition statics : state := State (replicate (Z.to_nat NR_IRQS) 0).

Definition my_handler : prog state Z := Ret IRQ_HANDLED.

(** [my_dev_id[i] = v] *)
Definition set_dev_id (i v : Z) : prog state unit :=
  s <- get ;;
  m <- access (store1 (my_dev_id s) i v) ;;
  put (State m).

(** The cookie of a line is the address of its element: its index. *)
Definition my_init : prog state Z :=
  for_each (seqZ 0 NR_IRQS) (fun irq =>
    ret <- call (Request_irq irq "myirq" irq) ;;
    if ret <? 0 then set_dev_id irq (-1)
    else
      set_dev_id irq irq ;;
      printk "myirq is regstered on %d\n" [PInt irq]) ;;
  Ret 0.

Definition my_exit : prog state unit :=
  for_each (seqZ 0 NR_IRQS) (fun irq =>
    s <- get ;;
    v <- access (load1 (my_dev_id s) irq) ;;
    if v >=? 0 then call (Free_irq irq irq) else skip).
End driver.
End MyInterrupt.

(** ** The handlers of irq_delayed.c side by side *)

Module Delayed.
Import IrqDelayed.

(** The pending bits, and how many interrupts were taken and how many times
    the tasklet and the work item were started. *)
Record kenv := KEnv {
  tasklet_pending : bool; work_pending : bool; taken : Z; ran_bh : Z; ran_wq : Z }.

Inductive kind := KIrq | KTasklet | KWork.

(** [tasklet_schedule] and [queue_work] set a bit that may be set already, in
    which case the deferred function will run once for both. *)
Definition api (e : kenv) (R : Set) (c : kcall R) : R -> kenv -> Prop :=
  match c in kcall R return R -> kenv -> Prop with
  | Tasklet_schedule => fun _ e' =>
      e' = KEnv true (work_pending e) (taken e) (ran_bh e) (ran_wq e)
  | Queue_work _ => fun r e' =>
      r = negb (work_pending e) /\
      e' = KEnv (tasklet_pending e) true (taken e) (ran_bh e) (ran_wq e)
  | _ => fun _ e' => e' = e
  end.

(** An interrupt may arrive at any moment; a deferred function starts when its
    bit is set, and clears it first. *)
Inductive spawn (e : kenv) : kind -> prog state unit -> kenv -> Prop :=
| spawn_irq :
    spawn e KIrq (my_interrupt ;; Ret tt)
      (KEnv (tasklet_pending e) (work_pending e) (taken e + 1) (ran_bh e) (ran_wq e))
| spawn_tasklet :
    tasklet_pending e = true ->
    spawn e KTasklet t_func (KEnv false (work_pending e) (taken e) (ran_bh e + 1) (ran_wq e))
| spawn_work :
    work_pending e = true ->
    spawn e KWork w_func (KEnv (tasklet_pending e) false (taken e) (ran_bh e) (ran_wq e + 1)).

Abbreviation config := (Threads.config state kenv kind).

(** The state [my_init] leaves. *)
Definition initial (c : config) : Prop :=
  pool c = [] /\ env c = KEnv false false 0 0 0 /\
  counter_th (mem c) = 0 /\ counter_bh (mem c) = 0 /\ counter_wq (mem c) = 0.

(** Where an interrupt handler can be between two kernel calls. *)
Definition at_mdelay (d : Z) : prog state unit := Call (Mdelay d) (fun _ => Ret tt).
Definition at_queue (wq : Z) : prog state unit :=
  Call (Queue_work wq) (fun _ => Get (fun s => at_mdelay (delay s))).
Definition at_schedule : prog state unit :=
  Call Tasklet_schedule (fun _ => Get (fun s => at_queue (my_workqueue s))).
Definition at_jiffies : prog state unit :=
  Call Jiffies (fun j => Get (fun s => Put (set_jiffies j s) at_schedule)).

Lemma settle_interrupt s : settle (my_interrupt ;; Ret tt) s = (at_jiffies, inc_th s).
Proof. reflexivity. Qed.

(** The handlers that have counted an interrupt and not yet scheduled the
    tasklet, and those that have not yet queued the work item. *)
Definition owes_bh (x : kind * prog state unit) : Z :=
  match x with
  | (KIrq, Call c _) => match c with Jiffies | Tasklet_schedule => 1 | _ => 0 end
  | _ => 0
  end.
Definition owes_wq (x : kind * prog state unit) : Z :=
  match x with
  | (KIrq, Call c _) => match c with Jiffies | Tasklet_schedule | Queue_work _ => 1 | _ => 0 end
  | _ => 0
  end.

Inductive thread_ok : kind * prog state unit -> Prop :=
| ok_jiffies : thread_ok (KIrq, at_jiffies)
| ok_schedule : thread_ok (KIrq, at_schedule)
| ok_queue wq : thread_ok (KIrq, at_queue wq)
| ok_mdelay d : thread_ok (KIrq, at_mdelay d)
| ok_deferred t fmt f : t <> KIrq -> thread_ok (t, Call Jiffies (fun j => Call (Printk fmt (f j)) Ret))
| ok_printk t fmt args : t <> KIrq -> thread_ok (t, Call (Printk fmt args) Ret)
| ok_done t : thread_ok (t, Ret tt).

Definition bit (b : bool) : Z := if b then 1 else 0.

Lemma bit_nonneg b : 0 <= bit b.
Proof. destruct b; simpl; lia. Qed.

Record inv (c : config) : Prop := Inv {
  inv_th : counter_th (mem c) = s32 (taken (env c));
  inv_bh : counter_bh (mem c) = s32 (ran_bh (env c));
  inv_wq : counter_wq (mem c) = s32 (ran_wq (env c));
  inv_pool : Forall thread_ok (pool c);
  inv_nonneg : 0 <= ran_bh (env c) /\ 0 <= ran_wq (env c);
  inv_bh_le : ran_bh (env c) + bit (tasklet_pending (env c)) + total owes_bh (pool c)
              <= taken (env c);
  inv_wq_le : ran_wq (env c) + bit (work_pending (env c)) + total owes_wq (pool c)
              <= taken (env c);
  inv_bh_some : 0 < taken (env c) ->
    0 < ran_bh (env c) + bit (tasklet_pending (env c)) + total owes_bh (pool c);
  inv_wq_some : 0 < taken (env c) ->
    0 < ran_wq (env c) + bit (work_pending (env c)) + total owes_wq (pool c);
}.

Lemma owes_nonneg x : 0 <= owes_bh x /\ 0 <= owes_wq x.
Proof.
  destruct x as [[] p]; [|done..]. destruct p as [|k|s' p|R c k|]; simpl; try lia.
  destruct c; simpl; lia.
Qed.

Lemma total_owes l : 0 <= total owes_bh l /\ 0 <= total owes_wq l.
Proof. split; apply total_nonneg; intros x; apply owes_nonneg. Qed.

Lemma initial_inv c : initial c -> inv c.
Proof.
  intros (Hp & He & Ht & Hb & Hw). destruct c as [pl m e]. simpl in *. subst.
  split; simpl; try lia; try done.
Qed.

#[local] Ltac thread_phase :=
  first [apply ok_schedule | apply ok_queue | apply ok_mdelay | apply ok_jiffies
        | by apply ok_deferred | by apply ok_printk | apply ok_done].

(** What one call of one handler changes. *)
Lemma advance_inv t p s e p' s' e' :
  thread_ok (t, p) -> advance api p s e p' s' e' ->
  thread_ok (t, p') /\
  counter_th s' = counter_th s /\ counter_bh s' = counter_bh s /\ counter_wq s' = counter_wq s /\
  taken e' = taken e /\ ran_bh e' = ran_bh e /\ ran_wq e' = ran_wq e /\
  bit (tasklet_pending e') + owes_bh (t, p') <= bit (tasklet_pending e) + owes_bh (t, p) /\
  bit (work_pending e') + owes_wq (t, p') <= bit (work_pending e) + owes_wq (t, p) /\
  (0 < bit (tasklet_pending e) + owes_bh (t, p) ->
   0 < bit (tasklet_pending e') + owes_bh (t, p')) /\
  (0 < bit (work_pending e) + owes_wq (t, p) -> 0 < bit (work_pending e') + owes_wq (t, p')).
Proof.
  intros Hok. inversion Hok; subst; simpl; intros Ha; try done;
    destruct Ha as (r & He & [= <- <-]); simpl in He;
    first [subst e' | destruct He as [_ ->]]; try match type of r with unit => destruct r end; simpl.
  all: try (destruct t; [done|..]);
    (split; [thread_phase|]); split_and!; try done;
    destruct (tasklet_pending e), (work_pending e); simpl; lia.
Qed.

Lemma total_ge l i x :
  l !! i = Some x -> owes_bh x <= total owes_bh l /\ owes_wq x <= total owes_wq l.
Proof.
  intros Hi. pose proof (total_owes (<[i := (KTasklet, Ret tt)]> l)) as [H1 H2].
  rewrite (total_insert owes_bh _ _ _ _ Hi) in H1.
  rewrite (total_insert owes_wq _ _ _ _ Hi) in H2. simpl in *. lia.
Qed.

Lemma delayed_step_inv c c' : inv c -> step api spawn c c' -> inv c'.
Proof.
  intros [Hth Hbh Hwq Hpool Hnn Hble Hwle Hbs Hws] Hs. destruct c as [pl m e]. simpl in *.
  destruct Hs as [i t p p' s' e' Hi Ha|t p e' Hsp]; simpl in *.
  - assert (thread_ok (t, p)) as Hok by (by eapply Forall_lookup_1 in Hpool).
    destruct (advance_inv _ _ _ _ _ _ _ Hok Ha)
      as (Hok' & E1 & E2 & E3 & E4 & E5 & E6 & Hb & Hw & Hb' & Hw').
    split; simpl; rewrite ?(total_insert _ _ _ _ _ Hi), ?E1, ?E2, ?E3, ?E4, ?E5, ?E6; try done.
    all: pose proof (total_ge _ _ _ Hi) as [G1 G2].
    1: by apply Forall_insert.
    all: try lia.
    all: pose proof (owes_nonneg (t, p)); pose proof (owes_nonneg (t, p')).
    all: pose proof (bit_nonneg (tasklet_pending e)); pose proof (bit_nonneg (work_pending e)).
    all: pose proof (bit_nonneg (tasklet_pending e')); pose proof (bit_nonneg (work_pending e')).
    all: lia.
  - destruct (total_owes pl) as [G1 G2].
    pose proof (bit_nonneg (tasklet_pending e)); pose proof (bit_nonneg (work_pending e)).
    destruct Hsp as [|Hp|Hp]; simpl in *; rewrite ?Hp in *; simpl in *; split; simpl;
      rewrite ?total_app, ?Hth, ?Hbh, ?Hwq; autorewrite with cint; simpl; try done; try lia.
    all: apply Forall_app; split; [done|]; apply Forall_singleton; thread_phase.
Qed.

Lemma reachable_delayed c0 c : initial c0 -> reachable api spawn c0 c -> inv c.
Proof.
  intros H0 Hr. eapply reachable_inv; [by apply initial_inv|exact delayed_step_inv|exact Hr].
Qed.
End Delayed.

(** ** The lines of myinterrupt.c *)

(** [request_irq] returns 0 or a negative error. *)
Class IrqSpec (K : kernel) := {
  request_irq_ret : forall h i name c, K _ h (Request_irq i name c) <= 0;
}.

Module Lines.
Import MyInterrupt.

(** The lines among [l] whose element of [my_dev_id] is not negative. *)
Definition registered (m : list Z) (l : list Z) : list resource :=
  omap (fun i => v ← load1 m i; if 0 <=? v then Some (RIrq i i) else None) l.

Lemma registered_app m l1 l2 : registered m (l1 ++ l2) = registered m l1 ++ registered m l2.
Proof. apply omap_app. Qed.

(** Elements that are not looked at do not matter. *)
Lemma registered_insert m i v l :
  Forall (fun j => 0 <= j < i) l -> registered (<[Z.to_nat i := v]> m) l = registered m l.
Proof.
  induction 1 as [|j l Hj _ IH]; [done|]. simpl. rewrite IH.
  unfold load1. by rewrite list_lookup_insert_ne by lia.
Qed.

Section lines.
Context (K : kernel) `{!IrqSpec K} (NR_IRQS : Z) (L0 L : list resource).

Lemma my_init_lines s h :
  zlen (my_dev_id s) = NR_IRQS -> holds L0 h L ->
  wp K (my_init NR_IRQS) (fun r s' h' => r = 0 /\ zlen (my_dev_id s') = NR_IRQS /\
    holds L0 h' (registered (my_dev_id s') (seqZ 0 NR_IRQS) ++ L)) s h.
Proof.
  intros Hlen HL. unfold my_init. apply wp_bind.
  eapply wp_for_each with (I := fun dn s' h' => zlen (my_dev_id s') = NR_IRQS /\
    holds L0 h' (registered (my_dev_id s') dn ++ L)); [by split| |].
  - intros dn i todo s1 h1 Hseq [Hl1 H1].
    destruct (seqZ_split _ _ _ _ Hseq) as (_ & Hi & Hdn).
    assert (Forall (fun j => 0 <= j < i) dn) as Hlt.
    { rewrite Hdn. apply Forall_forall. intros j Hj%elem_of_seqZ. lia. }
    assert (forall v, load1 (<[Z.to_nat i := v]> (my_dev_id s1)) i = Some v) as Hload.
    { intros v. unfold load1. rewrite (proj2 (Z.leb_le 0 i)) by lia.
      apply list_lookup_insert_eq. lia. }
    wp_go. pose proof (request_irq_ret h1 i "myirq" i) as Hr. rewrite <- E in Hr.
    unfold set_dev_id. destruct (r <? 0) eqn:Hneg; wp_go;
      (eapply wp_access; [apply store1_ok; lia|]); wp_go; simpl;
      (split; [by rewrite length_insert|]);
      rewrite registered_app, registered_insert by done; simpl; rewrite Hload; simpl.
    + rewrite app_nil_r. apply holds_idle; [done|done|]. simpl. unfold when_zero.
      by rewrite (proj2 (Z.eqb_neq r 0)) by (apply Z.ltb_lt in Hneg; lia).
    + rewrite (proj2 (Z.leb_le 0 i)) by lia. apply holds_idle; [|done..].
      rewrite (Permutation_app_comm (registered _ _)). simpl.
      apply (holds_acquire _ _ _ _ [RIrq i i] H1); [done|]. simpl. unfold when_zero.
      apply Z.ltb_ge in Hneg. by rewrite (proj2 (Z.eqb_eq r 0)) by lia.
  - intros s1 h1 [Hl1 H1]. wp_go. by split_and!.
Qed.

Lemma my_exit_lines s h :
  zlen (my_dev_id s) = NR_IRQS ->
  holds L0 h (registered (my_dev_id s) (seqZ 0 NR_IRQS) ++ L) ->
  wp K (my_exit NR_IRQS) (fun _ _ h' => holds L0 h' L) s h.
Proof.
  intros Hlen HL. unfold my_exit.
  eapply wp_for_each with (I := fun dn s' h' => s' = s /\ exists todo,
    seqZ 0 NR_IRQS = dn ++ todo /\ holds L0 h' (registered (my_dev_id s) todo ++ L)).
  - split; [done|]. by exists (seqZ 0 NR_IRQS).
  - intros dn i todo s1 h1 Hl [-> (todo' & Hl' & H1)].
    assert (todo' = i :: todo) as -> by (rewrite Hl in Hl'; by apply app_inv_head in Hl').
    destruct (seqZ_split _ _ _ _ Hl) as (_ & Hi & _). wp_go.
    destruct (load1_ok (my_dev_id s) i ltac:(lia)) as (v & Hv & _).
    eapply wp_access; [exact Hv|]. simpl in H1. rewrite Hv in H1. simpl in H1.
    rewrite Z.geb_leb. destruct (0 <=? v); wp_go; (split; [done|]); exists todo;
      (split; [by rewrite <- app_assoc|]); [by eapply holds_release|done].
  - intros s1 h1 [-> (todo & Ht & H1)].
    rewrite <- (app_nil_r (seqZ 0 NR_IRQS)) in Ht at 1. apply app_inv_head in Ht. by subst todo.
Qed.
End lines.
End Lines.

(** Whether the tasklet is scheduled after a history: [tasklet_kill] waits for
    it to have run. *)
Fixpoint tasklet_scheduled (h : history) : bool :=
  match h with
  | [] => false
  | Ev c r :: h' =>
      match c with
      | Tasklet_schedule => true
      | Tasklet_kill => false
      | _ => tasklet_scheduled h'
      end
  end.

(** ** Properties *)

(** Nothing is running and nothing is scheduled. *)
Definition idle (c : Delayed.config) : Prop :=
  Forall (fun x => x.2 = Ret tt) (pool c) /\
  Delayed.tasklet_pending (env c) = false /\ Delayed.work_pending (env c) = false.

(** C5: however the interrupts, the tasklet and the work item of irq_delayed.c
    interleave, on any number of processors, each counter is exactly the
    number of times its handler was started (as a 32-bit number); neither
    deferred handler was started more often than there were interrupts; and
    once all is quiet after an interrupt, both were started. *)
Theorem irq_delayed_counts c0 c :
  Delayed.initial c0 -> reachable Delayed.api Delayed.spawn c0 c ->
  IrqDelayed.counter_th (mem c) = s32 (Delayed.taken (env c)) /\
  IrqDelayed.counter_bh (mem c) = s32 (Delayed.ran_bh (env c)) /\
  IrqDelayed.counter_wq (mem c) = s32 (Delayed.ran_wq (env c)) /\
  0 <= Delayed.ran_bh (env c) <= Delayed.taken (env c) /\
  0 <= Delayed.ran_wq (env c) <= Delayed.taken (env c) /\
  (idle c -> 0 < Delayed.taken (env c) ->
   0 < Delayed.ran_bh (env c) /\ 0 < Delayed.ran_wq (env c)).
Proof.
  intros H0 Hr. destruct (Delayed.reachable_delayed c0 c H0 Hr) as [? ? ? _ ? ? ? Hb Hw].
  destruct (Delayed.total_owes (pool c)) as [G1 G2].
  pose proof (Delayed.bit_nonneg (Delayed.tasklet_pending (env c))).
  pose proof (Delayed.bit_nonneg (Delayed.work_pending (env c))).
  split_and!; try done; try lia. intros (Hp & Ht & Hq) Hpos.
  assert (total Delayed.owes_bh (pool c) = 0 /\ total Delayed.owes_wq (pool c) = 0) as [T1 T2].
  { clear -Hp. induction Hp as [|[t p] l Hx _ [IH1 IH2]]; [done|]. simpl in Hx. subst p.
    destruct t; simpl; lia. }
  rewrite Ht, T1 in Hb. rewrite Hq, T2 in Hw. simpl in *. specialize (Hb Hpos). specialize (Hw Hpos).
  lia.
Qed.

(** C6: myinterrupt.c registers its handler on every line that accepts it and
    its unload unregisters exactly those, for every number of lines and whichever
    lines refuse. *)
Theorem myinterrupt_load_unload (K : kernel) `{!IrqSpec K} NR_IRQS L0 L s h :
  zlen (MyInterrupt.my_dev_id s) = NR_IRQS -> holds L0 h L ->
  wp K (MyInterrupt.my_init NR_IRQS) (fun r s' h' => r = 0 /\
    holds L0 h' (Lines.registered (MyInterrupt.my_dev_id s') (seqZ 0 NR_IRQS) ++ L) /\
    wp K (MyInterrupt.my_exit NR_IRQS) (fun _ _ h'' => holds L0 h'' L) s' h') s h.
Proof.
  intros Hl HL. eapply wp_mono; [by apply Lines.my_init_lines|].
  intros r s' h' (-> & Hl' & HL'). split_and!; [done|done|]. by apply Lines.my_exit_lines.
Qed.

(** the unload of irq_tasklet.c does not wait for the tasklet: after an
    interrupt it is still scheduled when [my_exit] returns, and would run code
    that is gone; the unload of simple_tasklet.c kills it. *)
Theorem irq_tasklet_unload_pending (K : kernel) s h :
  wp K (IrqTasklet.my_init ;; IrqTasklet.my_interrupt ;; IrqTasklet.my_exit)
    (fun _ _ h' => tasklet_scheduled h' = true) s h /\
  wp K (SimpleTasklet.drv_init ;; SimpleTasklet.drv_exit)
    (fun _ _ h' => tasklet_scheduled h' = false) tt h.
Proof.
  split.
  - unfold IrqTasklet.my_init, IrqTasklet.my_interrupt, IrqTasklet.my_exit. wp_go. done.
  - unfold SimpleTasklet.drv_init, SimpleTasklet.drv_exit. wp_go. done.
Qed.

(** ** Concrete instances *)

Definition loaded : Delayed.config :=
  Config [] (IrqDelayed.State 5 0 0 0 0 0 1) (Delayed.KEnv false false 0 0 0).

(** The processor answers one handler at a time. *)
Definition answers (e : Delayed.kenv) (R : Set) (c : kcall R) : R * Delayed.kenv :=
  match c in kcall R return R * Delayed.kenv with
  | Tasklet_schedule =>
      (tt, Delayed.KEnv true (Delayed.work_pending e) (Delayed.taken e) (Delayed.ran_bh e)
             (Delayed.ran_wq e))
  | Queue_work _ =>
      (negb (Delayed.work_pending e),
       Delayed.KEnv (Delayed.tasklet_pending e) true (Delayed.taken e) (Delayed.ran_bh e)
         (Delayed.ran_wq e))
  | c => (quiet c, e)
  end.
Lemma irq_answers_api e R (c : kcall R) :
  Delayed.api e R c (answers e R c).1 (answers e R c).2.
Proof. by destruct c. Qed.

(** An interrupt, and then the tasklet and the work item, each to its end. *)
Definition interrupted : Delayed.config :=
  solo_config answers [] 4 Delayed.KIrq (IrqDelayed.my_interrupt ;; Ret tt) (mem loaded)
    (Delayed.KEnv false false 1 0 0).
Definition half_served : Delayed.config :=
  solo_config answers (pool interrupted) 4 Delayed.KTasklet IrqDelayed.t_func (mem interrupted)
    (Delayed.KEnv false true 1 1 0).
Definition served : Delayed.config :=
  solo_config answers (pool half_served) 4 Delayed.KWork IrqDelayed.w_func (mem half_served)
    (Delayed.KEnv false false 1 1 1).

Lemma irq_delayed_counts_witness :
  idle served /\ IrqDelayed.counter_th (mem served) = s32 1 /\
  0 < Delayed.ran_bh (env served) /\ 0 < Delayed.ran_wq (env served).
Proof.
  assert (Delayed.initial loaded) as H0 by (by split_and!).
  assert (reachable Delayed.api Delayed.spawn loaded served) as Hr.
  { unfold reachable. etrans; [|etrans].
    - exact (solo_reachable _ _ answers 4 [] Delayed.KIrq _ (mem loaded) (env loaded) _ irq_answers_api
               (Delayed.spawn_irq (env loaded))).
    - exact (solo_reachable _ _ answers 4 (pool interrupted) Delayed.KTasklet _ (mem interrupted)
               (env interrupted) _ irq_answers_api (Delayed.spawn_tasklet (env interrupted) eq_refl)).
    - exact (solo_reachable _ _ answers 4 (pool half_served) Delayed.KWork _ (mem half_served)
               (env half_served) _ irq_answers_api (Delayed.spawn_work (env half_served) eq_refl)). }
  assert (idle served) as Hi by (split; [by repeat constructor|by split]).
  destruct (irq_delayed_counts loaded served H0 Hr) as (H1 & _ & _ & _ & _ & H6).
  exact (conj Hi (conj H1 (H6 Hi eq_refl))).
Defined.

(** A kernel in which the odd lines are taken. *)
Definition odd_taken : kernel := fun _ _ c =>
  match c in kcall R return R with
  | Request_irq i _ _ => if Z.odd i then -16 else 0
  | c => quiet c
  end.

#[export] Instance odd_taken_irq : IrqSpec odd_taken.
Proof. split. intros h i name c. simpl. destruct (Z.odd i); lia. Qed.

Lemma myinterrupt_load_unload_witness :
  wp odd_taken (MyInterrupt.my_init 4) (fun r s' h' => r = 0 /\
    holds [] h' (Lines.registered (MyInterrupt.my_dev_id s') (seqZ 0 4) ++ []) /\
    wp odd_taken (MyInterrupt.my_exit 4) (fun _ _ h'' => holds [] h'' []) s' h')
    (MyInterrupt.statics 4) [].
Proof.
  apply (myinterrupt_load_unload odd_taken); [reflexivity|by apply holds_of_held].
Defined.
