(* ===== verification/Sync.v ===== *)
(** * synchronization/: a semaphore shared by two modules, and a spin lock

    sema_mod1.c owns a semaphore meant to keep sema_mod2.c out while it is
    loaded; spindead.c sleeps with a spin lock held.  The semaphore is part of
    the kernel ([SemSpec] states its documented behaviour for one process after
    another); the threads of spindead.c run side by side ([Threads]). *)

From S2P Require Import Prelude Kernel Prog CString Threads.

Definition EBUSY : Z := 16.

(** ** synchronization/sema_mod1.c *)
Module SemaMod1.
Record state := State { major_no : Z }.

Definition my_open : prog state Z :=
  r <- call Down_trylock ;;
  if negb (r =? 0) then
    n <- call Sem_count ;;
    printk "down_trylock error. my_sem.count : %d\n" [PInt n] ;;
    call Up ;;
    Ret 0
  else
    n <- call Sem_count ;;
    printk "open is called. my_sem.count : %d\n" [PInt n] ;;
    call Up ;;
    Ret 0.

Definition my_init : prog state Z :=
  call (Sema_init 1) ;;
  n <- call Sem_count ;;
  printk "Init semaphore unlocked, count=%d\n" [PInt n] ;;
  r <- call Down_interruptible ;;
  if negb (r =? 0) then Ret (-1)
  else
    n <- call Sem_count ;;
    printk "After down, count=%d\n" [PInt n] ;;
    m <- call (Register_chrdev 0 "MYDEV") ;;
    put (State m) ;;
    Ret 0.

Definition my_exit : prog state unit :=
  s <- get ;;
  call (Unregister_chrdev (major_no s) "MYDEV") ;;
  call Up ;;
  n <- call Sem_count ;;
  printk "Exiting with semaphore having count = %d\n" [PInt n].
End SemaMod1.

(** ** synchronization/sema_mod2.c

    The module has no variables of its own. *)
Module SemaMod2.
Definition my_init {σ} : prog σ Z :=
  n <- call Sem_count ;;
  printk "Module 2 semaphore count=%d\n" [PInt n] ;;
  r <- call Down_interruptible ;;
  if negb (r =? 0) then
    printk "Not loading module; failed\n" [] ;;
    Ret (- EBUSY)
  else
    n <- call Sem_count ;;
    printk "Module 2 semaphore down() count = %d\n" [PInt n] ;;
    Ret 0.

Definition my_exit {σ} : prog σ unit :=
  call Up ;;
  n <- call Sem_count ;;
  printk "Module2 semaphore end count=%d\n" [PInt n].
End SemaMod2.

(** ** synchronization/spindead.c *)
Module SpinDead.
Record state := State { count : Z }.

Definition PF_KTHREAD : Z := 0x00200000.
Definition TASK_RUNNING : Z := 0.
Definition TASK_INTERRUPTIBLE : Z := 1.

(** [to_kthread(k)], which the callers only use to write its [cpu]. *)
Definition to_kthread (k : Z) : prog state Z :=
  f <- call (Task_flags k) ;;
  (if Z.land f PF_KTHREAD =? 0 then call Warn_on else skip) ;;
  Ret k.

Definition kthread_create_on_cpu (cpu : Z) (namefmt : bytes) : prog state Z :=
  node <- call (Cpu_to_node cpu) ;;
  p <- call (Kthread_create_on_node node namefmt cpu) ;;
  if p <? 0 then Ret p
  else
    call (Kthread_bind p cpu) ;;
    k <- to_kthread p ;;
    call (Set_kthread_cpu k cpu) ;;
    Ret p.

(** [wrong_lock] is the one spin lock of the module. *)
Definition spintest_fn (cpu : Z) : prog state Z :=
  printk "I am from CPU %d\n" [PInt cpu] ;;
  call Spin_lock ;;
  modify (fun s => State (s32 (count s + 1))) ;;
  s <- get ;;
  (if count s =? 1 then
     call (Set_current_state TASK_INTERRUPTIBLE) ;;
     call Schedule ;;
     call (Set_current_state TASK_RUNNING)
   else skip) ;;
  call Spin_unlock ;;
  Ret 0.

(** The loop over the online processors. *)
Fixpoint create_threads (cpus : list Z) : prog state Z :=
  match cpus with
  | [] => Ret 0
  | cpu :: cpus' =>
      comm <- access (sprintf (replicate 256 0) 0
                        (bytes_of_string "badspin/" ++ fmt_d (s32 cpu))) ;;
      name <- access (cstr comm) ;;
      task <- kthread_create_on_cpu cpu name ;;
      if task <? 0 then Ret (s32 task)
      else call (Wake_up_process task) ;; create_threads cpus'
  end.
Definition create_kernel_threads (online : list Z) : prog state Z := create_threads online.

Definition destroy_kernel_threads : prog state Z := Ret 0.

Definition my_init (online : list Z) : prog state Z :=
  printk "Hello, I'm first\n" [] ;;
  create_kernel_threads online ;;
  Ret 0.

Definition my_exit : prog state unit :=
  destroy_kernel_threads ;;
  printk "Bye, I'm first\n" [].
End SpinDead.

(** ** The semaphore *)

(** Its count after a history. *)
Fixpoint sem_count (h : history) : Z :=
  match h with
  | [] => 0
  | Ev c r :: h' =>
      match c in kcall R return R -> Z with
      | Sema_init n => fun _ => n
      | Down_interruptible => fun r => if r =? 0 then sem_count h' - 1 else sem_count h'
      | Down_trylock => fun r => if r =? 0 then sem_count h' - 1 else sem_count h'
      | Up => fun _ => sem_count h' + 1
      | _ => fun _ => sem_count h'
      end r
  end.

(** Both [down] calls take the semaphore when its count is positive; otherwise
    [down_trylock] returns 1, and [down_interruptible] waits until a signal
    ends it with [-EINTR] (when nobody else runs). *)
Class SemSpec (K : kernel) := {
  down_interruptible_ret : forall h,
    K _ h Down_interruptible = if 0 <? sem_count h then 0 else -4;
  down_trylock_ret : forall h, K _ h Down_trylock = if 0 <? sem_count h then 0 else 1;
  sem_count_ret : forall h, K _ h Sem_count = sem_count h;
}.

Section semaphore.
Context (K : kernel) `{!SemSpec K}.

Lemma mod1_init_count s h :
  wp K SemaMod1.my_init (fun r _ h' => r = 0 /\ sem_count h' = 0) s h.
Proof.
  unfold SemaMod1.my_init. wp_go. rewrite down_interruptible_ret in E0. simpl in E0.
  subst r0. cbn [Z.eqb negb]. wp_go. by split.
Qed.

(** An open leaves a positive count alone and raises a count of zero. *)
Lemma mod1_open_count s h :
  0 <= sem_count h ->
  wp K SemaMod1.my_open (fun r _ h' => r = 0 /\ sem_count h' = Z.max 1 (sem_count h)) s h.
Proof.
  intros Hc. unfold SemaMod1.my_open. wp_go. rewrite down_trylock_ret in E.
  destruct (Z.ltb_spec 0 (sem_count h)); subst r; cbn [Z.eqb negb]; wp_go; simpl;
    (split; [done|lia]).
Qed.

Lemma mod1_opens_count k s h :
  0 <= sem_count h ->
  wp K (for_each (replicate k ()) (fun _ => SemaMod1.my_open ;; skip)) (fun _ _ h' =>
    sem_count h' = if (k =? 0)%nat then sem_count h else Z.max 1 (sem_count h)) s h.
Proof.
  revert s h. induction k as [|k IH]; intros s h Hc; [by apply wp_skip|].
  simpl. rewrite for_each_cons. apply wp_bind, wp_bind.
  eapply wp_mono; [by apply mod1_open_count|]. intros r s1 h1 [_ H1]. wp_go.
  eapply wp_mono; [apply IH; lia|]. intros [] s2 h2. simpl. destruct (k =? 0)%nat; lia.
Qed.

Lemma mod2_init_count {σ} (s : σ) h :
  wp K SemaMod2.my_init (fun r s' h' => s' = s /\
    if 0 <? sem_count h then r = 0 /\ sem_count h' = sem_count h - 1
    else r = - EBUSY /\ sem_count h' = sem_count h) s h.
Proof.
  unfold SemaMod2.my_init. wp_go. rewrite down_interruptible_ret in E0. simpl in E0.
  destruct (0 <? sem_count h); subst r0; cbn [Z.eqb negb]; wp_go; by split_and!.
Qed.
End semaphore.

(** ** The spin lock *)

(** Whether the lock is held.  Taking it waits until it is free; [schedule]
    puts the thread to sleep, and nothing in the module wakes it. *)
Module Spin.
Import SpinDead.

Definition api (locked : bool) (R : Set) (c : kcall R) : R -> bool -> Prop :=
  match c in kcall R return R -> bool -> Prop with
  | Spin_lock => fun _ l' => locked = false /\ l' = true
  | Spin_unlock => fun _ l' => l' = false
  | Schedule => fun _ _ => False
  | _ => fun _ l' => l' = locked
  end.

(** A thread is started for each processor, at any moment. *)
Inductive spawn (locked : bool) : unit -> prog state unit -> bool -> Prop :=
| spawn_thread cpu : spawn locked () (spintest_fn cpu ;; Ret tt) locked.

Abbreviation config := (Threads.config state bool unit).
Definition initial (c : config) : Prop :=
  pool c = [] /\ count (mem c) = 0 /\ env c = false.

(** Where a thread can be: before the message, waiting for the lock, or in the
    critical section on the branch of the first. *)
Definition at_unlock : prog state unit := Call Spin_unlock (fun _ => Ret tt).
Definition at_running : prog state unit :=
  Call (Set_current_state TASK_RUNNING) (fun _ => at_unlock).
Definition at_schedule : prog state unit := Call Schedule (fun _ => at_running).
Definition at_sleep : prog state unit :=
  Call (Set_current_state TASK_INTERRUPTIBLE) (fun _ => at_schedule).
Definition at_lock : prog state unit :=
  (call Spin_lock ;;
   modify (fun s => State (s32 (count s + 1))) ;;
   s <- get ;;
   (if count s =? 1 then
      call (Set_current_state TASK_INTERRUPTIBLE) ;;
      call Schedule ;;
      call (Set_current_state TASK_RUNNING)
    else skip) ;;
   call Spin_unlock ;;
   Ret 0) ;; Ret tt.
Definition at_print (cpu : Z) : prog state unit :=
  Call (Printk "I am from CPU %d\n" [PInt cpu]) (fun _ => at_lock).

(** A thread before the lock, and one past it. *)
Inductive outside : unit * prog state unit -> Prop :=
| out_print cpu : outside ((), at_print cpu)
| out_lock : outside ((), at_lock).
Inductive inside : unit * prog state unit -> Prop :=
| in_sleep : inside ((), at_sleep)
| in_schedule : inside ((), at_schedule).

(** Before the first thread takes the lock, and for ever after. *)
Definition inv (c : config) : Prop :=
  (env c = false /\ count (mem c) = 0 /\ Forall outside (pool c)) \/
  (env c = true /\ count (mem c) = 1 /\
   exists l1 x l2, pool c = l1 ++ x :: l2 /\ inside x /\ Forall outside (l1 ++ l2)).

Lemma settle_thread cpu s : settle (spintest_fn cpu ;; Ret tt) s = (at_print cpu, s).
Proof. reflexivity. Qed.

#[local] Ltac run_settle :=
  lazy beta iota zeta delta [settle bind call modify get skip count].

Lemma advance_outside x p' s l s' l' :
  outside x -> advance api x.2 s l p' s' l' ->
  (outside ((), p') /\ s' = s /\ l' = l) \/
  (l = false /\ l' = true /\
   settle (k <- Put (State (s32 (count s + 1))) (Ret tt) ;; Ret tt) s = (Ret tt, s') /\
   (count s = 0 -> p' = at_sleep)).
Proof.
  intros Hx. destruct Hx; intros (r & Ha & Hset).
  - left. simpl in *. injection Hset as <- <-. subst l'. split_and!; [apply out_lock|done|done].
  - right. simpl in Ha. destruct Ha as [-> ->].
    split_and!; [done|done| |].
    + destruct s as [n]. revert Hset. run_settle. destruct (s32 (n + 1) =? 1); run_settle;
        intros Heq; by inversion Heq.
    + destruct s as [n]. simpl. intros ->. revert Hset. run_settle. intros Heq. by inversion Heq.
Qed.

Lemma spin_step_inv c c' : inv c -> step api spawn c c' -> inv c'.
Proof.
  intros Hi Hs. destruct c as [pl m e]. unfold inv in *. simpl in *.
  destruct Hs as [i [] p p' s' e' Hp Ha|[] p e' Hsp]; simpl in *.
  - destruct Hi as [(-> & Hc & Hout)|(-> & Hc & l1 & x & l2 & -> & Hin & Hout)].
    + assert (outside ((), p)) as Ho by (by eapply Forall_lookup_1 in Hout).
      destruct (advance_outside _ _ _ _ _ _ Ho Ha) as [(Ho' & -> & ->)|(_ & -> & Hset & Hp')].
      * left. split_and!; [done|done|by apply Forall_insert].
      * right. simpl in Hset. injection Hset as <-. rewrite Hc. split_and!; [done|done|].
        rewrite (Hp' Hc). apply lookup_lt_Some in Hp as Hlt.
        exists (take i pl), ((), at_sleep), (drop (S i) pl). split_and!.
        -- by apply insert_take_drop.
        -- apply in_sleep.
        -- apply Forall_app. split; [by apply Forall_take|by apply Forall_drop].
    + right. apply Forall_app in Hout as [Ho1 Ho2].
      destruct (Nat.lt_total i (length l1)) as [Hlt|[->|Hgt]].
      * rewrite lookup_app_l in Hp by lia.
        assert (outside ((), p)) as Ho by (by eapply Forall_lookup_1 in Ho1).
        destruct (advance_outside _ _ _ _ _ _ Ho Ha) as [(Ho' & -> & ->)|([=] & _ & _)].
        split_and!; [done|done|]. exists (<[i := ((), p')]> l1), x, l2.
        split_and!; [by apply insert_app_l|done|].
        apply Forall_app. split; [by apply Forall_insert|done].
      * rewrite list_lookup_middle in Hp by done. injection Hp as ->.
        inversion Hin; subst; simpl in Ha.
        -- destruct Ha as (r & -> & [= <- <-]). split_and!; [done|done|].
           exists l1, ((), at_schedule), l2. split_and!; [|apply in_schedule|by apply Forall_app].
           rewrite insert_app_r_alt, Nat.sub_diag by lia. done.
        -- by destruct Ha as (r & [] & _).
      * rewrite lookup_app_r in Hp by lia. destruct (i - length l1)%nat as [|j] eqn:Ej; [lia|].
        simpl in Hp.
        assert (outside ((), p)) as Ho by (by eapply Forall_lookup_1 in Ho2).
        destruct (advance_outside _ _ _ _ _ _ Ho Ha) as [(Ho' & -> & ->)|([=] & _ & _)].
        split_and!; [done|done|]. exists l1, x, (<[j := ((), p')]> l2).
        split_and!; [|done|apply Forall_app; split; [done|by apply Forall_insert]].
        rewrite insert_app_r_alt, Ej by lia. done.
  - inversion Hsp as [cpu]; subst. rewrite settle_thread. simpl.
    destruct Hi as [(-> & Hc & Hout)|(-> & Hc & l1 & x & l2 & -> & Hin & Hout)].
    + left. split_and!; [done|done|]. apply Forall_app. split; [done|].
      apply Forall_singleton, out_print.
    + right. split_and!; [done|done|]. exists l1, x, (l2 ++ [((), at_print cpu)]).
      split_and!; [by rewrite <- app_assoc|done|]. rewrite app_assoc.
      apply Forall_app. split; [done|]. apply Forall_singleton, out_print.
Qed.

Lemma reachable_spin c0 c : initial c0 -> reachable api spawn c0 c -> inv c.
Proof.
  intros (Hp & Hc & He) Hr. eapply reachable_inv; [|exact spin_step_inv|exact Hr].
  left. rewrite Hp. by split_and!.
Qed.
End Spin.

(** ** Properties *)

(** Load the first module, open its device [k] times, load the second, and
    unload what was loaded. *)
Definition both_modules (k : nat) : prog SemaMod1.state (Z * Z) :=
  r1 <- SemaMod1.my_init ;;
  for_each (replicate k ()) (fun _ => SemaMod1.my_open ;; skip) ;;
  r2 <- SemaMod2.my_init ;;
  (if r2 =? 0 then SemaMod2.my_exit else skip) ;;
  SemaMod1.my_exit ;;
  Ret (r1, r2).

(** C33: the semaphore keeps the second module out while the first is loaded,
    but only until somebody opens the device: [my_open] gives the semaphore
    back even when it did not get it.  After any open the second module loads
    beside the first, and when both are unloaded the semaphore admits two. *)
Theorem sema_open_breaks_exclusion (K : kernel) `{!SemSpec K} k s h :
  wp K (both_modules k) (fun x _ h' =>
    if (k =? 0)%nat then x = (0, - EBUSY) /\ sem_count h' = 1
    else x = (0, 0) /\ sem_count h' = 2) s h.
Proof.
  unfold both_modules. apply wp_bind. eapply wp_mono; [by apply mod1_init_count|].
  intros r s1 h1 [-> H1]. apply wp_bind. eapply wp_mono; [apply (mod1_opens_count K k s1 h1); lia|].
  intros [] s2 h2 H2. rewrite H1 in H2. apply wp_bind. eapply wp_mono; [by apply mod2_init_count|].
  intros r s3 h3 [-> H3]. destruct k as [|k]; simpl in H2 |- *; rewrite H2 in H3; simpl in H3;
    destruct H3 as [-> H3]; unfold SemaMod2.my_exit, SemaMod1.my_exit; simpl; wp_go; simpl;
    (split; [done|lia]).
Qed.

(** C20: the first thread of spindead.c goes to sleep with the lock held and
    nothing wakes it: whatever the number of processors and the order in which
    the threads run, no thread ever finishes, at most one gets past the lock,
    and once taken the lock is never free again. *)
Theorem spindead_deadlock c0 c :
  Spin.initial c0 -> reachable Spin.api Spin.spawn c0 c ->
  Forall (fun x => x.2 <> Ret tt) (pool c) /\ 0 <= SpinDead.count (mem c) <= 1 /\
  (env c = true -> forall c', reachable Spin.api Spin.spawn c c' -> env c' = true).
Proof.
  intros H0 Hr. pose proof (Spin.reachable_spin c0 c H0 Hr) as Hinv.
  assert (forall x, Spin.outside x -> x.2 <> Ret tt) as Hout.
  { intros x Hx. destruct Hx; intros Heq; discriminate Heq. }
  split_and!.
  - destruct Hinv as [(_ & _ & Ho)|(_ & _ & l1 & x & l2 & -> & Hin & Ho)].
    + by eapply Forall_impl.
    + apply Forall_app in Ho as [Ho1 Ho2]. apply Forall_app. split; [by eapply Forall_impl|].
      constructor; [|by eapply Forall_impl]. by inversion Hin.
  - destruct Hinv as [(_ & -> & _)|(_ & -> & _)]; lia.
  - destruct Hinv as [(_ & -> & _)|(_ & -> & _)]; lia.
  - intros He c' Hr'.
    apply (reachable_inv Spin.api Spin.spawn (fun c => Spin.inv c /\ env c = true) c c');
      [by split| |exact Hr'].
    intros c1 c2 [Hi1 He1] Hs. pose proof (Spin.spin_step_inv _ _ Hi1 Hs) as Hi2. split; [done|].
    destruct Hi2 as [(He2 & Hc2 & _)|(He2 & _)]; [|done]. exfalso.
    destruct Hi1 as [(He1' & _)|(_ & Hc1 & l1 & x & l2 & Hp & Hin & Ho)]; [congruence|].
    apply Forall_app in Ho as [Ho1 Ho2].
    destruct Hs as [i [] p p' s' e' Hi Ha|[] p e' Hsp]; simpl in *.
    + rewrite He1 in Ha.
      assert (((), p) = x \/ Spin.outside ((), p)) as [<-|Hp'].
      { rewrite Hp in Hi. apply list_elem_of_lookup_2 in Hi.
        apply elem_of_app in Hi as [Hi|[Hi|Hi]%elem_of_cons].
        - right. by eapply Forall_forall in Ho1.
        - by left.
        - right. by eapply Forall_forall in Ho2. }
      * inversion Hin; subst; simpl in Ha; [|by destruct Ha as (? & [] & _)].
        by destruct Ha as (? & [=] & _).
      * by destruct (Spin.advance_outside _ _ _ _ _ _ Hp' Ha) as [(_ & _ & ->)|([=] & _ & _)].
    + inversion Hsp. congruence.
Qed.

(** ** Concrete instances *)

(** A kernel with one semaphore and one process. *)
Definition sem_kernel : kernel := fun _ h c =>
  match c in kcall R return R with
  | Down_interruptible => if 0 <? sem_count h then 0 else -4
  | Down_trylock => if 0 <? sem_count h then 0 else 1
  | Sem_count => sem_count h
  | c => quiet c
  end.

#[export] Instance sem_kernel_ok : SemSpec sem_kernel.
Proof. by split. Qed.

Lemma sema_open_breaks_exclusion_witness :
  wp sem_kernel (both_modules 3) (fun x _ h' => x = (0, 0) /\ sem_count h' = 2)
    (SemaMod1.State 0) [] /\
  wp sem_kernel (both_modules 0) (fun x _ h' => x = (0, - EBUSY) /\ sem_count h' = 1)
    (SemaMod1.State 0) [].
Proof.
  split; [exact (sema_open_breaks_exclusion sem_kernel 3 (SemaMod1.State 0) [])
         |exact (sema_open_breaks_exclusion sem_kernel 0 (SemaMod1.State 0) [])].
Defined.

Definition no_threads : Spin.config := Config [] (SpinDead.State 0) false.
Definition one_thread : Spin.config := Config [((), Spin.at_print 0)] (SpinDead.State 0) false.

(** It has the lock and is about to sleep. *)
Definition asleep : Spin.config := Config [((), Spin.at_sleep)] (SpinDead.State 1) true.

Lemma spindead_deadlock_witness :
  0 <= SpinDead.count (mem asleep) <= 1 /\
  forall c', reachable Spin.api Spin.spawn asleep c' -> env c' = true.
Proof.
  assert (Spin.initial no_threads) as H0 by (by split_and!).
  assert (reachable Spin.api Spin.spawn no_threads asleep) as Hr.
  { eapply relations.rtc_l.
    { exact (step_spawn Spin.api Spin.spawn no_threads () _ _ (Spin.spawn_thread false 0)). }
    eapply relations.rtc_l.
    { eapply (step_call Spin.api Spin.spawn one_thread 0); [reflexivity|].
      exists tt. split; reflexivity. }
    eapply relations.rtc_l; [|apply relations.rtc_refl].
    eapply (step_call Spin.api Spin.spawn (Config [((), Spin.at_lock)] _ _) 0); [reflexivity|].
    exists tt. split; [by split|reflexivity]. }
  destruct (spindead_deadlock no_threads asleep H0 Hr) as (_ & H2 & H3).
  exact (conj H2 (H3 eq_refl)).
Defined.
