(* ===== verification/Exclusion.v ===== *)
(** * synchronization/: loads and opens side by side

    While sema_mod1.c is loaded it holds the one unit of its semaphore, and
    sema_mod2.c waits for it in its [my_init]; every open of the device of
    sema_mod1.c tries to take a unit and then gives one back, whether it got
    one or not.  Here the loads of sema_mod2.c and the opens are threads
    ([Threads]); [Credit] is the typestate of one of them, the units it has
    taken less the ones it has given. *)

From stdpp Require Import relations.
From S2P Require Import Prelude Kernel Prog Threads Discipline Sync.

#[local] Open Scope Z_scope.

Inductive kind := Load | Open.

(** A load that succeeded stays until the unload, which may wait as long as it
    likes. *)
Definition loaded : prog SemaMod1.state unit := call Schedule ;; SemaMod2.my_exit.
Definition load_life : prog SemaMod1.state unit :=
  r <- SemaMod2.my_init ;; if r =? 0 then loaded else skip.
Definition open_call : prog SemaMod1.state unit := SemaMod1.my_open ;; skip.

(** A thread may not give back more than its floor allows: a load gives back
    what it took, an open one unit on top. *)
Definition floor (t : kind) : Z := match t with Load => 0 | Open => -1 end.
Definition credit_next (q : kind * Z) (R : Set) (c : kcall R) : R -> option (kind * Z) :=
  match c in kcall R return R -> option (kind * Z) with
  | Down_interruptible | Down_trylock =>
      fun r => if r =? 0 then Some (q.1, q.2 + 1) else Some q
  | Up => fun _ => if floor q.1 <=? q.2 - 1 then Some (q.1, q.2 - 1) else None
  | Sema_init _ => fun _ => None
  | _ => fun _ => Some q
  end.
Definition Credit : discipline SemaMod1.state (kind * Z) :=
  Discipline (fun _ => True) (fun _ _ _ => True) credit_next.

(** ** The kernel *)

(** The semaphore's count, and how many opens there were. *)
Record kenv := KEnv { count : Z; opens : Z }.

(** A [down] that succeeds takes a unit, one that is interrupted or finds none
    does not; an [up] adds one. *)
Definition api (e : kenv) (R : Set) (c : kcall R) : R -> kenv -> Prop :=
  match c in kcall R return R -> kenv -> Prop with
  | Down_interruptible => fun r e' =>
      (r = 0 /\ 0 < count e /\ e' = KEnv (count e - 1) (opens e)) \/ (r <> 0 /\ e' = e)
  | Down_trylock => fun r e' =>
      (r = 0 /\ 0 < count e /\ e' = KEnv (count e - 1) (opens e)) \/
      (r <> 0 /\ count e <= 0 /\ e' = e)
  | Up => fun _ e' => e' = KEnv (count e + 1) (opens e)
  | Sema_init n => fun _ e' => e' = KEnv n (opens e)
  | Sem_count => fun r e' => r = count e /\ e' = e
  | _ => fun _ e' => e' = e
  end.

Inductive spawn (e : kenv) : kind -> prog SemaMod1.state unit -> kenv -> Prop :=
| spawn_load : spawn e Load load_life e
| spawn_open : spawn e Open open_call (KEnv (count e) (opens e + 1)).

(** ** The invariant *)

(** What a thread has above its floor. *)
Definition above (x : kind * (kind * Z)) : Z := x.2.2 - floor x.1.

Definition balanced_pool (e : kenv) (qs : list (kind * (kind * Z))) : Prop :=
  0 <= count e /\ Forall (fun x => x.2.1 = x.1 /\ 0 <= above x) qs /\
  count e + total above qs = opens e.

Lemma my_open_credit : obeys Credit (Open, 0) SemaMod1.my_open (fun _ _ => True).
Proof. unfold SemaMod1.my_open. by obeys_go. Qed.

Lemma loaded_credit q : q.1 = Load -> obeys Credit q loaded (fun _ _ => True) -> 1 <= q.2.
Proof.
  destruct q as [t n]. simpl. intros -> H. specialize (H tt I). simpl in H.
  specialize (H tt I). simpl in H. destruct (Z.leb_spec 0 (n - 1)); [lia|done].
Qed.

Lemma load_credit : obeys Credit (Load, 0) load_life (fun _ _ => True).
Proof.
  unfold load_life, loaded, SemaMod2.my_init, SemaMod2.my_exit. by obeys_go.
Qed.

#[export] Instance semaphore_pooled :
  Pooled Credit api spawn balanced_pool (fun _ _ _ => True).
Proof.
  split; [done| |].
  - intros e qs i t [t' n] R c r e' q' (Hc & Hall & Hsum) Hi Hapi Hn.
    assert (t' = t /\ floor t <= n) as [-> Hn0].
    { rewrite Forall_lookup in Hall. specialize (Hall _ _ Hi) as [Ht Hb]. unfold above in Hb.
      simpl in *. split; [done|lia]. }
    assert (q'.1 = t /\ floor t <= q'.2 /\ 0 <= count e' /\ opens e' = opens e /\
            count e' + q'.2 = count e + n) as (Ht & Hf & Hc' & Ho & Hq).
    { destruct c; simpl in *; simplify_eq; simpl; destruct_and?; subst; auto;
        try (case_match; simplify_eq; simpl; try zbool); destruct_or?; destruct_and?; subst;
        simpl; split_and!; auto; lia. }
    split_and!; [done| |].
    + apply Forall_insert; [done|]. unfold above. simpl. split; [done|lia].
    + rewrite (total_insert _ _ _ (t, (t, n))) by done. unfold above in *. simpl in *. lia.
  - intros e qs t p e' (Hc & Hall & Hsum) Hsp. exists (t, 0).
    destruct Hsp; (split; [first [apply load_credit
        |apply obeys_bind; eapply obeys_mono; [apply my_open_credit|done]]|]);
      (split_and!; simpl; [lia| |rewrite total_app; unfold above at 2; simpl; lia]);
      apply Forall_app; (split; [done|]); repeat constructor; simpl; unfold above; simpl; lia.
Qed.

(** ** Properties *)

(** C17: while sema_mod1.c is loaded, in every interleaving of loads and unloads
    of sema_mod2.c and of opens of the device, no more copies of sema_mod2.c are
    in at the same time than there have been opens: without an open none gets
    in, and the n-th needs n opens. *)
Theorem sema_loads_bounded_by_opens s0 c (ps : list nat) :
  reachable api spawn (Config [] s0 (KEnv 0 0)) c ->
  NoDup ps -> Forall (fun i => pool c !! i = Some (Load, loaded)) ps ->
  zlen ps <= opens (env c).
Proof.
  intros Hr Hnd Hps.
  destruct (obeys_threads Credit api spawn balanced_pool (fun _ _ _ => True)
              (Config [] s0 (KEnv 0 0)) c) as (_ & qs & Hth & Hc & Hall & Hsum); [|done|].
  { split; [done|]. exists []. split; [constructor|]. by split_and!. }
  cut (zlen ps <= total above qs); [lia|].
  apply (total_ge_positions above (Load, (Load, 0))); [done| |done|].
  - intros x Hx. rewrite Forall_forall in Hall. by apply Hall.
  - eapply Forall_impl; [exact Hps|]. intros i Hi. simpl in Hi.
    destruct (Forall2_lookup_l _ _ _ _ _ Hth Hi) as ([t q] & Hq & [Ht Hob]). simpl in Ht, Hob.
    exists (t, q). split; [done|]. subst t. rewrite Forall_lookup in Hall.
    destruct (Hall _ _ Hq) as [Hk _]. apply loaded_credit in Hob; [|done]. unfold above. simpl. lia.
Qed.

(** ** A concrete instance *)

Definition answers (e : kenv) (R : Set) (c : kcall R) : R * kenv :=
  match c in kcall R return R * kenv with
  | Down_interruptible =>
      if 0 <? count e then (0, KEnv (count e - 1) (opens e)) else (-4, e)
  | Down_trylock =>
      if 0 <? count e then (0, KEnv (count e - 1) (opens e)) else (1, e)
  | Up => (tt, KEnv (count e + 1) (opens e))
  | Sema_init n => (tt, KEnv n (opens e))
  | Sem_count => (count e, e)
  | c => (quiet c, e)
  end.

Lemma answers_api e R (c : kcall R) : api e R c (answers e R c).1 (answers e R c).2.
Proof.
  destruct c; try done; simpl; destruct (Z.ltb_spec 0 (count e)); simpl;
    [by left|by right|by left|by right].
Qed.

(** An open, and then a load. *)
Definition opened : config SemaMod1.state kenv kind :=
  solo_config answers [] 4 Open open_call (SemaMod1.State 240) (KEnv 0 1).
Definition let_in : config SemaMod1.state kenv kind :=
  solo_config answers (pool opened) 5 Load load_life (mem opened) (env opened).

Lemma sema_loads_bounded_by_opens_witness :
  pool let_in !! 1%nat = Some (Load, loaded) /\ zlen [1%nat] <= opens (env let_in).
Proof.
  split; [reflexivity|].
  apply (sema_loads_bounded_by_opens (SemaMod1.State 240) let_in [1%nat]).
  - unfold reachable. etrans.
    + exact (solo_reachable api spawn answers 4 [] Open open_call (SemaMod1.State 240)
               (KEnv 0 0) (KEnv 0 1) answers_api (spawn_open (KEnv 0 0))).
    + exact (solo_reachable api spawn answers 5 (pool opened) Load load_life (mem opened)
               (env opened) (env opened) answers_api (spawn_load (env opened))).
  - by apply NoDup_singleton.
  - by apply Forall_singleton.
Defined.
