(* ===== verification/Memory.v ===== *)
(** * memory/: dumping kmalloc'ed memory, and a dedicated slab

    kmalloc_rand.c prints the first bytes of blocks as a hex dump, before and
    after they were freed once; dedicated_slab.c allocates from a cache of its
    own.  [isprint] is the kernel's. *)

From S2P Require Import Prelude Kernel Prog CString.
From Stdlib Require Import Ascii.

(** ** memory/kmalloc_rand.c *)
Module KmallocRand.
Section dump.
Context (isprint : byte -> bool).

(** [pos += snprintf(line + pos, sizeof(line) - pos, ...)], on the array and
    [pos]. *)
Definition put (st : bytes * Z) (text : bytes) : option (bytes * Z) :=
  m ← snprintf st.1 st.2 (u64 (128 - st.2)) text;
  Some (m, s32 (st.2 + zlen text)).

Fixpoint put_all (st : bytes * Z) (texts : list (option bytes)) : option (bytes * Z) :=
  match texts with
  | [] => Some st
  | t :: texts' => text ← t; st' ← put st text; put_all st' texts'
  end.

(** The text of column [j] of the bytes, and of the characters. *)
Definition hex_column (data : bytes) (len i j : Z) : option bytes :=
  if i + j <? len then b ← load1 data (i + j); Some (fmt_02x b ++ [32]) else Some [32; 32; 32].
Definition char_column (data : bytes) (i j : Z) : option bytes :=
  c ← load1 data (i + j); Some [if isprint c then c else chr "."%char].

(** One turn of the loop: the array [line] afterwards. *)
Definition hex_line (data : bytes) (len i : Z) (line : bytes) : option bytes :=
  st ← put (line, 0) (fmt_08x i ++ [32; 32]);
  st ← put_all st (hex_column data len i <$> seqZ 0 16);
  st ← put st [32; 124];
  st ← put_all st (char_column data i <$> seqZ 0 (Z.min 16 (len - i)));
  snprintf st.1 st.2 (u64 (128 - st.2)) [124].

Fixpoint dump_lines {σ} (data : bytes) (len : Z) (line : bytes) (l : list Z) : prog σ unit :=
  match l with
  | [] => skip
  | i :: l' =>
      line <- access (hex_line data len i line) ;;
      text <- access (cstr line) ;;
      printk "%s\n" [PStr text] ;;
      dump_lines data len line l'
  end.

(** [for (i = 0; i < len; i += 16)]; [line] is what the array holds at first. *)
Definition hex_dump {σ} (data : bytes) (len : Z) (line : bytes) : prog σ unit :=
  dump_lines data len line ((fun k => 16 * k) <$> seqZ 0 ((len + 15) / 16)).

(** The three loops over [data[4]], on the pointers in order. *)
Fixpoint alloc_set (line : bytes) (l : list Z) : prog unit (list Z) :=
  match l with
  | [] => Ret []
  | i :: l' =>
      b <- call (Kmalloc 1024) ;;
      (if kb_addr b =? 0 then skip
       else
         m <- access (store (kb_bytes b) 0 (replicate (Z.to_nat 1024) (u8 i))) ;;
         hex_dump m 32 line) ;;
      ps <- alloc_set line l' ;;
      Ret (kb_addr b :: ps)
  end.
Fixpoint alloc_show (line : bytes) (l : list Z) : prog unit (list Z) :=
  match l with
  | [] => Ret []
  | i :: l' =>
      b <- call (Kmalloc 1024) ;;
      (if kb_addr b =? 0 then skip else hex_dump (kb_bytes b) 32 line) ;;
      ps <- alloc_show line l' ;;
      Ret (kb_addr b :: ps)
  end.
Definition free_all (ps : list Z) : prog unit unit :=
  for_each ps (fun p => if p =? 0 then skip else call (Kfree p)).

Definition my_init (line : bytes) : prog unit Z :=
  printk "Allocating and setting the value\n" [] ;;
  ps <- alloc_set line (seqZ 0 4) ;;
  printk "Freeing the slabs\n" [] ;;
  free_all ps ;;
  printk "Allocating SLABs and check the previous value\n" [] ;;
  ps <- alloc_show line (seqZ 0 4) ;;
  printk "Freeing the slabs\n" [] ;;
  free_all ps ;;
  printk "Done\n" [] ;;
  Ret 0.
End dump.

Definition my_exit : prog unit unit := skip.
End KmallocRand.

(** ** memory/dedicated_slab.c *)
Module DedicatedSlab.
Record state := State { my_buckets : Z; data : Z; size : Z }.
Definition set_buckets (b : Z) (s : state) : state := State b (data s) (size s).
Definition set_data (p : Z) (s : state) : state := State (my_buckets s) p (size s).
Definition statics : state := State 0 0 100.

Definition my_init : prog state Z :=
  b <- call (Kmem_buckets_create "my_bucket_cache") ;;
  modify (set_buckets b) ;;
  if b =? 0 then
    printk "Failed to create dedicated bucket cache\n" [] ;; Ret (-12)
  else
    s <- get ;;
    d <- call (Kmem_buckets_alloc b (size s)) ;;
    modify (set_data (kb_addr d)) ;;
    if kb_addr d =? 0 then
      printk "Allocation from dedicated bucket failed\n" [] ;; Ret (-12)
    else Ret 0.

Definition my_exit : prog state unit :=
  s <- get ;;
  call (Kfree (data s)).
End DedicatedSlab.

(** ** Reading a dump back *)

(** The bytes of the hexadecimal columns of a line, after its offset. *)
Fixpoint parse_columns (n : nat) (s : bytes) : bytes :=
  match n, s with
  | S n', a :: b :: _ :: s' =>
      match unhex2 a b with Some x => x :: parse_columns n' s' | None => parse_columns n' s' end
  | _, _ => []
  end.
Definition parse_line (l : bytes) : bytes := parse_columns 16 (drop 10 l).

(** What was printed, oldest first. *)
Fixpoint printed (h : history) : list bytes :=
  match h with
  | [] => []
  | Ev c r :: h' =>
      match c with
      | Printk _ [PStr s] => printed h' ++ [s]
      | _ => printed h'
      end
  end.

(** ** Lemmas *)

Section dump.
Import KmallocRand.
Context (isprint : byte -> bool) (isprint_nul : isprint 0 = false).

(** The array holds [text] at its start, and [pos] is behind it. *)
Definition line_at (st : bytes * Z) (text : bytes) : Prop :=
  exists rest, st.1 = text ++ rest /\ length st.1 = 128%nat /\ st.2 = zlen text.

Lemma put_text st text t :
  line_at st text -> zlen text + zlen t < 128 ->
  exists st', put st t = Some st' /\ line_at st' (text ++ t).
Proof.
  intros (rest & Hm & Hl & Hp) Hfit. destruct st as [m pos]. simpl in *. subst.
  unfold put. simpl. rewrite u64_small by lia.
  destruct (snprintf_fits text rest (128 - zlen text) t) as (rest' & Hs & Hlen); [lia|lia|].
  rewrite Hs. simpl. eexists. split; [done|]. exists (0 :: rest'). simpl.
  split_and!; [done|congruence|]. rewrite length_app, s32_small by lia. lia.
Qed.

Lemma put_all_text st text ts :
  line_at st text -> zlen text + zlen (mjoin ts) < 128 ->
  exists st', put_all st (Some <$> ts) = Some st' /\ line_at st' (text ++ mjoin ts).
Proof.
  revert st text. induction ts as [|t ts IH]; intros st text Hst Hfit.
  - exists st. by rewrite app_nil_r.
  - change (mjoin (t :: ts)) with (t ++ mjoin ts) in *. rewrite length_app in Hfit.
    destruct (put_text st text t Hst) as (st1 & H1 & Hst1); [lia|].
    destruct (IH st1 (text ++ t) Hst1) as (st2 & H2 & Hst2); [rewrite length_app; lia|].
    exists st2. simpl. rewrite H1. simpl. rewrite app_assoc. by split.
Qed.

(** The columns of the line at offset [i]. *)
Definition hex_text (data : bytes) (len i j : Z) : bytes :=
  if i + j <? len then fmt_02x (default 0 (load1 data (i + j))) ++ [32] else [32; 32; 32].
Definition char_text (data : bytes) (i j : Z) : bytes :=
  [if isprint (default 0 (load1 data (i + j))) then default 0 (load1 data (i + j)) else 46].
Definition line_text (data : bytes) (len i : Z) : bytes :=
  (fmt_08x i ++ [32; 32]) ++ mjoin (hex_text data len i <$> seqZ 0 16) ++ [32; 124] ++
  mjoin (char_text data i <$> seqZ 0 (Z.min 16 (len - i))) ++ [124].

Context (data : bytes) (len : Z).
Context (Hdata : bytes_ok data) (Hlen : 0 <= len <= zlen data) (Hlen32 : len < 4294967296).

Lemma data_at k : 0 <= k < len -> exists b, load1 data k = Some b /\ 0 <= b < 256.
Proof.
  intros Hk. destruct (load1_ok data k) as (b & Hb & Hl); [lia|]. exists b. split; [done|].
  by eapply (Forall_lookup_1 (fun b => 0 <= b < 256)).
Qed.

Lemma hex_text_length i j : 0 <= i -> 0 <= j -> length (hex_text data len i j) = 3%nat.
Proof.
  intros Hi Hj. unfold hex_text. destruct (Z.ltb_spec (i + j) len); [|done].
  destruct (data_at (i + j)) as (b & -> & Hb); [lia|]. simpl.
  by rewrite length_app, fmt_02x_length.
Qed.

Lemma hex_texts_length i l :
  0 <= i -> Forall (fun j => 0 <= j) l ->
  length (mjoin (hex_text data len i <$> l)) = (3 * length l)%nat.
Proof.
  intros Hi. induction 1 as [|j l Hj _ IH]; [done|].
  change (mjoin (hex_text data len i <$> j :: l)) with
    (hex_text data len i j ++ mjoin (hex_text data len i <$> l)).
  rewrite length_app, IH, hex_text_length by done. simpl. lia.
Qed.

Lemma char_texts_length i l : length (mjoin (char_text data i <$> l)) = length l.
Proof.
  induction l as [|j l IH]; [done|].
  change (mjoin (char_text data i <$> j :: l)) with
    (char_text data i j ++ mjoin (char_text data i <$> l)).
  rewrite length_app, IH. done.
Qed.

(** A turn of the loop leaves the text of the line in the array, terminated. *)
Lemma hex_line_text i line :
  length line = 128%nat -> 0 <= i < len ->
  exists line', hex_line isprint data len i line = Some line' /\ length line' = 128%nat /\
    exists rest, line' = line_text data len i ++ 0 :: rest.
Proof.
  intros Hl Hi. unfold hex_line.
  assert (hex_column data len i <$> seqZ 0 16 = Some <$> (hex_text data len i <$> seqZ 0 16)) as ->.
  { rewrite <- list_fmap_compose. apply list_fmap_ext. intros k j Hj%lookup_seqZ.
    unfold hex_column, hex_text. simpl. destruct (Z.ltb_spec (i + j) len); [|done].
    by destruct (data_at (i + j)) as (b & -> & _); [lia|]. }
  assert (char_column isprint data i <$> seqZ 0 (Z.min 16 (len - i)) =
          Some <$> (char_text data i <$> seqZ 0 (Z.min 16 (len - i)))) as ->.
  { rewrite <- list_fmap_compose. apply list_fmap_ext. intros k j Hj%lookup_seqZ.
    unfold char_column, char_text. simpl.
    by destruct (data_at (i + j)) as (b & -> & _); [lia|]. }
  assert (line_at (line, 0) []) as H0 by (exists line; by split_and!).
  set (off := fmt_08x i ++ [32; 32]).
  assert (length off = 10%nat) as Loff.
  { unfold off. rewrite length_app, fmt_08x_length by lia. done. }
  set (hx := hex_text data len i <$> seqZ 0 16).
  assert (length (mjoin hx) = 48%nat) as Lhx.
  { unfold hx. rewrite hex_texts_length; [done|lia|]. apply Forall_forall.
    intros j Hj%elem_of_seqZ. lia. }
  set (cs := char_text data i <$> seqZ 0 (Z.min 16 (len - i))).
  assert (zlen (mjoin cs) <= 16) as Lcs.
  { unfold cs. rewrite char_texts_length, length_seqZ. lia. }
  destruct (put_text _ _ off H0) as (st1 & -> & S1); [simpl; lia|]. cbn [mbind option_bind].
  change ([] ++ off) with off in S1.
  destruct (put_all_text _ _ hx S1) as (st2 & -> & S2); [lia|]. cbn [mbind option_bind].
  destruct (put_text _ _ [32; 124] S2) as (st3 & -> & S3); [rewrite length_app; cbn [length]; lia|].
  cbn [mbind option_bind].
  destruct (put_all_text _ _ cs S3) as (st4 & -> & S4); [rewrite !length_app; cbn [length]; lia|].
  cbn [mbind option_bind].
  destruct S4 as (rest & Hm & Hl4 & ->). rewrite Hm in *.
  set (text := ((off ++ mjoin hx) ++ [32; 124]) ++ mjoin cs) in *.
  assert (zlen text < 100) as Ltext by (unfold text; rewrite !length_app; cbn [length]; lia).
  rewrite u64_small by lia.
  destruct (snprintf_fits text rest (128 - zlen text) [124]) as (rest' & Hs & Hlen'); [simpl; lia|lia|].
  exists ((text ++ [124]) ++ 0 :: rest'). split; [exact Hs|]. split; [congruence|].
  exists rest'. unfold line_text. fold off hx cs. unfold text.
  rewrite <- !app_assoc. reflexivity.
Qed.

Lemma line_text_nonzero i : 0 <= i < len -> Forall (fun b => b <> 0) (line_text data len i).
Proof.
  intros Hi. unfold line_text. rewrite !Forall_app. split_and!; try by repeat constructor.
  - auto with text lia.
  - apply Forall_join, Forall_fmap, Forall_forall. intros j Hj%elem_of_seqZ. simpl. unfold hex_text.
    destruct (Z.ltb_spec (i + j) len); [|by repeat constructor].
    destruct (data_at (i + j)) as (b & -> & Hb); [lia|]. simpl.
    apply Forall_app. split; [auto with text|by repeat constructor].
  - apply Forall_join, Forall_fmap, Forall_forall. intros j Hj%elem_of_seqZ. simpl. unfold char_text.
    destruct (data_at (i + j)) as (b & -> & Hb); [lia|]. simpl. repeat constructor.
    destruct (isprint b) eqn:E; [|done]. intros ->. congruence.
Qed.

(** The columns of a line read back as the bytes of the line. *)
Lemma parse_columns_text i l tail :
  0 <= i -> Forall (fun j => 0 <= j) l ->
  parse_columns (length l) (mjoin (hex_text data len i <$> l) ++ tail) =
  omap (fun j => if i + j <? len then load1 data (i + j) else None) l.
Proof.
  intros Hi. induction 1 as [|j l Hj _ IH]; [by destruct tail as [|? [|? [|? ?]]]|].
  change (mjoin (hex_text data len i <$> j :: l)) with
    (hex_text data len i j ++ mjoin (hex_text data len i <$> l)).
  rewrite <- app_assoc. unfold hex_text at 1. simpl. destruct (Z.ltb_spec (i + j) len).
  - destruct (data_at (i + j)) as (b & -> & Hb); [lia|]. simpl.
    rewrite fmt_02x_byte by done. simpl. by rewrite unhex2_byte, IH.
  - simpl. exact IH.
Qed.

Lemma parse_line_text i :
  0 <= i < len ->
  parse_line (line_text data len i) = take 16 (drop (Z.to_nat i) (take (Z.to_nat len) data)).
Proof.
  intros Hi. unfold parse_line, line_text.
  rewrite (drop_app_length' (fmt_08x i ++ [32; 32])) by
    (rewrite length_app, fmt_08x_length by lia; done).
  rewrite (parse_columns_text i (seqZ 0 16)) by
    (lia || (apply Forall_forall; intros j Hj%elem_of_seqZ; lia)).
  rewrite <- (omap_lookup_seqZ _ (Z.to_nat i) 16) by lia.
  apply list_omap_ext, Forall_Forall2_diag, Forall_forall. intros j Hj%elem_of_seqZ.
  unfold load1. rewrite (proj2 (Z.leb_le 0 (i + j))) by lia.
  replace (Z.to_nat i + Z.to_nat j)%nat with (Z.to_nat (i + j)) by lia.
  destruct (Z.ltb_spec (i + j) len).
  - by rewrite lookup_take_lt by lia.
  - by rewrite lookup_take_ge by lia.
Qed.

(** The lines together give all the bytes. *)
Lemma parse_lines n :
  0 <= n -> 16 * (n - 1) < len ->
  mjoin (parse_line <$> (line_text data len <$> ((fun k => 16 * k) <$> seqZ 0 n))) =
  take (Z.to_nat (16 * n)) (take (Z.to_nat len) data).
Proof.
  intros Hn. pattern n. apply natlike_ind; [by rewrite take_0| |done].
  clear n Hn. intros n Hn IH Hlt. rewrite <- Z.add_1_r in *.
  rewrite seqZ_last, !fmap_app, join_app, IH by lia. simpl. rewrite app_nil_r.
  rewrite parse_line_text by lia.
  replace (Z.to_nat (16 * (n + 1))) with (Z.to_nat (16 * n) + 16)%nat by lia.
  by rewrite take_take_drop.
Qed.

Lemma dump_lines_text {σ} (K : kernel) line l (s : σ) h :
  length line = 128%nat -> Forall (fun i => 0 <= i < len) l ->
  wp K (dump_lines isprint data len line l) (fun _ s' h' => s' = s /\
    printed h' = printed h ++ (line_text data len <$> l)) s h.
Proof.
  intros Hl Hall. revert line h Hl. induction Hall as [|i l Hi _ IH]; intros line h Hl.
  - apply wp_skip. by rewrite app_nil_r.
  - cbn [dump_lines]. destruct (hex_line_text i line Hl Hi) as (line' & Hline & Hl' & rest & Hrest).
    wp_go. eapply wp_access; [exact Hline|]. wp_go.
    eapply wp_access; [rewrite Hrest; apply cstr_app, line_text_nonzero, Hi|]. wp_go.
    eapply wp_mono; [by apply IH|]. intros [] s' h' [-> Hp]. split; [done|].
    rewrite Hp. simpl. by rewrite <- app_assoc.
Qed.
End dump.

(** ** Properties *)

(** C15: a hex dump tells all of the memory it was given: it prints one line for
    each sixteen bytes begun, each fits the 128-byte line buffer, and the
    bytes can be read back from the hexadecimal columns, in order and
    complete, whatever [isprint] makes of the other column (it must only not
    take NUL for a printable character). *)
Theorem hex_dump_roundtrip {σ} (K : kernel) isprint data len line (s : σ) h :
  isprint 0 = false -> bytes_ok data -> 0 <= len <= zlen data -> len < 4294967296 ->
  length line = 128%nat ->
  wp K (KmallocRand.hex_dump isprint data len line) (fun _ s' h' => s' = s /\
    exists ls, printed h' = printed h ++ ls /\ zlen ls = (len + 15) / 16 /\
      Forall (fun l => zlen l < 128) ls /\
      mjoin (parse_line <$> ls) = take (Z.to_nat len) data) s h.
Proof.
  intros Hnul Hok Hlen H32 Hline. unfold KmallocRand.hex_dump.
  set (n := (len + 15) / 16).
  assert (0 <= n /\ 16 * (n - 1) < len <= 16 * n) as (Hn & Hlast & Hcover).
  { pose proof (Z.div_mod (len + 15) 16). pose proof (Z.mod_pos_bound (len + 15) 16). lia. }
  assert (Forall (fun i => 0 <= i < len) ((fun k => 16 * k) <$> seqZ 0 n)) as Hall.
  { apply Forall_fmap, Forall_forall. intros k Hk%elem_of_seqZ. simpl. lia. }
  eapply wp_mono; [by apply (dump_lines_text isprint Hnul data len Hok Hlen H32)|].
  intros [] s' h' [-> Hp]. split; [done|]. eexists. split; [exact Hp|]. split_and!.
  - rewrite !length_fmap, length_seqZ. lia.
  - apply Forall_fmap. eapply Forall_impl; [exact Hall|]. intros i Hi.
    cbv beta in Hi. change (zlen (line_text isprint data len i) < 128). unfold line_text.
    rewrite !length_app, (hex_texts_length data len Hok Hlen), char_texts_length, fmt_08x_length,
      !length_seqZ; [simpl; lia|lia|lia|].
    apply Forall_forall. intros j Hj%elem_of_seqZ. lia.
  - rewrite (parse_lines isprint data len Hok Hlen H32) by lia. rewrite take_ge; [done|].
    rewrite length_take. lia.
Qed.

(** ** Concrete instances *)

Definition ascii_print (c : byte) : bool := (32 <=? c) && (c <=? 126).

Lemma hex_dump_roundtrip_witness :
  wp quiet_kernel (KmallocRand.hex_dump ascii_print (seqZ 60 40) 37 (replicate 128 0))
    (fun _ s' h' => s' = tt /\
      exists ls, printed h' = printed [] ++ ls /\ zlen ls = (37 + 15) / 16 /\
        Forall (fun l => zlen l < 128) ls /\
        mjoin (parse_line <$> ls) = take (Z.to_nat 37) (seqZ 60 40)) tt [].
Proof.
  apply (hex_dump_roundtrip quiet_kernel ascii_print (seqZ 60 40) 37 (replicate 128 0) tt []).
  - reflexivity.
  - apply Forall_forall. intros b Hb%elem_of_seqZ. lia.
  - rewrite length_seqZ. lia.
  - lia.
  - reflexivity.
Defined.
