(* ===== verification/Net.v ===== *)
(** * networking/mynet_drv.c: a network device that loops packets back

    What is transmitted is dumped to the log and handed back to the kernel as
    received. *)

From S2P Require Import Prelude Kernel Prog CString.

Definition ETH_ALEN : Z := 6.
(** The length of the header of an Ethernet frame. *)
Definition ETH_HLEN : Z := 14.
Definition IFF_UP : Z := 0x1.
Definition IFF_NOARP : Z := 0x80.
Definition NETDEV_TX_OK : Z := 0.

(** The module's [dev], and the fields of the device it uses; [stats] points
    into the device. *)
Record state := State {
  dev : Z; flags : Z; dev_addr : bytes; trans_start : Z; rx_packets : Z; tx_packets : Z }.
Definition set_dev (p : Z) (s : state) : state :=
  State p (flags s) (dev_addr s) (trans_start s) (rx_packets s) (tx_packets s).
Definition set_flags (f : Z) (s : state) : state :=
  State (dev s) f (dev_addr s) (trans_start s) (rx_packets s) (tx_packets s).
Definition set_addr (a : bytes) (s : state) : state :=
  State (dev s) (flags s) a (trans_start s) (rx_packets s) (tx_packets s).
Definition set_trans (j : Z) (s : state) : state :=
  State (dev s) (flags s) (dev_addr s) j (rx_packets s) (tx_packets s).
Definition inc_rx (s : state) : state :=
  State (dev s) (flags s) (dev_addr s) (trans_start s) (u64 (rx_packets s + 1)) (tx_packets s).
Definition inc_tx (s : state) : state :=
  State (dev s) (flags s) (dev_addr s) (trans_start s) (rx_packets s) (u64 (tx_packets s + 1)).
(** A device just allocated is zeroed. *)
Definition statics : state := State 0 0 (replicate 6 0) 0 0 0.

Section driver.
(** The name of the interface. *)
Context (name : string).

(** [skb] is the memory at [skb->data] and [len] is [skb->len]. *)
Definition my_rx (skb : bytes) (len protocol : Z) : prog state unit :=
  printk "I'm receiving a packet\n" [] ;;
  modify inc_rx ;;
  call (Netif_rx skb len protocol) ;;
  skip.

(** [skb->len] is unsigned: the [int] [i] is converted for the comparison only.
    [eth_type_trans] moves [skb->data] on, over the header of the frame, and
    returns the protocol it finds there. *)
Definition my_hard_start_xmit (skb : bytes) (len : Z) : prog state Z :=
  printk "my_hard_start_xmit(%s)\n" [PName name] ;;
  j <- call Jiffies ;;
  modify (set_trans j) ;;
  printk "Sending packet :\n" [] ;;
  for_each (seqZ 0 len) (fun i =>
    (if Z.land (s32 i) 0xf =? 0 then printk "\n " [] else skip) ;;
    b <- access (load1 skb (s32 i)) ;;
    printk "%02x " [PInt b]) ;;
  printk "\n" [] ;;
  modify inc_tx ;;
  x <- call (Eth_type_trans skb len) ;;
  my_rx (drop (Z.to_nat x.2) skb) (u32 (len - x.2)) x.1 ;;
  Ret NETDEV_TX_OK.

Definition my_do_ioctl (cmd : Z) : prog state Z :=
  printk "my_do_ioctl(%s)\n" [PName name] ;; Ret (-1).

Definition my_get_stats : prog state (Z * Z) :=
  printk "my_get_stats(%s)\n" [PName name] ;;
  gets (fun s => (rx_packets s, tx_packets s)).

Definition my_config : prog state Z :=
  printk "my_config(%s)\n" [PName name] ;;
  s <- get ;;
  if negb (Z.land (flags s) IFF_UP =? 0) then Ret (-16) else Ret 0.

Definition my_change_mtu (new_mtu : Z) : prog state Z :=
  printk "my_change_mtu(%s)\n" [PName name] ;; Ret (-1).

Definition my_open : prog state Z :=
  printk "my_open(%s)\n" [PName name] ;;
  s <- get ;;
  call (Netif_start_queue (dev s)) ;;
  Ret 0.

Definition my_close : prog state Z :=
  printk "my_close(%s)\n" [PName name] ;;
  s <- get ;;
  call (Netif_stop_queue (dev s)) ;;
  Ret 0.

(** [my_setup(p)], called by [alloc_netdev] on the new device. *)
Definition my_setup (p : Z) : prog state unit :=
  printk "my_setup(%s)\n" [PName name] ;;
  for_each (seqZ 0 ETH_ALEN) (fun j =>
    s <- get ;;
    m <- access (store1 (dev_addr s) j (u8 j)) ;;
    modify (set_addr m)) ;;
  f <- call (Ether_setup p) ;;
  modify (set_flags (Z.lor f IFF_NOARP)).

Definition my_init : prog state Z :=
  printk "Loading transmitting network module:...." [] ;;
  p <- call (Alloc_netdev "mynet%d") ;;
  (if p =? 0 then skip else my_setup p) ;;
  modify (set_dev p) ;;
  (* the result of alloc_netdev is not checked, and register_netdev uses it *)
  if p =? 0 then Fail OutOfBounds
  else
    r <- call (Register_netdev p) ;;
    if negb (r =? 0) then
      printk " Failed to register\n" [] ;;
      call (Free_netdev p) ;;
      Ret (-1)
    else
      printk "Succeeded!\n\n" [] ;;
      Ret 0.

Definition my_exit : prog state unit :=
  printk "Unloading transmitting network module\n\n" [] ;;
  s <- get ;;
  call (Unregister_netdev (dev s)) ;;
  call (Free_netdev (dev s)).
End driver.

(** ** The dump *)

(** The dump in a history, oldest first: bytes and row breaks. *)
Inductive mark := Byte (b : byte) | Row.
Definition mark_of (e : event) : option mark :=
  match e with
  | Ev c r =>
      match c with
      | Printk fmt args =>
          if decide (fmt = "%02x ") then (if args is [PInt b] then Some (Byte b) else None)
          else if decide (fmt = "\n ") then Some Row else None
      | _ => None
      end
  end.
Definition dump (h : history) : list mark := omap mark_of (reverse h).

(** Sixteen bytes to the row. *)
Definition rows (d : bytes) : list mark :=
  mjoin (imap (fun i b => if Nat.modulo i 16 =? 0 then [Row; Byte b] else [Byte b])%nat d).

Lemma dump_cons e h : dump (e :: h) = dump h ++ option_list (mark_of e).
Proof.
  unfold dump. rewrite reverse_cons, omap_app. simpl. by destruct (mark_of e).
Qed.

Lemma rows_snoc d b :
  rows (d ++ [b]) =
  rows d ++ (if Nat.modulo (length d) 16 =? 0 then [Row; Byte b] else [Byte b])%nat.
Proof.
  unfold rows. rewrite imap_app, join_app. f_equal. simpl.
  by rewrite Nat.add_0_r, app_nil_r.
Qed.

Lemma low_bits_zero n : (Z.land (Z.of_nat n) 0xf =? 0) = (Nat.modulo n 16 =? 0)%nat.
Proof.
  change 0xf with (Z.ones 4). rewrite Z.land_ones by lia. change (2 ^ 4) with (Z.of_nat 16).
  rewrite <- Nat2Z.inj_mod. destruct (Nat.eqb_spec (n mod 16) 0) as [->|H]; [done|].
  apply Z.eqb_neq. lia.
Qed.

(** The loop of the dump. *)
Lemma xmit_dump (K : kernel) skb len (s : state) h :
  0 <= len <= zlen skb -> len <= 2 ^ 31 ->
  wp K (for_each (seqZ 0 len) (fun i =>
      (if Z.land (s32 i) 0xf =? 0 then printk "\n " [] else skip) ;;
      b <- access (load1 skb (s32 i)) ;;
      printk "%02x " [PInt b]))
    (fun _ s' h' => s' = s /\ dump h' = dump h ++ rows (take (Z.to_nat len) skb)) s h.
Proof.
  intros Hl Hl31. eapply wp_for_each with (I := fun dn s' h' => s' = s /\
    dump h' = dump h ++ rows (take (length dn) skb)).
  - split; [done|]. by rewrite app_nil_r.
  - intros dn i todo s1 h1 Hseq [-> H1]. destruct (seqZ_split _ _ _ _ Hseq) as (-> & Hi & _).
    rewrite (s32_small (zlen dn)) by lia.
    destruct (load1_ok skb (zlen dn)) as (b & Hb & Hlk); [lia|]. rewrite Nat2Z.id in Hlk.
    rewrite length_app, Nat.add_1_r, (take_S_r _ _ _ Hlk), rows_snoc, app_assoc, <- H1.
    rewrite length_take_le by lia. rewrite low_bits_zero.
    destruct (Nat.modulo (length dn) 16 =? 0)%nat; wp_go;
      (eapply wp_access; [exact Hb|]); wp_go; (split; [done|]); rewrite !dump_cons; simpl;
      by rewrite <- ?app_assoc, ?app_nil_r.
  - intros s1 h1 [-> H1]. split; [done|]. rewrite H1, length_seqZ. done.
Qed.

(** A load registers the device or gives it back, and the unload gives it back
    (when there is memory for a device: a NULL one would be dereferenced). *)
Lemma net_load_unload (K : kernel) name L L0 s h :
  length (dev_addr s) = 6%nat -> (forall h, K _ h (Alloc_netdev "mynet%d") <> 0) ->
  held L0 h = Some L ->
  wp K (r <- my_init name ;; (if r =? 0 then my_exit else skip) ;; Ret r)
    (fun r _ h' => (r = 0 \/ r = -1) /\ held L0 h' = Some L) s h.
Proof.
  intros Hlen Hdev HL. unfold my_init, my_exit, my_setup. wp_go.
  match goal with E : ?r = K _ _ (Alloc_netdev _) |- _ =>
    assert (r <> 0) as Hr by (rewrite E; apply Hdev); rewrite (proj2 (Z.eqb_neq r 0) Hr) end.
  wp_go. eapply wp_for_each with (I := fun _ s' h' => length (dev_addr s') = 6%nat /\
    held L0 h' = Some (RNetdev r :: L)).
  - split; [done|]. ledger.
  - intros dn j todo s1 h1 Hseq [Hl1 H1]. destruct (seqZ_split _ _ _ _ Hseq) as (_ & Hj & _).
    unfold ETH_ALEN in Hj. wp_go. eapply wp_access; [apply store1_ok; lia|]. wp_go.
    split; [simpl; by rewrite length_insert|done].
  - intros s1 h1 [_ H1]. wp_go.
    destruct (r1 =? 0) eqn:Hreg; cbn [negb]; wp_go; simpl; wp_go; (split; [by auto|]); simpl;
      ledger.
Qed.

(** [eth_type_trans] takes the header of a frame that has one off: two
    addresses of six bytes and the protocol. *)
Class EthSpec (K : kernel) := {
  eth_pulled : forall h skb len, ETH_HLEN <= len -> (K _ h (Eth_type_trans skb len)).2 = ETH_HLEN;
}.

(** ** Properties *)

(** C35: a transmission of a frame is always accepted: the dump shows exactly its
    bytes, the header included, sixteen to a row; one packet is counted sent and
    one received; and what follows the header is handed back to the kernel as
    received, with the protocol that the kernel read off the header. *)
Theorem net_xmit_loopback (K : kernel) `{!EthSpec K} name skb len s h :
  ETH_HLEN <= len <= zlen skb -> len <= 2 ^ 31 ->
  wp K (my_hard_start_xmit name skb len) (fun r s' h' =>
    r = NETDEV_TX_OK /\
    tx_packets s' = u64 (tx_packets s + 1) /\ rx_packets s' = u64 (rx_packets s + 1) /\
    dump h' = dump h ++ rows (take (Z.to_nat len) skb) /\
    exists h1 p v,
      h' = Ev (Netif_rx (drop 14 skb) (len - ETH_HLEN) p) v ::
           Ev (Printk "I'm receiving a packet\n" []) tt ::
           Ev (Eth_type_trans skb len) (p, ETH_HLEN) :: h1) s h.
Proof.
  unfold ETH_HLEN. intros Hl Hl31.
  unfold my_hard_start_xmit, my_rx. wp_go.
  eapply wp_mono; [apply xmit_dump; lia|]. intros [] s1 h1 [-> H1]. wp_go.
  assert (r0.2 = 14) as Hp by (rewrite E0; apply eth_pulled; unfold ETH_HLEN; lia).
  clear E0 E1. destruct r0 as [p k]. simpl in Hp. subst k.
  split_and!; [done|done|done| |].
  - rewrite !dump_cons. simpl. rewrite !app_nil_r. rewrite H1, !dump_cons. simpl.
    by rewrite !app_nil_r.
  - do 3 eexists. cbn [fst snd]. by rewrite u32_small by lia.
Qed.

(** ** Concrete instances *)

#[export] Instance quiet_eth : EthSpec quiet_kernel.
Proof. by split. Qed.

Lemma net_xmit_loopback_witness :
  wp quiet_kernel (my_hard_start_xmit "mynet0" (seqZ 0 20) 18) (fun r s' h' =>
    r = NETDEV_TX_OK /\ tx_packets s' = u64 (0 + 1) /\ rx_packets s' = u64 (0 + 1) /\
    dump h' = dump [] ++ rows (take (Z.to_nat 18) (seqZ 0 20)) /\
    exists h1 p v,
      h' = Ev (Netif_rx (seqZ 14 6) 4 p) v :: Ev (Printk "I'm receiving a packet\n" []) tt ::
           Ev (Eth_type_trans (seqZ 0 20) 18) (p, 14) :: h1) statics [].
Proof.
  apply (net_xmit_loopback quiet_kernel "mynet0" (seqZ 0 20) 18 statics []);
    unfold ETH_HLEN; rewrite ?length_seqZ; lia.
Defined.
