(* ===== verification/Probes.v ===== *)
(** * The small probe modules

    kprobes/kprobe_test.c, kprobes/jprobe_test.c, debug/kprobe_zap.c and
    debug/zap_jprobe.c.  [name] is a module parameter: NULL or a string. *)

From S2P Require Import Prelude Kernel Prog.

(** [name == 0 || strlen(name) == 0] *)
Definition no_name (name : option string) : bool :=
  match name with None => true | Some s => (String.length s =? 0)%nat end.
(** The argument of a ["%s"]: NULL prints as "(null)". *)
Definition name_arg (name : option string) : parg := PName (default "(null)"%string name).

(** ** kprobes/kprobe_test.c *)
Module KprobeTest.
Record state := State { address : Z; name : option string; kp_addr : Z }.
Definition set_address (a : Z) (s : state) : state := State a (name s) (kp_addr s).
Definition set_kp_addr (a : Z) (s : state) : state := State (address s) (name s) a.

Definition handler_pre (p_addr regs_flags : Z) : prog state Z :=
  printk "pre_handler called before p->addr=0x%p\n" [PInt p_addr] ;;
  printk "pt_regs.flags = 0x%lx\n" [PInt regs_flags] ;;
  call Dump_stack ;;
  Ret 0.
Definition handler_post (p_addr flags : Z) : prog state unit :=
  printk "post_handler called after p->addr=0x%p\n" [PInt p_addr] ;;
  call Dump_stack.
Definition handler_fault (p_addr trapnr : Z) : prog state Z :=
  printk "fault_handler called during calling p->addr=0x%p\n" [PInt p_addr] ;;
  call Dump_stack ;;
  Ret 0.

Definition my_init : prog state Z :=
  s <- get ;;
  if (address s =? 0) && no_name (name s) then
    printk "Target function is not specified. Please use address or name to monitoring it\n" [] ;;
    Ret (-1)
  else
    match name s with
    | Some n => a <- call (Kallsyms_lookup_name n) ;; modify (set_address a)
    | None => skip
    end ;;
    s <- get ;;
    if address s =? 0 then
      printk "Can't find the target address for %s\n" [name_arg (name s)] ;; Ret (-1)
    else
      modify (set_kp_addr (address s)) ;;
      r <- call (Register_kprobe (AtAddr (address s))) ;;
      if negb (r.1 =? 0) then
        printk "Can't register kprobe on %s : %d\n" [name_arg (name s); PInt r.1] ;;
        Ret (-1)
      else
        printk "Hello, kprobe is registered\n" [] ;;
        Ret 0.

Definition my_exit : prog state unit :=
  s <- get ;;
  call (Unregister_kprobe (AtAddr (kp_addr s))) ;;
  printk "Bye bye\n" [].
End KprobeTest.

(** ** kprobes/jprobe_test.c *)
Module JprobeTest.
(** [jprobe_return] restores the registers that the probed function was entered
    with and does not come back: the [printk] after it is never reached, as its
    text says, and the result is nobody's. *)
Definition my_fork (clone_flags stack_size : Z) : prog unit Z :=
  printk "jprobe my_fork: clone_flags = 0x%lx, stack_size = 0x%lx\n"
    [PInt clone_flags; PInt stack_size] ;;
  call Jprobe_return ;;
  Ret 0.

Definition my_init : prog unit Z :=
  r <- call (Register_jprobe (AtSymbol "do_fork")) ;;
  if r.1 <? 0 then
    printk "register_jprobe failed with %d\n" [PInt r.1] ;; Ret (-1)
  else
    printk "register_jprobe installed\n" [] ;; Ret 0.

Definition my_exit : prog unit unit :=
  call (Unregister_jprobe (AtSymbol "do_fork")) ;;
  printk "jprobe unregistered\n" [].
End JprobeTest.

(** ** debug/kprobe_zap.c *)
Module KprobeZap.
Record state := State { address : Z; name : option string; mypid : Z; kp_addr : Z }.
Definition set_address (a : Z) (s : state) : state := State a (name s) (mypid s) (kp_addr s).
Definition set_kp_addr (a : Z) (s : state) : state := State (address s) (name s) (mypid s) a.
Definition TASK_INTERRUPTIBLE : Z := 1.

(** [for (;;) ...]: the loop has no way out. *)
Definition handler_pre (fuel : nat) : prog state Z :=
  pid <- call Current_pid ;;
  printk "%d\n" [PInt pid] ;;
  s <- get ;;
  pid <- call Current_pid ;;
  if pid =? mypid s then
    loop fuel (fun _ : unit =>
      t <- call Current_task ;;
      printk "sleep in %d, 0x%lx\n" [PInt (mypid s); PInt t] ;;
      call (Set_current_state TASK_INTERRUPTIBLE) ;;
      call Schedule ;;
      Ret (inl tt)) tt
  else Ret 0.

Definition my_init : prog state Z :=
  s <- get ;;
  if (address s =? 0) && no_name (name s) then
    printk "Target function is not specified. Please use address or name to monitoring it\n" [] ;;
    Ret (-1)
  else
    match name s with
    | Some n => a <- call (Kallsyms_lookup_name n) ;; modify (set_address a)
    | None => skip
    end ;;
    s <- get ;;
    if address s =? 0 then
      printk "Can't find the target address for %s\n" [name_arg (name s)] ;; Ret (-1)
    else
      modify (set_kp_addr (address s)) ;;
      r <- call (Register_kprobe (AtAddr (address s))) ;;
      if negb (r.1 =? 0) then
        printk "Can't register kprobe on %s\n" [name_arg (name s)] ;;
        Ret (-1)
      else
        printk "Hello, kprobe is registered to 0x%lx for %d\n" [PInt (address s); PInt (mypid s)] ;;
        printk " pre_handler = 0x%lx\n" [PName "handler_pre"] ;;
        Ret 0.

Definition my_exit : prog state unit :=
  s <- get ;;
  call (Unregister_kprobe (AtAddr (kp_addr s))) ;;
  printk "Bye bye\n" [].
End KprobeZap.

(** ** debug/zap_jprobe.c *)
Module ZapJprobe.
Definition kp_addr : Z := 0xffffffff81172670.

Definition my_zap_pid_ns_processes : prog unit unit :=
  printk "Hello\n" [] ;;
  call Jprobe_return.

Definition my_init : prog unit Z :=
  r <- call (Register_jprobe (AtAddr kp_addr)) ;;
  if r.1 <? 0 then
    printk "register_jprobe failed with %d\n" [PInt r.1] ;; Ret r.1
  else
    printk "register_jprobe installed\n" [] ;; Ret 0.

Definition my_exit : prog unit unit :=
  call (Unregister_jprobe (AtAddr kp_addr)) ;;
  printk "jprobe unregistered\n" [].
End ZapJprobe.

(** ** Lemmas *)

(** The registration calls return 0 or a negative error. *)
Class ProbeRet (K : kernel) := {
  register_kprobe_ret : forall h a, (K _ h (Register_kprobe a)).1 <= 0;
  register_jprobe_ret : forall h a, (K _ h (Register_jprobe a)).1 <= 0;
}.

(** A module from [s]: a load that fails keeps nothing, a load that succeeds is
    undone by the unload. *)
Definition balanced {σ} (K : kernel) (init : prog σ Z) (exit : prog σ unit) (s : σ) : Prop :=
  forall L L0 h, held L0 h = Some L ->
    wp K (r <- init ;; (if r =? 0 then exit else skip) ;; Ret r)
      (fun r _ h' => r <= 0 /\ held L0 h' = Some L) s h.

Section balance.
Context (K : kernel).

Lemma kprobe_test_balanced s : balanced K KprobeTest.my_init KprobeTest.my_exit s.
Proof.
  intros L L0 h HL. unfold KprobeTest.my_init. wp_go.
  wp_if; wp_go; [simpl; wp_go; split; [lia|ledger]|].
  apply wp_mono with (Q := fun _ _ h' => held L0 h' = Some L).
  { destruct (KprobeTest.name s); wp_go; [ledger|done]. }
  intros [] s1 h1 H1. wp_go. wp_if; wp_go; [simpl; wp_go; split; [lia|ledger]|].
  match goal with |- context [?r.1 =? 0] => destruct (r.1 =? 0) eqn:? end; cbn [negb]; wp_go;
    unfold KprobeTest.my_exit; simpl; wp_go; (split; [lia|]); simpl; ledger.
Qed.

Lemma kprobe_zap_balanced s : balanced K KprobeZap.my_init KprobeZap.my_exit s.
Proof.
  intros L L0 h HL. unfold KprobeZap.my_init. wp_go.
  wp_if; wp_go; [simpl; wp_go; split; [lia|ledger]|].
  apply wp_mono with (Q := fun _ _ h' => held L0 h' = Some L).
  { destruct (KprobeZap.name s); wp_go; [ledger|done]. }
  intros [] s1 h1 H1. wp_go. wp_if; wp_go; [simpl; wp_go; split; [lia|ledger]|].
  match goal with |- context [?r.1 =? 0] => destruct (r.1 =? 0) eqn:? end; cbn [negb]; wp_go;
    unfold KprobeZap.my_exit; simpl; wp_go; (split; [lia|]); simpl; ledger.
Qed.

Context `{!ProbeRet K}.

Lemma jprobe_test_balanced s : balanced K JprobeTest.my_init JprobeTest.my_exit s.
Proof.
  intros L L0 h HL. unfold JprobeTest.my_init. wp_go.
  pose proof (register_jprobe_ret h (AtSymbol "do_fork")) as Hr. rewrite <- E in Hr.
  destruct (Z.ltb_spec r.1 0); wp_go; unfold JprobeTest.my_exit; simpl; wp_go; (split; [lia|]).
  - assert (r.1 <> 0) by lia. ledger.
  - assert (r.1 = 0) by lia. ledger.
Qed.

Lemma zap_jprobe_balanced s : balanced K ZapJprobe.my_init ZapJprobe.my_exit s.
Proof.
  intros L L0 h HL. unfold ZapJprobe.my_init. wp_go.
  pose proof (register_jprobe_ret h (AtAddr ZapJprobe.kp_addr)) as Hr. rewrite <- E in Hr.
  destruct (Z.ltb_spec r.1 0); wp_go.
  - assert (r.1 <> 0) by lia. rewrite (proj2 (Z.eqb_neq r.1 0)) by lia. wp_go. split; [lia|]. ledger.
  - unfold ZapJprobe.my_exit. simpl. wp_go. split; [lia|]. assert (r.1 = 0) by lia. ledger.
Qed.
End balance.

(** ** Properties *)

(** each of the four modules keeps no probe after a load that failed, at
    whatever step, and its unload unregisters the probe of a load that
    succeeded, at the address it was registered on. *)
Theorem probe_modules_balanced (K : kernel) `{!ProbeRet K} s1 s2 :
  balanced K KprobeTest.my_init KprobeTest.my_exit s1 /\
  balanced K JprobeTest.my_init JprobeTest.my_exit tt /\
  balanced K KprobeZap.my_init KprobeZap.my_exit s2 /\
  balanced K ZapJprobe.my_init ZapJprobe.my_exit tt.
Proof.
  split_and!; [apply kprobe_test_balanced|by apply jprobe_test_balanced
              |apply kprobe_zap_balanced|by apply zap_jprobe_balanced].
Qed.

(** The process that is probed for never comes back from the handler. *)
Lemma kprobe_zap_never_returns (K : kernel) fuel s h :
  (forall h, K _ h Current_pid = KprobeZap.mypid s) ->
  faults K (KprobeZap.handler_pre fuel) OutOfFuel s h.
Proof.
  intros Hpid. unfold KprobeZap.handler_pre. faults_go.
  match goal with E : ?r = K _ _ Current_pid |- context [?r =? _] => rewrite Hpid in E; subst r end.
  rewrite Z.eqb_refl.
  match goal with |- faults _ _ _ _ ?h => generalize h end.
  induction fuel as [|fuel IH]; intros h1; [done|]. rewrite loop_S.
  apply faults_after. wp_go. apply IH.
Qed.

(** ** Concrete instances *)

#[export] Instance quiet_probe_ret : ProbeRet quiet_kernel.
Proof. by split. Qed.

Lemma probe_modules_balanced_witness :
  balanced quiet_kernel KprobeTest.my_init KprobeTest.my_exit
    (KprobeTest.State 0 (Some "do_fork"%string) 0) /\
  balanced quiet_kernel JprobeTest.my_init JprobeTest.my_exit tt /\
  balanced quiet_kernel KprobeZap.my_init KprobeZap.my_exit
    (KprobeZap.State 4096 None 1 0) /\
  balanced quiet_kernel ZapJprobe.my_init ZapJprobe.my_exit tt.
Proof. apply (probe_modules_balanced quiet_kernel). Defined.
