(* ===== verification/Timer.v ===== *)
(** * The timer modules

    timer/periodic_timer.c re-arms its timer whenever it fires;
    timer/timer_drv.c is a character device that arms one on every write.  HZ
    is a parameter.  The timer itself is the kernel's: [armed] is its expiry
    after a history, and [clock] a lower bound of [jiffies], which only grows
    and has reached the expiry of a timer that fires ([JiffiesSpec]). *)

From S2P Require Import Prelude Kernel Prog.

(** ** timer/periodic_timer.c *)
Module PeriodicTimer.
Record state := State { period : Z; start_time : Z }.
Definition set_period (p : Z) (s : state) : state := State p (start_time s).
Definition set_start (t : Z) (s : state) : state := State (period s) t.

Section module.
Context (HZ : Z).
(** The address of the variable [data], which the timer hands to [ktfun]. *)
Context (data : Z).

(** [var] is always [&data], so that [tdata] is the module's variable. *)
Definition ktfun : prog state unit :=
  s <- get ;;
  j <- call Jiffies ;;
  printk "ktimer:period=%ld elapsed =%ld\n"
    [PInt (s64 (period s)); PInt (s64 (u64 (j - start_time s)))] ;;
  j <- call Jiffies ;;
  call (Mod_timer (u64 (period s + j))) ;;
  skip.

Definition init_module : prog state Z :=
  modify (set_period (u64 (s32 (2 * HZ)))) ;;
  call Init_timer ;;
  s <- get ;;
  j <- call Jiffies ;;
  let expires := u64 (j + period s) in
  j <- call Jiffies ;;
  modify (set_start j) ;;
  call (Add_timer expires data) ;;
  Ret 0.

Definition cleanup_module : prog state unit :=
  rc <- call Del_timer_sync ;;
  printk "Delete timer,rc=%d\n" [PInt rc].
End module.
End PeriodicTimer.

(** ** timer/timer_drv.c *)
Module TimerDrv.
Definition MYDEV_NAME : string := "mycdrv".
(** [len] is the static variable of [my_write]. *)
Record state := State { mycdrv_ma_no : Z; len : Z }.
Definition statics : state := State 0 100.
Definition set_major (m : Z) (s : state) : state := State m (len s).
Definition set_len (n : Z) (s : state) : state := State (mycdrv_ma_no s) n.

Section module.
Context (HZ : Z).

Definition my_timer_function (ptr : Z) : prog state unit :=
  j <- call Jiffies ;;
  printk "my_timer_function(), jiffies=%ld\n" [PInt (s64 j)] ;;
  pid <- call Current_pid ;;
  printk "my data = %d, my pid=%d\n" [PInt (s32 ptr); PInt pid].

Definition my_write (lbuf : Z) : prog state Z :=
  pid <- call Current_pid ;;
  printk "my_write(),current->pid=%d\n" [PInt pid] ;;
  call Init_timer ;;
  j <- call Jiffies ;;
  let expires := u64 (j + HZ) in
  s <- get ;;
  let data := u64 (len s) in
  j <- call Jiffies ;;
  printk "Adding timer at jiffies = %ld\n" [PInt (s64 j)] ;;
  call (Add_timer expires data) ;;
  modify (fun s => set_len (s32 (len s + 10)) s) ;;
  Ret (s64 lbuf).

Definition my_init : prog state Z :=
  m <- call (Register_chrdev 0 MYDEV_NAME) ;;
  modify (set_major m) ;;
  Ret 0.

Definition my_exit : prog state unit :=
  s <- get ;;
  call (Unregister_chrdev (mycdrv_ma_no s) MYDEV_NAME).
End module.
End TimerDrv.

(** ** The kernel's timer *)

(** When the timer will fire: [None] when it is not pending. *)
Fixpoint armed (h : history) : option Z :=
  match h with
  | [] => None
  | Ev c _ :: h' =>
      match c with
      | Init_timer | Del_timer_sync | Timer_expires => None
      | Add_timer e _ | Mod_timer e => Some e
      | _ => armed h'
      end
  end.

Fixpoint clock (h : history) : Z :=
  match h with
  | [] => 0
  | Ev c r :: h' =>
      match c in kcall R return R -> Z with
      | Jiffies => fun j => j
      | Timer_expires => fun _ => Z.max (clock h') (default 0 (armed h'))
      | _ => fun _ => clock h'
      end r
  end.

Class JiffiesSpec (K : kernel) := {
  jiffies_clock : forall h, clock h <= K _ h Jiffies;
}.

(** The elapsed times that [ktfun] reports, oldest first. *)
Definition report_of (e : event) : option Z :=
  match e with
  | Ev c r =>
      match c with
      | Printk fmt args =>
          if decide (fmt = "ktimer:period=%ld elapsed =%ld\n"%string)
          then (if args is [_; PInt t] then Some t else None) else None
      | _ => None
      end
  end.
Definition reports (h : history) : list Z := omap report_of (reverse h).

Lemma reports_cons e h : reports (e :: h) = reports h ++ option_list (report_of e).
Proof.
  unfold reports. rewrite reverse_cons, omap_app. simpl. by destruct (report_of e).
Qed.

(** A list whose next element is at least [d] above the one before. *)
Fixpoint paced (d : Z) (l : list Z) : Prop :=
  match l with
  | [] => True
  | a :: l' => (if l' is b :: _ then a + d <= b else True) /\ paced d l'
  end.

Lemma paced_snoc d l b :
  paced d l -> (forall a, last l = Some a -> a + d <= b) -> paced d (l ++ [b]).
Proof.
  induction l as [|a l IH]; intros Hp Hl; [done|]. destruct Hp as [Ha Hp].
  destruct l as [|c l]; simpl; [by split; [apply Hl|]|].
  split; [done|]. apply IH; [done|]. intros x Hx. by apply Hl.
Qed.

Lemma paced_lookup d l i a b :
  paced d l -> l !! i = Some a -> l !! S i = Some b -> a + d <= b.
Proof.
  revert i. induction l as [|x l IH]; intros i Hp; [done|]. destruct Hp as [Hx Hp].
  destruct i as [|i]; simpl; [|by apply IH].
  intros [= ->]. destruct l; simpl; intros; simplify_eq. done.
Qed.

(** ** The periodic timer *)

Section periodic.
Context (K : kernel) `{!JiffiesSpec K} (HZ data : Z).
Context (HZ_range : 0 < HZ < 2 ^ 30).
#[local] Abbreviation state := PeriodicTimer.state.
#[local] Abbreviation P := (2 * HZ).

(** After [n] firings, as long as the clock has not wrapped around. *)
Definition running (h0 : history) (n : nat) (s : state) (h : history) : Prop :=
  PeriodicTimer.period s = P /\ 0 <= PeriodicTimer.start_time s <= clock h /\
  (clock h + P < 2 ^ 63 -> exists new e,
     reports h = reports h0 ++ new /\ length new = n /\ paced P new /\
     Forall (fun a => 0 <= a) new /\ armed h = Some e /\ e <= clock h + P /\
     forall a, last new = Some a -> a + P <= e - PeriodicTimer.start_time s).

Lemma jiffies_ge h c j : j = K _ h Jiffies -> c <= clock h -> c <= j.
Proof. intros -> Hc. pose proof (jiffies_clock h). lia. Qed.

Lemma init_module_running s h :
  0 <= clock h ->
  wp K (PeriodicTimer.init_module HZ data) (fun r s' h' => r = 0 /\ running h 0 s' h') s h.
Proof.
  intros Hh. unfold PeriodicTimer.init_module. wp_go. split; [done|]. simpl.
  apply (jiffies_ge _ 0) in E; [|done]. apply (jiffies_ge _ r) in E0; [|done].
  rewrite s32_small, u64_small by lia. split; [done|]. simpl. split; [lia|]. intros Hc.
  exists [], (r + P). rewrite u64_small, !reports_cons by lia. simpl. rewrite !app_nil_r.
  split_and!; auto; [lia|intros ? [=]].
Qed.

Lemma ktfun_running h0 n s h :
  running h0 n s h ->
  wp K (call Timer_expires ;; PeriodicTimer.ktfun) (fun _ => running h0 (S n)) s h.
Proof.
  intros (Hp & Hst & Hrun). unfold PeriodicTimer.ktfun. wp_go. unfold running. simpl.
  rewrite Hp. set (st := PeriodicTimer.start_time s) in *.
  apply (jiffies_ge _ (Z.max (clock h) (default 0 (armed h)))) in E; [|done].
  apply (jiffies_ge _ r) in E0; [|done].
  split; [done|]. split; [lia|]. intros Hc.
  destruct Hrun as (new & e & Hrep & Hlen & Hpace & Hpos & Harm & He & Hlast); [lia|].
  rewrite Harm in E. simpl in E.
  exists (new ++ [r - st]), (P + r0). rewrite !reports_cons. simpl. rewrite !app_nil_r, Hrep.
  rewrite (u64_small (r - st)), (s64_small (r - st)), u64_small by lia.
  split_and!; auto.
  - by rewrite app_assoc.
  - rewrite length_app. simpl. lia.
  - apply paced_snoc; [done|]. intros a Ha. apply Hlast in Ha. lia.
  - apply Forall_app. split; [done|]. repeat constructor. lia.
  - lia.
  - intros a. rewrite last_snoc. intros [= <-]. lia.
Qed.
End periodic.

(** ** Properties *)

(** C22: the life of the periodic timer: the load succeeds; each time the timer
    expires the handler reports the time since the load, and as long as the
    clock does not wrap the [n] reports are non-negative and at least 2 HZ
    jiffies apart, so that the timer was armed again each time; nothing is
    armed after the unload. *)
Theorem periodic_timer_paced (K : kernel) `{!JiffiesSpec K} HZ data n s h :
  0 < HZ < 2 ^ 30 -> 0 <= clock h ->
  wp K (r <- PeriodicTimer.init_module HZ data ;;
        for_each (seq 0 n) (fun _ => call Timer_expires ;; PeriodicTimer.ktfun) ;;
        PeriodicTimer.cleanup_module ;; Ret r)
    (fun r _ h' =>
       r = 0 /\ armed h' = None /\
       (clock h' + 2 * HZ < 2 ^ 63 -> exists new,
          reports h' = reports h ++ new /\ length new = n /\
          (forall a, a ∈ new -> 0 <= a) /\
          forall i a b, new !! i = Some a -> new !! S i = Some b -> a + 2 * HZ <= b)) s h.
Proof.
  intros HHZ Hh. apply wp_bind. eapply wp_mono; [by apply init_module_running|].
  intros r s1 h1 [-> H1]. apply wp_bind.
  eapply wp_for_each with (I := fun dn => running HZ h (length dn)); [done| |].
  - intros dn x todo s2 h2 _ H2. rewrite length_app, Nat.add_1_r. by apply ktfun_running.
  - intros s2 h2 (_ & _ & H2). rewrite length_seq in H2. unfold PeriodicTimer.cleanup_module.
    wp_go. simpl. split_and!; [done..|]. intros Hc.
    destruct H2 as (new & e & Hrep & Hlen & Hpace & Hpos & _); [done|].
    exists new. rewrite !reports_cons. simpl. rewrite !app_nil_r. split_and!; auto.
    + intros a Ha. by eapply Forall_forall in Hpos.
    + intros i a b. by apply paced_lookup.
Qed.

(** [timer_drv] loses track of its timer: a write right after another
    initialises the timer while it is armed, and the unload leaves it armed, with a
    handler that is gone. *)
Theorem timer_drv_left_armed (K : kernel) HZ n1 n2 s h :
  wp K (TimerDrv.my_init ;; TimerDrv.my_write HZ n1 ;; TimerDrv.my_write HZ n2 ;;
        TimerDrv.my_exit)
    (fun _ _ h' =>
       (exists j, armed h' = Some (u64 (j + HZ))) /\
       exists h1 h2 e, h' = h2 ++ Ev Init_timer tt :: h1 /\ armed h1 = Some e) s h.
Proof.
  unfold TimerDrv.my_init, TimerDrv.my_write, TimerDrv.my_exit. wp_go. simpl. split; [by eexists|].
  match goal with |- context [Ev Init_timer tt :: ?h1] =>
    exists h1, [Ev (Unregister_chrdev r TimerDrv.MYDEV_NAME) tt;
      Ev (Add_timer (u64 (r4 + HZ)) (u64 (s32 (TimerDrv.len s + 10)))) tt;
      Ev (Printk "Adding timer at jiffies = %ld\n" [PInt (s64 r5)]) tt;
      Ev Jiffies r5; Ev Jiffies r4] end.
  eexists. split; reflexivity.
Qed.

(** What the writes hand to the timer: 100, 110, 120, ... *)
Lemma timer_drv_data (K : kernel) HZ n s h :
  wp K (TimerDrv.my_write HZ n)
    (fun r s' h' => r = s64 n /\ TimerDrv.len s' = s32 (TimerDrv.len s + 10) /\
       exists e h1, h' = Ev (Add_timer e (u64 (TimerDrv.len s))) tt :: h1) s h.
Proof. unfold TimerDrv.my_write. wp_go. split_and!; [done..|]. do 2 eexists. done. Qed.

(** A load whose registration failed reports success, and its unload gives back
    a device that was never registered. *)
Lemma timer_drv_register_ignored (K : kernel) s h :
  (forall h, K _ h (Register_chrdev 0 TimerDrv.MYDEV_NAME) < 0) ->
  wp K (r <- TimerDrv.my_init ;; TimerDrv.my_exit ;; Ret r)
    (fun r _ h' => r = 0 /\ (held [] h = Some [] -> held [] h' = None)) s h.
Proof.
  intros HK. unfold TimerDrv.my_init, TimerDrv.my_exit. wp_go. split; [done|]. intros H0.
  eapply release_absent with (r := RChrdev r TimerDrv.MYDEV_NAME); [|done].
  apply absent_cons; [unfold absent; rewrite H0; set_solver|]. simpl.
  specialize (HK h). rewrite <- E in HK. apply Z.ltb_lt in HK. rewrite HK. set_solver.
Qed.

(** ** Concrete instances *)

(** A kernel whose clock moves only when a timer expires. *)
Definition lazy_clock : kernel := fun _ h c =>
  match c in kcall R return R with
  | Jiffies => clock h
  | c => quiet c
  end.

#[export] Instance lazy_clock_spec : JiffiesSpec lazy_clock.
Proof. split. intros h. simpl. lia. Qed.

Example lazy_clock_reports :
  (reports (run lazy_clock (PeriodicTimer.init_module 1000 4096 ;;
     for_each (seq 0 3) (fun _ => call Timer_expires ;; PeriodicTimer.ktfun))
     (PeriodicTimer.State 0 0) []).2) = [2000; 4000; 6000].
Proof. vm_compute. reflexivity. Qed.

Lemma periodic_timer_paced_witness :
  wp lazy_clock (r <- PeriodicTimer.init_module 1000 4096 ;;
        for_each (seq 0 3) (fun _ => call Timer_expires ;; PeriodicTimer.ktfun) ;;
        PeriodicTimer.cleanup_module ;; Ret r)
    (fun r _ h' =>
       r = 0 /\ armed h' = None /\
       (clock h' + 2 * 1000 < 2 ^ 63 -> exists new,
          reports h' = reports [] ++ new /\ length new = 3%nat /\
          (forall a, a ∈ new -> 0 <= a) /\
          forall i a b, new !! i = Some a -> new !! S i = Some b -> a + 2 * 1000 <= b))
    (PeriodicTimer.State 0 0) [].
Proof. apply (periodic_timer_paced lazy_clock 1000 4096 3); simpl; lia. Defined.
