(* ===== verification/Syscalls.v ===== *)
(** * syscalls/mysyscalls.c: a hook on the open system call

    The load replaces the entry of [open] in the system call table by [myopen],
    which prints the file name and calls the original; the unload puts the
    original back.  The table is memory of the kernel: [slot] is an entry after
    a history ([SyscallMem]). *)

From S2P Require Import Prelude Kernel Prog.

Definition NR_open : Z := 2.

Record state := State {
  syscall_addr : Z; sys_call_table : Z; orig_open : Z; set_pages_rw : Z }.
Definition statics : state := State 0 0 0 0.
Definition set_addr (a : Z) (s : state) : state :=
  State a (sys_call_table s) (orig_open s) (set_pages_rw s).
Definition set_table (a : Z) (s : state) : state :=
  State (syscall_addr s) a (orig_open s) (set_pages_rw s).
Definition set_orig (f : Z) (s : state) : state :=
  State (syscall_addr s) (sys_call_table s) f (set_pages_rw s).
Definition set_rw (f : Z) (s : state) : state :=
  State (syscall_addr s) (sys_call_table s) (orig_open s) f.

(** [filename] is the address that is passed on.  The name is copied into a
    local array of 256 bytes, of which the last one is never written. *)
Definition myopen (filename flags mode : Z) : prog state Z :=
  r <- call (Copy_from_user 255) ;;
  let length := s32 (u64 (256 - r.2)) in
  name <- match cstr r.1 with Some name => Ret name | None => Fail UninitRead end ;;
  comm <- call Current_comm ;;
  printk "opening %s by %s\n" [PStr name; PStr comm] ;;
  s <- get ;;
  if orig_open s =? 0 then Ret (-1)
  else call (Call_open (orig_open s) filename flags mode).

Section module.
(** The address of [myopen]. *)
Context (myopen_addr : Z).

Definition my_init : prog state Z :=
  v <- call Read_cr0 ;;
  call (Write_cr0 (Z.land v 0xfffeffff)) ;;
  a <- call (Kallsyms_lookup_name "sys_call_table") ;;
  modify (set_addr a) ;;
  modify (set_table a) ;;
  f <- call (Kallsyms_lookup_name "set_pages_rw") ;;
  modify (set_rw f) ;;
  page <- call (Page_of a) ;;
  (* neither symbol is checked *)
  (if f =? 0 then Fail OutOfBounds else call (Set_pages_rw page.1 1)) ;;
  (if a =? 0 then Fail OutOfBounds else skip) ;;
  for_each (seqZ 0 20) (fun i =>
    v <- call (Read_syscall a i) ;;
    printk "syscall[%i] = %p\n" [PInt i; PInt v]) ;;
  v <- call (Read_syscall a NR_open) ;;
  printk "open is at %d = %p\n" [PInt NR_open; PInt v] ;;
  v <- call (Read_syscall a NR_open) ;;
  modify (set_orig v) ;;
  call (Write_syscall a NR_open myopen_addr) ;;
  Ret 0.

Definition my_exit : prog state unit :=
  s <- get ;;
  if negb (orig_open s =? 0) then
    call (Write_syscall (sys_call_table s) NR_open (orig_open s))
  else skip.
End module.

(** ** The kernel's table *)

Section table.
(** The entries before the module was loaded. *)
Context (entry : Z -> Z -> Z).

Fixpoint slot (h : history) (t n : Z) : Z :=
  match h with
  | [] => entry t n
  | Ev c _ :: h' =>
      match c with
      | Write_syscall t' n' f => if (t =? t') && (n =? n') then f else slot h' t n
      | _ => slot h' t n
      end
  end.

Class SyscallMem (K : kernel) := {
  read_slot : forall h t n, K _ h (Read_syscall t n) = slot h t n;
}.

(** The last value written to the register. *)
Fixpoint cr0 (h : history) : option Z :=
  match h with
  | [] => None
  | Ev c _ :: h' => match c with Write_cr0 v => Some v | _ => cr0 h' end
  end.

Lemma write_protect_off v : Z.testbit (Z.land v 0xfffeffff) 16 = false.
Proof. by rewrite Z.land_spec, andb_false_r. Qed.

(** What printing the table keeps. *)
Definition same_kernel (h h' : history) : Prop :=
  (forall t n, slot h' t n = slot h t n) /\ cr0 h' = cr0 h.

#[export] Instance same_kernel_pre : PreOrder same_kernel.
Proof.
  split; [by split|]. intros h1 h2 h3 [H1 C1] [H2 C2]. split; [|congruence].
  intros t n. by rewrite H2, H1.
Qed.

Lemma print_table (K : kernel) (a : Z) l (s : state) h :
  wp K (for_each l (fun i =>
      v <- call (Read_syscall a i) ;; printk "syscall[%i] = %p\n" [PInt i; PInt v]))
    (fun _ s' h' => s' = s /\ same_kernel h h') s h.
Proof.
  eapply wp_for_each with (I := fun _ s' h' => s' = s /\ same_kernel h h').
  - by split.
  - intros dn i todo s1 h1 _ [-> H1]. wp_go. split; [done|]. etrans; [exact H1|]. by split.
  - done.
Qed.

Context (K : kernel) `{!SyscallMem K}.

(** The two symbols that the load looks up, and does not check. *)
Definition symbols_found (table : Z) : Prop :=
  table <> 0 /\ (forall h, K _ h (Kallsyms_lookup_name "sys_call_table") = table) /\
  forall h, K _ h (Kallsyms_lookup_name "set_pages_rw") <> 0.

(** After the load the table is as before, but for the entry of [open]. *)
Definition hooked (table myopen_addr : Z) (h0 : history) (s : state) (h : history) : Prop :=
  sys_call_table s = table /\ orig_open s = slot h0 table NR_open /\
  (forall t n, slot h t n =
     if (t =? table) && (n =? NR_open) then myopen_addr else slot h0 t n) /\
  exists v, cr0 h = Some v /\ Z.testbit v 16 = false.

Lemma my_init_hooks table myopen_addr s h :
  symbols_found table ->
  wp K (my_init myopen_addr) (fun r s' h' => r = 0 /\ hooked table myopen_addr h s' h') s h.
Proof.
  intros (Ht & Htab & Hrw). unfold my_init. wp_go.
  match goal with E : ?f = K _ _ (Kallsyms_lookup_name "set_pages_rw") |- _ =>
    assert (f <> 0) as Hf by (rewrite E; apply Hrw) end.
  match goal with E : ?a = K _ _ (Kallsyms_lookup_name "sys_call_table") |- _ =>
    rewrite Htab in E; subst a end.
  apply Z.eqb_neq in Hf, Ht. rewrite Hf. wp_go. rewrite Ht. wp_go.
  eapply wp_mono; [apply print_table|]. intros [] s1 h1 [-> [Hslot Hcr0]]. wp_go.
  split; [done|]. unfold hooked. simpl. split; [done|].
  match goal with E : ?v = K _ _ (Read_syscall _ _) |- ?v = _ /\ _ =>
    rewrite read_slot in E; simpl in E; rewrite Hslot in E; simpl in E; rewrite E end.
  split_and!; [done| |].
  - intros t n. destruct ((t =? _) && (n =? _)); [done|]. by rewrite Hslot.
  - eexists. split; [by rewrite Hcr0|apply write_protect_off].
Qed.
End table.


(** ** Properties *)

(** A process calls open: the kernel looks up the entry of the table and calls
    it, [myopen] when it is the address of [myopen]. *)
Definition sys_open (table myopen_addr filename flags mode : Z) : prog state Z :=
  f <- call (Read_syscall table NR_open) ;;
  if f =? myopen_addr then myopen filename flags mode
  else call (Call_open f filename flags mode).

Section properties.
Context (entry : Z -> Z -> Z) (K : kernel) `{!SyscallMem entry K}.

(** C27: between load and unload an open goes through the hook: when the kernel
    has the two symbols that the load looks up, the entry of open is neither NULL
    nor the hook already, and the file name ends within the 255 bytes that are copied, an open that a
    process makes through the system call table is reported, with the name and
    the process, and returns what the original call answers to the same
    arguments; after the unload every entry of the table is what it was, so
    that the next open is the original one and is not reported, but the write
    protection that the load turned off in [cr0] is still off. *)
Theorem syscall_hook_transparent table myopen_addr filename flags mode name s h :
  symbols_found K table ->
  slot entry h table NR_open <> 0 -> slot entry h table NR_open <> myopen_addr ->
  (forall h, cstr (K _ h (Copy_from_user 255)).1 = Some name) ->
  let f := slot entry h table NR_open in
  let open := sys_open table myopen_addr filename flags mode in
  wp K (my_init myopen_addr ;; r1 <- open ;; my_exit ;; r2 <- open ;; Ret (r1, r2))
    (fun x s' h' =>
       (exists comm h0,
          h' = Ev (Call_open f filename flags mode) x.2 :: Ev (Read_syscall table NR_open) f ::
               Ev (Write_syscall table NR_open f) tt ::
               Ev (Call_open f filename flags mode) x.1 ::
               Ev (Printk "opening %s by %s\n" [PStr name; PStr comm]) tt :: h0) /\
       (forall t n, slot entry h' t n = slot entry h t n) /\
       exists v, cr0 h' = Some v /\ Z.testbit v 16 = false) s h.
Proof.
  intros Hsym He Hne Hname f open. apply wp_bind.
  eapply wp_mono; [by apply (my_init_hooks entry)|].
  intros r s1 h1 (_ & Htab & Ho & Hslot & Hcr0). fold f in Ho, He, Hne.
  apply Z.eqb_neq in He, Hne. unfold open, sys_open, myopen, my_exit. wp_go.
  rewrite (read_slot entry), Hslot, !Z.eqb_refl in E. cbn [andb] in E. subst r0. rewrite Z.eqb_refl. wp_go.
  match goal with E : ?x = K _ ?h (Copy_from_user 255) |- _ =>
    pose proof (Hname h) as Hn; rewrite <- E in Hn end.
  rewrite Hn. wp_go. rewrite Ho, He. wp_go. rewrite Ho, He, Htab. cbn [negb]. wp_go.
  match goal with E : ?x = K _ ?h (Read_syscall table NR_open) |- _ =>
    assert (x = f) as Hx by (rewrite E, (read_slot entry); simpl; by rewrite !Z.eqb_refl); rewrite Hx in * end.
  rewrite Hne. wp_go. split_and!; [by do 2 eexists| |done].
  intros t n. simpl. destruct ((t =? table) && (n =? NR_open)) eqn:Etn; [|by rewrite Hslot, Etn].
  apply andb_true_iff in Etn as [->%Z.eqb_eq ->%Z.eqb_eq]. done.
Qed.

(** A file name of 255 bytes or more: the array is printed up to a byte that was
    never written. *)
Lemma myopen_long_name filename flags mode s h :
  Forall (fun b => b <> 0) (K _ h (Copy_from_user 255)).1 ->
  faults K (myopen filename flags mode) UninitRead s h.
Proof.
  intros Hn. unfold myopen. apply faults_after. wp_go. rewrite <- E in Hn.
  by apply faults_bind; rewrite cstr_none.
Qed.
End properties.

(** The symbols are not checked: a load on a kernel without [set_pages_rw]
    calls NULL. *)
Lemma my_init_no_symbol (K : kernel) myopen_addr s h :
  (forall h, K _ h (Kallsyms_lookup_name "set_pages_rw") = 0) ->
  faults K (my_init myopen_addr) OutOfBounds s h.
Proof.
  intros HK. unfold my_init. do 8 (apply faults_after; wp_go).
  match goal with E : ?f = K _ _ (Kallsyms_lookup_name "set_pages_rw") |- _ =>
    rewrite HK in E; subst f end.
  by apply faults_bind.
Qed.

(** ** Concrete instances *)

(** A kernel whose table is at 8192 and holds [4096 + 16 n] at first. *)
Definition table_entry (t n : Z) : Z := 4096 + 16 * n.
Definition table_kernel : kernel := fun _ h c =>
  match c in kcall R return R with
  | Read_syscall t n => slot table_entry h t n
  | Kallsyms_lookup_name _ => 8192
  | Call_open _ _ _ _ => 3
  | c => quiet c
  end.

#[export] Instance table_kernel_mem : SyscallMem table_entry table_kernel.
Proof. by split. Qed.

Lemma syscall_hook_transparent_witness :
  let f := slot table_entry [] 8192 NR_open in
  let open := sys_open 8192 65536 512 0 0 in
  wp table_kernel (my_init 65536 ;; r1 <- open ;; my_exit ;; r2 <- open ;; Ret (r1, r2))
    (fun x s' h' =>
       (exists comm h0,
          h' = Ev (Call_open f 512 0 0) x.2 :: Ev (Read_syscall 8192 NR_open) f ::
               Ev (Write_syscall 8192 NR_open f) tt :: Ev (Call_open f 512 0 0) x.1 ::
               Ev (Printk "opening %s by %s\n" [PStr []; PStr comm]) tt :: h0) /\
       (forall t n, slot table_entry h' t n = slot table_entry [] t n) /\
       exists v, cr0 h' = Some v /\ Z.testbit v 16 = false) statics [].
Proof.
  apply (syscall_hook_transparent table_entry table_kernel 8192 65536 512 0 0 [] statics []).
  - by split_and!.
  - by vm_compute.
  - by vm_compute.
  - done.
Defined.
