(* ===== verification/Misc.v ===== *)
(** * The small modules

    io_port/gpio_legacy_led.c, pci/pci_view.c, pci/pci_probe_test.c,
    sysrq/sysrq_task.c and the modules of module_basic/.  [balanced] is the
    life of a module: what a load acquired is given back, by the unload when
    the load succeeded. *)

From S2P Require Import Prelude Kernel Prog Probes.

Definition ENODEV : Z := 19.

(** ** io_port/gpio_legacy_led.c *)
Module GpioLed.
Definition BCM2835_NUM_GPIOS : Z := 54.
Record state := State { gpio_no : Z }.
Definition statics : state := State 18.

Section module.
(** The number of GPIOs the kernel is configured for. *)
Context (ARCH_NR_GPIOS : Z).

(** The answers of the three calls that claim the line are not looked at. *)
Definition my_init : prog state Z :=
  modify (fun s => State (s32 ((ARCH_NR_GPIOS - BCM2835_NUM_GPIOS) + gpio_no s))) ;;
  s <- get ;;
  ok <- call (Gpio_is_valid (gpio_no s)) ;;
  if negb ok then
    printk "This is invalid GPIO\n" [] ;; Ret (- ENODEV)
  else
    call (Gpio_request (gpio_no s) "LED_RED") ;;
    call (Gpio_direction_output (gpio_no s) 1) ;;
    call (Gpio_export (gpio_no s)) ;;
    call (Gpio_set_value (gpio_no s) 1) ;;
    Ret 0.
End module.

Definition my_exit : prog state unit :=
  s <- get ;;
  call (Gpio_set_value (gpio_no s) 0) ;;
  call (Gpio_unexport (gpio_no s)) ;;
  call (Gpio_free (gpio_no s)).
End GpioLed.

(** ** pci/pci_view.c *)
Module PciView.
Definition PCI_VENDOR_ID : Z := 0.
Definition PCI_DEVICE_ID : Z := 2.
Definition PCI_INTERRUPT_LINE : Z := 0x3c.

(** The module has no variables; [(pdev, j)] are the locals of the loop. *)
Definition view_turn (i : Z * Z) : prog unit ((Z * Z) + unit) :=
  let '(pdev, j) := i in
  pdev <- call (Pci_get_device pdev) ;;
  if pdev =? 0 then Ret (inr tt)
  else
    printk "\n FOUND PCI DEVICE # j = %d, " [PInt j] ;;
    dval <- call (Pci_read_config_word pdev PCI_VENDOR_ID) ;;
    printk "PCI_VENDOR_ID=%x " [PInt (u16 dval)] ;;
    dval <- call (Pci_read_config_word pdev PCI_DEVICE_ID) ;;
    printk "PCI_DEVICE_ID=%x " [PInt (u16 dval)] ;;
    byte <- call (Pci_read_config_byte pdev PCI_INTERRUPT_LINE) ;;
    printk "irq = %d\n" [PInt (s8 byte)] ;;
    Ret (inl (pdev, s32 (j + 1))).

Definition my_init (fuel : nat) : prog unit Z :=
  printk "Loading the pci_device_finder\n" [] ;;
  loop fuel view_turn (0, 0) ;;
  Ret (-1).

Definition my_exit : prog unit unit := skip.
End PciView.

(** ** pci/pci_probe_test.c *)
Module PciProbe.
Definition PCI_VENDOR_ID : Z := 0.
Definition PCI_REVISION_ID : Z := 8.

Definition my_probe (dev : Z) : prog unit Z :=
  wval <- call (Pci_read_config_word dev PCI_VENDOR_ID) ;;
  bval <- call (Pci_read_config_byte dev PCI_REVISION_ID) ;;
  printk " Vendor ID = 0x%x, revision = 0x%x\n" [PInt (u16 wval); PInt (u8 bval)] ;;
  Ret 0.
Definition remove : prog unit unit := printk "device removed\n" [].
Definition my_driver : string := "my_pci".
Definition my_init : prog unit Z := call (Pci_register_driver my_driver).
Definition my_exit : prog unit unit := call (Pci_unregister_driver my_driver).
End PciProbe.

(** ** sysrq/sysrq_task.c *)
Module SysrqTask.
Definition TASK_RUNNING : Z := 0.
(** ['a'], the key of the operation. *)
Definition key : Z := 97.

Definition my_sysrq_task_list : prog unit unit :=
  printk "*** Start to dump task list ***\n" [] ;;
  tasks <- call Task_list ;;
  for_each tasks (fun p =>
    printk "%s(%d) is %s Runnable\n"
      [PStr p.1.1; PInt p.1.2; PName (if p.2 =? TASK_RUNNING then "" else "Not")]) ;;
  printk "*** End of task dumping ***\n" [].

Definition my_init : prog unit Z :=
  ret <- call (Register_sysrq_key key) ;;
  printk "SysRq function is %sregistered\n" [PName (if negb (ret =? 0) then "" else "Not ")] ;;
  Ret ret.

Definition my_exit : prog unit unit := call (Unregister_sysrq_key key) ;; skip.
End SysrqTask.

(** ** module_basic/ *)
Module First.
Definition my_init {σ} : prog σ Z := printk "Hello, I'm first\n" [] ;; Ret 0.
Definition my_exit {σ} : prog σ unit := printk "Bye, I'm first\n" [].
Definition first_func {σ} : prog σ unit := printk "You call me, I'm first_func\n" [].
End First.

Module Second.
Definition my_init : prog unit Z :=
  printk "Hello, I'm second\n" [] ;; First.first_func ;; Ret 0.
Definition my_exit : prog unit unit := printk "Goodbye, I'm second\n" [].
End Second.

Module Hello.
(** [irq] is a parameter that can be changed while the module is loaded. *)
Record state := State { irq : Z }.
Definition my_init : prog state Z := s <- get ;; printk "irq = %d\n" [PInt (irq s)] ;; Ret 0.
Definition my_exit : prog state unit := s <- get ;; printk "Bye. Bye..%d\n" [PInt (irq s)].
End Hello.

Module SimpleModule.
Definition my_init : prog unit Z := Ret 0.
Definition my_exit : prog unit unit := skip.
End SimpleModule.

(** ** The list of PCI devices *)

(** [pci_get_device(from)] answers the device after [from] ([from] NULL: the
    first) and NULL at the end. *)
Fixpoint next_dev (devs : list Z) (from : Z) : Z :=
  match devs with
  | [] => 0
  | d :: devs' => if d =? from then default 0 (head devs') else next_dev devs' from
  end.

Class PciSpec (devs : list Z) (K : kernel) := {
  pci_get_first : forall h, K _ h (Pci_get_device 0) = default 0 (head devs);
  pci_get_next : forall h d, d ∈ devs -> K _ h (Pci_get_device d) = next_dev devs d;
}.

Lemma next_dev_mid dn d todo :
  d ∉ dn -> next_dev (dn ++ d :: todo) d = default 0 (head todo).
Proof.
  induction dn as [|x dn IH]; simpl; intros Hd; [by rewrite Z.eqb_refl|].
  apply not_elem_of_cons in Hd as [Hx Hd]. rewrite (proj2 (Z.eqb_neq x d)) by done. auto.
Qed.

(** The devices that were viewed, oldest first, with their numbers. *)
Definition found_of (e : event) : option Z :=
  match e with
  | Ev c r =>
      match c with
      | Printk fmt args =>
          if decide (fmt = "\n FOUND PCI DEVICE # j = %d, "%string)
          then (if args is [PInt j] then Some j else None) else None
      | _ => None
      end
  end.
Definition asked_of (e : event) : option Z :=
  match e with
  | Ev c r => match c with Pci_read_config_byte d _ => Some d | _ => None end
  end.
Definition found (h : history) : list Z := omap found_of (reverse h).
Definition asked (h : history) : list Z := omap asked_of (reverse h).

Lemma omap_reverse_cons {A} (f : event -> option A) e h :
  omap f (reverse (e :: h)) = omap f (reverse h) ++ option_list (f e).
Proof. rewrite reverse_cons, omap_app. simpl. by destruct (f e). Qed.

Lemma asked_cons e h : asked (e :: h) = asked h ++ option_list (asked_of e).
Proof. apply omap_reverse_cons. Qed.
Lemma found_cons e h : found (e :: h) = found h ++ option_list (found_of e).
Proof. apply omap_reverse_cons. Qed.

Section view.
Context (devs : list Z) (K : kernel) `{!PciSpec devs K}.
Context (Hnull : 0 ∉ devs) (Hdup : NoDup devs) (Hmany : zlen devs < 2 ^ 31).

(** [dn] are viewed, [i] is the state of the loop. *)
Definition viewed (dn : list Z) (i : Z * Z) (h : history) : Prop :=
  i = (default 0 (last dn), zlen dn) /\ asked h = dn /\ found h = seqZ 0 (zlen dn) /\
  exists todo, devs = dn ++ todo.

Lemma next_of_viewed dn todo h :
  devs = dn ++ todo -> K _ h (Pci_get_device (default 0 (last dn))) = default 0 (head todo).
Proof.
  intros Hd. destruct dn as [|d dn _] using rev_ind; [by rewrite pci_get_first, Hd|].
  rewrite last_snoc. simpl. rewrite <- app_assoc in Hd. simpl in Hd.
  rewrite pci_get_next, Hd by (rewrite Hd; set_solver). apply next_dev_mid.
  rewrite Hd in Hdup. apply NoDup_app in Hdup as (_ & Hn & _). intros Hin.
  apply (Hn d Hin). set_solver.
Qed.

(** C31: the load of [pci_view] ends, in as many turns as there are devices and one
    more; it has looked at every device once, in the order of the kernel's list,
    has numbered them from 0, and then fails on purpose. *)
Theorem pci_view_lists_devices fuel h :
  (length devs < fuel)%nat -> asked h = [] -> found h = [] ->
  wp K (PciView.my_init fuel)
    (fun r _ h' => r = -1 /\ asked h' = devs /\ found h' = seqZ 0 (zlen devs)) tt h.
Proof.
  intros Hf Ha Hfo. unfold PciView.my_init. wp_go.
  eapply (wp_loop K _ (fun i _ h => exists dn, viewed dn i h)
            (fun i _ _ => (length devs - Z.to_nat i.2)%nat)).
  - exists []. unfold viewed. rewrite asked_cons, found_cons, Ha, Hfo.
    split_and!; [done..|]. by exists devs.
  - simpl. lia.
  - intros i [] h1 (dn & -> & H1a & H1f & todo & Hd). unfold PciView.view_turn. wp_go.
    rewrite (next_of_viewed _ _ _ Hd) in E. destruct todo as [|d todo]; simpl in E; subst r.
    { rewrite Z.eqb_refl. wp_go. rewrite app_nil_r in Hd. subst dn. rewrite asked_cons, found_cons. simpl.
      by rewrite !app_nil_r, H1f, <- Hd. }
    assert (d <> 0) as Hd0%Z.eqb_neq by (intros ->; apply Hnull; rewrite Hd; set_solver).
    rewrite Hd0. wp_go. cbv beta iota. assert (length devs = length dn + S (length todo))%nat as Hlen
      by (by rewrite Hd, length_app).
    rewrite s32_small by lia. split.
    + exists (dn ++ [d]). unfold viewed. rewrite last_snoc, length_app.
      rewrite !asked_cons, !found_cons. cbn. rewrite !app_nil_r, H1a, H1f.
      split_and!; [f_equal; lia|done| |].
      * replace (Z.of_nat (length dn + 1)) with (zlen dn + 1) by lia. by rewrite seqZ_last by lia.
      * exists todo. by rewrite <- app_assoc.
    + simpl. lia.
Qed.
End view.

(** ** Lemmas *)

(** A GPIO load that claimed the line is undone by its unload. *)
Lemma gpio_balanced (K : kernel) n s :
  (forall h i l, K _ h (Gpio_request i l) = 0) -> (forall h i, K _ h (Gpio_export i) = 0) ->
  balanced K (GpioLed.my_init n) GpioLed.my_exit s.
Proof.
  intros Hreq Hexp L L0 h HL. unfold GpioLed.my_init, GpioLed.my_exit. wp_go.
  destruct r; cbn [negb]; wp_go; simpl; wp_go; (split; [unfold ENODEV; lia|]); [|ledger].
  rewrite Hreq in *. rewrite Hexp in *. subst. simpl. ledger.
Qed.

(** One whose [gpio_request] failed reports success, and its unload gives back
    a line it does not hold. *)
Lemma gpio_request_ignored (K : kernel) n s :
  (forall h i l, K _ h (Gpio_request i l) < 0) -> (forall h i, K _ h (Gpio_is_valid i) = true) ->
  wp K (r <- GpioLed.my_init n ;; GpioLed.my_exit ;; Ret r)
    (fun r _ h' => r = 0 /\ held [] h' = None) s [].
Proof.
  intros Hreq Hok. unfold GpioLed.my_init, GpioLed.my_exit. wp_go.
  rewrite Hok in E. subst r. cbn [negb]. wp_go. simpl. split; [done|].
  match goal with E : ?r = K _ ?h (Gpio_request ?i ?l) |- _ =>
    specialize (Hreq h i l); rewrite <- E in Hreq; assert (r <> 0) as Hr%Z.eqb_neq by lia end.
  eapply release_absent; [|done].
  repeat (apply absent_cons; [|simpl; unfold when_zero; rewrite ?Hr; repeat case_match; set_solver]).
  by apply not_elem_of_nil.
Qed.

(** The interrupt line is read into a signed char: 255, which says that the
    device has none, is reported as -1. *)
Lemma pci_view_no_irq (K : kernel) d j h :
  K _ h (Pci_get_device d) <> 0 ->
  (forall h p, K _ h (Pci_read_config_byte p PciView.PCI_INTERRUPT_LINE) = 255) ->
  wp K (PciView.view_turn (d, j))
    (fun _ _ h' => exists h1, h' = Ev (Printk "irq = %d\n" [PInt (-1)]) tt :: h1) tt h.
Proof.
  intros Hd Hirq. unfold PciView.view_turn. wp_go. rewrite <- E in Hd.
  rewrite (proj2 (Z.eqb_neq r 0)) by done. wp_go. rewrite Hirq in E2. subst. by eexists.
Qed.

(** The driver and the key are registered and given back. *)
Lemma pci_probe_balanced (K : kernel) :
  (forall h n, K _ h (Pci_register_driver n) <= 0) ->
  balanced K PciProbe.my_init PciProbe.my_exit tt.
Proof.
  intros HK L L0 h HL. unfold PciProbe.my_init, PciProbe.my_exit. wp_go.
  pose proof (HK h PciProbe.my_driver). rewrite <- E in *.
  destruct (r =? 0) eqn:Hr; wp_go; (split; [done|]); ledger.
Qed.

Lemma sysrq_balanced (K : kernel) :
  (forall h k, K _ h (Register_sysrq_key k) <= 0) ->
  balanced K SysrqTask.my_init SysrqTask.my_exit tt.
Proof.
  intros HK L L0 h HL. unfold SysrqTask.my_init, SysrqTask.my_exit. wp_go.
  pose proof (HK h SysrqTask.key). rewrite <- E in *.
  destruct (r =? 0) eqn:Hr; wp_go; (split; [done|]); simpl; rewrite ?Hr; simpl; ledger.
Qed.

(** The message of the load says the opposite of what happened. *)
Lemma sysrq_message_inverted (K : kernel) s h :
  wp K SysrqTask.my_init
    (fun r _ h' => exists h1,
       h' = Ev (Printk "SysRq function is %sregistered\n"
                  [PName (if decide (r = 0) then "Not " else "")%string]) tt :: h1) s h.
Proof.
  unfold SysrqTask.my_init. wp_go. destruct (Z.eqb_spec r 0); cbn [negb];
    [rewrite decide_True by done|rewrite decide_False by done]; by eexists.
Qed.

(** The lines of the task list, oldest first, with what each says of its task. *)
Definition task_line (e : event) : option (bytes * Z * bool) :=
  match e with
  | Ev c r =>
      match c with
      | Printk fmt [PStr comm; PInt pid; PName st] =>
          if decide (fmt = "%s(%d) is %s Runnable\n"%string)
          then Some (comm, pid, bool_decide (st = ""%string)) else None
      | _ => None
      end
  end.

(** Each process is listed once, and called runnable exactly when it is. *)
Lemma sysrq_lists_tasks (K : kernel) tasks h :
  (forall h, K _ h Task_list = tasks) ->
  wp K SysrqTask.my_sysrq_task_list
    (fun _ _ h' => omap task_line (reverse h') =
       omap task_line (reverse h) ++
       ((fun p => (p.1.1, p.1.2, p.2 =? SysrqTask.TASK_RUNNING)) <$> tasks)) tt h.
Proof.
  intros HK. unfold SysrqTask.my_sysrq_task_list. wp_go. rewrite HK in E. subst r.
  eapply wp_for_each with (I := fun dn _ h' => omap task_line (reverse h') =
    omap task_line (reverse h) ++
    ((fun p => (p.1.1, p.1.2, p.2 =? SysrqTask.TASK_RUNNING)) <$> dn)).
  - rewrite !omap_reverse_cons. by rewrite !app_nil_r.
  - intros dn [[c p] st] todo [] h1 _ H1. wp_go. rewrite omap_reverse_cons, H1, fmap_app.
    cbn. rewrite <- app_assoc. do 2 f_equal. by destruct (st =? _).
  - intros [] h1 H1. wp_go. by rewrite omap_reverse_cons, H1, app_nil_r.
Qed.

(** The load of [second] prints its line, then the one of [first_func]. *)
Lemma second_calls_first (K : kernel) h :
  wp K Second.my_init (fun r _ h' => r = 0 /\
    h' = Ev (Printk "You call me, I'm first_func\n" []) tt ::
         Ev (Printk "Hello, I'm second\n" []) tt :: h) tt h.
Proof. unfold Second.my_init, First.first_func. wp_go. done. Qed.

(** ** A concrete instance *)

Definition pci_kernel (devs : list Z) : kernel := fun _ _ c =>
  match c in kcall R return R with
  | Pci_get_device from => if from =? 0 then default 0 (head devs) else next_dev devs from
  | c => quiet c
  end.

Example pci_view_run :
  (let r := run (pci_kernel [16; 32; 48]) (PciView.my_init 4) tt [] in
   (r.1.1, asked r.2, found r.2)) = (Done (-1), [16; 32; 48], [0; 1; 2]).
Proof. vm_compute. reflexivity. Qed.

#[export] Instance pci_kernel_spec : PciSpec [16; 32; 48] (pci_kernel [16; 32; 48]).
Proof.
  split; [done|]. intros h d Hd. simpl.
  repeat (apply elem_of_cons in Hd as [->|Hd]; [done|]). by apply not_elem_of_nil in Hd.
Qed.

Lemma pci_view_lists_devices_witness :
  wp (pci_kernel [16; 32; 48]) (PciView.my_init 4)
    (fun r _ h' => r = -1 /\ asked h' = [16; 32; 48] /\ found h' = seqZ 0 (zlen [16; 32; 48]))
    tt [].
Proof.
  apply (pci_view_lists_devices [16; 32; 48]).
  - apply _.
  - by apply (bool_decide_unpack _).
  - by apply (bool_decide_unpack _).
  - simpl. lia.
  - simpl. lia.
  - done.
  - done.
Defined.
