(* ===== verification/Imports.v ===== *)
(** * irq/ *.mod.c: what the four modules of irq/ import

    The build leaves a descriptor beside each module: the structure the kernel
    loads it by, and the table of the kernel symbols its code refers to, each
    with the checksum of its prototype.  The tables are the data of this file,
    and the subject is whether they fit the code: [imports_exact].

    Which symbol an inline function or a macro of the kernel's headers ends in
    is not in the repository: [sym] is a parameter, and [Headers] states what
    the code relies on. *)

From S2P Require Import Prelude Kernel Prog Discipline Irq.

#[local] Open Scope Z_scope.

(** ** The descriptors *)

(** [__this_module], [____versions], [__module_depends] and the [MODULE_INFO]s. *)
Record descriptor := Descriptor {
  vermagic : string;
  name : string; init : string; exit : option string;
  versions : list (Z * string);
  depends : string; srcversion : string; rhelversion : string }.

Section descriptors.
(** The configuration of the kernel that is built for. *)
Context (VERMAGIC_STRING : string) (CONFIG_MODULE_UNLOAD : bool).

(** The part that is the same in all of them. *)
Definition this_module (KBUILD_MODNAME : string) (vers : list (Z * string)) (src : string)
  : descriptor := {|
  vermagic := VERMAGIC_STRING;
  name := KBUILD_MODNAME; init := "init_module";
  exit := if CONFIG_MODULE_UNLOAD then Some "cleanup_module"%string else None;
  versions := vers; depends := "depends="; srcversion := src; rhelversion := "7.3" |}.

Definition irq_delayed_versions : list (Z * string) := [
  (0x28950ef1, "module_layout");
  (0x15692c87, "param_ops_int");
  (0x8c03d20c, "destroy_workqueue");
  (0xf20dabd8, "free_irq");
  (0xd6b8e852, "request_threaded_irq");
  (0x43a53735, "__alloc_workqueue_key");
  (0xeae3dfd6, "__const_udelay");
  (0x2e0d2f7f, "queue_work_on");
  (0xfaef0ed, "__tasklet_schedule");
  (0x27e1a049, "printk");
  (0x7d11c268, "jiffies");
  (0xbdfb6dbb, "__fentry__")]%string.
Definition irq_delayed : descriptor :=
  this_module "irq_delayed" irq_delayed_versions "10B0CA3C5F7D49A977ED996".

Definition irq_tasklet_versions : list (Z * string) := [
  (0x28950ef1, "module_layout");
  (0x15692c87, "param_ops_int");
  (0xf20dabd8, "free_irq");
  (0xd6b8e852, "request_threaded_irq");
  (0xeae3dfd6, "__const_udelay");
  (0xfaef0ed, "__tasklet_schedule");
  (0x27e1a049, "printk");
  (0x7d11c268, "jiffies");
  (0xbdfb6dbb, "__fentry__")]%string.
Definition irq_tasklet : descriptor :=
  this_module "irq_tasklet" irq_tasklet_versions "C422FE04C785BF52F4C66A3".

Definition simple_tasklet_versions : list (Z * string) := [
  (0x28950ef1, "module_layout");
  (0x82072614, "tasklet_kill");
  (0xfaef0ed, "__tasklet_schedule");
  (0x27e1a049, "printk");
  (0xbdfb6dbb, "__fentry__")]%string.
Definition simple_tasklet : descriptor :=
  this_module "simple_tasklet" simple_tasklet_versions "A4A7B599281BB908061AF61".

Definition myinterrupt_versions : list (Z * string) := [
  (0x28950ef1, "module_layout");
  (0xf20dabd8, "free_irq");
  (0x27e1a049, "printk");
  (0xd6b8e852, "request_threaded_irq");
  (0xbdfb6dbb, "__fentry__")]%string.
Definition myinterrupt : descriptor :=
  this_module "myinterrupt" myinterrupt_versions "16418438CAF3C3F90A1B692".

(** ** The code of a descriptor *)

(** The functions of the module, each with what is done with its result. *)
Inductive code_of : descriptor -> forall {σ A : Type}, prog σ A -> Prop :=
| delayed_init : code_of irq_delayed IrqDelayed.my_init
| delayed_irq : code_of irq_delayed IrqDelayed.my_interrupt
| delayed_tasklet : code_of irq_delayed IrqDelayed.t_func
| delayed_work : code_of irq_delayed IrqDelayed.w_func
| delayed_exit : code_of irq_delayed IrqDelayed.my_exit
| tasklet_init : code_of irq_tasklet IrqTasklet.my_init
| tasklet_irq : code_of irq_tasklet IrqTasklet.my_interrupt
| tasklet_tasklet : code_of irq_tasklet IrqTasklet.t_func
| tasklet_exit : code_of irq_tasklet IrqTasklet.my_exit
| simple_init : code_of simple_tasklet SimpleTasklet.drv_init
| simple_tasklet_run : code_of simple_tasklet SimpleTasklet.tasklet_func
| simple_exit : code_of simple_tasklet SimpleTasklet.drv_exit
| myinterrupt_init n : code_of myinterrupt (MyInterrupt.my_init n)
| myinterrupt_irq : code_of myinterrupt MyInterrupt.my_handler
| myinterrupt_exit n : code_of myinterrupt (MyInterrupt.my_exit n).

(** The module parameters it declares, each with its type. *)
Inductive param_of : descriptor -> string -> string -> Prop :=
| delayed_param_irq : param_of irq_delayed "irq" "int"
| delayed_param_delay : param_of irq_delayed "delay" "int"
| tasklet_param_irq : param_of irq_tasklet "irq" "int"
| tasklet_param_delay : param_of irq_tasklet "delay" "int".

Definition imports (d : descriptor) : list string := (versions d).*2.

(** ** What the headers make of a call *)

(** The symbols a call refers to, and the one that [module_param] does. *)
Context (sym : forall R : Set, kcall R -> list string) (param_sym : string -> string).

Class Headers := {
  hd_printk : forall fmt args, sym _ (Printk fmt args) = ["printk"%string];
  hd_jiffies : sym _ Jiffies = ["jiffies"%string];
  hd_mdelay : forall n, sym _ (Mdelay n) = ["__const_udelay"%string];
  hd_request_irq : forall i n c, sym _ (Request_irq i n c) = ["request_threaded_irq"%string];
  hd_free_irq : forall i c, sym _ (Free_irq i c) = ["free_irq"%string];
  hd_tasklet_schedule : sym _ Tasklet_schedule = ["__tasklet_schedule"%string];
  hd_tasklet_kill : sym _ Tasklet_kill = ["tasklet_kill"%string];
  hd_create_workqueue : forall n, sym _ (Create_workqueue n) = ["__alloc_workqueue_key"%string];
  hd_queue_work : forall q, sym _ (Queue_work q) = ["queue_work_on"%string];
  hd_destroy_workqueue : forall q, sym _ (Destroy_workqueue q) = ["destroy_workqueue"%string];
  hd_module_param : param_sym "int" = "param_ops_int"%string;
}.
Context `{!Headers}.

(** What the compiler and the loader refer to by themselves: the structure of a
    module, and the entry of each traced function. *)
Definition implicit : list string := ["module_layout"; "__fentry__"]%string.

(** The symbols of the calls of a history. *)
Definition referred (h : history) : list string :=
  h ≫= fun e => match e with Ev c _ => sym _ c end.

(** The programs that call imported symbols only. *)
Definition Linked {σ} (d : descriptor) : discipline σ unit :=
  Discipline (fun _ => True) (fun _ _ _ => True)
    (fun _ R c _ => if decide (Forall (fun x => x ∈ imports d) (sym R c)) then Some tt else None).

Lemma linked_track {σ} d h :
  track (Linked (σ := σ) d) tt h = Some tt -> referred h ⊆ imports d.
Proof.
  induction h as [|[R c r] h IH]; simpl; intros Ht; [set_solver|].
  destruct (track _ tt h) as [[]|]; [|done]. simpl in Ht. case_decide as Hd; [|done].
  rewrite Forall_forall in Hd. unfold referred. simpl. intros x [Hx|Hx]%elem_of_app; [by apply Hd|].
  by apply IH.
Qed.

Ltac linked :=
  repeat first
  [ progress obeys_step
  | progress intros
  | progress (simpl; rewrite ?hd_printk, ?hd_jiffies, ?hd_mdelay, ?hd_request_irq, ?hd_free_irq,
      ?hd_tasklet_schedule, ?hd_tasklet_kill, ?hd_create_workqueue, ?hd_queue_work,
      ?hd_destroy_workqueue; rewrite decide_True by (repeat constructor; set_solver)) ].

Lemma code_linked d {σ A} (p : prog σ A) :
  code_of d p -> obeys (Linked d) tt p (fun _ _ => True).
Proof.
  intros Hp. destruct Hp.
  1-12: unfold IrqDelayed.my_init, IrqDelayed.my_interrupt, IrqDelayed.t_func, IrqDelayed.w_func,
    IrqDelayed.my_exit, IrqTasklet.my_init, IrqTasklet.my_interrupt, IrqTasklet.t_func,
    IrqTasklet.my_exit, SimpleTasklet.drv_init, SimpleTasklet.tasklet_func, SimpleTasklet.drv_exit;
    linked; done.
  - unfold MyInterrupt.my_init, MyInterrupt.set_dev_id. linked.
    apply (obeys_for_each _ (fun _ => True)); [done|intros x [] _ _; by linked|].
    intros [] _. by linked.
  - unfold MyInterrupt.my_handler. by linked.
  - unfold MyInterrupt.my_exit.
    apply (obeys_for_each _ (fun _ => True)); [done|intros x [] _ _; by linked|done].
Qed.

(** A symbol that some function of the module refers to in some run, or one of
    its parameters. *)
Definition used (d : descriptor) (x : string) : Prop :=
  (exists n ty, param_of d n ty /\ x = param_sym ty) \/
  exists (σ A : Type) (p : prog σ A) (K : kernel) (s : σ), code_of d p /\ x ∈ referred (run K p s []).2.

Lemma used_by d {σ A} (p : prog σ A) s (R : Set) (c : kcall R) r x :
  code_of d p -> Ev c r ∈ (run quiet_kernel p s []).2 -> sym R c = [x] -> used d x.
Proof.
  intros Hp He Hc. right. exists σ, A, p, quiet_kernel, s. split; [done|]. unfold referred.
  apply list_elem_of_bind. exists (Ev c r). split; [|done]. rewrite Hc. by apply list_elem_of_singleton.
Qed.

(** The statics with which they are run. *)
Definition some_delayed : IrqDelayed.state := IrqDelayed.State 1 0 0 0 0 0 1.
Definition some_tasklet : IrqTasklet.state := IrqTasklet.State 1 0 0 0 0.
Definition some_lines : MyInterrupt.state := MyInterrupt.State [0].

Ltac used_in C s :=
  eapply (used_by _ _ s);
  [ apply C |
  | first [ apply hd_printk | apply hd_jiffies | apply hd_mdelay | apply hd_request_irq
          | apply hd_free_irq | apply hd_tasklet_schedule | apply hd_tasklet_kill
          | apply hd_create_workqueue | apply hd_queue_work | apply hd_destroy_workqueue ] ];
  match goal with |- _ ∈ ?h => let v := eval vm_compute in h in change h with v end;
  in_history.
Lemma imports_used d {σ A} (p : prog σ A) x :
  code_of d p -> x ∈ imports d -> x ∈ implicit \/ used d x.
Proof.
  intros Hp Hx. assert (x ∈ implicit \/ (x ∈ imports d /\ x ∉ implicit)) as [?|[Hx' Hni]];
    [destruct (decide (x ∈ implicit)); auto|by left|right].
  clear Hx. assert (d = irq_delayed \/ d = irq_tasklet \/ d = simple_tasklet \/ d = myinterrupt)
    as Hd by (destruct Hp; auto).
  clear Hp. unfold imports, implicit in *.
  destruct Hd as [->|[->|[->| ->]]]; cbn [versions irq_delayed irq_tasklet simple_tasklet myinterrupt
    this_module irq_delayed_versions irq_tasklet_versions simple_tasklet_versions
    myinterrupt_versions fmap list_fmap snd] in Hx';
    repeat (apply elem_of_cons in Hx' as [Hx'|Hx']; [subst x|]); try (by destruct Hni; set_solver);
    try (by apply elem_of_nil in Hx').
  all: first
    [ left; eexists _, _; split; [constructor|by rewrite hd_module_param]
    | used_in delayed_init some_delayed | used_in delayed_irq some_delayed
    | used_in delayed_exit some_delayed | used_in tasklet_init some_tasklet
    | used_in tasklet_irq some_tasklet | used_in tasklet_exit some_tasklet
    | used_in simple_init tt | used_in simple_exit tt
    | used_in (myinterrupt_init 1) some_lines | used_in (myinterrupt_exit 1) some_lines ].
Qed.

(** ** Which kernels load the modules *)

(** The kernel has each symbol of the table with the checksum of the table. *)
Definition accepts (exported : string -> option Z) (d : descriptor) : bool :=
  forallb (fun x => bool_decide (exported x.2 = Some x.1)) (versions d).

Lemma accepts_subset exported d d' :
  versions d' ⊆ versions d -> accepts exported d = true -> accepts exported d' = true.
Proof.
  unfold accepts. rewrite !forallb_forall. intros Hd Ha x Hx.
  apply Ha. apply list_elem_of_In. apply Hd. by apply list_elem_of_In.
Qed.

(** ** Properties *)

(** C14: the tables of imports of the four modules of irq/ fit their code.  For
    every function of a module, whatever the kernel answers: its calls refer
    to symbols of the table only, and so do the parameters of the module; each
    symbol of the table is one that a parameter, or some function of the module
    in some run, refers to, or one of the two that the compiler and the loader
    add; and a kernel that has the symbols of irq_delayed and of simple_tasklet
    with their checksums has those of all four. *)
Theorem imports_exact d {σ A} (p : prog σ A) :
  code_of d p ->
  (forall K s h o s' h', run K p s h = (o, s', h') ->
     exists new, h' = new ++ h /\ referred new ⊆ imports d) /\
  (forall n ty, param_of d n ty -> param_sym ty ∈ imports d) /\
  (forall x, x ∈ imports d -> x ∈ implicit \/ used d x) /\
  (forall exported, accepts exported irq_delayed = true ->
     accepts exported simple_tasklet = true -> accepts exported d = true).
Proof.
  intros Hp. split_and!.
  - intros K s h o s' h' Hr.
    destruct (obeys_run (Linked d) K tt p _ s h o s' h' ltac:(done) I (code_linked d p Hp) Hr)
      as (_ & new & [] & -> & Ht & _).
    exists new. split; [done|]. by apply (linked_track (σ := σ)).
  - intros n ty Hd. destruct Hd; rewrite hd_module_param; unfold imports; cbn; in_history.
  - intros x Hx. by eapply imports_used.
  - intros exported Hd Hs.
    destruct Hp; try done; (apply (accepts_subset _ irq_delayed); [simpl; set_solver|done]).
Qed.
End descriptors.

(** ** A concrete instance *)

(** The headers of the kernel the tables were built for. *)
Definition rhel_sym (R : Set) (c : kcall R) : list string :=
  match c with
  | Printk _ _ => ["printk"] | Jiffies => ["jiffies"] | Mdelay _ => ["__const_udelay"]
  | Request_irq _ _ _ => ["request_threaded_irq"] | Free_irq _ _ => ["free_irq"]
  | Tasklet_schedule => ["__tasklet_schedule"] | Tasklet_kill => ["tasklet_kill"]
  | Create_workqueue _ => ["__alloc_workqueue_key"] | Queue_work _ => ["queue_work_on"]
  | Destroy_workqueue _ => ["destroy_workqueue"] | _ => []
  end%string.
Definition rhel_param (ty : string) : string := ("param_ops_" +:+ ty)%string.
#[export] Instance rhel_headers : Headers rhel_sym rhel_param.
Proof. by split. Qed.

(** No function of irq_tasklet.c waits for its tasklet: [tasklet_kill] is not
    imported. *)
Lemma imports_exact_witness :
  "tasklet_kill"%string ∉ imports (irq_tasklet "3.10.0" true) /\
  forall h, (run quiet_kernel IrqTasklet.my_exit some_tasklet []).2 = h ->
    referred rhel_sym h ⊆ imports (irq_tasklet "3.10.0" true).
Proof.
  split; [vm_compute; set_solver|]. intros h Hh.
  destruct (imports_exact "3.10.0" true rhel_sym rhel_param _ IrqTasklet.my_exit
    (tasklet_exit "3.10.0" true)) as (Hr & _).
  destruct (run quiet_kernel IrqTasklet.my_exit some_tasklet []) as [[o s'] h'] eqn:E.
  destruct (Hr quiet_kernel some_tasklet [] o s' h' E) as (new & Hn & Hsub).
  rewrite app_nil_r in Hn. simpl in Hh. by subst.
Defined.
