(* ===== verification/Refusals.v ===== *)
(** * What one refused call does to ten modules

    The counterpart of [System]: many modules that are not in the system cannot
    be, because of one call whose refusal they do not handle.  Seven of them load
    in spite of it and their unload gives back what they were not given
    ([over_releases]): if another module holds it, that module loses it, and if
    nobody does, the unload gives back something that does not exist.  Three
    of them notice, fail to load, and keep part of what they took
    ([keeps_back]); nothing can give it back any more.  Neither can satisfy
    [Contract], whatever their handlers are. *)

From S2P Require Import Prelude Kernel Prog Modules.
From S2P Require Mychar Udev Sbd ProcFs Irq Misc.

#[local] Open Scope Z_scope.

(** ** Loads and unloads *)

(** A load, and the unload when the kernel keeps the module. *)
Definition load_cycle {σ} (init : prog σ Z) (exit : prog σ unit) : prog σ Z :=
  r <- init ;; (if r <? 0 then skip else exit) ;; Ret r.

Section unbalanced.
Context (K : kernel) {σ : Type} (init : prog σ Z) (exit : prog σ unit) (s : σ).

(** The module loads, and by the end of its unload it has given back [x],
    and maybe more, out of what others hold: [L]. *)
Definition over_releases (x : history -> resource) : Prop :=
  forall L L0 h, held L0 h = Some L ->
  wp K (load_cycle init exit) (fun r _ h' =>
    r = 0 /\ exists lost, x h ∈ lost /\ held L0 h' = remove_all lost L) s h.

(** The load fails, and [x] is among what it keeps. *)
Definition keeps_back (x : σ -> resource) : Prop :=
  forall L L0 h, held L0 h = Some L ->
  wp K (load_cycle init exit) (fun r s' h' =>
    r < 0 /\ exists kept, x s' ∈ kept /\ held L0 h' = Some (kept ++ L)) s h.
End unbalanced.

(** ** Lemmas *)

Lemma remove_all_missing x lost L : x ∈ lost -> x ∉ L -> remove_all lost L = None.
Proof.
  revert L. induction lost as [|y lost IH]; [set_solver|]. intros L Hx HL. simpl.
  destruct (remove_first y L) as [L'|] eqn:E; [|done]. simpl.
  apply elem_of_cons in Hx as [->|Hx].
  - destruct HL. apply remove_first_in. eauto.
  - apply IH; [done|]. apply remove_first_Permutation in E. rewrite E in HL. set_solver.
Qed.

(** What nobody holds is given back all the same: the ledger ends in an error. *)
Lemma over_releases_none K {σ} init exit (s : σ) x L L0 h :
  over_releases K init exit s x -> held L0 h = Some L -> x h ∉ L ->
  wp K (load_cycle init exit) (fun _ _ h' => held L0 h' = None) s h.
Proof.
  intros Hx HL Hn. eapply wp_mono; [by apply Hx|].
  intros r s' h' (_ & lost & Hl & ->). by eapply remove_all_missing.
Qed.

(** Modules that keep the contract do neither, whatever their handlers. *)
Lemma contract_cycle K (m : kmodule) s :
  Contract K m -> km_start m s ->
  wp K (load_cycle (km_init m) (km_exit m)) (fun _ _ h' => held [] h' = Some []) s [].
Proof.
  intros [loaded valid Hinit _ Hexit] Hs. unfold load_cycle. apply wp_bind.
  assert (forall h, holds [] h [] -> held [] h = Some []) as Hnil.
  { intros h (X & HX & HP). by apply Permutation.Permutation_sym, Permutation.Permutation_nil in HP as ->. }
  eapply wp_mono; [by apply (Hinit s [] [] []), holds_of_held|].
  intros r s' h'. simpl. destruct (r <? 0); [by intros H; apply wp_bind, Hnil|].
  intros (R & HR & HL). apply wp_bind.
  eapply wp_mono; [by apply (Hexit s' R [] [] h')|]. intros [] s2 h2 H2. by apply Hnil.
Qed.

Lemma over_releases_no_contract K (m : kmodule) s x :
  over_releases K (km_init m) (km_exit m) s x -> km_start m s -> Contract K m -> False.
Proof.
  intros Hx Hs HC. pose proof (contract_cycle K m s HC Hs) as H1.
  assert (x [] ∉ ([] : list resource)) as Hn by set_solver.
  pose proof (over_releases_none K _ _ _ _ [] [] [] Hx eq_refl Hn) as H2.
  apply wp_run in H1 as (? & ? & ? & Hr1 & H1). apply wp_run in H2 as (? & ? & ? & Hr2 & H2).
  congruence.
Qed.

Lemma keeps_back_no_contract K (m : kmodule) s x :
  keeps_back K (km_init m) (km_exit m) s x -> km_start m s -> Contract K m -> False.
Proof.
  intros Hx Hs HC. pose proof (contract_cycle K m s HC Hs) as H1.
  pose proof (Hx [] [] [] eq_refl) as H2.
  apply wp_run in H1 as (? & ? & ? & Hr1 & H1).
  apply wp_run in H2 as (? & ? & ? & Hr2 & _ & kept & Hk & H2).
  rewrite app_nil_r in H2. assert (kept = []) as -> by congruence. set_solver.
Qed.

(** [debts HL]: the ledger of a history on top of [HL : held L0 h = Some L], up
    to what has to be found in [L]. *)
Ltac debts HL :=
  repeat lazymatch goal with
  | |- context [held ?L0 (?e :: ?h)] =>
      change (held L0 (e :: h)) with (held L0 h ≫= held_step e)
  end;
  repeat match goal with E : _ = ?K _ _ _ |- _ => is_var K; clear E end; subst;
  rewrite HL; unfold held_step; ledger_facts; ledger_decide;
  repeat match goal with
  | |- context [if ?b then _ else _] => destruct b eqn:?; ledger_facts; ledger_decide
  | |- context [remove_first _ ?L] =>
      is_var L; destruct (remove_first _ L) as [?|] eqn:?; simpl; ledger_decide
  end; try done.

(** ** One lemma for each kind of call *)

Section refused.
Context (K : kernel).

Lemma mychar_region_refused s :
  (forall h d n name, K _ h (Register_chrdev_region d n name) <> 0) ->
  over_releases K Mychar.my_init Mychar.my_exit s
    (fun _ => RChrdevRegion (MKDEV (Mychar.my_major s) (Mychar.my_minor s)) (Mychar.count s)).
Proof.
  intros HK L L0 h HL. set (region := RChrdevRegion _ _).
  unfold load_cycle, Mychar.my_init, Mychar.my_exit. wp_go. simpl. wp_go. split; [done|].
  match goal with E : ?r = K _ _ (Register_chrdev_region _ _ _) |- _ =>
    assert (r <> 0) by (by rewrite E) end.
  match goal with E : ?p = K _ _ Cdev_alloc |- _ => destruct (Z.eq_dec p 0) end.
  - exists [RCdev 0; region]. split; [set_solver|]. unfold region. debts HL.
  - exists [region]. split; [set_solver|]. unfold region. debts HL.
Qed.

(** The three loads that make a directory and two files in it are alike. *)
Ltac nodes_refused HK HL n1 n2 dir :=
  wp_go; simpl; wp_go; split; [done|]; rewrite !HK in *;
  match goal with E : ?d = K _ _ (Proc_mkdir dir) |- _ =>
    rewrite <- E; destruct (Z.eq_dec d 0);
    [exists [RProc n1 d; RProc n2 d; RProc dir 0]|exists [RProc n1 d; RProc n2 d]]
  end;
  (split; [set_solver|]); simpl; debts HL.

Lemma my_new_proc_node_refused s :
  (forall h name parent data, K _ h (Proc_create name parent data) = 0) ->
  over_releases K ProcFs.MyNewProc.my_init ProcFs.MyNewProc.my_exit s
    (fun h => RProc ProcFs.MyNewProc.NODE_1 (K _ h (Proc_mkdir ProcFs.MyNewProc.NODE_DIR))).
Proof.
  intros HK L L0 h HL. unfold load_cycle, ProcFs.MyNewProc.my_init, ProcFs.MyNewProc.my_exit.
  nodes_refused HK HL ProcFs.MyNewProc.NODE_1 ProcFs.MyNewProc.NODE_2 ProcFs.MyNewProc.NODE_DIR.
Qed.

Lemma sig_proc_node_refused s :
  (forall h name parent data, K _ h (Proc_create name parent data) = 0) ->
  over_releases K ProcFs.SigProc.my_init ProcFs.SigProc.my_exit s
    (fun h => RProc ProcFs.SigProc.NODE_1 (K _ h (Proc_mkdir ProcFs.SigProc.NODE_DIR))).
Proof.
  intros HK L L0 h HL. unfold load_cycle, ProcFs.SigProc.my_init, ProcFs.SigProc.my_exit.
  nodes_refused HK HL ProcFs.SigProc.NODE_1 ProcFs.SigProc.NODE_2 ProcFs.SigProc.NODE_DIR.
Qed.

Lemma task_proc_node_refused s :
  (forall h name parent data, K _ h (Proc_create name parent data) = 0) ->
  over_releases K ProcFs.TaskProc.my_init ProcFs.TaskProc.my_exit s
    (fun h => RProc ProcFs.TaskProc.NODE_1 (K _ h (Proc_mkdir ProcFs.TaskProc.NODE_DIR))).
Proof.
  intros HK L L0 h HL. unfold load_cycle, ProcFs.TaskProc.my_init, ProcFs.TaskProc.my_exit.
  nodes_refused HK HL ProcFs.TaskProc.NODE_1 ProcFs.TaskProc.NODE_2 ProcFs.TaskProc.NODE_DIR.
Qed.

Lemma irq_delayed_line_refused s :
  (forall h irq name cookie, K _ h (Request_irq irq name cookie) <> 0) ->
  over_releases K Irq.IrqDelayed.my_init Irq.IrqDelayed.my_exit s
    (fun _ => RIrq (Irq.IrqDelayed.irq s) Irq.IrqDelayed.my_data).
Proof.
  intros HK L L0 h HL. set (line := RIrq _ _).
  unfold load_cycle, Irq.IrqDelayed.my_init, Irq.IrqDelayed.my_exit. wp_go. simpl. wp_go.
  split; [done|].
  match goal with E : ?r = K _ _ (Request_irq _ _ _) |- _ => assert (r <> 0) by (by rewrite E) end.
  match goal with E : ?p = K _ _ (Create_workqueue _) |- _ => destruct (Z.eq_dec p 0) end.
  - exists [line; RWorkqueue 0]. split; [set_solver|]. unfold line. simpl. debts HL.
  - exists [line]. split; [set_solver|]. unfold line. simpl. debts HL.
Qed.

Lemma irq_tasklet_line_refused s :
  (forall h irq name cookie, K _ h (Request_irq irq name cookie) <> 0) ->
  over_releases K Irq.IrqTasklet.my_init Irq.IrqTasklet.my_exit s
    (fun _ => RIrq (Irq.IrqTasklet.irq s) Irq.IrqTasklet.my_data).
Proof.
  intros HK L L0 h HL. set (line := RIrq _ _).
  unfold load_cycle, Irq.IrqTasklet.my_init, Irq.IrqTasklet.my_exit. wp_go. simpl. wp_go.
  split; [done|].
  match goal with E : ?r = K _ _ (Request_irq _ _ _) |- _ => assert (r <> 0) by (by rewrite E) end.
  exists [line]. split; [set_solver|]. unfold line. simpl. debts HL.
Qed.

(** The number of the line, counted from where the chip's lines start. *)
Lemma gpio_line_refused n s :
  (forall h i, K _ h (Gpio_is_valid i) = true) ->
  (forall h i label, K _ h (Gpio_request i label) <> 0) ->
  over_releases K (Misc.GpioLed.my_init n) Misc.GpioLed.my_exit s
    (fun _ => RGpio (s32 (n - Misc.GpioLed.BCM2835_NUM_GPIOS + Misc.GpioLed.gpio_no s))).
Proof.
  intros Hv HK L L0 h HL. set (i := s32 _).
  unfold load_cycle, Misc.GpioLed.my_init, Misc.GpioLed.my_exit. wp_go.
  rewrite Hv in E. subst r. simpl. wp_go. simpl. wp_go. split; [done|].
  match goal with E : ?r = K _ _ (Gpio_request _ _) |- _ => assert (r <> 0) by (by rewrite E) end.
  match goal with E : ?r = K _ _ (Gpio_export _) |- _ => destruct (Z.eq_dec r 0) end.
  - exists [RGpio i]. split; [set_solver|]. unfold i. simpl. debts HL.
  - exists [RGpioExport i; RGpio i]. split; [set_solver|]. unfold i. simpl. debts HL.
Qed.

Lemma udev_cdev_refused s :
  (forall h b n name, (K _ h (Alloc_chrdev_region b n name)).1 = 0) ->
  (forall h, K _ h Cdev_alloc <> 0) -> (forall h p d n, K _ h (Cdev_add p d n) < 0) ->
  keeps_back K Udev.my_init Udev.my_exit s (fun s' => RCdev (Udev.my_cdev s')).
Proof.
  intros Hr Hp HK L L0 h HL. unfold load_cycle, Udev.my_init. wp_go.
  assert (r.1 = 0) as E0 by (by rewrite E). rewrite E0 in *. simpl. wp_go.
  match goal with E : ?p = K _ _ Cdev_alloc |- _ =>
    assert (p <> 0) as Hnz%Z.eqb_neq by (by rewrite E) end.
  rewrite Hnz. wp_go.
  match goal with E : ?r = K _ _ (Cdev_add _ _ _) |- _ =>
    assert (r < 0) as Hlt%Z.ltb_lt by (by rewrite E) end.
  rewrite Hlt. wp_go. simpl. wp_go. split; [lia|].
  exists (unless_null (kb_addr r1) (RMem (kb_addr r1)) ++ [RCdev r0]). split; [set_solver|].
  simpl. debts HL.
Qed.

Lemma sbd_major_refused s :
  (forall h n, kb_addr (K _ h (Vmalloc n)) <> 0) -> (forall h, K _ h Blk_init_queue <> 0) ->
  (forall h m name, K _ h (Register_blkdev m name) < 0) ->
  keeps_back K Sbd.sbd_init Sbd.sbd_exit s (fun s' => RQueue (Sbd.Queue s')).
Proof.
  intros Hb Hq HK L L0 h HL. unfold load_cycle, Sbd.sbd_init. wp_go.
  assert (kb_addr r <> 0) as Hnz%Z.eqb_neq by (by rewrite E). rewrite Hnz. wp_go.
  match goal with E : ?q = K _ _ Blk_init_queue |- _ =>
    assert (q <> 0) as Hqz%Z.eqb_neq by (by rewrite E) end.
  rewrite Hqz. wp_go.
  match goal with E : ?r = K _ _ (Register_blkdev _ _) |- _ =>
    assert (r < 0) as Hlt%Z.ltb_lt by (by rewrite E) end.
  rewrite Hlt. wp_go. simpl. wp_go. split; [lia|].
  exists [RQueue r0]. split; [set_solver|]. simpl. debts HL.
Qed.

Lemma my_sysfs_file_refused s :
  (forall h name, K _ h (Kobject_create_and_add name) <> 0) ->
  (forall h kobj attr, K _ h (Sysfs_create_file kobj attr) < 0) ->
  keeps_back K ProcFs.MySysfs.my_init ProcFs.MySysfs.my_exit s
    (fun s' => RKobject (ProcFs.MySysfs.example_kobject s')).
Proof.
  intros Hp HK L L0 h HL. unfold load_cycle, ProcFs.MySysfs.my_init. wp_go.
  assert (r <> 0) as Hnz%Z.eqb_neq by (by rewrite E). rewrite Hnz. wp_go.
  match goal with E : ?r = K _ _ (Sysfs_create_file _ _) |- _ =>
    assert (r < 0) as Hlt by (by rewrite E) end.
  rewrite (proj2 (Z.ltb_lt _ _) Hlt). wp_go. split; [done|].
  exists [RKobject r]. split; [set_solver|]. simpl. debts HL.
Qed.
(** ** Properties *)

(** C8: one refused call and ten modules.  If the kernel refuses every
    [register_chrdev_region], mychar.c loads all the same and its unload gives
    back the range of numbers: from another module that has it, and in error if
    nobody has.  So do my_new_proc.c, sig_proc.c and task_proc.c with a file
    when [proc_create] is refused, irq_delayed.c and irq_tasklet.c with the
    interrupt line when [request_irq] is, and gpio_legacy_led.c with the line
    when [gpio_request] is.  Three modules report the failure and keep
    something: udev.c the cdev when [cdev_add] is refused, sbd.c the request
    queue when [register_blkdev] is, my_sysfs.c the kobject when
    [sysfs_create_file] is. *)
Theorem one_refusal_breaks :
  ((forall h d n name, K _ h (Register_chrdev_region d n name) <> 0) -> forall s,
   over_releases K Mychar.my_init Mychar.my_exit s (fun _ =>
     RChrdevRegion (MKDEV (Mychar.my_major s) (Mychar.my_minor s)) (Mychar.count s))) /\
  ((forall h name parent data, K _ h (Proc_create name parent data) = 0) ->
   (forall s, over_releases K ProcFs.MyNewProc.my_init ProcFs.MyNewProc.my_exit s (fun h =>
      RProc ProcFs.MyNewProc.NODE_1 (K _ h (Proc_mkdir ProcFs.MyNewProc.NODE_DIR)))) /\
   (forall s, over_releases K ProcFs.SigProc.my_init ProcFs.SigProc.my_exit s (fun h =>
      RProc ProcFs.SigProc.NODE_1 (K _ h (Proc_mkdir ProcFs.SigProc.NODE_DIR)))) /\
   (forall s, over_releases K ProcFs.TaskProc.my_init ProcFs.TaskProc.my_exit s (fun h =>
      RProc ProcFs.TaskProc.NODE_1 (K _ h (Proc_mkdir ProcFs.TaskProc.NODE_DIR))))) /\
  ((forall h irq name cookie, K _ h (Request_irq irq name cookie) <> 0) ->
   (forall s, over_releases K Irq.IrqDelayed.my_init Irq.IrqDelayed.my_exit s (fun _ =>
      RIrq (Irq.IrqDelayed.irq s) Irq.IrqDelayed.my_data)) /\
   (forall s, over_releases K Irq.IrqTasklet.my_init Irq.IrqTasklet.my_exit s (fun _ =>
      RIrq (Irq.IrqTasklet.irq s) Irq.IrqTasklet.my_data))) /\
  ((forall h i, K _ h (Gpio_is_valid i) = true) ->
   (forall h i label, K _ h (Gpio_request i label) <> 0) -> forall n s,
   over_releases K (Misc.GpioLed.my_init n) Misc.GpioLed.my_exit s (fun _ =>
     RGpio (s32 (n - Misc.GpioLed.BCM2835_NUM_GPIOS + Misc.GpioLed.gpio_no s)))) /\
  ((forall h b n name, (K _ h (Alloc_chrdev_region b n name)).1 = 0) ->
   (forall h, K _ h Cdev_alloc <> 0) -> (forall h p d n, K _ h (Cdev_add p d n) < 0) -> forall s,
   keeps_back K Udev.my_init Udev.my_exit s (fun s' => RCdev (Udev.my_cdev s'))) /\
  ((forall h n, kb_addr (K _ h (Vmalloc n)) <> 0) -> (forall h, K _ h Blk_init_queue <> 0) ->
   (forall h m name, K _ h (Register_blkdev m name) < 0) -> forall s,
   keeps_back K Sbd.sbd_init Sbd.sbd_exit s (fun s' => RQueue (Sbd.Queue s'))) /\
  ((forall h name, K _ h (Kobject_create_and_add name) <> 0) ->
   (forall h kobj attr, K _ h (Sysfs_create_file kobj attr) < 0) -> forall s,
   keeps_back K ProcFs.MySysfs.my_init ProcFs.MySysfs.my_exit s (fun s' =>
     RKobject (ProcFs.MySysfs.example_kobject s'))).
Proof.
  split_and!.
  - intros HK s. by apply mychar_region_refused.
  - intros HK. split_and!; intros s;
      [by apply my_new_proc_node_refused|by apply sig_proc_node_refused|by apply task_proc_node_refused].
  - intros HK. split; intros s; [by apply irq_delayed_line_refused|by apply irq_tasklet_line_refused].
  - intros Hv HK n s. by apply gpio_line_refused.
  - intros Hr Hp HK s. by apply udev_cdev_refused.
  - intros Hb Hq HK s. by apply sbd_major_refused.
  - intros Hp HK s. by apply my_sysfs_file_refused.
Qed.
End refused.

(** ** A concrete instance *)

(** A kernel that refuses all of these calls, as the API documents it. *)
Definition refusing : kernel := fun _ _ c =>
  match c in kcall R return R with
  | Register_chrdev_region _ _ _ | Request_irq _ _ _ | Gpio_request _ _ | Cdev_add _ _ _
  | Register_blkdev _ _ => -16
  | Sysfs_create_file _ _ => -17
  | Proc_create _ _ _ => 0
  | c => quiet c
  end.

(** The interrupt line of irq_tasklet.c on it, when another module has it and
    when nobody has; the kobject of my_sysfs.c. *)
Lemma one_refusal_breaks_witness :
  let s := Irq.IrqTasklet.State 7 0 0 0 0 in
  let line := RIrq 7 Irq.IrqTasklet.my_data in
  over_releases refusing Irq.IrqTasklet.my_init Irq.IrqTasklet.my_exit s (fun _ => line) /\
  (exists r s' h', run refusing (load_cycle Irq.IrqTasklet.my_init Irq.IrqTasklet.my_exit) s []
     = (Done r, s', h') /\ held [line; RMem 1] h' = Some [RMem 1] /\ held [RMem 1] h' = None) /\
  (exists s' h', run refusing (load_cycle ProcFs.MySysfs.my_init ProcFs.MySysfs.my_exit)
       ProcFs.MySysfs.statics [] = (Done (-17), s', h') /\
     held [] h' = Some [RKobject (ProcFs.MySysfs.example_kobject s')]) /\
  keeps_back refusing ProcFs.MySysfs.my_init ProcFs.MySysfs.my_exit ProcFs.MySysfs.statics
    (fun s' => RKobject (ProcFs.MySysfs.example_kobject s')).
Proof.
  intros s line. destruct (one_refusal_breaks refusing) as (_ & _ & Hirq & _ & _ & _ & Hsys).
  split_and!.
  - destruct Hirq as [_ H]; [by intros|]. exact (H s).
  - do 3 eexists. split; [vm_compute; reflexivity|]. by split.
  - do 2 eexists. split; [vm_compute; reflexivity|]. done.
  - by apply Hsys.
Defined.
