(* ===== verification/Contexts.v ===== *)
(** * What the handlers may do where they run

    Interrupt handlers, tasklets, timer functions, probe handlers, a SysRq
    handler, the transmit function of a network device and the request function
    of a disk run where the kernel cannot schedule: a call that may sleep is an
    error there.  [NoSleep] is that rule as a discipline, and a handler is typed
    against it once for every kernel and every value of its module's variables.

    A jprobe handler stands in for the function probed and must not come back to
    its caller: it ends in [jprobe_return], or the machine stops in [panic].
    [Leaves] is that rule. *)

From S2P Require Import Prelude Kernel Prog Discipline.
From S2P Require Efi EfiText Irq Net Probes Sbd Timer Misc.

#[local] Open Scope Z_scope.

(** How many events of a history are such. *)
Definition how_often (P : event -> bool) (h : history) : nat := length (List.filter P h).

(** ** Calls that may sleep

    The calls that never do are listed; every other one allocates, registers,
    waits, or touches the memory of a process. *)
Definition never_sleeps {R : Set} (c : kcall R) : bool :=
  match c with
  | Printk _ _ | Dump_stack | Panic _ | Jprobe_return | Jiffies | Current_pid | Current_task
  | Current_comm | Set_current_state _ | Mdelay _ | Kfree _ | Page_of _ | Module_refcount
  | Find_task _ | Send_sig _ _ | Pid_allocated _ | Set_pid_allocated _ _
  | Blk_fetch_request _ | Blk_end_request_all _ | Blk_end_request_cur _ _
  | Inb _ | Outb _ _ | Gpio_set_value _ _ | Tasklet_schedule | Queue_work _
  | Sem_count | Down_trylock | Up | Spin_lock | Spin_unlock | Cpu_to_node _ | Task_flags _
  | Warn_on | Wake_up_process _ | Init_timer | Add_timer _ _ | Mod_timer _
  | Pci_read_config_word _ _ | Pci_read_config_byte _ _ | Task_list
  | Netif_start_queue _ | Netif_stop_queue _ | Eth_type_trans _ _ | Netif_rx _ _ _ => true
  | _ => false
  end.
Definition may_sleep (e : event) : bool := negb (never_sleeps (ev_call e)).

Definition NoSleep (σ : Type) : discipline σ unit :=
  Discipline (fun _ => True) (fun _ _ _ => True)
    (fun _ _ c _ => if never_sleeps c then Some tt else None).

Lemma nosleep_track {σ} new q :
  track (NoSleep σ) tt new = Some q -> Forall (fun e => may_sleep e = false) new.
Proof.
  revert q. induction new as [|[R c r] new IH]; simpl; intros q Ht; [done|].
  destruct (track (NoSleep σ) tt new) as [[]|]; [|done]. simpl in Ht.
  destruct (never_sleeps c) eqn:Hc; [|done]. constructor; [|by eapply IH].
  unfold may_sleep. simpl. by rewrite Hc.
Qed.

Lemma nosleep_run {σ A} (K : kernel) (p : prog σ A) s h o s' h' :
  obeys (NoSleep σ) tt p (fun _ _ => True) -> run K p s h = (o, s', h') ->
  exists new, h' = new ++ h /\ Forall (fun e => may_sleep e = false) new.
Proof.
  intros Hp Hr. destruct (obeys_run (NoSleep σ) K tt p _ s h o s' h' ltac:(done) I Hp Hr)
    as (_ & new & q & -> & Ht & _). exists new. split; [done|]. by eapply nosleep_track.
Qed.

(** ** The handlers that run in atomic context *)

(** The second index is the process that the handler is meant to stop: only
    debug/kprobe_zap.c has one, the parameter [mypid]. *)
Definition nobody {σ : Type} (_ : σ) : option Z := None.

Inductive atomic_handler : forall {σ A : Type}, prog σ A -> (σ -> option Z) -> Prop :=
(* interrupt handlers and tasklets *)
| at_delayed_irq : atomic_handler Irq.IrqDelayed.my_interrupt nobody
| at_delayed_tasklet : atomic_handler Irq.IrqDelayed.t_func nobody
| at_tasklet_irq : atomic_handler Irq.IrqTasklet.my_interrupt nobody
| at_tasklet_tasklet : atomic_handler Irq.IrqTasklet.t_func nobody
| at_simple_tasklet : atomic_handler Irq.SimpleTasklet.tasklet_func nobody
| at_myinterrupt : atomic_handler Irq.MyInterrupt.my_handler nobody
(* timer functions *)
| at_ktfun : atomic_handler Timer.PeriodicTimer.ktfun nobody
| at_my_timer ptr : atomic_handler (Timer.TimerDrv.my_timer_function ptr) nobody
(* probe handlers *)
| at_handler_pre a f : atomic_handler (Probes.KprobeTest.handler_pre a f) nobody
| at_zap_pre fuel : atomic_handler (Probes.KprobeZap.handler_pre fuel)
    (fun s => Some (Probes.KprobeZap.mypid s))
| at_handler_post a f : atomic_handler (Probes.KprobeTest.handler_post a f) nobody
| at_handler_fault a t : atomic_handler (Probes.KprobeTest.handler_fault a t) nobody
| at_my_fork f n : atomic_handler (Probes.JprobeTest.my_fork f n) nobody
| at_my_zap : atomic_handler Probes.ZapJprobe.my_zap_pid_ns_processes nobody
| at_power_off : atomic_handler Efi.my_native_machine_power_off nobody
| at_shutdown : atomic_handler Efi.my_native_machine_shutdown nobody
| at_emergency_restart : atomic_handler Efi.my_native_machine_emergency_restart nobody
| at_restart : atomic_handler Efi.my_native_machine_restart nobody
| at_halt : atomic_handler Efi.my_native_machine_halt nobody
| at_crash_shutdown : atomic_handler Efi.my_native_machine_crash_shutdown nobody
| at_get_variable n v d z : atomic_handler (Efi.my_virt_efi_get_variable n v d z) nobody
| at_set_variable n v d z : atomic_handler (Efi.my_virt_efi_set_variable n v d z) nobody
| at_get_post : atomic_handler Efi.virt_efi_get_variable_post_handler nobody
| at_set_post : atomic_handler Efi.virt_efi_set_variable_post_handler nobody
| at_size_pre : atomic_handler Efi.efivar_entry_size_pre_handler nobody
| at_size_post : atomic_handler Efi.efivar_entry_size_post_handler nobody
| at_acpi p v w : atomic_handler (Efi.myjp_acpi_os_write_port p v w) nobody
| at_ioperm f n t : atomic_handler (Efi.myjp_ioperm f n t) nobody
| at_iopl l : atomic_handler (Efi.myjp_iopl l) nobody
(* the request function holds the lock of its queue, the transmit function runs
   with the transmit lock of its device, the statistics are read in /proc/net/dev
   under a lock, and SysRq in the keyboard interrupt *)
| at_request fuel q : atomic_handler (Sbd.sbd_request fuel q) nobody
| at_xmit name skb len : atomic_handler (Net.my_hard_start_xmit name skb len) nobody
| at_rx skb len p : atomic_handler (Net.my_rx skb len p) nobody
| at_stats name : atomic_handler (Net.my_get_stats name) nobody
| at_sysrq : atomic_handler Misc.SysrqTask.my_sysrq_task_list nobody.

(** ** Typing the handlers *)

Ltac unfold_handlers :=
  unfold Irq.IrqDelayed.my_interrupt, Irq.IrqDelayed.t_func, Irq.IrqTasklet.my_interrupt,
    Irq.IrqTasklet.t_func, Irq.SimpleTasklet.tasklet_func, Irq.MyInterrupt.my_handler,
    Timer.PeriodicTimer.ktfun, Timer.TimerDrv.my_timer_function,
    Probes.KprobeTest.handler_pre, Probes.KprobeTest.handler_post,
    Probes.KprobeTest.handler_fault, Probes.JprobeTest.my_fork, Net.my_get_stats,
    Probes.ZapJprobe.my_zap_pid_ns_processes,
    Efi.my_native_machine_power_off, Efi.my_native_machine_shutdown,
    Efi.my_native_machine_emergency_restart, Efi.my_native_machine_restart,
    Efi.my_native_machine_halt, Efi.my_native_machine_crash_shutdown, Efi.do_final_job,
    Efi.virt_efi_get_variable_post_handler, Efi.virt_efi_set_variable_post_handler,
    Efi.efivar_entry_size_pre_handler, Efi.efivar_entry_size_post_handler,
    Efi.myjp_acpi_os_write_port, Efi.myjp_ioperm, Efi.myjp_iopl.

(** The two handlers of the EFI variables. *)
Ltac variable_handler :=
  unfold Efi.my_virt_efi_get_variable, Efi.my_virt_efi_set_variable, Efi.print_data;
  apply obeys_bind, (EfiText.obeys_set_efi_name _ False); [done|];
  apply obeys_bind, (EfiText.obeys_set_guid _ False); [done|done|];
  by obeys_go.

Lemma atomic_handler_typed {σ A} (p : prog σ A) victim s :
  atomic_handler p victim -> victim s = None -> obeys (NoSleep σ) tt p (fun _ _ => True).
Proof.
  intros Hp Hs. destruct Hp; try discriminate Hs; unfold_handlers; try by obeys_go.
  - variable_handler.
  - variable_handler.
  - unfold Sbd.sbd_request. obeys_go. apply (obeys_loop _ (fun _ _ => True)); [done|].
    intros [] i _. unfold Sbd.request_turn, Sbd.sbd_transfer. by obeys_go.
  - unfold Net.my_hard_start_xmit, Net.my_rx. obeys_go; try done.
    apply (obeys_for_each _ (fun _ => True)); [done|intros x [] _ _; by obeys_go|].
    intros [] _. by obeys_go.
  - unfold Misc.SysrqTask.my_sysrq_task_list. obeys_go.
    apply (obeys_for_each _ (fun _ => True)); [done|intros x [] _ _; by obeys_go|].
    intros [] _. by obeys_go.
Qed.

(** ** Leaving a jprobe handler *)

Definition leaves {R : Set} (c : kcall R) : bool :=
  match c with Jprobe_return | Panic _ => true | _ => false end.
Definition leaving (e : event) : bool := leaves (ev_call e).

(** The state of the automaton is whether the handler has left. *)
Definition Leaves (σ : Type) : discipline σ bool :=
  Discipline (fun _ => True) (fun _ _ _ => True)
    (fun gone _ c _ => if gone : bool then None else Some (leaves c)).

Lemma leaves_track {σ} new (q : bool) :
  track (Leaves σ) false new = Some q ->
  if q then exists e rest, new = e :: rest /\ leaving e = true /\ how_often leaving rest = 0%nat
  else how_often leaving new = 0%nat.
Proof.
  revert q. induction new as [|[R c r] new IH]; simpl; intros q Ht; [by simplify_eq|].
  destruct (track (Leaves σ) false new) as [q'|]; [|done]. simpl in Ht.
  specialize (IH q' eq_refl). destruct q'; [done|]. simplify_eq.
  destruct (leaves c) eqn:Hc; [by exists (Ev c r), new|].
  unfold how_often in *. simpl. unfold leaving at 1. simpl. by rewrite Hc.
Qed.

Inductive jprobe_handler : forall {σ A : Type}, prog σ A -> Prop :=
| jp_fork f n : jprobe_handler (Probes.JprobeTest.my_fork f n)
| jp_zap : jprobe_handler Probes.ZapJprobe.my_zap_pid_ns_processes
| jp_power_off : jprobe_handler Efi.my_native_machine_power_off
| jp_shutdown : jprobe_handler Efi.my_native_machine_shutdown
| jp_emergency_restart : jprobe_handler Efi.my_native_machine_emergency_restart
| jp_restart : jprobe_handler Efi.my_native_machine_restart
| jp_halt : jprobe_handler Efi.my_native_machine_halt
| jp_crash_shutdown : jprobe_handler Efi.my_native_machine_crash_shutdown
| jp_get_variable n v d z : jprobe_handler (Efi.my_virt_efi_get_variable n v d z)
| jp_set_variable n v d z : jprobe_handler (Efi.my_virt_efi_set_variable n v d z)
| jp_acpi p v w : jprobe_handler (Efi.myjp_acpi_os_write_port p v w)
| jp_ioperm f n t : jprobe_handler (Efi.myjp_ioperm f n t)
| jp_iopl l : jprobe_handler (Efi.myjp_iopl l).

Lemma jprobe_handler_typed {σ A} (p : prog σ A) :
  jprobe_handler p -> obeys (Leaves σ) false p (fun gone _ => gone = true).
Proof.
  intros Hp. destruct Hp; unfold_handlers; try by obeys_go.
  - variable_handler.
  - variable_handler.
Qed.

(** ** The handler of debug/kprobe_zap.c *)

Lemma how_often_app P h1 h2 : how_often P (h1 ++ h2) = (how_often P h1 + how_often P h2)%nat.
Proof. unfold how_often. by rewrite List.filter_app, length_app. Qed.

Lemma zap_loop {σ} (K : kernel) mypid fuel (s : σ) h :
  exists new, run K (loop fuel (fun _ : unit =>
      t <- call Current_task ;;
      printk "sleep in %d, 0x%lx\n" [PInt mypid; PInt t] ;;
      call (Set_current_state Probes.KprobeZap.TASK_INTERRUPTIBLE) ;;
      call Schedule ;;
      Ret (@inl unit Z tt)) tt) s h = (Fault OutOfFuel, s, new ++ h) /\
    how_often may_sleep new = fuel.
Proof.
  revert h. induction fuel as [|fuel IH]; intros h; [by exists []|]. rewrite loop_S.
  pose (t := K _ h Current_task). pose (h1 := Ev Current_task t :: h).
  pose (c1 := Printk "sleep in %d, 0x%lx\n" [PInt mypid; PInt t]).
  pose (h2 := Ev c1 (K _ h1 c1) :: h1).
  pose (c2 := Set_current_state Probes.KprobeZap.TASK_INTERRUPTIBLE).
  pose (h3 := Ev c2 (K _ h2 c2) :: h2).
  destruct (IH (Ev Schedule (K _ h3 Schedule) :: h3)) as (new & Hr & Hn).
  exists (new ++ [Ev Schedule (K _ h3 Schedule); Ev c2 (K _ h2 c2); Ev c1 (K _ h1 c1);
    Ev Current_task t]).
  rewrite <- app_assoc. split; [exact Hr|]. rewrite how_often_app, Hn. unfold how_often.
  simpl. lia.
Qed.

(** The handler up to its test. *)
Definition after_printing (K : kernel) (h : history) : history :=
  let h1 := Ev Current_pid (K _ h Current_pid) :: h in
  let c := Printk "%d\n" [PInt (K _ h Current_pid)] in Ev c (K _ h1 c) :: h1.
Lemma zap_pre_run (K : kernel) fuel s h :
  let h2 := after_printing K h in
  run K (Probes.KprobeZap.handler_pre fuel) s h =
  run K (if K _ h2 Current_pid =? Probes.KprobeZap.mypid s
         then loop fuel (fun _ : unit =>
           t <- call Current_task ;;
           printk "sleep in %d, 0x%lx\n" [PInt (Probes.KprobeZap.mypid s); PInt t] ;;
           call (Set_current_state Probes.KprobeZap.TASK_INTERRUPTIBLE) ;;
           call Schedule ;;
           Ret (@inl unit Z tt)) tt
         else Ret 0) s (Ev Current_pid (K _ h2 Current_pid) :: h2).
Proof. reflexivity. Qed.

(** It sleeps in no other process. *)
Lemma zap_pre_spares (K : kernel) fuel s h o s' h' :
  run K (Probes.KprobeZap.handler_pre fuel) s h = (o, s', h') ->
  exists new, h' = new ++ h /\
    (Forall (fun e => may_sleep e = false) new \/
     Ev Current_pid (Probes.KprobeZap.mypid s) ∈ new).
Proof.
  rewrite zap_pre_run. cbv zeta. set (h3 := Ev Current_pid _ :: _).
  destruct (Z.eqb_spec (K Z (after_printing K h) Current_pid) (Probes.KprobeZap.mypid s)) as [E|E];
    intros Hr.
  - apply run_extends in Hr as [new ->]. exists (new ++ take 3 h3).
    rewrite <- app_assoc. split; [done|right]. apply elem_of_app. right. unfold h3. rewrite E.
    in_history.
  - injection Hr as <- <- <-. exists (take 3 h3). split; [done|left]. by repeat constructor.
Qed.

(** ** Properties *)

(** C13: the interrupt handlers, tasklets, timer functions, probe handlers, the
    SysRq handler, the request function of the disk and the transmit and
    statistics functions of the network device, which all run in atomic context,
    make no call that may sleep, on any kernel, with any arguments and from any
    state of their module, whether they come to their end or not; the one
    exception is the handler of debug/kprobe_zap.c when it runs in the process
    it is meant to stop. *)
Theorem atomic_handlers_never_sleep (K : kernel) {σ A} (p : prog σ A) victim s h o s' h' :
  atomic_handler p victim -> run K p s h = (o, s', h') ->
  exists new, h' = new ++ h /\
    (Forall (fun e => may_sleep e = false) new \/
     exists pid, victim s = Some pid /\ Ev Current_pid pid ∈ new).
Proof.
  intros Hp Hr. destruct (victim s) as [pid|] eqn:Hv.
  - destruct Hp; try discriminate Hv. injection Hv as <-.
    destruct (zap_pre_spares K fuel s h o s' h' Hr) as (new & -> & Hnew).
    exists new. split; [done|]. destruct Hnew as [?|?]; [by left|right; eauto].
  - destruct (nosleep_run K p s h o s' h' (atomic_handler_typed p victim s Hp Hv) Hr)
      as (new & -> & Hn). eauto.
Qed.

(** C21: a jprobe handler never comes back to its caller: a run of it that reaches
    the end has left exactly once, through [jprobe_return] or [panic], and that
    is the last thing it does. *)
Theorem jprobe_handlers_leave (K : kernel) {σ A} (p : prog σ A) s h a s' h' :
  jprobe_handler p -> run K p s h = (Done a, s', h') ->
  exists e new, h' = e :: new ++ h /\ leaving e = true /\ how_often leaving new = 0%nat.
Proof.
  intros Hp Hr.
  destruct (obeys_run (Leaves σ) K false p _ s h _ s' h' ltac:(done) I
    (jprobe_handler_typed p Hp) Hr) as (_ & new & q & -> & Ht & Hq).
  apply leaves_track in Ht. rewrite (Hq a eq_refl) in Ht.
  destruct Ht as (e & rest & -> & He & Hn). by exists e, rest.
Qed.

(** C32: the kprobe of debug/kprobe_zap.c is the exception: its handler lets every
    process but one through at once, without sleeping, and that one sleeps in
    it, as often as it is let run, and never comes back. *)
Theorem kprobe_zap_sleeps_forever (K : kernel) pid fuel s h :
  (forall h, K _ h Current_pid = pid) ->
  exists o s' new, run K (Probes.KprobeZap.handler_pre fuel) s h = (o, s', new ++ h) /\
    if pid =? Probes.KprobeZap.mypid s
    then o = Fault OutOfFuel /\ how_often may_sleep new = fuel
    else o = Done 0 /\ how_often may_sleep new = 0%nat.
Proof.
  intros Hpid. rewrite zap_pre_run. cbv zeta. set (h3 := Ev Current_pid _ :: _).
  rewrite Hpid. destruct (pid =? Probes.KprobeZap.mypid s).
  - destruct (zap_loop K (Probes.KprobeZap.mypid s) fuel s h3) as (new & Hr & Hn).
    do 2 eexists. exists (new ++ take 3 h3). rewrite <- app_assoc. split_and!; [exact Hr|done|].
    rewrite how_often_app, Hn. unfold how_often. simpl. lia.
  - by exists (Done 0), s, (take 3 h3).
Qed.

(** ** Concrete instances *)

Lemma atomic_handlers_never_sleep_witness :
  let h' := [Ev (Netif_rx [1; 2] 2 0) 0; Ev (Printk "I'm receiving a packet\n" []) tt] in
  exists new, h' = new ++ [] /\
    (Forall (fun e => may_sleep e = false) new \/
     exists pid : Z, @None Z = Some pid /\ Ev Current_pid pid ∈ new).
Proof.
  exact (atomic_handlers_never_sleep quiet_kernel (Net.my_rx [1; 2] 2 0) nobody Net.statics []
    (Done tt) (Net.inc_rx Net.statics) _ (at_rx [1; 2] 2 0) eq_refl).
Defined.

Lemma jprobe_handlers_leave_witness :
  let h' := [Ev Jprobe_return tt; Ev (Printk "Hello\n" []) tt] in
  exists e new, h' = e :: new ++ [] /\ leaving e = true /\ how_often leaving new = 0%nat.
Proof.
  exact (jprobe_handlers_leave quiet_kernel Probes.ZapJprobe.my_zap_pid_ns_processes tt []
    tt tt _ jp_zap eq_refl).
Defined.

Lemma kprobe_zap_sleeps_forever_witness :
  exists o s' new,
    run quiet_kernel (Probes.KprobeZap.handler_pre 5)
      (Probes.KprobeZap.State 4096 None 0 4096) [] = (o, s', new ++ []) /\
    (o = Fault OutOfFuel /\ how_often may_sleep new = 5%nat).
Proof.
  exact (kprobe_zap_sleeps_forever quiet_kernel 0 5 (Probes.KprobeZap.State 4096 None 0 4096) []
    (fun _ => eq_refl)).
Defined.
