(* ===== verification/System.v ===== *)
(** * The modules of the repository in one system

    The modules that keep the contract of [Modules], as components: what each
    hands to the kernel (init, exit, the handlers of its operations), what it
    holds while it is loaded, and the proof of its contract.  [repository] is
    all of them together, and [system_safe] what holds of every run.

    The other modules are not in the system.  Most break the contract ([Refusals],
    [Aftermath] and the properties of their files say how: mychar.c, morse_io.c,
    sbd.c, my_new_proc.c, sig_proc.c, task_proc.c, my_sysfs.c, irq_delayed.c,
    irq_tasklet.c, gpio_legacy_led.c, dedicated_slab.c, mydynamic_udev.c,
    timer_drv.c, spindead.c, kprobe_zap.c, mysyscalls.c and
    efi_reboot_monitor.c); the two of the semaphore are the subject of
    [Exclusion], and kmalloc_rand.c and pci_view.c do all they do in the load. *)

From stdpp Require Import relations.
From S2P Require Import Prelude Kernel Prog CString Discipline Modules FileDev.
From S2P Require Mydynamic ProcFs Irq Net Probes Timer Misc.

#[local] Open Scope Z_scope.

#[local] Existing Instances Mydynamic.mydynamic_dev Mydynamic.mydynamic_driver
  Mydynamic.mydynamic_ok.

(** ** What the modules rely on *)

Class SystemSpec (K : kernel) := {
  spec_uaccess :: UaccessSpec K;
  spec_chrdev :: ChrdevSpec K;
  spec_probe :: Probes.ProbeRet K;
  spec_irq :: Irq.IrqSpec K;
  (** An allocation that succeeds gives a block of the size asked for. *)
  spec_kmalloc : forall h n, 0 <= n -> kb_addr (K _ h (Kmalloc n)) <> 0 ->
    zlen (kb_bytes (K _ h (Kmalloc n))) = n;
  (** Registrations return 0 or a negative error. *)
  spec_pci : forall h name, K _ h (Pci_register_driver name) <= 0;
  spec_sysrq : forall h key, K _ h (Register_sysrq_key key) <= 0;
}.

(** mynet_drv.c, mydynamic.c and my_proc.c do not check what an allocation
    returns, and stop at a fault when it is NULL.  What they need is that the
    kernel has memory: for a device, for the buffer of mydynamic.c and for the
    texts that are written to my_proc.c, of at most [limit] bytes. *)
Class Allocates (K : kernel) (limit : Z) := {
  grants_kmalloc : forall h n, 0 <= n <= Z.max Mydynamic.KBUF_SIZE limit ->
    kb_addr (K _ h (Kmalloc n)) <> 0;
  grants_netdev : forall h name, K _ h (Alloc_netdev name) <> 0;
}.

Section contracts.
Context (K : kernel) `{!SystemSpec K}.

(** ** kprobes/kprobe_test.c *)
Inductive kprobe_test_op :=
| PreHandler (addr flags : Z) | PostHandler (addr flags : Z) | FaultHandler (addr trapnr : Z).
Definition kprobe_test : kmodule := {|
  km_state := Probes.KprobeTest.state;
  km_start := fun _ => True;
  km_init := Probes.KprobeTest.my_init;
  km_exit := Probes.KprobeTest.my_exit;
  km_handler := fun o => match o with
    | PreHandler a f => Probes.KprobeTest.handler_pre a f ;; skip
    | PostHandler a f => Probes.KprobeTest.handler_post a f
    | FaultHandler a t => Probes.KprobeTest.handler_fault a t ;; skip
    end |}.

#[export] Instance kprobe_test_contract : Contract K kprobe_test.
Proof.
  refine (Build_Contract K kprobe_test
    (fun s R => R = [RKprobe (AtAddr (Probes.KprobeTest.kp_addr s))]) (fun _ _ _ => True) _ _ _).
  - intros s L L0 h _ HL. simpl. unfold Probes.KprobeTest.my_init. wp_go.
    wp_if; wp_go; [simpl; hledger|].
    apply wp_mono with (Q := fun _ _ h' => holds L0 h' L).
    { destruct (Probes.KprobeTest.name s); wp_go; [hledger|done]. }
    intros [] s1 h1 H1. wp_go. wp_if; wp_go; [simpl; hledger|].
    match goal with |- context [?r.1 =? 0] => destruct (r.1 =? 0) eqn:? end; cbn [negb]; wp_go; simpl.
    + eexists. split; [done|]. simpl. hledger.
    + simpl. hledger.
  - intros o s R L L0 h -> _ HL. destruct o; simpl;
      unfold Probes.KprobeTest.handler_pre, Probes.KprobeTest.handler_post,
        Probes.KprobeTest.handler_fault; wp_go; eexists; (split; [done|]); simpl in *; hledger.
  - intros s R L L0 h -> HL. simpl. unfold Probes.KprobeTest.my_exit. wp_go. simpl in *. hledger.
Defined.

(** ** kprobes/jprobe_test.c and debug/zap_jprobe.c

    [Fork] is a call of [do_fork] by any process. *)
Inductive jprobe_test_op := Fork (clone_flags stack_size : Z).
Definition jprobe_test : kmodule := {|
  km_state := unit; km_start := fun _ => True;
  km_init := Probes.JprobeTest.my_init; km_exit := Probes.JprobeTest.my_exit;
  km_handler := fun o =>
    match o with Fork f n => Probes.JprobeTest.my_fork f n ;; skip end |}.

#[export] Instance jprobe_test_contract : Contract K jprobe_test.
Proof.
  refine (Build_Contract K jprobe_test
    (fun _ R => R = [RJprobe (AtSymbol "do_fork")]) (fun _ _ _ => True) _ _ _).
  - intros s L L0 h _ HL. simpl. unfold Probes.JprobeTest.my_init. wp_go.
    pose proof (Probes.register_jprobe_ret h (AtSymbol "do_fork")) as Hr. rewrite <- E in Hr.
    destruct (Z.ltb_spec r.1 0); wp_go; simpl.
    + assert (r.1 <> 0) by lia. hledger.
    + assert (r.1 = 0) by lia. eexists. split; [done|]. hledger.
  - intros [f n] s R L L0 h -> _ HL. simpl. unfold Probes.JprobeTest.my_fork. wp_go.
    eexists. split; [done|]. hledger.
  - intros s R L L0 h -> HL. simpl. unfold Probes.JprobeTest.my_exit. wp_go. simpl in *. hledger.
Defined.

Definition zap_jprobe : kmodule := {|
  km_state := unit; km_start := fun _ => True;
  km_init := Probes.ZapJprobe.my_init; km_exit := Probes.ZapJprobe.my_exit;
  km_op := unit; km_handler := fun _ => Probes.ZapJprobe.my_zap_pid_ns_processes |}.

#[export] Instance zap_jprobe_contract : Contract K zap_jprobe.
Proof.
  refine (Build_Contract K zap_jprobe
    (fun _ R => R = [RJprobe (AtAddr Probes.ZapJprobe.kp_addr)]) (fun _ _ _ => True) _ _ _).
  - intros s L L0 h _ HL. simpl. unfold Probes.ZapJprobe.my_init. wp_go.
    pose proof (Probes.register_jprobe_ret h (AtAddr Probes.ZapJprobe.kp_addr)) as Hr.
    rewrite <- E in Hr. destruct (Z.ltb_spec r.1 0) as [Hn|Hn]; wp_go.
    + assert (r.1 <> 0) by lia. apply Z.ltb_lt in Hn. rewrite Hn. hledger.
    + assert (r.1 = 0) by lia. simpl. eexists. split; [done|]. hledger.
  - intros o s R L L0 h -> _ HL. simpl. unfold Probes.ZapJprobe.my_zap_pid_ns_processes. wp_go.
    eexists. split; [done|]. hledger.
  - intros s R L L0 h -> HL. simpl. unfold Probes.ZapJprobe.my_exit. wp_go. simpl in *. hledger.
Defined.

(** ** irq/myinterrupt.c and irq/simple_tasklet.c *)
Definition myinterrupt (NR_IRQS : Z) : kmodule := {|
  km_state := Irq.MyInterrupt.state;
  km_start := fun s => zlen (Irq.MyInterrupt.my_dev_id s) = NR_IRQS;
  km_init := Irq.MyInterrupt.my_init NR_IRQS; km_exit := Irq.MyInterrupt.my_exit NR_IRQS;
  km_op := unit; km_handler := fun _ => Irq.MyInterrupt.my_handler ;; skip |}.

#[export] Instance myinterrupt_contract NR_IRQS : Contract K (myinterrupt NR_IRQS).
Proof.
  refine (Build_Contract K (myinterrupt NR_IRQS) (fun s R =>
    zlen (Irq.MyInterrupt.my_dev_id s) = NR_IRQS /\
    R = Irq.Lines.registered (Irq.MyInterrupt.my_dev_id s) (seqZ 0 NR_IRQS)) (fun _ _ _ => True) _ _ _).
  - intros s L L0 h Hs HL. simpl in *. eapply wp_mono; [by apply (Irq.Lines.my_init_lines K NR_IRQS L0 L)|].
    intros r s' h' (-> & Hl & HL'). simpl. eexists. by split.
  - intros o s R L L0 h HR _ HL. simpl. unfold Irq.MyInterrupt.my_handler. wp_go. by eexists.
  - intros s R L L0 h [Hl ->] HL. by apply (Irq.Lines.my_exit_lines K NR_IRQS L0 L).
Defined.

Definition simple_tasklet : kmodule := {|
  km_state := unit; km_start := fun _ => True;
  km_init := Irq.SimpleTasklet.drv_init; km_exit := Irq.SimpleTasklet.drv_exit;
  km_op := unit; km_handler := fun _ => Irq.SimpleTasklet.tasklet_func |}.

(** ** pci/pci_probe_test.c and sysrq/sysrq_task.c *)
Inductive pci_op := Probe (dev : Z) | Remove.
Definition pci_probe : kmodule := {|
  km_state := unit; km_start := fun _ => True;
  km_init := Misc.PciProbe.my_init; km_exit := Misc.PciProbe.my_exit;
  km_handler := fun o => match o with
    | Probe dev => Misc.PciProbe.my_probe dev ;; skip
    | Remove => Misc.PciProbe.remove
    end |}.

#[export] Instance pci_probe_contract : Contract K pci_probe.
Proof.
  refine (Build_Contract K pci_probe
    (fun _ R => R = [RPciDriver Misc.PciProbe.my_driver]) (fun _ _ _ => True) _ _ _).
  - intros s L L0 h _ HL. simpl. unfold Misc.PciProbe.my_init. wp_go.
    pose proof (spec_pci h Misc.PciProbe.my_driver) as Hr. rewrite <- E in Hr.
    destruct (Z.ltb_spec r 0).
    + assert (r <> 0) by lia. hledger.
    + assert (r = 0) by lia. eexists. split; [done|]. hledger.
  - intros o s R L L0 h -> _ HL. destruct o; simpl;
      unfold Misc.PciProbe.my_probe, Misc.PciProbe.remove; wp_go; eexists; (split; [done|]); hledger.
  - intros s R L L0 h -> HL. simpl. unfold Misc.PciProbe.my_exit. wp_go. simpl in *. hledger.
Defined.

Definition sysrq_task : kmodule := {|
  km_state := unit; km_start := fun _ => True;
  km_init := Misc.SysrqTask.my_init; km_exit := Misc.SysrqTask.my_exit;
  km_op := unit; km_handler := fun _ => Misc.SysrqTask.my_sysrq_task_list |}.

#[export] Instance sysrq_task_contract : Contract K sysrq_task.
Proof.
  refine (Build_Contract K sysrq_task
    (fun _ R => R = [RSysrq Misc.SysrqTask.key]) (fun _ _ _ => True) _ _ _).
  - intros s L L0 h _ HL. simpl. unfold Misc.SysrqTask.my_init. wp_go.
    pose proof (spec_sysrq h Misc.SysrqTask.key) as Hr. rewrite <- E in Hr.
    destruct (Z.ltb_spec r 0).
    + assert (r <> 0) by lia. hledger.
    + assert (r = 0) by lia. eexists. split; [done|]. hledger.
  - intros o s R L L0 h -> _ HL. simpl. unfold Misc.SysrqTask.my_sysrq_task_list. wp_go.
    eapply wp_for_each with (I := fun _ _ h' => holds L0 h' ([RSysrq Misc.SysrqTask.key] ++ L));
      [hledger| |].
    + intros dn x todo s1 h1 _ H1. wp_go. hledger.
    + intros s1 h1 H1. wp_go. eexists. split; [done|]. hledger.
  - intros s R L L0 h -> HL. simpl. unfold Misc.SysrqTask.my_exit. wp_go. simpl in *. hledger.
Defined.

(** ** The modules that hold nothing: module_basic/, irq/simple_tasklet.c,
    timer/periodic_timer.c

    A pending timer or tasklet is not on the ledger: [Timer] and [Irq] show that
    these two modules leave none behind.  second.c needs first.c loaded, which
    the kernel sees to; here it may also be loaded alone. *)
Definition first : kmodule := {|
  km_state := unit; km_start := fun _ => True;
  km_init := Misc.First.my_init; km_exit := Misc.First.my_exit;
  km_op := unit; km_handler := fun _ => Misc.First.first_func |}.
Definition second : kmodule := {|
  km_state := unit; km_start := fun _ => True;
  km_init := Misc.Second.my_init; km_exit := Misc.Second.my_exit;
  km_op := Empty_set; km_handler := fun o => match o with end |}.
Definition hello : kmodule := {|
  km_state := Misc.Hello.state; km_start := fun _ => True;
  km_init := Misc.Hello.my_init; km_exit := Misc.Hello.my_exit;
  km_op := Empty_set; km_handler := fun o => match o with end |}.
Definition simple_module : kmodule := {|
  km_state := unit; km_start := fun _ => True;
  km_init := Misc.SimpleModule.my_init; km_exit := Misc.SimpleModule.my_exit;
  km_op := Empty_set; km_handler := fun o => match o with end |}.
Definition periodic_timer (HZ data : Z) : kmodule := {|
  km_state := Timer.PeriodicTimer.state; km_start := fun _ => True;
  km_init := Timer.PeriodicTimer.init_module HZ data;
  km_exit := Timer.PeriodicTimer.cleanup_module;
  km_op := unit; km_handler := fun _ => Timer.PeriodicTimer.ktfun |}.

Ltac holds_nothing m :=
  refine (Build_Contract K m (fun _ R => R = []) (fun _ _ _ => True) _ _ _);
  [ intros s L L0 h _ HL; simpl
  | intros o s R L L0 h -> _ HL; simpl in *
  | intros s R L L0 h -> HL; simpl in * ].

#[export] Instance simple_tasklet_contract : Contract K simple_tasklet.
Proof.
  holds_nothing simple_tasklet;
    unfold Irq.SimpleTasklet.drv_init, Irq.SimpleTasklet.drv_exit, Irq.SimpleTasklet.tasklet_func;
    wp_go; simpl; try (eexists; split; [done|]); simpl; hledger.
Defined.
#[export] Instance first_contract : Contract K first.
Proof.
  holds_nothing first; unfold Misc.First.my_init, Misc.First.my_exit, Misc.First.first_func;
    wp_go; simpl; try (eexists; split; [done|]); simpl; hledger.
Defined.
#[export] Instance second_contract : Contract K second.
Proof.
  holds_nothing second; [| |];
    [unfold Misc.Second.my_init, Misc.First.first_func|destruct o|unfold Misc.Second.my_exit];
    wp_go; simpl; try (eexists; split; [done|]); simpl; hledger.
Defined.
#[export] Instance hello_contract : Contract K hello.
Proof.
  holds_nothing hello;
    [unfold Misc.Hello.my_init|destruct o|unfold Misc.Hello.my_exit];
    wp_go; simpl; try (eexists; split; [done|]); simpl; hledger.
Defined.
#[export] Instance simple_module_contract : Contract K simple_module.
Proof.
  holds_nothing simple_module;
    [unfold Misc.SimpleModule.my_init|destruct o|unfold Misc.SimpleModule.my_exit];
    wp_go; simpl; try (eexists; split; [done|]); simpl; hledger.
Defined.
#[export] Instance periodic_timer_contract HZ data : Contract K (periodic_timer HZ data).
Proof.
  holds_nothing (periodic_timer HZ data);
    unfold Timer.PeriodicTimer.init_module, Timer.PeriodicTimer.ktfun,
      Timer.PeriodicTimer.cleanup_module;
    wp_go; simpl; try (eexists; split; [done|]); simpl; hledger.
Defined.

(** ** networking/mynet_drv.c *)
Section memory.
Context (limit : Z) `{!Allocates K limit}.

Inductive net_op :=
| Xmit (skb : bytes) (len : Z) | Ioctl (cmd : Z) | Stats | Config | ChangeMtu (mtu : Z)
| NetOpen | NetClose.
Definition mynet_drv (name : string) : kmodule := {|
  km_state := Net.state; km_start := fun s => length (Net.dev_addr s) = 6%nat;
  km_init := Net.my_init name; km_exit := Net.my_exit;
  km_handler := fun o => match o with
    | Xmit skb len => Net.my_hard_start_xmit name skb len ;; skip
    | Ioctl cmd => Net.my_do_ioctl name cmd ;; skip
    | Stats => Net.my_get_stats name ;; skip
    | Config => Net.my_config name ;; skip
    | ChangeMtu mtu => Net.my_change_mtu name mtu ;; skip
    | NetOpen => Net.my_open name ;; skip
    | NetClose => Net.my_close name ;; skip
    end |}.

Definition net_holds (s : Net.state) : list resource := [RNetReg (Net.dev s); RNetdev (Net.dev s)].

Lemma net_handler_safe name o s h :
  (forall skb len, o = Xmit skb len -> 0 <= len <= zlen skb /\ len <= 2 ^ 31) ->
  wp K (km_handler (mynet_drv name) o) (fun _ _ _ => True) s h.
Proof.
  intros Hv. destruct o as [skb len|cmd| | |mtu| |]; simpl;
    unfold Net.my_hard_start_xmit, Net.my_do_ioctl, Net.my_get_stats, Net.my_config,
      Net.my_change_mtu, Net.my_open, Net.my_close, Net.my_rx; wp_go; try done.
  - destruct (Hv _ _ eq_refl). eapply wp_mono; [by apply Net.xmit_dump|]. intros. by wp_go.
  - wp_if; by wp_go.
Qed.

Lemma net_handler_neutral name o d :
  obeys (Neutral (fun s => Net.dev s = d)) tt (km_handler (mynet_drv name) o) (fun _ _ => True).
Proof.
  destruct o as [skb len|cmd| | |mtu| |]; simpl;
    unfold Net.my_hard_start_xmit, Net.my_do_ioctl, Net.my_get_stats, Net.my_config,
      Net.my_change_mtu, Net.my_open, Net.my_close, Net.my_rx; obeys_go; try done.
  apply (obeys_for_each _ (fun _ => True)); [done|intros x [] _ _; by obeys_go|].
  intros [] _. by obeys_go.
Qed.
#[export] Instance mynet_drv_contract name : Contract K (mynet_drv name).
Proof.
  refine (Build_Contract K (mynet_drv name) (fun s R => R = net_holds s)
    (fun o _ _ => match o with
       | Xmit skb len => 0 <= len <= zlen skb /\ len <= 2 ^ 31 | _ => True end) _ _ _).
  - intros s L L0 h Hs HL. simpl in *. unfold Net.my_init, Net.my_setup. wp_go.
    assert (r <> 0) as Hr by (rewrite E; apply (grants_netdev (limit := limit))).
    rewrite (proj2 (Z.eqb_neq r 0) Hr). wp_go.
    eapply wp_for_each with (I := fun _ s' h' => length (Net.dev_addr s') = 6%nat /\
      holds L0 h' (RNetdev r :: L)).
    + split; [done|]. hledger.
    + intros dn j todo s1 h1 Hseq [Hl1 H1]. destruct (seqZ_split _ _ _ _ Hseq) as (_ & Hj & _).
      unfold Net.ETH_ALEN in Hj. wp_go. eapply wp_access; [apply store1_ok; lia|]. wp_go.
      split; [simpl; by rewrite length_insert|done].
    + intros s1 h1 [_ H1]. wp_go. unfold net_holds.
      destruct (r1 =? 0) eqn:Hreg; cbn [negb]; wp_go; simpl.
      * eexists. split; [done|]. simpl. hledger.
      * hledger.
  - intros o s R L L0 h -> Hv HL.
    eapply wp_mono; [apply (wp_neutral K (fun s' => Net.dev s' = Net.dev s));
      [apply net_handler_safe|done|apply net_handler_neutral]|].
    + intros skb len ->. exact Hv.
    + intros [] s1 h1 (_ & Hd & Hh). exists (net_holds s1). split; [done|].
      unfold net_holds. rewrite Hd. by apply Hh.
  - intros s R L L0 h -> HL. simpl. unfold Net.my_exit, net_holds in *. wp_go. hledger.
Defined.

(** ** char_dev/mydynamic.c *)
Inductive chr_op := ChrOpen (inode : dev_t) | ChrRelease | ChrReq (r : req) (f_pos : Z).
Definition mydynamic : kmodule := {|
  km_state := Mydynamic.state; km_start := fun _ => True;
  km_init := Mydynamic.my_init; km_exit := Mydynamic.my_exit;
  km_handler := fun o => match o with
    | ChrOpen inode => Mydynamic.mycdrv_open inode ;; skip
    | ChrRelease => Mydynamic.mycdrv_release ;; skip
    | ChrReq r f_pos => exec_req r f_pos ;; skip
    end |}.

Definition mydynamic_holds (s : Mydynamic.state) : list resource :=
  [RMem (Mydynamic.kbuf_p s); RCdev (Mydynamic.my_cdev s);
   RChrdevRegion (Mydynamic.first s) (Mydynamic.count s)].

(** The variables a handler of mydynamic.c does not touch. *)
Definition mydynamic_fixed (s0 s : Mydynamic.state) : Prop :=
  Mydynamic.kbuf_p s = Mydynamic.kbuf_p s0 /\ Mydynamic.my_cdev s = Mydynamic.my_cdev s0 /\
  mydynamic_holds s = mydynamic_holds s0.

Lemma mydynamic_handler_neutral o s0 :
  obeys (Neutral (mydynamic_fixed s0)) tt (km_handler mydynamic o) (fun _ _ => True).
Proof.
  destruct o as [inode| |[n|n|off whence] f_pos]; simpl;
    unfold Mydynamic.mycdrv_open, Mydynamic.mycdrv_release, Mydynamic.mycdrv_read,
      Mydynamic.mycdrv_write, Mydynamic.mycdrv_lseek; obeys_go; done.
Qed.

#[export] Instance mydynamic_contract : Contract K mydynamic.
Proof.
  refine (Build_Contract K mydynamic (fun s R =>
      zlen (Mydynamic.kbuf s) = Mydynamic.KBUF_SIZE /\ Mydynamic.kbuf_p s <> 0 /\
      Mydynamic.my_cdev s <> 0 /\ R = mydynamic_holds s)
    (fun o _ _ => match o with
       | ChrReq r f_pos => Mydynamic.valid_req r /\ 0 <= f_pos <= Mydynamic.KBUF_SIZE
       | _ => True end) _ _ _).
  - intros s L L0 h _ HL. simpl. unfold Mydynamic.my_init. wp_go.
    assert (r.1 <= 0) as Hr by (rewrite E; apply alloc_chrdev_ret).
    destruct r as [r d]. simpl in *.
    destruct (Z.ltb_spec r 0); wp_go.
    + simpl. assert (r <> 0) by lia. hledger.
    + assert (r = 0) as -> by lia. wp_if; wp_go; simpl; [hledger|].
      match goal with E : ?b = K _ ?h (Kmalloc ?n) |- _ =>
        assert (kb_addr (K _ h (Kmalloc n)) <> 0) as Hb
          by (apply (grants_kmalloc (limit := limit)); unfold Mydynamic.KBUF_SIZE; lia);
        pose proof (spec_kmalloc h n ltac:(done) Hb) as Hz; rewrite <- E in Hb, Hz end.
      wp_if; wp_go; simpl; [hledger|]. zbool. eexists. split; [by split_and!|]. hledger.
  - intros o s R L L0 h (Hz & Hp & Hc & ->) Hv HL.
    eapply wp_mono; [apply (wp_neutral K (mydynamic_fixed s)) with
      (Q := fun _ s' _ => zlen (Mydynamic.kbuf s') = Mydynamic.KBUF_SIZE);
      [|done|apply mydynamic_handler_neutral]|].
    + destruct o as [inode| |q f_pos]; simpl;
        [unfold Mydynamic.mycdrv_open; by wp_go|unfold Mydynamic.mycdrv_release; by wp_go|].
      destruct Hv as [Hv Hf]. apply wp_bind.
      eapply wp_mono; [apply (drv_step (valid := Mydynamic.valid_req)); [done|by split]|].
      intros x s1 h1 (l & _ & Hs & _). apply wp_ret.
      by destruct (file_step_ok _ _ _ _ (dev_clamp_bound (K := K)) Hs (conj Hz Hf)).
    + intros [] s1 h1 (Hz1 & (Hp1 & Hc1 & HR) & Hh). exists (mydynamic_holds s1).
      rewrite HR, Hp1, Hc1. split_and!; try done. by apply Hh.
  - intros s R L L0 h (Hz & Hp & Hc & ->) HL. simpl.
    unfold Mydynamic.my_exit, mydynamic_holds in *. wp_go.
    rewrite (proj2 (Z.eqb_neq _ _) Hp), (proj2 (Z.eqb_neq _ _) Hc). wp_go. hledger.
Defined.

(** ** filesystem/my_proc.c

    What is written must hold something that ends the number: [sscanf] reads
    on behind the block otherwise. *)
Inductive proc_op := ProcRead (len offset : Z) | ProcWrite (count : Z).
Definition my_proc : kmodule := {|
  km_state := ProcFs.MyProc.state; km_start := fun s => in_int (ProcFs.MyProc.param s);
  km_init := ProcFs.MyProc.my_init; km_exit := ProcFs.MyProc.my_exit;
  km_handler := fun o => match o with
    | ProcRead len offset => ProcFs.MyProc.my_proc_read len offset ;; skip
    | ProcWrite count => ProcFs.MyProc.my_proc_write count ;; skip
    end |}.

(** What the user hands to a write called now. *)
Definition to_write (count : Z) (h : history) : bytes :=
  (K _ (Ev (Kmalloc count) (K _ h (Kmalloc count)) :: h) (Copy_from_user count)).1.
Definition my_proc_valid (o : proc_op) (h : history) : Prop :=
  match o with
  | ProcRead _ offset => 0 <= offset < 2 ^ 63
  | ProcWrite count => 0 <= count <= limit /\ sscanf_d (to_write count h) <> None
  end.

#[export] Instance my_proc_contract : Contract K my_proc.
Proof.
  refine (Build_Contract K my_proc (fun s R =>
      in_int (ProcFs.MyProc.param s) /\ ProcFs.MyProc.my_proc s <> 0 /\
      R = [RProc ProcFs.MyProc.NODE 0])
    (fun o _ h => my_proc_valid o h) _ _ _).
  - intros s L L0 h Hs HL. simpl in *. unfold ProcFs.MyProc.my_init. wp_go.
    wp_if; wp_go; simpl; [hledger|]. zbool. eexists. split; [by split_and!|]. hledger.
  - intros o s R L L0 h (Hi & Hp & ->) Hv HL. destruct o as [len offset|count]; simpl in *.
    + eapply wp_mono; [apply (wp_neutral K (fun s' => s' = s)) with (Q := fun _ _ _ => True)|].
      * unfold ProcFs.MyProc.my_proc_read. wp_go.
        eapply wp_mono; [apply (ProcFs.wp_proc_reply K); [apply ProcFs.line_d_nonzero| |exact Hv]|];
          [pose proof (ProcFs.line_d_length _ Hi); simpl in *; lia|]. intros. by wp_go.
      * done.
      * unfold ProcFs.MyProc.my_proc_read, ProcFs.proc_reply. by obeys_go.
      * intros [] s1 h1 (_ & -> & Hh). eexists. split; [by split_and!|]. by apply Hh.
    + destruct Hv as [Hc Hscan]. unfold to_write in Hscan.
      unfold ProcFs.MyProc.my_proc_write, ProcFs.copy_in, ProcFs.scan_int. wp_go.
      pose proof (grants_kmalloc (limit := limit) h count ltac:(lia)) as Hb.
      pose proof (spec_kmalloc h count ltac:(lia) Hb) as Hz.
      assert (zlen r0.1 = count) as Hl by (rewrite E0; apply copy_from_user_length; lia).
      rewrite <- E in Hb, Hz, Hscan.
      assert (sscanf_d r0.1 <> None) as Hs by (rewrite E0; exact Hscan). clear Hscan.
      eapply wp_access; [apply store_ok; lia|].
      rewrite drop_ge, app_nil_r by lia. simpl. wp_go. cbn [fst snd].
      destruct (r0.2 =? 0); cbn [negb]; wp_go; [|eexists; split; [by split_and!|]; hledger].
      destruct (sscanf_d r0.1) as [v|] eqn:Hv; [|done]. eapply wp_access; [done|].
      destruct v as [v|]; wp_go; (eexists; split; [split_and!; [|done..]; simpl|simpl; hledger]).
      * by eapply sscanf_d_int.
      * done.
  - intros s R L L0 h (Hi & Hp & ->) HL. simpl. unfold ProcFs.MyProc.my_exit. wp_go.
    rewrite (proj2 (Z.eqb_neq _ _) Hp). wp_go. simpl in *. hledger.
Defined.

End memory.

(** ** The system *)

(** [NR_IRQS] and [HZ] are the kernel's, [timer_data] is the address of the
    datum of the periodic timer, [ifname] the name the network device gets, and
    [limit] the size of the longest text that is written to my_proc.c. *)
Record setup := Setup { NR_IRQS : Z; HZ : Z; timer_data : Z; ifname : string; limit : Z }.

(** None of the modules is loaded.  The three that need memory are among them
    when there is. *)
Definition checked_modules (g : setup) : list (slot K) :=
  [Slot K kprobe_test _ None; Slot K jprobe_test _ None; Slot K zap_jprobe _ None;
   Slot K (myinterrupt (NR_IRQS g)) _ None; Slot K simple_tasklet _ None;
   Slot K pci_probe _ None; Slot K sysrq_task _ None;
   Slot K first _ None; Slot K second _ None; Slot K hello _ None; Slot K simple_module _ None;
   Slot K (periodic_timer (HZ g) (timer_data g)) _ None].
Definition allocating_modules (g : setup) (A : Allocates K (limit g)) : list (slot K) :=
  [Slot K (mynet_drv (ifname g)) (mynet_drv_contract (limit g) (ifname g)) None;
   Slot K mydynamic (mydynamic_contract (limit g)) None;
   Slot K my_proc (my_proc_contract (limit g)) None].
Definition repository (g : setup) (A : option (Allocates K (limit g))) : list (slot K) :=
  checked_modules g ++ match A with Some A => allocating_modules g A | None => [] end.
End contracts.

(** ** Properties *)

(** C4: the well-behaved modules of the repository do not disturb each other: in
    whatever order they are loaded, unloaded, loaded again and their handlers
    called, with whatever errors the kernel returns from registrations, no
    handler, init or exit function faults; at every moment the kernel holds
    for them exactly what the loaded ones have acquired and not given back;
    and when none is loaded any more, it holds what it held at the start.
    For twelve of them ([A] is [None]) this is so on every kernel that behaves
    as documented, for all calls.  mynet_drv.c, mydynamic.c and my_proc.c can be
    added on a kernel whose allocations succeed ([A] is [Some _]), which they do
    not check, for packets that are as long as they say, positions that lie in
    the buffer, and texts that end the number they start with: [ct_valid] of
    their contracts. *)
Theorem system_safe (K : kernel) `{!SystemSpec K} g (A : option (Allocates K (limit g))) L0 L h c :
  holds L0 h L -> rtc (sys_step K) (repository K g A, h) c ->
  ~ sys_fault K c /\
  (exists Rs, Forall2 (slot_holds K) c.1 Rs /\ holds L0 c.2 (mjoin Rs ++ L)) /\
  (unloaded K c -> holds L0 c.2 L).
Proof.
  intros HL Hr. assert (unloaded K (repository K g A, h)) as Hu
    by (destruct A; by repeat constructor).
  exact (system_safe_gen K L0 L _ c Hu HL Hr).
Qed.

(** In the twelve nothing is excluded. *)
Lemma checked_valid (K : kernel) `{!SystemSpec K} g :
  Forall (fun x => forall o s h, ct_valid (Contract := sl_contract K x) o s h) (checked_modules K g).
Proof. by repeat constructor. Qed.

(** ** Concrete instances *)

#[export] Instance quiet_system : SystemSpec quiet_kernel.
Proof.
  split; try apply _; simpl; intros; try lia; try (by split).
  rewrite length_replicate. lia.
Qed.
#[export] Instance quiet_allocates limit : Allocates quiet_kernel limit.
Proof. by split. Qed.

(** Runs a program on a concrete state. *)
Ltac run_now :=
  lazymatch goal with
  | |- ?x = _ => let v := eval vm_compute in x in
      transitivity v; [vm_cast_no_check (eq_refl v)|reflexivity]
  end.

(** my_proc.c and mynet_drv.c loaded, a write to the one, a packet through the
    other, and both unloaded. *)
Definition some_setup : setup := Setup 4 100 0 "mynet0" 4096.
Definition some_modules : list (slot quiet_kernel) :=
  repository quiet_kernel some_setup (Some (quiet_allocates 4096)).
Lemma some_run : exists c,
  rtc (sys_step quiet_kernel) (some_modules, []) c /\
  unloaded quiet_kernel c /\ (10 < length c.2)%nat.
Proof.
  eexists. split_and!.
  - eapply rtc_l; [eapply (sys_insmod _ 14 my_proc _ ProcFs.MyProc.statics);
      [reflexivity|done|run_now]|].
    eapply rtc_l; [eapply (sys_insmod _ 12 (mynet_drv "mynet0") _ Net.statics);
      [reflexivity|reflexivity|run_now]|].
    eapply rtc_l; [eapply (sys_call _ 14 my_proc _ _ _ _ (ProcWrite 4));
      [reflexivity|split; [simpl; lia|done]|run_now]|].
    eapply rtc_l; [eapply (sys_call _ 12 (mynet_drv "mynet0") _ _ _ _ (Xmit [1; 2; 3] 3));
      [reflexivity|simpl; lia|run_now]|].
    eapply rtc_l; [eapply (sys_rmmod _ 14 my_proc); [reflexivity|run_now]|].
    eapply rtc_l; [eapply (sys_rmmod _ 12 (mynet_drv "mynet0")); [reflexivity|run_now]|].
    apply rtc_refl.
  - by repeat constructor.
  - simpl. lia.
Qed.

Lemma system_safe_witness : exists c,
  ~ sys_fault quiet_kernel c /\
  (exists Rs, Forall2 (slot_holds quiet_kernel) c.1 Rs /\ holds [] c.2 (mjoin Rs ++ [])) /\
  holds [] c.2 [] /\ (10 < length c.2)%nat.
Proof.
  destruct some_run as (c & Hr & Hu & Hl). exists c.
  destruct (system_safe quiet_kernel some_setup (Some (quiet_allocates 4096)) [] [] [] c) as (Hf & Hinv & Hh).
  - by apply holds_of_held.
  - exact Hr.
  - split_and!; [exact Hf|exact Hinv|exact (Hh Hu)|exact Hl].
Defined.
