(* ===== verification/Wirings.v ===== *)
(** * How the kernel calls the modules

    For each module of the system, and for some of those that are not in it, the
    calls that open and close the entries on which its handlers are called
    ([Wiring] of [Interleave]). *)

From S2P Require Import Prelude Kernel Prog CString Ownership Modules Interleave FileDev System.
From S2P Require Mydynamic ProcFs Irq Net Probes Timer Misc.

#[local] Open Scope Z_scope.

(** ** Entries *)

(** The entries of most modules are on the ledger: a probe, an interrupt line, a
    node of /proc, the registration of a driver. *)
Definition entry_gate (entry : resource -> bool) (e : event) : Z :=
  Z.of_nat (length (List.filter entry (acquires e))) -
  Z.of_nat (length (List.filter entry (releases e))).

(** Those of a timer, a tasklet and a character device are not.  [del_timer_sync]
    and [tasklet_kill] wait for the handler; the opens of a device that is still
    registered are refused once the module is going. *)
Definition timer_gate (e : event) : Z :=
  match e with Ev c _ =>
    match c with Add_timer _ _ => 1 | Del_timer_sync => -1 | _ => 0 end end.
Definition tasklet_gate (e : event) : Z :=
  match e with Ev c _ =>
    match c with Tasklet_schedule => 1 | Tasklet_kill => -1 | _ => 0 end end.
Definition cdev_gate (e : event) : Z :=
  match e with Ev c r =>
    match c in kcall R return R -> Z with
    | Cdev_add _ _ _ => fun r => if r <? 0 then 0 else 1
    | _ => fun _ => 0
    end r end.

(** No demand on what the users hand over. *)
Definition any_user (R : Set) (c : kcall R) (r : R) : Prop := True.
Definition open_to_all (m : kmodule) (gate : event -> Z) : Wiring m :=
  {| wr_gate := gate; wr_users := any_user; wr_valid := fun _ => True; wr_pinned := false |}.

(** Three modules do not check what an allocation returns: the runs of theirs
    that are looked at are those in which it is not NULL, for a size that is at
    most [limit] (each of them stops at a fault otherwise). *)
Definition allocated (limit : Z) (R : Set) (c : kcall R) : R -> Prop :=
  match c in kcall R return R -> Prop with
  | Kmalloc n => fun b => 0 <= n <= limit -> kb_addr b <> 0
  | Alloc_netdev _ => fun p => p <> 0
  | _ => fun _ => True
  end.

(** ** The modules of the system *)

#[export] Instance kprobe_test_wiring : Wiring kprobe_test :=
  open_to_all _ (entry_gate (fun x => if x is RKprobe _ then true else false)).
#[export] Instance jprobe_test_wiring : Wiring jprobe_test :=
  open_to_all _ (entry_gate (fun x => if x is RJprobe _ then true else false)).
#[export] Instance zap_jprobe_wiring : Wiring zap_jprobe :=
  open_to_all _ (entry_gate (fun x => if x is RJprobe _ then true else false)).
#[export] Instance pci_probe_wiring : Wiring pci_probe :=
  open_to_all _ (entry_gate (fun x => if x is RPciDriver _ then true else false)).
#[export] Instance sysrq_task_wiring : Wiring sysrq_task :=
  open_to_all _ (entry_gate (fun x => if x is RSysrq _ then true else false)).
(** A tasklet may run from the first [tasklet_schedule] to the [tasklet_kill],
    and a timer from [add_timer] to [del_timer_sync]. *)
#[export] Instance simple_tasklet_wiring : Wiring simple_tasklet := open_to_all _ tasklet_gate.
#[export] Instance periodic_timer_wiring HZ data : Wiring (periodic_timer HZ data) :=
  open_to_all _ timer_gate.
(** first.c is pinned by the modules that call [first_func]; the others of
    module_basic/ have no handlers. *)
#[export] Instance first_wiring : Wiring first :=
  {| wr_gate := fun _ => 0; wr_users := any_user; wr_valid := fun _ => True; wr_pinned := true |}.
#[export] Instance second_wiring : Wiring second := open_to_all _ (fun _ => 0).
#[export] Instance hello_wiring : Wiring hello := open_to_all _ (fun _ => 0).
#[export] Instance simple_module_wiring : Wiring simple_module := open_to_all _ (fun _ => 0).
(** A packet may be transmitted, and received, from [register_netdev] on. *)
#[export] Instance mynet_drv_wiring name : Wiring (mynet_drv name) := {|
  wr_gate := entry_gate (fun x => if x is RNetReg _ then true else false);
  wr_users := allocated 0;
  wr_valid := fun o : km_op (mynet_drv name) => match o with
    | Xmit skb len => 0 <= len <= zlen skb /\ len <= 2 ^ 31 | _ => True end;
  wr_pinned := false |}.
(** The handler is called on a line from its [request_irq] to its [free_irq]. *)
Definition line_gate : event -> Z := entry_gate (fun x => if x is RIrq _ _ then true else false).
#[export] Instance myinterrupt_wiring NR_IRQS : Wiring (myinterrupt NR_IRQS) :=
  open_to_all _ line_gate.
(** The node can be read and written from [proc_create] on, before [my_init] has
    stored the entry in [my_proc].  What is written ends the number. *)
Definition number_writer (R : Set) (c : kcall R) : R -> Prop :=
  match c in kcall R return R -> Prop with
  | Copy_from_user n => fun x => 0 < n -> sscanf_d x.1 <> None
  | _ => fun _ => True
  end.
Definition my_proc_ok (limit : Z) (o : proc_op) : Prop :=
  match o with
  | ProcRead _ offset => 0 <= offset < 2 ^ 63
  | ProcWrite count => 0 < count <= limit
  end.
Definition my_proc_users (limit : Z) (R : Set) (c : kcall R) (r : R) : Prop :=
  allocated limit R c r /\ number_writer R c r.
Definition my_proc_wiring (limit : Z) : Wiring my_proc :=
  Build_Wiring my_proc (entry_gate (fun x => if x is RProc _ _ then true else false))
    (my_proc_users limit) (my_proc_ok limit) false.
(** Positions lie in the buffer. *)
Definition chr_ok (o : chr_op) : Prop :=
  match o with
  | ChrReq r f_pos => Mydynamic.valid_req r /\ 0 <= f_pos <= Mydynamic.KBUF_SIZE
  | _ => True
  end.
#[export] Instance mydynamic_wiring : Wiring mydynamic :=
  Build_Wiring mydynamic cdev_gate (allocated Mydynamic.KBUF_SIZE) chr_ok true.

(** From [h0] on, the kernel has memory for what these modules ask for, and what
    is written to my_proc.c ends its number: what the wirings demand. *)
Definition obliging (K : kernel) (limit : Z) (h0 : history) : Prop :=
  forall h, h0 `suffix_of` h ->
    (forall n, 0 <= n <= Z.max Mydynamic.KBUF_SIZE limit -> kb_addr (K _ h (Kmalloc n)) <> 0) /\
    (forall name, K _ h (Alloc_netdev name) <> 0) /\
    (forall n, 0 < n -> sscanf_d (K _ h (Copy_from_user n)).1 <> None).
