(* ===== verification/Concurrent.v ===== *)
(** * The modules of the system, interleaved

    [System] runs each load, handler and unload of its fifteen modules to its
    end.  Here each of them is shown to keep the interface of [Interleave]: which
    of its calls open and close the entries on which its handlers are called,
    what the handlers keep of the variables, and what the module owns.
    [system_interleaved] is what holds of all of them together, in every
    interleaving of their loads, handlers and unloads call by call. *)

From stdpp Require Import relations.
From Stdlib Require Import Permutation.
From S2P Require Import Prelude Kernel Prog CString Threads Ownership Modules Interleave Drain.
From S2P Require Import FileDev System Wirings.
From S2P Require Mydynamic ProcFs Irq Net Probes Timer Misc.

#[local] Open Scope Z_scope.

#[local] Existing Instances Mydynamic.mydynamic_dev Mydynamic.mydynamic_driver.

(** A call that opens or closes; [n'] entries are open then, and [H'] is left. *)
Ltac own_entry :=
  apply own_call_turn; let r := fresh "r" in let Hr := fresh "Hr" in intros r Hr; cbv beta.
Tactic Notation "open_now" constr(n) constr(H) :=
  exists n, H; split; [simpl; unfold entry_gate; ledger_facts; try reflexivity|];
  split; [try reflexivity|]; split; [simpl; try (intros; first [done|lia])|];
  ledger_facts; own_next; own_go.

Section instances.
Context (K : kernel) `{!SystemSpec K}.

(** Answers of the kernel. *)
Lemma answers_of {users R} {c : kcall R} {r} (P : R -> Prop) :
  answers K users R c r -> (forall h, P (K R h c)) -> P r.
Proof. intros [[h ->] _] HP. apply HP. Qed.

(** A call that may take something which is no entry. *)
Ltac own_take :=
  apply own_call_take;
  [intros ?; simpl; unfold entry_gate; simpl; unfold unless_null, unless_err, when_zero;
   try case_match; by split|].
(** A call that gives something back, and leaves [H']. *)
Tactic Notation "give_now" constr(L) :=
  eapply own_call_give with (H' := L); [own_idle|cbn; solve_Permutation|];
  intros ? _; own_next; own_go.
Ltac answer Hr P spec :=
  let H := fresh "Hans" in
  pose proof (answers_of P Hr ltac:(intros; apply spec)) as H; cbv beta in H.
Ltac own_on := own_next; own_go.
Ltac loaded_now := split; [try done|]; eexists; (split; [reflexivity|]); split_and?; try done.

#[export] Instance kprobe_test_component : Component K kprobe_test.
Proof.
  refine (Build_Component K kprobe_test _ still
    (fun n s R => n = 1 /\ R = [RKprobe (AtAddr (Probes.KprobeTest.kp_addr s))]) _ _ _ _).
  - by intros n s s' R Hl ->%still_interf.
  - intros s _. simpl. unfold Probes.KprobeTest.my_init. own_go. own_if; own_go; [done|].
    apply own_post with (post := fun n _ H _ => n = 0 /\ H = []).
    { destruct (Probes.KprobeTest.name s); by own_go. }
    intros n s1 H [] [-> ->]. own_go. own_if; own_go; [done|done|].
    own_entry. destruct (r.1 =? 0) eqn:Hz; cbn [negb].
    + open_now 1 (@nil resource). loaded_now.
    + open_now 0 (@nil resource). done.
  - intros o s _ _. destruct o; simpl;
      unfold Probes.KprobeTest.handler_pre, Probes.KprobeTest.handler_post,
        Probes.KprobeTest.handler_fault; by own_go.
  - intros n s R [-> ->] _. simpl. unfold Probes.KprobeTest.my_exit. own_go.
    own_entry. by open_now 0 (@nil resource).
Defined.

#[export] Instance jprobe_test_component : Component K jprobe_test.
Proof.
  refine (Build_Component K jprobe_test _ still
    (fun n s R => n = 1 /\ R = [RJprobe (AtSymbol "do_fork")]) _ _ _ _).
  - by intros n s s' R Hl ->%still_interf.
  - intros s _. simpl. unfold Probes.JprobeTest.my_init. own_go. own_entry.
    answer Hr (fun x : Z * Z => x.1 <= 0) Probes.register_jprobe_ret.
    destruct (Z.eqb_spec r.1 0), (Z.ltb_spec r.1 0); try lia.
    + open_now 1 (@nil resource). loaded_now.
    + open_now 0 (@nil resource). done.
  - intros [f k] s _ _. simpl. unfold Probes.JprobeTest.my_fork. by own_go.
  - intros n s R [-> ->] _. simpl. unfold Probes.JprobeTest.my_exit. own_go.
    own_entry. by open_now 0 (@nil resource).
Defined.

#[export] Instance zap_jprobe_component : Component K zap_jprobe.
Proof.
  refine (Build_Component K zap_jprobe _ still
    (fun n s R => n = 1 /\ R = [RJprobe (AtAddr Probes.ZapJprobe.kp_addr)]) _ _ _ _).
  - by intros n s s' R Hl ->%still_interf.
  - intros s _. simpl. unfold Probes.ZapJprobe.my_init. own_go. own_entry.
    answer Hr (fun x : Z * Z => x.1 <= 0) Probes.register_jprobe_ret.
    destruct (Z.eqb_spec r.1 0), (Z.ltb_spec r.1 0) as [Hn|Hn]; try lia.
    + open_now 1 (@nil resource). loaded_now.
    + open_now 0 (@nil resource). by rewrite (proj2 (Z.ltb_lt _ _) Hn).
  - intros o s _ _. simpl. unfold Probes.ZapJprobe.my_zap_pid_ns_processes. by own_go.
  - intros n s R [-> ->] _. simpl. unfold Probes.ZapJprobe.my_exit. own_go.
    own_entry. by open_now 0 (@nil resource).
Defined.

#[export] Instance pci_probe_component : Component K pci_probe.
Proof.
  refine (Build_Component K pci_probe _ still
    (fun n s R => n = 1 /\ R = [RPciDriver Misc.PciProbe.my_driver]) _ _ _ _).
  - by intros n s s' R Hl ->%still_interf.
  - intros s _. simpl. unfold Misc.PciProbe.my_init. own_entry.
    answer Hr (fun x : Z => x <= 0) spec_pci.
    destruct (Z.eqb_spec r 0), (Z.ltb_spec r 0); try lia.
    + open_now 1 (@nil resource). loaded_now.
    + open_now 0 (@nil resource). done.
  - intros o s _ _. destruct o; simpl;
      unfold Misc.PciProbe.my_probe, Misc.PciProbe.remove; by own_go.
  - intros n s R [-> ->] _. simpl. unfold Misc.PciProbe.my_exit. own_go.
    own_entry. by open_now 0 (@nil resource).
Defined.

#[export] Instance sysrq_task_component : Component K sysrq_task.
Proof.
  refine (Build_Component K sysrq_task _ still
    (fun n s R => n = 1 /\ R = [RSysrq Misc.SysrqTask.key]) _ _ _ _).
  - by intros n s s' R Hl ->%still_interf.
  - intros s _. simpl. unfold Misc.SysrqTask.my_init. own_go. own_entry.
    answer Hr (fun x : Z => x <= 0) spec_sysrq.
    destruct (Z.eqb_spec r 0); [subst r|].
    + open_now 1 (@nil resource). loaded_now.
    + open_now 0 (@nil resource). by rewrite (proj2 (Z.ltb_lt r 0)) by lia.
  - intros o s _ _. simpl. unfold Misc.SysrqTask.my_sysrq_task_list. own_go.
    apply own_for_each with (J := fun _ _ _ H => H = []); [done| |].
    + intros dn x todo n s' H _ ->. by own_go.
    + intros n s' H ->. by own_go.
  - intros n s R [-> ->] _. simpl. unfold Misc.SysrqTask.my_exit. own_go.
    own_entry. by open_now 0 (@nil resource).
Defined.

#[export] Instance simple_tasklet_component : Component K simple_tasklet.
Proof.
  refine (Build_Component K simple_tasklet _ still
    (fun n s R => n = 1 /\ R = []) _ _ _ _).
  - by intros n s s' R Hl ->%still_interf.
  - intros s _. simpl. unfold Irq.SimpleTasklet.drv_init. own_go. own_entry.
    open_now 1 (@nil resource). loaded_now.
  - intros o s _ _. simpl. unfold Irq.SimpleTasklet.tasklet_func. by own_go.
  - intros n s R [-> ->] _. simpl. unfold Irq.SimpleTasklet.drv_exit. own_go.
    own_entry. by open_now 0 (@nil resource).
Defined.

#[export] Instance periodic_timer_component HZ data : Component K (periodic_timer HZ data).
Proof.
  refine (Build_Component K (periodic_timer HZ data) _ still
    (fun n s R => n = 1 /\ R = []) _ _ _ _).
  - by intros n s s' R Hl ->%still_interf.
  - intros s _. simpl. unfold Timer.PeriodicTimer.init_module. own_go; [done..|]. own_entry.
    open_now 1 (@nil resource). loaded_now.
  - intros o s _ _. simpl. unfold Timer.PeriodicTimer.ktfun. by own_go.
  - intros n s R [-> ->] _. simpl. unfold Timer.PeriodicTimer.cleanup_module. own_go.
    own_entry. by open_now 0 (@nil resource).
Defined.

Ltac no_entry m n :=
  refine (Build_Component K m _ still
    (fun n' s R => n' = n /\ R = []) _ _ _ _);
  [ by intros ? s s' R Hl ->%still_interf
  | intros s _; simpl
  | intros o s _ _; simpl in *
  | intros ? s R [-> ->] _; simpl ].
#[export] Instance first_component : Component K first.
Proof.
  no_entry first 1;
    unfold Misc.First.my_init, Misc.First.my_exit, Misc.First.first_func; own_go; [|done..].
  loaded_now.
Defined.
#[export] Instance second_component : Component K second.
Proof.
  no_entry second 0; [|destruct o|];
    unfold Misc.Second.my_init, Misc.First.first_func, Misc.Second.my_exit; own_go; [|done].
  loaded_now.
Defined.
#[export] Instance hello_component : Component K hello.
Proof.
  no_entry hello 0; [|destruct o|];
    unfold Misc.Hello.my_init, Misc.Hello.my_exit; own_go; [|done].
  loaded_now.
Defined.
#[export] Instance simple_module_component : Component K simple_module.
Proof.
  no_entry simple_module 0; [|destruct o|];
    unfold Misc.SimpleModule.my_init, Misc.SimpleModule.my_exit; own_go; [|done].
  loaded_now.
Defined.

(** ** networking/mynet_drv.c *)
Definition net_view : view Net.state := View (fun _ => True) Z Net.dev.
#[export] Instance mynet_drv_component name : Component K (mynet_drv name).
Proof.
  refine (Build_Component K (mynet_drv name) _ net_view
    (fun n s R => n = 1 /\ R = net_holds s) _ _ _ _).
  - intros n s s' R [-> ->] [_ Hd]. unfold net_holds. simpl in Hd. by rewrite Hd.
  - intros s Hs. simpl in *. unfold Net.my_init, Net.my_setup. own_go.
    own_take. intros p [_ Hans]. simpl in Hans. own_next.
    rewrite (proj2 (Z.eqb_neq p 0) Hans). simpl. unfold unless_null.
    rewrite (proj2 (Z.eqb_neq p 0) Hans). own_go.
    apply own_for_each with (J := fun _ n s H =>
      n = 0 /\ length (Net.dev_addr s) = 6%nat /\ H = [RNetdev p]); [done| |].
    + intros dn j todo n s' H Hseq (-> & Hl & ->). destruct (seqZ_split _ _ _ _ Hseq) as (_ & Hj & _).
      unfold Net.ETH_ALEN in Hj. own_go. eapply own_access; [apply store1_ok; lia|]. own_go; [done|].
      simpl. by rewrite length_insert.
    + intros n s' H (-> & _ & ->). own_go; [done..|]. own_entry.
      destruct (r2 =? 0) eqn:Hz; cbn [negb].
      * open_now 1 [RNetdev p]. loaded_now. unfold net_holds. simpl in *. congruence.
      * open_now 0 [RNetdev p]. eapply own_call_give; [own_idle|done|]. intros. by own_go.
  - intros o s Hv _. destruct o as [skb len|cmd| | |mtu| |]; simpl;
      unfold Net.my_hard_start_xmit, Net.my_do_ioctl, Net.my_get_stats, Net.my_config,
        Net.my_change_mtu, Net.my_open, Net.my_close, Net.my_rx; own_go; try done.
    + destruct Hv as [Hv Hv31]. apply own_for_each with (J := fun _ _ _ H => H = []); [done| |].
      * intros dn i todo n s' H Hseq ->. destruct (seqZ_split _ _ _ _ Hseq) as (_ & Hi & _).
        apply own_bind, own_post with (post := fun _ _ H _ => H = []); [own_if; by own_go|].
        intros n' s'' H [] ->. rewrite s32_small by lia.
        destruct (load1_ok skb i) as (b & Hb & _); [lia|]. own_go.
        eapply own_access; [exact Hb|]. by own_go.
      * intros n s' H ->. by own_go.
    + own_if; by own_go.
  - intros n s R [-> ->] _. simpl. unfold Net.my_exit, net_holds. own_go. own_entry. rewrite <- Hs.
    open_now 0 [RNetdev (Net.dev s0)].
    eapply own_call_give; [own_idle|done|]. intros. by own_go.
Defined.

(** ** irq/myinterrupt.c *)
Lemma registered_snoc m dn i v :
  dn = seqZ 0 i -> 0 <= i < zlen m ->
  Irq.Lines.registered (<[Z.to_nat i := v]> m) (dn ++ [i]) =
  Irq.Lines.registered m dn ++ (if 0 <=? v then [RIrq i i] else []).
Proof.
  intros -> Hi. rewrite Irq.Lines.registered_app, Irq.Lines.registered_insert.
  - f_equal. simpl. unfold load1. rewrite (proj2 (Z.leb_le 0 i)) by lia.
    rewrite list_lookup_insert_eq by lia. simpl. by destruct (0 <=? v).
  - apply Forall_forall. intros j Hj%elem_of_seqZ. lia.
Qed.
#[export] Instance myinterrupt_component NR_IRQS : Component K (myinterrupt NR_IRQS).
Proof.
  refine (Build_Component K (myinterrupt NR_IRQS) _ still
    (fun n s R => zlen (Irq.MyInterrupt.my_dev_id s) = NR_IRQS /\ n = zlen R /\
       R = Irq.Lines.registered (Irq.MyInterrupt.my_dev_id s) (seqZ 0 NR_IRQS)) _ _ _ _).
  - by intros n s s' R Hl ->%still_interf.
  - intros s Hs. simpl in Hs. simpl. unfold Irq.MyInterrupt.my_init. own_go.
    apply own_for_each with (J := fun dn n s H => zlen (Irq.MyInterrupt.my_dev_id s) = NR_IRQS /\
      n = zlen H /\ H ≡ₚ Irq.Lines.registered (Irq.MyInterrupt.my_dev_id s) dn); [done| |].
    + intros dn i todo n s1 H Hseq (Hl & -> & HH).
      destruct (seqZ_split _ _ _ _ Hseq) as (_ & Hi & Hdn).
      assert (forall v, Irq.Lines.registered (<[Z.to_nat i := v]> (Irq.MyInterrupt.my_dev_id s1))
        (dn ++ [i]) = Irq.Lines.registered (Irq.MyInterrupt.my_dev_id s1) dn ++
          (if 0 <=? v then [RIrq i i] else [])) as Hreg by (intros v; apply registered_snoc; [done|lia]).
      apply own_bind, own_call_turn. intros ret Hr.
      answer Hr (fun x : Z => x <= 0) Irq.request_irq_ret. unfold Irq.MyInterrupt.set_dev_id.
      destruct (Z.eqb_spec ret 0) as [Hz|Hz], (Z.ltb_spec ret 0); try lia.
      * subst ret. exists (zlen H + 1), H. split_and!; [done..|]. own_next. own_go.
        eapply own_access; [apply store1_ok; lia|]. own_go; [done|].
        cbn [Irq.MyInterrupt.my_dev_id]. rewrite Hreg, (proj2 (Z.leb_le 0 i)) by lia. simpl. rewrite length_insert, HH.
        split_and!; [done|lia|]. by rewrite (Permutation_app_comm _ [_]).
      * assert (when_zero ret (RIrq i i) = []) as Hw
          by (unfold when_zero; by rewrite (proj2 (Z.eqb_neq ret 0) Hz)).
        exists (zlen H), H. split_and!; [|done|simpl; lia|].
        { simpl. unfold line_gate, entry_gate. simpl. rewrite Hw. simpl. lia. }
        own_next. simpl. rewrite Hw. own_go.
        eapply own_access; [apply store1_ok; lia|]. own_go; [done|].
        cbn [Irq.MyInterrupt.my_dev_id]. rewrite Hreg. simpl. rewrite length_insert, app_nil_r. by split_and!.
    + intros n s1 H (Hl & -> & HH). own_go. simpl. split; [done|]. eexists. split; [exact HH|].
      split; [done|]. split; [by rewrite HH|done].
  - intros o s _ _. simpl. unfold Irq.MyInterrupt.my_handler. by own_go.
  - intros n s R (Hl & -> & ->) _. simpl. unfold Irq.MyInterrupt.my_exit.
    apply own_for_each with (J := fun dn n s' H => s' = s /\ n = zlen H /\ exists todo,
      seqZ 0 NR_IRQS = dn ++ todo /\ H = Irq.Lines.registered (Irq.MyInterrupt.my_dev_id s) todo).
    + split_and!; [done|done|]. by exists (seqZ 0 NR_IRQS).
    + intros dn i todo n s1 H Hseq (-> & -> & todo' & Hl' & ->).
      assert (todo' = i :: todo) as -> by (rewrite Hseq in Hl'; by apply app_inv_head in Hl').
      destruct (seqZ_split _ _ _ _ Hseq) as (_ & Hi & _). own_go.
      destruct (load1_ok (Irq.MyInterrupt.my_dev_id s) i ltac:(lia)) as (v & Hv & _).
      eapply own_access; [exact Hv|]. simpl. rewrite Hv, Z.geb_leb. simpl.
      destruct (0 <=? v); [own_entry|]; own_go.
      * set (L := Irq.Lines.registered (Irq.MyInterrupt.my_dev_id s) todo).
        exists (zlen L), L. split_and!; [|done|simpl; lia|].
        { simpl. unfold line_gate, entry_gate. simpl. lia. }
        own_next. split_and!; [done|done|]. exists todo. split; [by rewrite <- app_assoc|done].
      * split_and!; [done|done|]. exists todo. split; [by rewrite <- app_assoc|done].
    + intros n s1 H (-> & -> & todo & Ht & ->).
      rewrite <- (app_nil_r (seqZ 0 NR_IRQS)) in Ht at 1. apply app_inv_head in Ht. by subst todo.
Defined.

(** ** filesystem/my_proc.c *)
Definition proc_view : view ProcFs.MyProc.state :=
  View (fun s => in_int (ProcFs.MyProc.param s)) Z ProcFs.MyProc.my_proc.

(** The reply of a read, from any view. *)
Lemma own_proc_reply {σ} (V : view σ) gate rely n s H z offset
    (post : Z -> σ -> list resource -> Z * Z -> Prop) :
  (forall d (r : Z), gate (Ev (Copy_to_user d) r) = 0) -> in_int z ->
  (forall s' r, vw_share V s' \/ s' = s -> post n s' H r) ->
  own V gate rely Handler n s H (ProcFs.proc_reply 20 (Some (ProcFs.line_d z)) offset) post.
Proof.
  intros Hg Hz Hp. unfold ProcFs.proc_reply.
  destruct (ProcFs.sprintf_cstr (replicate 20 0) (ProcFs.line_d z)) as (m & Hm & Hc);
    [apply ProcFs.line_d_nonzero| |].
  { rewrite length_replicate. pose proof (ProcFs.line_d_length _ Hz). lia. }
  apply own_bind. eapply own_access; [exact Hm|]. apply own_bind. eapply own_access; [exact Hc|].
  own_if; [apply own_ret; auto|].
  apply own_bind, own_call_idle; [by intros; split_and!; [apply Hg|..]|].
  intros r _ s' Hs'. apply own_ret. auto.
Qed.

Definition my_proc_component (limit : Z) : Component K my_proc.
Proof.
  refine (Build_Component K my_proc (my_proc_wiring limit) proc_view
    (fun n s R => n = 1 /\ ProcFs.MyProc.my_proc s <> 0 /\ R = [RProc ProcFs.MyProc.NODE 0])
    _ _ _ _).
  - intros n s s' R (-> & Hp & ->) [_ Hd]. simpl in Hd. by rewrite Hd.
  - intros s Hs. simpl in Hs. simpl. unfold ProcFs.MyProc.my_init. own_go. own_entry.
    destruct (r =? 0) eqn:Hz.
    + by open_now 0 (@nil resource).
    + open_now 1 (@nil resource); [by simpl; auto|]. simpl in *. zbool. loaded_now; congruence.
  - intros o s Hv Hs. simpl in Hs. destruct o as [len offset|count]; simpl in Hv |- *.
    + unfold ProcFs.MyProc.my_proc_read. own_go.
      apply own_proc_reply; [done|done|]. intros. by own_go.
    + unfold ProcFs.MyProc.my_proc_write, ProcFs.copy_in, ProcFs.scan_int.
      own_go. own_take. intros b Hb. own_next.
      pose proof (answers_of (fun b => kb_addr b <> 0 -> zlen (kb_bytes b) = count) Hb
        (fun h => spec_kmalloc h count ltac:(lia))) as Hbl.
      destruct Hb as [_ [Hb0 _]]. simpl in Hb0. specialize (Hb0 ltac:(lia)). specialize (Hbl Hb0).
      simpl. unfold unless_null. rewrite (proj2 (Z.eqb_neq _ _) Hb0). own_go.
      pose proof (answers_of (fun x => zlen x.1 = count) Hr
        (fun h => copy_from_user_length h count ltac:(lia))) as Hans. cbv beta in Hans.
      destruct Hr as [_ [_ Hscan]]. simpl in Hscan. specialize (Hscan ltac:(lia)).
      eapply own_access; [apply store_ok; lia|]. rewrite drop_ge by lia. simpl. own_go. rewrite !app_nil_r. cbn [fst snd].
      assert (forall n s H (post : Z -> _ -> _ -> unit -> Prop), n = 0 ->
        (forall s' r, post n s' H r) ->
        own proc_view (wr_gate (Wiring := my_proc_wiring limit)) (answers K (my_proc_users limit)) Handler n s (RMem (kb_addr b) :: H)
          (call (Kfree (kb_addr b))) post) as Hfree.
      { intros n s' H post -> Hpost. eapply own_call_give; [|done|by intros].
        intros. simpl. unfold entry_gate. simpl. unfold unless_null.
        by rewrite (proj2 (Z.eqb_neq _ _) Hb0). }
      own_if; own_go; [apply Hfree; [done|]; intros; by own_go|].
      destruct (sscanf_d r.1) as [v|] eqn:Hv1; [|done]. eapply own_access; [done|].
      destruct v as [v|]; own_go; [simpl; split; [by eapply sscanf_d_int|done]| |];
        (apply Hfree; [done|]; intros; by own_go).
  - intros n s R (-> & Hp & ->) _. simpl. unfold ProcFs.MyProc.my_exit. own_go.
    rewrite (proj2 (Z.eqb_neq _ _) Hp). own_go. own_entry. by open_now 0 (@nil resource).
Defined.

(** ** char_dev/mydynamic.c *)
Definition cdev_fixed (s : Mydynamic.state) : Z * Z * dev_t * Z :=
  (Mydynamic.kbuf_p s, Mydynamic.my_cdev s, Mydynamic.first s, Mydynamic.count s).
Definition cdev_view : view Mydynamic.state :=
  View (fun s => zlen (Mydynamic.kbuf s) = Mydynamic.KBUF_SIZE) _ cdev_fixed.
(** The message at the end of the buffer. *)
Lemma opt_print (b : bool) msg n s (post : Z -> Mydynamic.state -> list resource -> unit -> Prop) :
  zlen (Mydynamic.kbuf s) = 10 * 4096 ->
  (forall s', zlen (Mydynamic.kbuf s') = 10 * 4096 -> post n s' [] tt) ->
  own cdev_view cdev_gate (answers K (allocated Mydynamic.KBUF_SIZE)) Handler n s [] (if b then printk msg [] else skip) post.
Proof. intros Hs Hp. destruct b; own_go; destruct r || idtac; by apply Hp. Qed.

Lemma mydynamic_handler_own o s :
  chr_ok o -> vw_share cdev_view s ->
  own cdev_view cdev_gate (answers K (allocated Mydynamic.KBUF_SIZE)) Handler 0 s [] (km_handler mydynamic o) (fun _ _ H _ => H = []).
Proof.
  intros Hv Hs. simpl in Hs. destruct o as [inode| |[n|n|off whence] f_pos]; simpl in Hv |- *.
  - unfold Mydynamic.mycdrv_open. own_go; done.
  - unfold Mydynamic.mycdrv_release. by own_go.
  - unfold Mydynamic.mycdrv_read. destruct Hv as [Hv Hf]. unfold Mydynamic.KBUF_SIZE in *.
    rewrite Mydynamic.mydynamic_bytes_to_do_value by (unfold Mydynamic.KBUF_SIZE; lia).
    unfold Mydynamic.KBUF_SIZE. set (m := Z.min n (10 * 4096 - f_pos)).
    assert (0 <= m <= n /\ f_pos + m <= 40960) by lia.
    own_go. apply opt_print; [done|]. intros s' Hl. own_go. rewrite u64_small by lia.
    destruct (proj2 (load_is_some (Mydynamic.kbuf s') f_pos m)) as [d Hd]; [lia|].
    eapply own_access; [exact Hd|]. by own_go.
  - unfold Mydynamic.mycdrv_write. destruct Hv as [Hv Hf]. unfold Mydynamic.KBUF_SIZE in *.
    rewrite Mydynamic.mydynamic_bytes_to_do_value by (unfold Mydynamic.KBUF_SIZE; lia).
    unfold Mydynamic.KBUF_SIZE. set (m := Z.min n (10 * 4096 - f_pos)).
    assert (0 <= m <= n /\ f_pos + m <= 40960) by lia. own_go. apply opt_print; [done|].
    intros s' Hl. own_go. rewrite u64_small in Hr by lia.
    pose proof (answers_of (fun x => zlen x.1 = m) Hr
      (fun h => copy_from_user_length h m ltac:(lia))) as Hd. cbv beta in Hd. unfold Mydynamic.KBUF_SIZE in Hs0.
    destruct (store (Mydynamic.kbuf s0) f_pos r.1) as [c|] eqn:Hc;
      [|by rewrite store_ok in Hc by lia].
    eapply own_access; [done|]. apply store_length in Hc.
    own_go; [simpl; unfold Mydynamic.KBUF_SIZE; split; [lia|done]|done].
  - unfold Mydynamic.mycdrv_lseek. own_go.
    destruct (if whence =? 0 then _ else _) as [t|]; by own_go.
Qed.

#[export] Instance mydynamic_component : Component K mydynamic.
Proof.
  refine (Build_Component K mydynamic _ cdev_view
    (fun n s R => n = 1 /\ Mydynamic.kbuf_p s <> 0 /\ Mydynamic.my_cdev s <> 0 /\
       R = mydynamic_holds s) _ _ _ _).
  - intros n s s' R (-> & Hp & Hc & ->) [_ Hd]. unfold mydynamic_holds. simpl in Hd.
    injection Hd as -> -> -> ->. done.
  - intros s _. simpl. unfold Mydynamic.my_init. own_go. own_take. intros [r d] Hr.
    pose proof (answers_of (fun x => x.1 <= 0) Hr (fun h => alloc_chrdev_ret h _ _ _)) as Hans. own_next. simpl in *. unfold when_zero.
    destruct (Z.ltb_spec r 0) as [Hn|Hn].
    { own_go. by rewrite (proj2 (Z.eqb_neq r 0)) by lia. }
    assert (r = 0) as -> by lia. simpl. own_go; [done|]. own_take. intros p Hp. own_next. own_go; [done|].
    assert (acquires (Ev Cdev_alloc p) = unless_null p (RCdev p)) as Ha by done.
    rewrite Ha. unfold unless_null.
    own_if; own_go; [give_now (@nil resource); done|].
    own_take. intros b Hb. own_next. unfold Mydynamic.KBUF_SIZE in *.
    pose proof (answers_of (fun b => kb_addr b <> 0 -> zlen (kb_bytes b) = 10 * 4096) Hb
      (fun h => spec_kmalloc h (10 * 4096) ltac:(lia))) as Hbl.
    destruct Hb as [_ Hb0]. simpl in Hb0. specialize (Hb0 ltac:(unfold Mydynamic.KBUF_SIZE; lia)).
    specialize (Hbl Hb0). clear Ha.
    assert (acquires (Ev (Kmalloc (10 * 4096)) b) = [RMem (kb_addr b)]) as Ha.
    { simpl. unfold unless_null. by rewrite (proj2 (Z.eqb_neq _ _) Hb0). }
    rewrite Ha. own_go; [done|]. own_entry.
    set (L := [RMem (kb_addr b); RCdev p; RChrdevRegion d (Mydynamic.count s)]).
    destruct (r0 <? 0) eqn:Hadd.
    + exists 0, L. split; [simpl; by rewrite Hadd|]. split; [done|]. split; [simpl; lia|].
      own_next. own_go. give_now [RMem (kb_addr b); RChrdevRegion d (Mydynamic.count s)].
      give_now [RMem (kb_addr b)]. eapply own_call_give; [|done|].
      { intros. simpl. unfold unless_null. by rewrite (proj2 (Z.eqb_neq _ _) Hb0). }
      intros ? _. own_next. by own_go.
    + exists 1, L. split; [simpl; by rewrite Hadd|]. split; [done|]. split; [intros _; exact Hbl|].
      own_next. own_go. simpl in *. zbool.
      destruct Hs as [_ Hs]. rewrite <- Hs2 in Hs0. rewrite Hs in Hs0. unfold cdev_fixed in Hs0.
      simpl in Hs0. injection Hs0 as Hk Hc Hf Hn'. split; [done|]. exists L. split; [done|].
      unfold mydynamic_holds. rewrite Hk, Hc, Hf, Hn'. by split_and!.
  - intros. by apply mydynamic_handler_own.
  - intros n s R (-> & Hp & Hc & ->) _. simpl. unfold Mydynamic.my_exit, mydynamic_holds. own_go.
    rewrite (proj2 (Z.eqb_neq _ _) Hc), (proj2 (Z.eqb_neq _ _) Hp).
    give_now [RMem (Mydynamic.kbuf_p s); RChrdevRegion (Mydynamic.first s) (Mydynamic.count s)].
    give_now [RMem (Mydynamic.kbuf_p s)].
    eapply own_call_give; [|done|].
    { intros. simpl. unfold unless_null. by rewrite (proj2 (Z.eqb_neq _ _) Hp). }
    intros ? _. own_next. by own_go.
Defined.
End instances.

(** ** The system *)

(** None of the modules is loaded. *)
Definition at_boot (K : kernel) (m : kmodule) `{C : !Component K m} (s : km_state m) : cell K :=
  Cell K m C (Place m (Out m) s 0 []).
Definition repository (K : kernel) `{!SystemSpec K} (g : setup) : list (cell K) :=
  [at_boot K kprobe_test (Probes.KprobeTest.State 0 None 0);
   at_boot K jprobe_test tt; at_boot K zap_jprobe tt;
   at_boot K (myinterrupt (NR_IRQS g)) (Irq.MyInterrupt.statics (NR_IRQS g));
   at_boot K simple_tasklet tt; at_boot K pci_probe tt; at_boot K sysrq_task tt;
   at_boot K first tt; at_boot K second tt; at_boot K hello (Misc.Hello.State 0);
   at_boot K simple_module tt;
   at_boot K (periodic_timer (HZ g) (timer_data g)) (Timer.PeriodicTimer.State 0 0);
   at_boot K (mynet_drv (ifname g)) Net.statics; at_boot K mydynamic Mydynamic.statics;
   at_boot K my_proc (C := my_proc_component K (limit g)) ProcFs.MyProc.statics].

Lemma repository_fresh (K : kernel) `{!SystemSpec K} g h : world_fresh K (repository K g, h).
Proof.
  unfold world_fresh, repository, cell_out, cell_idle. simpl. repeat constructor; simpl; lia.
Qed.

Lemma repository_served (K : kernel) `{!SystemSpec K} g h0 :
  obliging K (limit g) h0 -> Forall (served K h0) (repository K g).
Proof.
  intros Hob.
  assert (forall n R h (c : kcall R), 0 <= n <= Z.max Mydynamic.KBUF_SIZE (limit g) ->
    h0 `suffix_of` h -> allocated n R c (K R h c)) as Ha.
  { intros n R h c Hn Hh. destruct (Hob h Hh) as (Hk & Hd & _). destruct c; simpl; auto.
    intros Hs. apply Hk. lia. }
  unfold repository, served.
  repeat (apply Forall_cons_2; [intros R h c Hh; try done|]); simpl.
  - apply Ha; [unfold Mydynamic.KBUF_SIZE; lia|done].
  - apply Ha; [unfold Mydynamic.KBUF_SIZE; lia|done].
  - destruct (Hob h Hh) as (Hk & _ & Hw). split; destruct c; simpl; auto.
    + intros Hs. apply Hk. lia.
    + destruct (Hob h Hh) as (_ & Hd & _). apply Hd.
  - apply Forall_nil_2.
Qed.

(** ** Properties *)

(** C2: the well-behaved modules of the repository are safe together when their
    loads, handlers and unloads run at the same time, one kernel call of one of
    them after the other in any order: handlers from the call on that opens the
    entry on which they are called, also while the load is still running, and
    until the call that closes the last one, which waits for them.  In every
    interleaving no thread stops at a fault; the ledger is the union of what the
    modules own, nothing for those that are not loaded and what the loaded ones
    say between two operations; nothing runs, and no entry is open, in a
    module that is not loaded; and when none is, the kernel holds what it held
    at the start.  The interleavings are those that the wirings allow: for twelve
    of the modules all of them; of mynet_drv.c, mydynamic.c and my_proc.c, which
    do not check their allocations, those in which these succeed, the packets
    are as long as they say, the positions lie in the buffer, and the texts have
    at most [limit g] bytes and end the number they start with. *)
Theorem system_interleaved (K : kernel) `{!SystemSpec K} g L0 L h w :
  holds L0 h L -> rtc (world_step K) (repository K g, h) w ->
  Forall (fun x => ~ cell_fault K x) w.1 /\
  Forall (fun x => cell_out K x -> cell_idle K x) w.1 /\
  (exists Rs, Forall2 (cell_holds K) w.1 Rs /\ holds L0 w.2 (mjoin Rs ++ L)) /\
  (world_out K w -> holds L0 w.2 L).
Proof.
  intros HL Hr. exact (interleaved_gen K L0 L _ w (repository_fresh K g h) HL Hr).
Qed.

(** In the twelve nothing is excluded. *)
Lemma unrestricted (K : kernel) `{!SystemSpec K} g :
  Forall (fun x =>
    (forall o, wr_valid (Wiring := cp_wiring K (Component := cl_comp K x)) o) /\
    (forall R c r, wr_users (Wiring := cp_wiring K (Component := cl_comp K x)) R c r))
    (take 12 (repository K g)).
Proof. by repeat constructor. Qed.

(** C3: no interleaving of them leads to a deadlock: from every state that their
    loads, handlers and unloads can reach, in the interleavings of
    [system_interleaved], all the handlers that run can finish and all the
    modules can be unloaded, the calls that wait for handlers and for users
    included, until nothing of them runs and the kernel holds what it held at
    the start; provided that from that state on the kernel grants the three
    modules that do not check their allocations the memory they ask for, and
    what is written to my_proc.c ends its number ([obliging]). *)
Theorem system_can_unload (K : kernel) `{!SystemSpec K} g L0 L h w :
  holds L0 h L -> rtc (world_step K) (repository K g, h) w -> obliging K (limit g) w.2 ->
  exists w', rtc (world_step K) w w' /\ world_out K w' /\ Forall (cell_idle K) w'.1 /\
    holds L0 w'.2 L.
Proof.
  intros HL Hr Hob. pose proof (repository_fresh K g h) as Hf.
  assert (Forall (served K w.2) w.1) as Hserved.
  { eapply served_steps; [|exact Hr]. by apply repository_served. }
  pose proof (world_fresh_inv K L0 L _ Hf HL) as HI0.
  pose proof (world_steps_inv K L0 L _ _ HI0 Hr) as HI.
  destruct (can_unload K L0 L w HI Hserved) as (w' & Hw & Hout). exists w'.
  assert (rtc (world_step K) (repository K g, h) w') as Hr' by by etrans.
  destruct (interleaved_gen K L0 L _ w' Hf HL Hr') as (_ & Hidle & _ & HL').
  split_and!; [done|done| |by apply HL'].
  unfold world_out in Hout. rewrite Forall_forall in Hidle, Hout. apply Forall_forall. auto.
Qed.

(** ** Concrete instances *)

#[local] Instance some_wiring : Wiring my_proc := my_proc_wiring (limit some_setup).

(** my_proc.c: the node is written to before [my_init] has returned, the write
    is still copying when the unload begins, and the unload waits for it. *)
Lemma overlapping_write : exists s h,
  rtc (one_step quiet_kernel my_proc)
    (Place my_proc (Out my_proc) ProcFs.MyProc.statics 0 [], [])
    (Place my_proc (Out my_proc) s 0 [Ret tt], h) /\ length h = 8%nat.
Proof.
  eexists _, _. split.
  - by_step ltac:(apply st_insmod with (s0 := ProcFs.MyProc.statics); simpl; unfold in_int; lia).
    main_now ltac:(apply st_load).
    by_step ltac:(apply st_start with (o := ProcWrite 4); done).
    handler_call 0%nat. (* kmalloc *)
    local_now ltac:(apply st_load).
    main_now ltac:(apply st_load).
    by_step ltac:(apply st_loaded; done).
    by_step ltac:(by apply st_rmmod).
    handler_call 0%nat. (* copy_from_user *)
    local_now ltac:(apply st_unload).
    handler_local 0%nat.
    handler_call 0%nat. handler_call 0%nat. (* printk, kfree *)
    main_now ltac:(apply st_unload). (* remove_proc_entry *)
    main_now ltac:(apply st_unload).
    by_step ltac:(apply st_unloaded).
    apply rtc_refl.
  - reflexivity.
Qed.

Lemma system_interleaved_witness : exists w : world quiet_kernel,
  rtc (world_step quiet_kernel) (repository quiet_kernel some_setup, []) w /\
  Forall (fun x => ~ cell_fault quiet_kernel x) w.1 /\
  Forall (fun x => cell_out quiet_kernel x -> cell_idle quiet_kernel x) w.1 /\
  holds [] w.2 [] /\ length w.2 = 8%nat.
Proof.
  destruct overlapping_write as (s & h & Hr & Hl).
  pose proof (one_steps_world quiet_kernel my_proc (my_proc_component quiet_kernel (limit some_setup)) _ _ _ _
    (repository quiet_kernel some_setup) 14 Hr eq_refl) as Hw.
  eexists. split; [exact Hw|].
  destruct (system_interleaved quiet_kernel some_setup [] [] [] _
    (holds_of_held [] [] [] eq_refl) Hw) as (Hf & Hi & _ & Hh).
  split_and!; [exact Hf|exact Hi| |exact Hl]. apply Hh. by repeat constructor.
Defined.

Lemma quiet_obliging h0 : obliging quiet_kernel (limit some_setup) h0.
Proof.
  intros h _. split_and!; [done|done|]. intros n Hn. simpl.
  replace (Z.to_nat n) with (S (Z.to_nat (n - 1))) by lia. by simpl.
Qed.

(** A write that has its memory, while the load is still running. *)
Lemma write_in_flight : exists p q s h,
  rtc (one_step quiet_kernel my_proc)
    (Place my_proc (Out my_proc) ProcFs.MyProc.statics 0 [], [])
    (Place my_proc (Loading my_proc p) s 1 [q], h) /\ q <> Ret tt /\ length h = 2%nat.
Proof.
  eexists _, _, _, _. split_and!.
  - by_step ltac:(apply st_insmod with (s0 := ProcFs.MyProc.statics); simpl; unfold in_int; lia).
    main_now ltac:(apply st_load).
    by_step ltac:(apply st_start with (o := ProcWrite 4); done).
    handler_call 0%nat.
    apply rtc_refl.
  - done.
  - reflexivity.
Qed.

Lemma system_can_unload_witness : exists w w' : world quiet_kernel,
  rtc (world_step quiet_kernel) (repository quiet_kernel some_setup, []) w /\ length w.2 = 2%nat /\
  ~ world_out quiet_kernel w /\
  rtc (world_step quiet_kernel) w w' /\ world_out quiet_kernel w' /\ holds [] w'.2 [].
Proof.
  destruct write_in_flight as (p & q & s & h & Hr & Hq & Hl).
  pose proof (one_steps_world quiet_kernel my_proc (my_proc_component quiet_kernel (limit some_setup)) _ _ _ _
    (repository quiet_kernel some_setup) 14 Hr eq_refl) as Hw.
  destruct (system_can_unload quiet_kernel some_setup [] [] [] _
    (holds_of_held [] [] [] eq_refl) Hw (quiet_obliging _)) as (w' & Hw' & Hout & Hidle & HL).
  eexists _, w'. split_and!; [exact Hw|exact Hl| |exact Hw'|exact Hout|exact HL].
  intros Ho. by pose proof (Forall_lookup_1 _ _ 14 _ Ho eq_refl).
Defined.
