(* ===== verification/Aftermath.v ===== *)
(** * Code that runs after the unload

    Three modules do not stop what they have set going: irq_tasklet.c and
    irq_delayed.c leave the tasklet scheduled, timer_drv.c its timer armed.  In
    the interleaved steps of [Interleave], which do not depend on what a module
    promises, that means that the kernel calls a function of a module that is
    not loaded any more; [code_runs_after_unload] exhibits it on every kernel
    that grants the registrations. *)

From stdpp Require Import relations.
From S2P Require Import Prelude Kernel Prog CString Threads Ownership Modules Interleave Wirings.
From S2P Require Irq Timer.

#[local] Open Scope Z_scope.

(** ** The modules and their entries *)

Inductive deferred_op := TakeInterrupt | RunTasklet.
Definition irq_tasklet : kmodule := {|
  km_state := Irq.IrqTasklet.state; km_start := fun _ => True;
  km_init := Irq.IrqTasklet.my_init; km_exit := Irq.IrqTasklet.my_exit;
  km_handler := fun o => match o with
    | TakeInterrupt => Irq.IrqTasklet.my_interrupt ;; skip
    | RunTasklet => Irq.IrqTasklet.t_func
    end |}.

Inductive delayed_op := DelayedInterrupt | DelayedTasklet | DelayedWork.
Definition irq_delayed : kmodule := {|
  km_state := Irq.IrqDelayed.state; km_start := fun _ => True;
  km_init := Irq.IrqDelayed.my_init; km_exit := Irq.IrqDelayed.my_exit;
  km_handler := fun o => match o with
    | DelayedInterrupt => Irq.IrqDelayed.my_interrupt ;; skip
    | DelayedTasklet => Irq.IrqDelayed.t_func
    | DelayedWork => Irq.IrqDelayed.w_func
    end |}.

Inductive timer_op := TimerWrite (lbuf : Z) | TimerFires (ptr : Z).
Definition timer_drv (HZ : Z) : kmodule := {|
  km_state := Timer.TimerDrv.state; km_start := fun _ => True;
  km_init := Timer.TimerDrv.my_init; km_exit := Timer.TimerDrv.my_exit;
  km_handler := fun o => match o with
    | TimerWrite lbuf => Timer.TimerDrv.my_write HZ lbuf ;; skip
    | TimerFires ptr => Timer.TimerDrv.my_timer_function ptr
    end |}.

(** The tasklet can run once it is scheduled; [cancel_work] is not called, but
    [destroy_workqueue] waits for the work item. *)
Definition chrdev_gate : event -> Z := entry_gate (fun x => if x is RChrdev _ _ then true else false).
#[export] Instance irq_tasklet_wiring : Wiring irq_tasklet :=
  open_to_all _ (fun e => line_gate e + tasklet_gate e).
#[export] Instance irq_delayed_wiring : Wiring irq_delayed :=
  open_to_all _ (fun e => line_gate e + tasklet_gate e).
#[export] Instance timer_drv_wiring HZ : Wiring (timer_drv HZ) :=
  open_to_all _ (fun e => chrdev_gate e + timer_gate e).

(** ** Runs *)

(** A step during which the module is not loaded: neither [my_init] nor [my_exit]
    runs, so that a kernel call can only be one of a handler. *)
Definition step_while_out (K : kernel) (m : kmodule) `{W : !Wiring m} (a b : place m * history)
  : Prop := one_step K m a b /\ pl_phase m a.1 = Out m /\ pl_phase m b.1 = Out m.

(** The module is loaded, is unloaded, and then, without being loaded again, its
    code makes a call. *)
Definition runs_after_unload (K : kernel) (m : kmodule) `{W : !Wiring m} (s0 : km_state m) : Prop :=
  exists x h x1 h1 x2 h2,
    rtc (one_step K m) (Place m (Out m) s0 0 [], []) (x, h) /\ pl_phase m x = Live m /\
    rtc (one_step K m) (x, h) (x1, h1) /\ pl_phase m x1 = Out m /\
    rtc (step_while_out K m) (x1, h1) (x2, h2) /\ (length h1 < length h2)%nat.

(** A module that keeps the interface of [Interleave] does not: nothing of it can
    start or go on while it is out. *)
Lemma idle_stays K m `{W : !Wiring m} a b :
  step_while_out K m a b -> pl_gate m a.1 <= 0 -> finished (pl_hs m a.1) ->
  pl_gate m b.1 <= 0 /\ finished (pl_hs m b.1) /\ b.2 = a.2.
Proof.
  destruct a as [x h], b as [x' h']. intros (Hst & Ha & Hb). unfold one_step in Hst. simpl in *.
  intros Hn Hf. destruct Hst as [| | | |ph s n hs h o Hpos _|ph s n hs h i R c k r Hi _ _
    |ph s n hs h i p p' s' Hi Hset| | |]; simpl in *; try done; try lia.
  - by apply (Forall_lookup_1 _ _ _ _ Hf) in Hi.
  - pose proof (Forall_lookup_1 _ _ _ _ Hf Hi) as ->. simpl in Hset. simplify_eq.
    by rewrite list_insert_id.
Qed.
Lemma component_stops K m (C : Component K m) s0 :
  ~ runs_after_unload K m (W := cp_wiring K) s0.
Proof.
  intros (x & h & x1 & h1 & x2 & h2 & H0 & _ & H1 & Hout & H2 & Hl).
  assert (exists R, place_inv K m x1 R /\ holds [] h1 (R ++ [])) as (R & HR & _).
  { assert (rtc (one_step K m) (Place m (Out m) s0 0 [], []) (x1, h1)) as Hr by (by etrans).
    assert (forall a b, rtc (one_step K m) a b ->
      (exists R, place_inv K m a.1 R /\ holds [] a.2 (R ++ [])) ->
      exists R, place_inv K m b.1 R /\ holds [] b.2 (R ++ [])) as Hinv.
    { intros a b Hab. induction Hab as [|a b c Hab _ IH]; [done|]. intros (R & HR & HL). apply IH.
      by eapply place_step_inv. }
    apply (Hinv _ _ Hr). exists []. split; [|by apply holds_of_held].
    apply place_inv_fresh; [done|done|by apply Forall_nil]. }
  destruct (place_inv_out K m x1 R HR Hout) as (_ & Hn & Hf).
  assert (forall a b, rtc (step_while_out K m) a b -> pl_gate m a.1 <= 0 ->
    finished (pl_hs m a.1) -> b.2 = a.2) as Hstill.
  { intros a b Hab. induction Hab as [|a b c Hab _ IH]; [done|]. intros Hna Hfa.
    destruct (idle_stays K m a b Hab Hna Hfa) as (Hnb & Hfb & <-). by apply IH. }
  specialize (Hstill _ _ H2 Hn Hf). simpl in Hstill. subst h2. lia.
Qed.

(** A kernel that gives the same answer to the same call. *)
Definition steady (ans : forall R : Set, kcall R -> R) : kernel := fun R _ c => ans R c.

Section runs.
Context (ans : forall R : Set, kcall R -> R).
Context (grant_irq : forall i n c, ans _ (Request_irq i n c) = 0).
Context (grant_major : forall n, 0 <= ans _ (Register_chrdev 0 n)).
Abbreviation K := (steady ans).

Lemma line_opened i n c : line_gate (Ev (Request_irq i n c) (ans _ (Request_irq i n c))) = 1.
Proof. unfold line_gate, entry_gate. simpl. by rewrite grant_irq. Qed.

Lemma major_opened n :
  chrdev_gate (Ev (Register_chrdev 0 n) (ans _ (Register_chrdev 0 n))) = 1.
Proof.
  unfold chrdev_gate, entry_gate. simpl.
  by rewrite (proj2 (Z.ltb_ge _ 0) (grant_major n)).
Qed.

Ltac entry_open :=
  unfold steady; simpl; rewrite ?line_opened, ?major_opened; unfold line_gate, chrdev_gate, entry_gate; simpl; lia.
Ltac start_now op := by_step ltac:(apply st_start with (o := op); [entry_open|done]).
Ltac load_call := main_now ltac:(apply st_load).
Ltac load_local := local_now ltac:(apply st_load).
Ltac unload_call := main_now ltac:(apply st_unload).
Ltac unload_local := local_now ltac:(apply st_unload).
Ltac loaded := by_step ltac:(by apply st_loaded).
Ltac rmmod := by_step ltac:(by apply st_rmmod).
Ltac unloaded := by_step ltac:(apply st_unloaded); apply rtc_refl.
Ltac while_out tac :=
  eapply (rtc_l _ _ (_, _)); [split_and!; [unfold one_step; cbn [fst snd]; tac|reflexivity..]|].
Ltac start_out op := while_out ltac:(apply st_start with (o := op); [entry_open|done]).
Ltac local_out j := while_out ltac:(eapply st_local with (i := j); [reflexivity|reflexivity]).
Ltac call_out j := while_out ltac:(eapply st_call with (i := j); [reflexivity|answer_now|try done]).

(** An interrupt schedules the tasklet, the line is freed, the module is gone,
    and the tasklet runs. *)
Lemma irq_tasklet_after_unload s0 : runs_after_unload K irq_tasklet s0.
Proof.
  eexists _, _, _, _, _, _. split_and!.
  - by_step ltac:(by apply st_insmod with (s0 := s0)). load_local. load_call.
    start_now TakeInterrupt. handler_local 0%nat.
    handler_call 0%nat. handler_local 0%nat. (* jiffies *)
    handler_call 0%nat. handler_local 0%nat. (* tasklet_schedule *)
    handler_call 0%nat. (* mdelay *)
    load_call. loaded. apply rtc_refl.
  - done.
  - rmmod. unload_local.
    unload_call. unload_local. unload_call. unloaded.
  - done.
  - start_out RunTasklet. local_out 1%nat. call_out 1%nat. apply rtc_refl.
  - simpl. lia.
Qed.

Lemma irq_delayed_after_unload s0 : runs_after_unload K irq_delayed s0.
Proof.
  eexists _, _, _, _, _, _. split_and!.
  - by_step ltac:(by apply st_insmod with (s0 := s0)). load_call. load_local. load_call.
    start_now DelayedInterrupt. handler_local 0%nat.
    handler_call 0%nat. handler_local 0%nat. (* jiffies *)
    handler_call 0%nat. handler_local 0%nat. (* tasklet_schedule *)
    handler_call 0%nat. handler_local 0%nat. (* queue_work *)
    handler_call 0%nat. (* mdelay *)
    start_now DelayedWork. handler_local 1%nat.
    handler_call 1%nat. handler_call 1%nat. (* jiffies, printk *)
    load_call. loaded. apply rtc_refl.
  - done.
  - rmmod. unload_local.
    unload_call. unload_local. unload_call. unload_call. unloaded.
  - done.
  - start_out DelayedTasklet. local_out 2%nat. call_out 2%nat. apply rtc_refl.
  - simpl. lia.
Qed.

(** A write arms the timer. *)
Lemma timer_drv_after_unload HZ (s0 : Timer.TimerDrv.state) :
  runs_after_unload K (timer_drv HZ) s0.
Proof.
  eexists _, _, _, _, _, _. split_and!.
  - by_step ltac:(by apply st_insmod with (s0 := s0)). load_call. load_local. loaded.
    start_now (TimerWrite 1).
    handler_call 0%nat. handler_call 0%nat. handler_call 0%nat. (* current, printk, init_timer *)
    handler_call 0%nat. handler_local 0%nat. (* jiffies *)
    handler_call 0%nat. handler_call 0%nat. handler_call 0%nat. handler_local 0%nat.
    apply rtc_refl.
  - done.
  - rmmod. unload_local. unload_call. unloaded.
  - done.
  - start_out (TimerFires (u64 (Timer.TimerDrv.len s0))). call_out 1%nat. apply rtc_refl.
  - simpl. lia.
Qed.
End runs.

(** ** Properties *)


